(* ===== verification/_CoqProject ===== *)
-Q . S2P
Prelude.v
Prog.v
Serial.v
Cpu.v
Kernel.v
Crc32.v
Runtime32.v
Block.v
Partition.v
PartitionRef.v
Health.v
Elf64.v
FwUpdate.v
Fat32.v
Fat32Paths.v
Config.v
Slots.v
Memory.v
Paging.v
KernelLoad.v
Stage2Health.v
HealthCtl.v
Stage2Boot.v
Bounce.v
Protocol.v
Stage2.v
Efi.v
EfiMock.v
UefiPaging.v
UefiLoad.v
UefiKernel.v
UefiInfo.v
UefiMain.v
Boots.v
Lifecycle.v
