(* ===== verification/Prelude.v ===== *)
(** * JoshBIOS boot stack: a verification library

    JoshBIOS boots a 64-bit kernel from a FAT32 partition, keeps a record of
    boot health so that a bad update is rolled back, and updates its firmware
    in two slots.  This library models the C code of that stack and proves it
    correct.

    ** The program and its parts

    The legacy path starts in assembly (boot/stage1.S, boot/stage2.S), which
    fills a few variables and calls [stage2_pm_main] of boot/stage2_pm.c in
    protected mode.  That program reads sectors through BIOS calls
    (boot/bios_block.S), finds the boot partition (boot/core/partition.c),
    mounts it (boot/core/fat32.c), parses /boot/josh/boot.cfg
    (boot/core/config.c), loads the health record from two raw sectors and
    counts an attempt (boot/core/health.c), stages the first usable kernel
    among the current, previous and recovery ones, validates and loads it
    (boot/elf64.c), fills the boot information (boot/protocol.h), builds page
    tables and jumps.  The UEFI path is one program, [efi_main] of
    boot/uefi/main.c: it reads the configuration and the kernel through the
    firmware's file services, keeps the health record in a firmware variable,
    and then goes the same way with the firmware's allocator, graphics mode and
    memory map.  The proof kernel (kernel/kernel.c) checks the boot information
    and reports on the screen and the serial port; the host tool
    tools/josh-healthctl.c edits the health sectors of a disk image.

    The core components know nothing of the BIOS: they see a
    [josh_block_device_t] with a read callback (boot/core/block.h).  The
    firmware update engine (firmware/update.c) is separate and drives a flash
    chip through callbacks.

    ** Files

    - Prelude: results and checked reads, [u8] to [u64], little-endian fields,
      tactics, the hint database [josh] and the generic lemmas.
    - Prog: the monad [prog] of programs over a machine state, and the rules of
      the total-correctness judgement [runs].
    - Serial: the three serial drivers (boot/stage2_pm.c, boot/uefi/main.c,
      kernel/serial.c) over a 16550.
    - Cpu: [cpu_has_cpuid], [cpuid] and [cpu_has_long_mode] of
      boot/stage2_pm.c over EFLAGS, with a record of the flags loaded and of the
      CPUID instructions executed.
    - Kernel: kernel/kernel.c and kernel/bootinfo.h.
    - Crc32: the three CRC-32 routines of the repository, one Module each.
    - Runtime32: boot/runtime32.c.
    - Block: boot/core/block.h; the class [JoshBlockDevice] is what the
      clients rely on of a read callback.
    - Partition: boot/core/partition.c; PartitionRef: the reference it is
      compared with.
    - Health: boot/core/health.c.            - Config: boot/core/config.c.
    - Elf64: boot/elf64.c.                   - FwUpdate: firmware/update.c.
    - Fat32: boot/core/fat32.c; Fat32Paths: what makes mounting and opening a
      path succeed.
    - Memory: physical memory and the byte loops of boot/stage2_pm.c.
    - Paging: [build_page_tables].           - KernelLoad: [load_elf].
    - Slots: what both loaders share of the kernel slots and fallbacks.
    - Stage2Health: the health sectors ([health_read_copy],
      [health_write_copy], [health_load], [health_persist]), the [machine] of
      stage 2 and the class [BiosDisk].
    - HealthCtl: tools/josh-healthctl.c.
    - Stage2Boot: [bios_block_read_bounced], [read_kernel_candidate] and
      [load_kernel_file].
    - Bounce: [bios_block_read_bounced] on memory, with its buffer at 0x60000.
    - Protocol: boot/protocol.h.
    - Stage2: the table scans, [fill_boot_info] and [stage2_pm_main].
    - Efi: boot/uefi/efi.h, the state of the UEFI loader and the class
      [UefiFirmware]; EfiMock: a firmware that satisfies it and runs.
    - UefiPaging: [map4k] and the tables of [build_tables].
    - UefiLoad: the files, the health variable, [load_files].
    - UefiKernel: [alloc_low] and [load_elf].
    - UefiInfo: [find_table], [fill_meta], [fill_fb], [capture_map].
    - UefiMain: [build_tables] with the stack, and [efi_main].
    - Boots: the two loaders over many boots, behind the class [BootLoader].
    - Lifecycle: runs of the host tool and boots in any order on one disk image.

    Definitions carry the names of the C functions and types; the body of a C
    loop is a definition named after it ([read_loop], [candidate_loop], ...).

    ** How C is modelled

    Integers are [Z] with the wrap-around of their width written out ([u32],
    [u64]) where the code computes; well-formedness predicates keep values in
    range.  A buffer is the list of bytes from the pointer on and a pointer that may be
    null an [option].  A read or write outside a buffer is [None] or [Stuck], so
    every theorem that gives a result is also a memory-safety theorem.  A
    function returns its status with the pointees it may have changed.  Stage 2
    works on absolute addresses: memory is a function from addresses to bytes,
    the loops store byte by byte, and [load_elf] parses the image again from the
    memory its own copies have changed, as the code does.  Local variables are
    not in that memory.  Stage2Boot takes the bytes a bounced read delivers and
    leaves the buffer at 0x60000 out of its memory; Bounce runs the read on memory and
    justifies that.  A message on the serial port is an entry in a log, without its
    line end, and [serial_init] leaves no entry there (Serial has the drivers); a halt
    and the jump to the kernel are outcomes.

    ** What is assumed

    Nothing is an axiom.  The code outside the repository's C files is a
    parameter with a contract, and every contract has an instance in the file
    that states it or uses it first:
    - [JoshBlockDevice]: a successful read returns that many sectors of bytes.
      It is discharged for the BIOS device of stage 2 by [bios_device_ok].
    - [BiosDisk]: a read stays in its buffer and a successful one fills it; a
      write to a sector, failed or not, changes no other sector.
    - [disk_holds] (the theorem on bounced reads): a call that succeeds returns the
      sectors it was asked for, in order.
    - [torn_write_detected] (power-fail theorems only): an interrupted write
      leaves the old sector, the new one, or no valid record.
      [corruption_is_detected] is the argument for it on short bursts.
    - [writes_work] and [stores_work] (the theorems on what many boots do):
      writing a health sector, or setting the variable, succeeds.
    - [restarts]: a power cycle keeps the volume and the non-volatile variable.
    - [FlashBackend]: an operation on a slot leaves the others alone and a
      successful read returns what the slot holds; erase and write may do
      anything to their own slot and fail at any time.
    - [UefiFirmware]: allocations are new and aligned, a handle reads its file,
      a buffer is not overrun, a variable is replaced or left alone; every
      service may fail at every call.  [reliable] and [willing] say, where a
      theorem needs it, that those the loader calls do not.  [tables_ok]: the system table has as many
      entries as it says.
    - the C streams of the host tool: any call may stop after any number of
      bytes; the UART of Serial: it becomes ready in the end, at every byte.
    - the processor: the EFLAGS bits POPFD can change and the answers of CPUID
      (record [processor] of Cpu), and the page walk [translate] that the page
      tables are compared with.

    ** What the theorems show

    - Stage 2 as a whole: it always ends, it hands over whenever there is
      something to boot ([bootable]), and at the handoff the page tables
      show the kernel the boot plan names (Stage2); the loader implements that
      plan, touches only its buffers and the two health sectors, and keeps the
      health protocol across failing writes (Stage2Boot, Stage2Health); the
      segment copies and the tables are exact (KernelLoad, Paging).
    - The UEFI loader as a whole: it returns an error or jumps, it jumps
      whenever it can ([uefi_bootable]), and at the jump
      tables, kernel, boot information and memory map are as promised and the
      map is the one whose key ended boot services (UefiMain, UefiPaging,
      UefiInfo); it boots what a plan computed from the volume and the variable
      names, gives back what it takes and keeps the health record (UefiLoad).
    - Many boots: with either loader, boots in a row start the kernels and leave
      the record that [boot_step], the abstract step of the record, gives; hence an
      unconfirmed update is rolled back after its attempts and a slot without a
      kernel is left for good.  When writes may fail at any point the BIOS loader
      still goes from record to record along the protocol (Boots).  With the host tool in between, an update that is
      confirmed is kept and one that is not is dropped; a command the tool refuses, an
      update of the recovery slot, changes nothing (Lifecycle).
    - The host tool: a change it reports as done is what the loader then reads,
      and its exit codes tell the failures apart (HealthCtl).  The kernel
      reports a contract violation exactly when there is one, and the drivers
      send every byte of a message in order (Kernel, Serial).
    - FAT32: mounting succeeds exactly for a boot sector that describes a
      FAT32 layout inside the partition, opening a path succeeds exactly when the
      directories resolve it by the layout of directory entries, 8.3 names and FAT
      entries on disk, a read returns the bytes of the cluster chain from any offset and
      refuses one behind the end, and
      nothing depends on a sector outside the partition.
    - ELF64: acceptance is equivalent to a declarative definition of a
      well-formed image, and the segments handed out are the disjoint ones it
      describes.
    - Configuration: the index loops refine a grammar that splits the text in
      lines, what parses is well formed, and rendering round-trips.
    - Partitions: the search agrees with a reference over the lists of table
      entries, what it finds lies in the device, and ranges reported unallocated are disjoint from the boot partition.
    - Health and firmware updates: invariants over all interleavings of
      operations, bounded trials that end in rollback, anti-rollback, and the
      active slot never being written.
    - Shared routines: the CRC implementations agree and detect bursts, the
      64-bit division is the Euclidean one, the byte loops do what they say, a
      bounced read delivers the sectors of the disk in order, the processor check asks for what the
      manual requires, inverts no flag but the identification flag and leaves EFLAGS as it was.

    ** Loop bounds

    Loops with a counter recurse on the number of iterations left.  The others
    have fuel, and a lemma that it is enough: the cluster loops of FAT32 run at
    most two times more than there are clusters because the code counts them, the parser loops
    at most once per character, [bounced_loop] and [bounce_loop] at most once per sector,
    [verify_loop] at most once per byte, the table scans at most 8192 times.
    The candidate loops have the bound three of the code, the loops over a
    colour mask run once per bit, [capture_loop] once per descriptor.

    ** Not modelled, and what comes next

    Assembly (the .S files of boot and kernel), the port instructions and the
    mode switches: they appear as parameters, as events or as the outcome of a
    program.  The flags that compiled code changes between the inline assembly
    statements of [cpu_has_cpuid] are not followed.  The message log of a loader
    is not tied byte by byte to the drivers of Serial.  The coreboot scripts and
    the tests have no target code.  The record format of kernel/bootinfo.h is
    the one of the assembly path, not that of boot/protocol.h, so the proof
    kernel and the loaders of this library do not meet.  Next: the drivers of
    Serial below the logs of the loaders, and firmware updates interrupted by
    power loss in the middle of a sequence of boots. *)
From stdpp Require Export base list numbers strings sets.
From Stdlib Require Export ZArith Lia.

Declare Scope c_scope.
Delimit Scope c_scope with c.
#[global] Open Scope Z_scope.

(** ** Outcomes of C functions

    [Ok] is the success status together with the values the function stores
    through its out-parameters, [Err] any other status, and [Stuck] is
    undefined behaviour (an out-of-range access) or an exhausted loop bound:
    the theorems that exclude [Stuck] are the memory-safety and termination
    theorems of the development. *)
Inductive res (E A : Type) : Type :=
| Ok (a : A)
| Err (e : E)
| Stuck.
Arguments Ok {E A} a.
Arguments Err {E A} e.
Arguments Stuck {E A}.

Definition res_bind {E A B : Type} (m : res E A) (k : A -> res E B) : res E B :=
  match m with
  | Ok a => k a
  | Err e => Err e
  | Stuck => Stuck
  end.

(** A checked memory access inside a function with result type [res]. *)
Definition need {E A : Type} (o : option A) : res E A :=
  match o with
  | Some a => Ok a
  | None => Stuck
  end.

Notation "'let*' x := m 'in' k" := (res_bind m (fun x => k))
  (at level 10, x pattern, m at level 100, k at level 200) : c_scope.
Notation "'load' x := o 'in' k" := (res_bind (need o) (fun x => k))
  (at level 10, x pattern, o at level 100, k at level 200) : c_scope.
Notation "'let?' x := o 'in' k" :=
  (match o with Some x => k | None => None end)
  (at level 10, x pattern, o at level 100, k at level 200) : c_scope.
#[global] Open Scope c_scope.

(** ** Machine words *)
Definition u8 (z : Z) : Z := z mod 2 ^ 8.
Definition u16 (z : Z) : Z := z mod 2 ^ 16.
Definition u32 (z : Z) : Z := z mod 2 ^ 32.
Definition u64 (z : Z) : Z := z mod 2 ^ 64.

Definition in_u8 (z : Z) : Prop := 0 <= z < 2 ^ 8.
Definition in_u16 (z : Z) : Prop := 0 <= z < 2 ^ 16.
Definition in_u32 (z : Z) : Prop := 0 <= z < 2 ^ 32.
Definition in_u64 (z : Z) : Prop := 0 <= z < 2 ^ 64.

Abbreviation bytes := (Forall in_u8).

(** ** Byte buffers *)

(** The length of a buffer as the integer the code compares against. *)
Definition zlen {A : Type} (l : list A) : Z := Z.of_nat (length l).

(** [p[i]]: defined only inside the buffer. *)
Definition get8 (buf : list Z) (i : Z) : option Z :=
  if i <? 0 then None else buf !! Z.to_nat i.

(** The [len] bytes at [p + off], defined only inside the buffer. *)
Definition slice (buf : list Z) (off len : Z) : option (list Z) :=
  if (0 <=? off) && (0 <=? len) && (off + len <=? zlen buf)
  then Some (take (Z.to_nat len) (drop (Z.to_nat off) buf))
  else None.

(** The text of a C string literal, without its terminating zero. *)
Definition chars (s : string) : list Z :=
  map (fun a => Z.of_N (Ascii.N_of_ascii a)) (String.list_ascii_of_string s).
Arguments chars s%_string.

(** The text a C character array holds: the bytes before the first zero. *)
Fixpoint c_str (buf : list Z) : list Z :=
  match buf with
  | [] => []
  | c :: rest => if c =? 0 then [] else c :: c_str rest
  end.

(** ** Little-endian integers *)
Fixpoint le_value (l : list Z) : Z :=
  match l with
  | [] => 0
  | b :: l' => b + 2 ^ 8 * le_value l'
  end.

Fixpoint le_bytes (n : nat) (v : Z) : list Z :=
  match n with
  | O => []
  | S n' => u8 v :: le_bytes n' (v / 2 ^ 8)
  end.

(** The shift-and-or readers the code writes out for 16, 32 and 64 bits. *)
Definition rd16 (buf : list Z) (off : Z) : option Z :=
  let? p0 := get8 buf off in
  let? p1 := get8 buf (off + 1) in
  Some (Z.lor p0 (Z.shiftl p1 8)).

Definition rd32 (buf : list Z) (off : Z) : option Z :=
  let? p0 := get8 buf off in
  let? p1 := get8 buf (off + 1) in
  let? p2 := get8 buf (off + 2) in
  let? p3 := get8 buf (off + 3) in
  Some (Z.lor (Z.lor (Z.lor p0 (Z.shiftl p1 8)) (Z.shiftl p2 16)) (Z.shiftl p3 24)).

Definition rd64 (buf : list Z) (off : Z) : option Z :=
  let? lo := rd32 buf off in
  let? hi := rd32 buf (off + 4) in
  Some (Z.lor lo (Z.shiftl hi 32)).

(** ** Automation *)
Create HintDb josh.
Create Rewrite HintDb joshrw.

(** Arithmetic with division and remainder by constants. *)
Ltac zdm := Z.to_euclidean_division_equations; lia.

(** Unfold the range predicates and finish with [lia]. *)
Ltac word := unfold in_u8, in_u16, in_u32, in_u64, u8, u16, u32, u64, zlen in *; lia.

(** Split the first conditional, match or bind of a hypothesis. *)
Ltac step H :=
  match type of H with
  | context [res_bind (need ?o) _] =>
      let E := fresh "E" in destruct o eqn:E; cbn [res_bind need] in H
  | context [res_bind ?m _] =>
      let E := fresh "E" in destruct m eqn:E; cbn [res_bind need] in H
  | context [if ?b then _ else _] =>
      let E := fresh "E" in destruct b eqn:E; cbn [res_bind need] in H
  | context [match ?x with _ => _ end] =>
      let E := fresh "E" in destruct x eqn:E; cbn [res_bind need] in H
  end.

Ltac steps H := repeat (step H; try discriminate H).

(** ** Lemmas on words *)
Lemma u8_range z : in_u8 (u8 z).
Proof. apply Z.mod_pos_bound. lia. Qed.
Lemma u16_range z : in_u16 (u16 z).
Proof. apply Z.mod_pos_bound. lia. Qed.
Lemma u32_range z : in_u32 (u32 z).
Proof. apply Z.mod_pos_bound. lia. Qed.
Lemma u64_range z : in_u64 (u64 z).
Proof. apply Z.mod_pos_bound. lia. Qed.

Lemma u8_id z : in_u8 z -> u8 z = z.
Proof. apply Z.mod_small. Qed.
Lemma u16_id z : in_u16 z -> u16 z = z.
Proof. apply Z.mod_small. Qed.
Lemma u32_id z : in_u32 z -> u32 z = z.
Proof. apply Z.mod_small. Qed.
Lemma u64_id z : in_u64 z -> u64 z = z.
Proof. apply Z.mod_small. Qed.

#[export] Hint Resolve u8_range u16_range u32_range u64_range : josh.
#[export] Hint Rewrite u8_id u16_id u32_id u64_id using (first [assumption | word]) : joshrw.

Lemma testbit_small a n i : 0 <= a < 2 ^ n -> n <= i -> Z.testbit a i = false.
Proof.
  intros Ha Hi. destruct (Z.eq_dec a 0) as [->|Hne]; [apply Z.bits_0|].
  assert (Hn : 0 <= n) by (destruct (Z.le_gt_cases 0 n); [done|rewrite Z.pow_neg_r in Ha; lia]).
  apply Z.bits_above_log2; [lia|].
  apply Z.log2_lt_pow2; [lia|]. apply Z.lt_le_trans with (2 ^ n); [lia|].
  apply Z.pow_le_mono_r; lia.
Qed.

Lemma lor_shiftl_add a b n :
  0 <= n -> 0 <= a < 2 ^ n -> Z.lor a (Z.shiftl b n) = a + 2 ^ n * b.
Proof.
  intros Hn Ha.
  assert (Hz : Z.land a (Z.shiftl b n) = 0).
  { apply Z.bits_inj'. intros i Hi. rewrite Z.land_spec, Z.bits_0.
    destruct (Z.lt_ge_cases i n).
    - by rewrite Z.shiftl_spec_low, andb_false_r.
    - by rewrite (testbit_small a n i). }
  pose proof (Z.add_lor_land a (Z.shiftl b n)) as H.
  rewrite Hz, Z.shiftl_mul_pow2 in H by lia. rewrite Z.shiftl_mul_pow2 in * by lia. lia.
Qed.

(** ** Lemmas on buffers *)
Lemma get8_Some buf i : 0 <= i < zlen buf -> exists b, get8 buf i = Some b.
Proof.
  intros Hi. unfold get8. rewrite (proj2 (Z.ltb_ge i 0)) by lia.
  apply lookup_lt_is_Some. word.
Qed.

Lemma get8_inv buf i b : get8 buf i = Some b -> 0 <= i < zlen buf.
Proof.
  unfold get8. destruct (i <? 0) eqn:E; [done|]. intros H%lookup_lt_Some. word.
Qed.

Lemma get8_byte buf i b : bytes buf -> get8 buf i = Some b -> in_u8 b.
Proof.
  unfold get8. destruct (i <? 0); [done|]. intros Hb H. eapply Forall_lookup_1; eauto.
Qed.

Lemma get8_app_r a l i : get8 (a ++ l) (zlen a + i) = if i <? 0 then get8 (a ++ l) (zlen a + i) else get8 l i.
Proof.
  destruct (i <? 0) eqn:E; [done|]. unfold get8.
  rewrite E, (proj2 (Z.ltb_ge (zlen a + i) 0)) by word.
  rewrite lookup_app_r by word. f_equal. word.
Qed.

Lemma get8_app a l j : get8 (a ++ l) j = if j <? zlen a then get8 a j else get8 l (j - zlen a).
Proof.
  unfold get8. destruct (j <? 0) eqn:E0.
  - assert (Hj : j < zlen a) by word. apply Z.ltb_lt in Hj. by rewrite Hj.
  - destruct (j <? zlen a) eqn:E1.
    + apply lookup_app_l. word.
    + replace (j - zlen a <? 0) with false by lia. rewrite lookup_app_r by word. f_equal. word.
Qed.

Lemma slice_Some buf off len :
  0 <= off -> 0 <= len -> off + len <= zlen buf ->
  slice buf off len = Some (take (Z.to_nat len) (drop (Z.to_nat off) buf)).
Proof.
  intros. unfold slice.
  rewrite (proj2 (Z.leb_le 0 off)), (proj2 (Z.leb_le 0 len)), (proj2 (Z.leb_le _ (zlen buf))) by lia.
  done.
Qed.

Lemma slice_inv buf off len s :
  slice buf off len = Some s ->
  0 <= off /\ 0 <= len /\ off + len <= zlen buf /\ zlen s = len /\
  s = take (Z.to_nat len) (drop (Z.to_nat off) buf).
Proof.
  unfold slice. destruct (_ && _) eqn:E; [|done]. intros [= <-].
  repeat split; try lia. unfold zlen. rewrite length_take, length_drop. word.
Qed.

Lemma bytes_take n (l : list Z) : bytes l -> bytes (take n l).
Proof. apply Forall_take. Qed.
Lemma bytes_drop n (l : list Z) : bytes l -> bytes (drop n l).
Proof. apply Forall_drop. Qed.
#[export] Hint Resolve bytes_take bytes_drop : josh.

Lemma slice_bytes buf off len s : bytes buf -> slice buf off len = Some s -> bytes s.
Proof. intros Hb (_&_&_&_&->)%slice_inv. auto with josh. Qed.

(** ** Lemmas on little-endian integers *)
(** The test of one bit, as C writes it. *)
Lemma bit_set_iff a n : 0 <= n -> negb (Z.land a (Z.shiftl 1 n) =? 0) = Z.testbit a n.
Proof.
  intros Hn. destruct (Z.testbit a n) eqn:E.
  - apply negb_true_iff, Z.eqb_neq. intros H0. pose proof (f_equal (fun z => Z.testbit z n) H0) as Hb. cbv beta in Hb.
    rewrite Z.land_spec, E, Z.shiftl_spec, Z.sub_diag, Z.bits_0 in Hb by lia. done.
  - apply negb_false_iff, Z.eqb_eq, Z.bits_inj'. intros i Hi. rewrite Z.land_spec, Z.bits_0, Z.shiftl_spec by lia.
    destruct (Z.eq_dec i n) as [->|Hne]; [by rewrite E|].
    replace (Z.testbit 1 (i - n)) with false; [by rewrite andb_false_r|]. symmetry.
    destruct (Z.lt_ge_cases i n); [by rewrite Z.testbit_neg_r by lia|]. change 1 with (2 ^ 0). apply Z.pow2_bits_false; lia.
Qed.

Lemma le_value_range l : bytes l -> 0 <= le_value l < 2 ^ (8 * zlen l).
Proof.
  induction 1 as [|b l Hb _ IH]; [unfold zlen; simpl; lia|].
  replace (8 * zlen (b :: l)) with (8 + 8 * zlen l) by (unfold zlen; simpl length; lia).
  rewrite Z.pow_add_r by word. cbn [le_value]. unfold in_u8 in Hb. nia.
Qed.

Lemma length_le_bytes n v : length (le_bytes n v) = n.
Proof. revert v. induction n; simpl; auto. Qed.

Lemma zlen_le_bytes n v : zlen (le_bytes n v) = Z.of_nat n.
Proof. unfold zlen. by rewrite length_le_bytes. Qed.

Lemma bytes_le_bytes n v : bytes (le_bytes n v).
Proof. revert v. induction n; simpl; constructor; auto with josh. Qed.
#[export] Hint Resolve bytes_le_bytes : josh.
#[export] Hint Rewrite length_le_bytes zlen_le_bytes : joshrw.

Lemma le_value_le_bytes n v : le_value (le_bytes n v) = v mod 2 ^ (8 * Z.of_nat n).
Proof.
  revert v. induction n as [|n IH]; intros v; [simpl; by rewrite Z.mod_1_r|].
  cbn [le_bytes le_value]. rewrite IH. unfold u8.
  replace (8 * Z.of_nat (S n)) with (8 + 8 * Z.of_nat n) by lia.
  rewrite Z.pow_add_r, Z.rem_mul_r by lia. lia.
Qed.

Lemma le_bytes_le_value l : bytes l -> le_bytes (length l) (le_value l) = l.
Proof.
  induction 1 as [|b l Hb _ IH]; [done|].
  cbn [length le_value le_bytes]. unfold u8, in_u8 in *.
  rewrite Z.mul_comm, Z.mod_add, Z.mod_small, Z.div_add, Z.div_small by lia.
  rewrite Z.add_0_l. by f_equal.
Qed.

Lemma le_value_inj l1 l2 :
  bytes l1 -> bytes l2 -> length l1 = length l2 -> le_value l1 = le_value l2 -> l1 = l2.
Proof.
  intros H1 H2 Hl Hv.
  rewrite <- (le_bytes_le_value l1), <- (le_bytes_le_value l2) by done. congruence.
Qed.

Lemma slice_get8 buf off len s k :
  slice buf off len = Some s -> 0 <= k < len -> get8 buf (off + k) = get8 s k.
Proof.
  intros (Ho&Hl&Hb&Hs&->)%slice_inv Hk. unfold get8.
  rewrite (proj2 (Z.ltb_ge (off + k) 0)), (proj2 (Z.ltb_ge k 0)) by lia.
  rewrite lookup_take_lt, lookup_drop by lia. f_equal. lia.
Qed.

Lemma slice_get8_0 buf off len s :
  slice buf off len = Some s -> 0 < len -> get8 buf off = get8 s 0.
Proof.
  intros Hs Hl. rewrite <- (Z.add_0_r off). apply (slice_get8 _ _ _ _ _ Hs). lia.
Qed.

Lemma slice_full (a l b : list Z) :
  slice (a ++ l ++ b) (zlen a) (zlen l) = Some l.
Proof.
  rewrite slice_Some; [|word..|unfold zlen; rewrite !length_app; lia].
  unfold zlen. rewrite !Nat2Z.id, drop_app_length, take_app_length. done.
Qed.

Ltac bytes_inv H :=
  repeat match type of H with
  | Forall _ (_ :: _) =>
      let H1 := fresh "Hb" in apply Forall_cons in H; destruct H as [H1 H]
  end.

Lemma rd16_slice buf off s :
  bytes buf -> slice buf off 2 = Some s -> rd16 buf off = Some (le_value s).
Proof.
  intros Hb Hs. pose proof (slice_bytes _ _ _ _ Hb Hs) as Hbs.
  pose proof (slice_inv _ _ _ _ Hs) as (_&_&_&Hl&_).
  destruct s as [|a [|b [|]]]; try (unfold zlen in Hl; simpl in Hl; lia).
  unfold rd16. rewrite (slice_get8_0 _ _ _ _ Hs), (slice_get8 _ _ _ _ 1 Hs) by lia.
  change (get8 [a; b] 0) with (Some a). change (get8 [a; b] 1) with (Some b).
  cbn [le_value].
  bytes_inv Hbs. unfold in_u8 in *.
  rewrite lor_shiftl_add by lia. f_equal. lia.
Qed.

Lemma rd32_slice buf off s :
  bytes buf -> slice buf off 4 = Some s -> rd32 buf off = Some (le_value s).
Proof.
  intros Hb Hs. pose proof (slice_bytes _ _ _ _ Hb Hs) as Hbs.
  pose proof (slice_inv _ _ _ _ Hs) as (_&_&_&Hl&_).
  destruct s as [|a [|b [|c [|d [|]]]]]; try (unfold zlen in Hl; simpl in Hl; lia).
  unfold rd32. rewrite (slice_get8_0 _ _ _ _ Hs), (slice_get8 _ _ _ _ 1 Hs),
    (slice_get8 _ _ _ _ 2 Hs), (slice_get8 _ _ _ _ 3 Hs) by lia.
  change (get8 [a; b; c; d] 0) with (Some a). change (get8 [a; b; c; d] 1) with (Some b).
  change (get8 [a; b; c; d] 2) with (Some c). change (get8 [a; b; c; d] 3) with (Some d).
  cbn [le_value].
  bytes_inv Hbs. unfold in_u8 in *.
  rewrite (lor_shiftl_add a b 8), (lor_shiftl_add _ c 16), (lor_shiftl_add _ d 24) by lia.
  f_equal. lia.
Qed.

Lemma slice_split buf off n m s :
  0 <= n -> 0 <= m -> slice buf off (n + m) = Some s ->
  exists s1 s2, slice buf off n = Some s1 /\ slice buf (off + n) m = Some s2 /\ s = s1 ++ s2.
Proof.
  intros Hn Hm (Ho&_&Hb&_&->)%slice_inv.
  rewrite !slice_Some by lia. eexists _, _. split; [done|]. split; [done|].
  rewrite (Z2Nat.inj_add n m), (Z2Nat.inj_add off n) by lia.
  by rewrite <- drop_drop, take_take_drop.
Qed.

Lemma le_value_app l1 l2 : le_value (l1 ++ l2) = le_value l1 + 2 ^ (8 * zlen l1) * le_value l2.
Proof.
  induction l1 as [|b l1 IH]; [change (8 * zlen []) with 0; simpl; lia|].
  replace (8 * zlen (b :: l1)) with (8 + 8 * zlen l1) by (unfold zlen; simpl length; lia).
  rewrite Z.pow_add_r by word. cbn [app le_value]. rewrite IH. nia.
Qed.

Lemma rd64_slice buf off s :
  bytes buf -> slice buf off 8 = Some s -> rd64 buf off = Some (le_value s).
Proof.
  intros Hb Hs. destruct (slice_split buf off 4 4 s) as (s1&s2&H1&H2&->); [lia..|done|].
  unfold rd64. rewrite (rd32_slice _ _ s1), (rd32_slice _ _ s2) by done.
  pose proof (le_value_range s1 (slice_bytes _ _ _ _ Hb H1)) as R1.
  pose proof (slice_inv _ _ _ _ H1) as (_&_&_&L1&_). rewrite L1 in R1.
  rewrite lor_shiftl_add, le_value_app, L1 by (simpl in *; lia). done.
Qed.

(** A reader succeeds exactly inside the buffer, with a value of its width. *)
Lemma rd16_ok buf off :
  bytes buf -> 0 <= off -> off + 2 <= zlen buf -> exists v, rd16 buf off = Some v /\ in_u16 v.
Proof.
  intros Hb Ho Hl. pose proof (slice_Some buf off 2 Ho ltac:(lia) Hl) as Hs.
  eexists. split; [by apply rd16_slice|].
  pose proof (le_value_range _ (slice_bytes _ _ _ _ Hb Hs)) as R.
  pose proof (slice_inv _ _ _ _ Hs) as (_&_&_&L&_). by rewrite L in R.
Qed.

Lemma rd32_ok buf off :
  bytes buf -> 0 <= off -> off + 4 <= zlen buf -> exists v, rd32 buf off = Some v /\ in_u32 v.
Proof.
  intros Hb Ho Hl. pose proof (slice_Some buf off 4 Ho ltac:(lia) Hl) as Hs.
  eexists. split; [by apply rd32_slice|].
  pose proof (le_value_range _ (slice_bytes _ _ _ _ Hb Hs)) as R.
  pose proof (slice_inv _ _ _ _ Hs) as (_&_&_&L&_). by rewrite L in R.
Qed.

Lemma rd64_ok buf off :
  bytes buf -> 0 <= off -> off + 8 <= zlen buf -> exists v, rd64 buf off = Some v /\ in_u64 v.
Proof.
  intros Hb Ho Hl. pose proof (slice_Some buf off 8 Ho ltac:(lia) Hl) as Hs.
  eexists. split; [by apply rd64_slice|].
  pose proof (le_value_range _ (slice_bytes _ _ _ _ Hb Hs)) as R.
  pose proof (slice_inv _ _ _ _ Hs) as (_&_&_&L&_). by rewrite L in R.
Qed.

Lemma rd16_inv buf off v : rd16 buf off = Some v -> 0 <= off /\ off + 2 <= zlen buf.
Proof.
  unfold rd16. intros H. steps H. apply get8_inv in E, E0. lia.
Qed.
Lemma rd32_inv buf off v : rd32 buf off = Some v -> 0 <= off /\ off + 4 <= zlen buf.
Proof.
  unfold rd32. intros H. steps H. apply get8_inv in E, E0, E1, E2. lia.
Qed.
Lemma rd64_inv buf off v : rd64 buf off = Some v -> 0 <= off /\ off + 8 <= zlen buf.
Proof.
  unfold rd64. intros H. steps H. apply rd32_inv in E, E0. lia.
Qed.

Lemma rd16_range buf off v : bytes buf -> rd16 buf off = Some v -> in_u16 v.
Proof.
  intros Hb H. pose proof (rd16_inv _ _ _ H) as [].
  destruct (rd16_ok buf off) as (w&Hw&?); [done..|]. by rewrite H in Hw; simplify_eq.
Qed.
Lemma rd32_range buf off v : bytes buf -> rd32 buf off = Some v -> in_u32 v.
Proof.
  intros Hb H. pose proof (rd32_inv _ _ _ H) as [].
  destruct (rd32_ok buf off) as (w&Hw&?); [done..|]. by rewrite H in Hw; simplify_eq.
Qed.
Lemma rd64_range buf off v : bytes buf -> rd64 buf off = Some v -> in_u64 v.
Proof.
  intros Hb H. pose proof (rd64_inv _ _ _ H) as [].
  destruct (rd64_ok buf off) as (w&Hw&?); [done..|]. by rewrite H in Hw; simplify_eq.
Qed.
#[export] Hint Resolve rd16_range rd32_range rd64_range get8_byte slice_bytes : josh.

(** ** Reading inside a slice *)
Lemma get8_sub buf off len s k :
  slice buf off len = Some s -> 0 <= k < len -> get8 s k = get8 buf (off + k).
Proof. intros. symmetry. by eapply slice_get8. Qed.

Lemma rd32_sub buf off len s k :
  slice buf off len = Some s -> 0 <= k -> k + 4 <= len -> rd32 s k = rd32 buf (off + k).
Proof.
  intros Hs Hk Hl. unfold rd32.
  rewrite (get8_sub _ _ _ _ k Hs), (get8_sub _ _ _ _ (k + 1) Hs), (get8_sub _ _ _ _ (k + 2) Hs),
    (get8_sub _ _ _ _ (k + 3) Hs) by lia.
  by rewrite !Z.add_assoc.
Qed.

Lemma rd64_sub buf off len s k :
  slice buf off len = Some s -> 0 <= k -> k + 8 <= len -> rd64 s k = rd64 buf (off + k).
Proof.
  intros Hs Hk Hl. unfold rd64.
  rewrite (rd32_sub _ _ _ _ k Hs), (rd32_sub _ _ _ _ (k + 4) Hs) by lia.
  by rewrite !Z.add_assoc.
Qed.

Lemma slice_sub buf off len s k m :
  slice buf off len = Some s -> 0 <= k -> 0 <= m -> k + m <= len ->
  slice s k m = slice buf (off + k) m.
Proof.
  intros (Ho&Hl&Hb&Hs&->)%slice_inv Hk Hm Hkm.
  rewrite !slice_Some by lia. f_equal.
  rewrite Z2Nat.inj_add by lia. rewrite <- drop_drop, skipn_firstn_comm, take_take. f_equal. lia.
Qed.

(** The [k]-th block of a concatenation of equal-sized blocks. *)
Lemma slice_concat (sz : Z) (ss : list (list Z)) (k : nat) s off len :
  (forall t, t ∈ ss -> zlen t = sz) -> ss !! k = Some s ->
  0 <= off -> 0 <= len -> off + len <= sz ->
  slice (concat ss) (sz * Z.of_nat k + off) len = slice s off len.
Proof.
  intros Hss Hk Ho Hl Hb. revert k Hk. induction ss as [|t ss IH]; intros k Hk; [done|].
  assert (Ht : zlen t = sz) by (apply Hss; set_solver). cbn [concat].
  destruct k as [|k]; simpl in Hk.
  - injection Hk as ->. rewrite Z.mul_0_r, Z.add_0_l.
    rewrite !slice_Some by (unfold zlen in *; rewrite ?length_app; lia). f_equal.
    unfold zlen in *. rewrite drop_app_le, take_app_le by (rewrite ?length_drop; lia). done.
  - rewrite <- (IH ltac:(set_solver) k Hk). unfold slice.
    replace (sz * Z.of_nat (S k) + off) with (zlen t + (sz * Z.of_nat k + off)) by lia.
    assert (Hn : 0 <= sz * Z.of_nat k + off) by (unfold zlen in *; nia).
    set (x := sz * Z.of_nat k + off) in *.
    assert (Hc : zlen (t ++ concat ss) = zlen t + zlen (concat ss))
      by (unfold zlen; rewrite length_app; lia).
    rewrite Hc. assert (0 <= zlen t) by word.
    replace ((0 <=? zlen t + x) && (0 <=? len) && (zlen t + x + len <=? zlen t + zlen (concat ss)))
      with ((0 <=? x) && (0 <=? len) && (x + len <=? zlen (concat ss))) by lia.
    destruct (_ && _); [|done]. do 2 f_equal. unfold zlen.
    replace (Z.to_nat (Z.of_nat (length t) + x)) with (length t + Z.to_nat x)%nat by lia.
    by rewrite drop_app_add.
Qed.

Lemma slice_take buf n off len :
  off + len <= Z.of_nat n -> Z.of_nat n <= zlen buf -> slice (take n buf) off len = slice buf off len.
Proof.
  intros Ho Hn. unfold slice.
  assert (zlen (take n buf) = Z.of_nat n) as -> by (unfold zlen in *; rewrite length_take; lia).
  replace (off + len <=? Z.of_nat n) with true by lia.
  replace (off + len <=? zlen buf) with true by lia.
  destruct (_ && _) eqn:E; [|done]. f_equal.
  rewrite skipn_firstn_comm, take_take. f_equal. lia.
Qed.

#[global] Arguments le_bytes : simpl never.
