(* ===== verification/Prog.v ===== *)
(** * Programs over a machine

    A program over a state [S] is a function that ends with a result and a new
    state, or has undefined behaviour ([None]: an access outside an object, the
    use of something that was released, an exhausted loop bound).  [runs p s Q]
    says that [p] ends from [s] with a result and a state in [Q]; the rules below
    let a proof follow the program text. *)
From S2P Require Import Prelude.

Definition prog (S A : Type) : Type := S -> option (A * S).
Definition ret {S A} (a : A) : prog S A := fun s => Some (a, s).
Definition bind {S A B} (p : prog S A) (k : A -> prog S B) : prog S B :=
  fun s => match p s with Some (a, s') => k a s' | None => None end.
Definition get {S} : prog S S := fun s => Some (s, s).
Definition modify {S} (f : S -> S) : prog S unit := fun s => Some (tt, f s).
Definition lift {S A} (o : option A) : prog S A := fun s => match o with Some a => Some (a, s) | None => None end.
Definition undefined {S A} : prog S A := fun _ => None.

Notation "'do' x <- p ; k" := (bind p (fun x => k)) (at level 20, x pattern, p at level 100, k at level 200) : c_scope.
Notation "'run' p ; k" := (bind p (fun _ => k)) (at level 20, p at level 100, k at level 200) : c_scope.

Lemma bind_run {S A B} (p : prog S A) (k : A -> prog S B) s a s' :
  p s = Some (a, s') -> bind p k s = k a s'.
Proof. intros H. unfold bind. by rewrite H. Qed.

(** ** Total correctness *)
Definition runs {S A} (p : prog S A) (s : S) (Q : A -> S -> Prop) : Prop :=
  exists a s', p s = Some (a, s') /\ Q a s'.

Section Rules.
Context {S : Type}.

Lemma runs_ret {A} (a : A) (s : S) (Q : A -> S -> Prop) : Q a s -> runs (ret a) s Q.
Proof. intros H. by exists a, s. Qed.

Lemma runs_bind {A B} (p : prog S A) (k : A -> prog S B) s (Q : B -> S -> Prop) :
  runs p s (fun a s' => runs (k a) s' Q) -> runs (bind p k) s Q.
Proof. intros (a & s' & Hp & b & s'' & Hk & HQ). exists b, s''. by rewrite (bind_run _ _ _ _ _ Hp). Qed.

Lemma runs_mono {A} (p : prog S A) s (P Q : A -> S -> Prop) :
  runs p s P -> (forall a s', P a s' -> Q a s') -> runs p s Q.
Proof. intros (a & s' & Hp & HP) H. exists a, s'. auto. Qed.

(** A call: what is known of the callee, then the continuation. *)
Lemma runs_call {A B} (p : prog S A) (k : A -> prog S B) s (P : A -> S -> Prop) (Q : B -> S -> Prop) :
  runs p s P -> (forall a s', P a s' -> runs (k a) s' Q) -> runs (bind p k) s Q.
Proof. intros Hp Hk. apply runs_bind. by eapply runs_mono. Qed.

Lemma runs_get {B} (k : S -> prog S B) s (Q : B -> S -> Prop) : runs (k s) s Q -> runs (bind get k) s Q.
Proof. intros H. exact H. Qed.

Lemma runs_modify {B} (f : S -> S) (k : unit -> prog S B) s (Q : B -> S -> Prop) :
  runs (k tt) (f s) Q -> runs (bind (modify f) k) s Q.
Proof. intros H. exact H. Qed.

Lemma runs_update (f : S -> S) s (Q : unit -> S -> Prop) : Q tt (f s) -> runs (modify f) s Q.
Proof. intros H. by exists tt, (f s). Qed.

Lemma runs_lift {A B} (a : A) (k : A -> prog S B) s (Q : B -> S -> Prop) :
  runs (k a) s Q -> runs (bind (lift (Some a)) k) s Q.
Proof. intros H. exact H. Qed.

(** What is known of a run holds of its result. *)
Lemma runs_inv {A} (p : prog S A) s (Q : A -> S -> Prop) a s' : runs p s Q -> p s = Some (a, s') -> Q a s'.
Proof. intros (a0 & s0 & Hp & HQ) H. rewrite Hp in H. by injection H as <- <-. Qed.
End Rules.

#[export] Hint Resolve runs_ret : josh.
