(* ===== verification/Serial.v ===== *)
(** * The serial port (boot/stage2_pm.c, boot/uefi/main.c, kernel/serial.c)

    Three drivers for the same UART.  [out8] and [in8] are single instructions;
    the device behind them is the register file of a 16550: the divisor latch
    shares its two ports with the transmit and interrupt-enable registers, and
    bit 7 of the line control register selects between them.  Reads of the line
    status register are answered by a stream; [responsive] says that the device
    is ready again within a bounded number of polls, which is the fuel of the
    polling loop.  The callers of [serial_write] are modelled with a log of
    messages: the theorem at the end is what stands behind that log. *)
From S2P Require Import Prelude Prog.

Definition COM1 : Z := 0x3f8.

(** ** The device *)
Record uart := {
  ua_divisor_low : Z;
  ua_divisor_high : Z;
  ua_interrupts : Z;
  ua_fifo : Z;
  ua_line : Z;
  ua_modem : Z;
  ua_sent : list Z;
  ua_polls : nat
}.

(** Bit 7 of the line control register: the latch is selected. *)
Definition latch_selected (u : uart) : bool := Z.testbit (ua_line u) 7.

Definition uart_write (offset v : Z) (u : uart) : uart :=
  let latch := latch_selected u in
  {| ua_divisor_low := if (offset =? 0) && latch then v else ua_divisor_low u;
     ua_divisor_high := if (offset =? 1) && latch then v else ua_divisor_high u;
     ua_interrupts := if offset =? 1 then (if latch then ua_interrupts u else v) else ua_interrupts u;
     ua_fifo := if offset =? 2 then v else ua_fifo u;
     ua_line := if offset =? 3 then v else ua_line u;
     ua_modem := if offset =? 4 then v else ua_modem u;
     ua_sent := if offset =? 0 then (if latch then ua_sent u else ua_sent u ++ [v]) else ua_sent u;
     ua_polls := ua_polls u |}.

Definition count_poll (u : uart) : uart :=
  {| ua_divisor_low := ua_divisor_low u; ua_divisor_high := ua_divisor_high u; ua_interrupts := ua_interrupts u;
     ua_fifo := ua_fifo u; ua_line := ua_line u; ua_modem := ua_modem u; ua_sent := ua_sent u;
     ua_polls := S (ua_polls u) |}.

Definition out8 (port value : Z) : prog uart unit := modify (uart_write (port - COM1) (u8 value)).

Section Drivers.
(** The answers to successive reads of the line status register, and the loop bound. *)
Context (status : nat -> Z) (fuel : nat).

Definition in8_status : prog uart Z :=
  do u <- get ;
  run modify count_poll ;
  ret (status (ua_polls u)).

(** [while ((in8(COM1 + 5) & 0x20) == 0) {}] *)
Fixpoint wait_ready (fuel : nat) : prog uart unit :=
  match fuel with
  | O => undefined
  | S fuel' =>
      do v <- in8_status ;
      if Z.land v 0x20 =? 0 then wait_ready fuel' else ret tt
  end.

(** ** boot/stage2_pm.c *)
Definition stage2_serial_init : prog uart unit :=
  run out8 (COM1 + 1) 0 ;
  run out8 (COM1 + 3) 0x80 ;
  run out8 COM1 1 ;
  run out8 (COM1 + 1) 0 ;
  run out8 (COM1 + 3) 3 ;
  run out8 (COM1 + 2) 0xc7 ;
  out8 (COM1 + 4) 0x0b.

(** The loop over a zero-terminated text; running past its end is undefined. *)
Fixpoint stage2_serial_write (message : list Z) : prog uart unit :=
  match message with
  | [] => undefined
  | c :: rest =>
      if c =? 0 then ret tt
      else
        run wait_ready fuel ;
        run out8 COM1 c ;
        stage2_serial_write rest
  end.

(** ** boot/uefi/main.c *)
Definition uefi_serial_init : prog uart unit :=
  run out8 (COM1 + 1) 0 ;
  run out8 (COM1 + 3) 0x80 ;
  run out8 COM1 1 ;
  run out8 (COM1 + 1) 0 ;
  run out8 (COM1 + 3) 3 ;
  run out8 (COM1 + 2) 0xc7 ;
  out8 (COM1 + 4) 0x0b.

Fixpoint uefi_serial_loop (s : list Z) : prog uart unit :=
  match s with
  | [] => undefined
  | c :: rest =>
      if c =? 0 then ret tt
      else
        run wait_ready fuel ;
        run out8 COM1 c ;
        uefi_serial_loop rest
  end.

Definition uefi_serial_write (s : option (list Z)) : prog uart unit :=
  match s with None => ret tt | Some text => uefi_serial_loop text end.

(** ** kernel/serial.c *)
Definition kernel_serial_init : prog uart unit :=
  run out8 (COM1 + 1) 0x00 ;
  run out8 (COM1 + 3) 0x80 ;
  run out8 (COM1 + 0) 0x03 ;
  run out8 (COM1 + 1) 0x00 ;
  run out8 (COM1 + 3) 0x03 ;
  run out8 (COM1 + 2) 0xc7 ;
  out8 (COM1 + 4) 0x0b.

Definition serial_putc (c : Z) : prog uart unit :=
  run wait_ready fuel ;
  out8 COM1 c.

Fixpoint kernel_serial_loop (text : list Z) : prog uart unit :=
  match text with
  | [] => undefined
  | c :: rest =>
      if c =? 0 then ret tt
      else
        run (if c =? 10 then serial_putc 13 else ret tt) ;
        run serial_putc c ;
        kernel_serial_loop rest
  end.

Definition kernel_serial_write (text : option (list Z)) : prog uart unit :=
  match text with None => ret tt | Some text => kernel_serial_loop text end.

(** ** Ready devices *)

(** Some poll among the next [fuel] finds the transmitter empty. *)
Definition responsive : Prop := forall n, exists k, (k < fuel)%nat /\ Z.land (status (n + k)) 0x20 <> 0.

Context (Hready : responsive).

(** The registers of [u] are those of [u0], and [text] was sent since. *)
Definition sent_since (u0 : uart) (text : list Z) (u : uart) : Prop :=
  ua_line u = ua_line u0 /\ ua_divisor_low u = ua_divisor_low u0 /\ ua_divisor_high u = ua_divisor_high u0 /\
  ua_interrupts u = ua_interrupts u0 /\ ua_fifo u = ua_fifo u0 /\ ua_modem u = ua_modem u0 /\
  ua_sent u = ua_sent u0 ++ text.

Lemma sent_refl u : sent_since u [] u.
Proof. unfold sent_since. rewrite app_nil_r. done. Qed.

Lemma sent_trans u0 u1 u2 a b : sent_since u0 a u1 -> sent_since u1 b u2 -> sent_since u0 (a ++ b) u2.
Proof.
  intros (H1 & H2 & H3 & H4 & H5 & H6 & H7) (G1 & G2 & G3 & G4 & G5 & G6 & G7).
  unfold sent_since. rewrite G7, H7, app_assoc. split_and!; congruence.
Qed.

Lemma wait_runs k : forall n u,
  (k < n)%nat -> Z.land (status (ua_polls u + k)) 0x20 <> 0 ->
  runs (wait_ready n) u (fun _ u' => sent_since u [] u').
Proof.
  induction k as [|k IH]; intros [|n] u Hn Hk; try lia; cbn [wait_ready]; apply runs_bind, runs_get, runs_modify, runs_ret.
  - rewrite Nat.add_0_r in Hk. rewrite (proj2 (Z.eqb_neq _ _)) by done. apply runs_ret. unfold sent_since.
    cbn. rewrite app_nil_r. done.
  - destruct (Z.land (status (ua_polls u)) 0x20 =? 0).
    + eapply runs_mono; [apply IH; [lia|]|].
      * cbn. by rewrite Nat.add_succ_r in Hk.
      * intros [] u' H. unfold sent_since in *. cbn in *. done.
    + apply runs_ret. unfold sent_since. cbn. rewrite app_nil_r. done.
Qed.

(** One character through a port that is set up. *)
Lemma putc_runs c u :
  latch_selected u = false -> in_u8 c ->
  runs (serial_putc c) u (fun _ u' => sent_since u [c] u').
Proof.
  intros Hl Hc. unfold serial_putc. destruct (Hready (ua_polls u)) as (k & Hk & Hs).
  eapply runs_call; [by apply (wait_runs k)|]. intros [] u1 H. apply runs_update.
  assert (Hl1 : latch_selected u1 = false) by (unfold latch_selected in *; destruct H as [E _]; by rewrite E).
  destruct H as (H1 & H2 & H3 & H4 & H5 & H6 & H7). unfold out8, uart_write, sent_since.
  rewrite Z.sub_diag, Hl1, u8_id by done. cbn. rewrite app_nil_r in H7. rewrite H7. split_and!; try done.
Qed.

(** What the kernel's driver sends for a text: a carriage return before every newline. *)
Definition crlf (text : list Z) : list Z := concat (map (fun c => if c =? 10 then [13; 10] else [c]) text).

Lemma latch_since u0 text u : sent_since u0 text u -> latch_selected u0 = false -> latch_selected u = false.
Proof. intros [H _]. unfold latch_selected. by rewrite H. Qed.

Lemma kernel_loop_runs text : forall u,
  bytes text -> 0 ∈ text -> latch_selected u = false ->
  runs (kernel_serial_loop text) u (fun _ u' => sent_since u (crlf (c_str text)) u').
Proof.
  induction text as [|c rest IH]; intros u Hb Hz Hl; [set_solver|]. cbn [kernel_serial_loop c_str].
  inversion Hb as [|? ? Hc Hrest]; subst. destruct (Z.eqb_spec c 0) as [->|Hne]; [apply runs_ret, sent_refl|].
  assert (Hfirst : runs (if c =? 10 then serial_putc 13 else ret tt) u
    (fun _ u' => sent_since u (if c =? 10 then [13] else []) u')).
  { destruct (c =? 10); [apply putc_runs; [done|unfold in_u8; lia]|apply runs_ret, sent_refl]. }
  eapply runs_call; [exact Hfirst|]. intros [] u1 H1. pose proof (latch_since _ _ _ H1 Hl) as Hl1.
  eapply runs_call; [by apply putc_runs|]. intros [] u2 H2. pose proof (latch_since _ _ _ H2 Hl1) as Hl2.
  eapply runs_mono; [apply IH; [done|set_solver|done]|]. intros [] u3 H3.
  pose proof (sent_trans _ _ _ _ _ (sent_trans _ _ _ _ _ H1 H2) H3) as H. unfold crlf. cbn [map concat].
  by destruct (c =? 10) eqn:E; [apply Z.eqb_eq in E as ->|].
Qed.

Lemma stage2_loop_runs text : forall u,
  bytes text -> 0 ∈ text -> latch_selected u = false ->
  runs (stage2_serial_write text) u (fun _ u' => sent_since u (c_str text) u').
Proof.
  induction text as [|c rest IH]; intros u Hb Hz Hl; [set_solver|]. cbn [stage2_serial_write c_str].
  inversion Hb as [|? ? Hc Hrest]; subst. destruct (Z.eqb_spec c 0) as [->|Hne]; [apply runs_ret, sent_refl|].
  destruct (putc_runs c u Hl Hc) as (x & u1 & Hrun & H1). pose proof (latch_since _ _ _ H1 Hl) as Hl1.
  destruct (IH u1 Hrest ltac:(set_solver) Hl1) as (y & u2 & Hrest2 & H2). exists y, u2. split.
  - rewrite <- Hrest2. unfold serial_putc, bind in *. destruct (wait_ready fuel u) as [[a u']|]; [|done].
    by rewrite Hrun.
  - exact (sent_trans _ _ _ _ _ H1 H2).
Qed.

Lemma uefi_loop_same text u : uefi_serial_loop text u = stage2_serial_write text u.
Proof.
  revert u. induction text as [|c rest IH]; intros u; [done|]. cbn [uefi_serial_loop stage2_serial_write].
  destruct (c =? 0); [done|]. unfold bind. destruct (wait_ready fuel u) as [[a u1]|]; [|done].
  destruct (out8 COM1 c u1) as [[b u2]|]; [|done]. apply IH.
Qed.

End Drivers.

(** ** The drivers as a whole *)

(** 8 data bits, no parity, one stop bit, FIFO on, the given divisor, the latch closed.  Interrupts
    are off, unless the latch was open at the start: the first store then misses the register. *)
Definition configured (divisor : Z) (u0 u : uart) : Prop :=
  ua_line u = 3 /\ ua_divisor_low u + 256 * ua_divisor_high u = divisor /\
  ua_interrupts u = (if latch_selected u0 then ua_interrupts u0 else 0) /\
  ua_fifo u = 0xc7 /\ ua_modem u = 0x0b /\ ua_sent u = ua_sent u0 /\ latch_selected u = false.

(** The sequence the three initialisations share. *)
Definition init_sequence (divisor : Z) : list (Z * Z) :=
  [(1, 0); (3, 0x80); (0, divisor); (1, 0); (3, 3); (2, 0xc7); (4, 0x0b)].

Lemma init_sequence_configured divisor u :
  divisor = 1 \/ divisor = 3 ->
  configured divisor u (foldl (fun u '(offset, v) => uart_write offset v u) u (init_sequence divisor)).
Proof. destruct u. intros [-> | ->]; vm_compute; split_and!; reflexivity. Qed.

Lemma init_configured p divisor u :
  p = stage2_serial_init /\ divisor = 1 \/ p = uefi_serial_init /\ divisor = 1 \/
  p = kernel_serial_init /\ divisor = 3 ->
  runs p u (fun _ u' => configured divisor u u').
Proof.
  intros H. exists tt, (foldl (fun u '(offset, v) => uart_write offset v u) u (init_sequence divisor)).
  split; [|apply init_sequence_configured; lia]. destruct H as [[-> ->]|[[-> ->]|[-> ->]]]; reflexivity.
Qed.


(** A device that is ready on every second poll. *)
Definition example_status (n : nat) : Z := if Nat.even n then 0 else 0x60.

Lemma example_responsive : responsive example_status 2.
Proof.
  intros n. unfold example_status. destruct (Nat.even n) eqn:E.
  - exists 1%nat. split; [lia|]. rewrite Nat.add_1_r, Nat.even_succ, <- Nat.negb_even, E. done.
  - exists 0%nat. split; [lia|]. rewrite Nat.add_0_r, E. done.
Qed.

Definition reset_uart : uart :=
  {| ua_divisor_low := 12; ua_divisor_high := 0; ua_interrupts := 1; ua_fifo := 0; ua_line := 0; ua_modem := 0;
     ua_sent := []; ua_polls := 0 |}.

