(* ===== verification/Cpu.v ===== *)
(** * The processor checks of the second stage (boot/stage2_pm.c)

    [cpu_has_cpuid] tries to toggle the identification flag of EFLAGS,
    [cpuid] runs the instruction and stores the registers through those of its
    four pointers that are not null, [cpu_has_long_mode] asks for physical
    address extension and long mode.  The state is EFLAGS and a record of the
    instructions that matter: every value POPFD put in EFLAGS and every CPUID that
    was executed.  A processor says which bits POPFD changes and what CPUID answers.  PUSHFD and POPFD are
    modelled as the processor manual describes them at privilege level 0; the
    flags that compiled arithmetic changes between two statements are not
    followed. *)
From S2P Require Import Prelude Prog.

Definition ID_FLAG : Z := 21.

(** The four registers CPUID sets. *)
Record cpuid_registers := { r_eax : Z; r_ebx : Z; r_ecx : Z; r_edx : Z }.

(** The EFLAGS bits POPFD writes, and the answers for EAX (the leaf) and ECX (the subleaf). *)
Record processor := {
  cpu_writable_flags : Z;
  cpu_answers : Z -> Z -> cpuid_registers
}.

(** ** The state *)
Inductive cpu_event :=
| FlagsLoaded (eflags : Z)
| CpuidExecuted (leaf subleaf : Z).

Record cpu_state := {
  cs_eflags : Z;
  cs_events : list cpu_event
}.

(** ** Instructions *)

(** PUSHFD stores EFLAGS with the VM and RF bits cleared. *)
Definition pushfl (flags : Z) : Z := Z.land flags 0x00fcffff.

(** POPFD writes the bits it may change and leaves the others. *)
Definition popfl (cpu : processor) (value flags : Z) : Z :=
  Z.lor (Z.land value (cpu_writable_flags cpu)) (Z.ldiff flags (cpu_writable_flags cpu)).

(** ** The functions *)
Section Processor.
Context (cpu : processor).

(** [pushl value; popfl] *)
Definition load_flags (value : Z) : prog cpu_state unit :=
  modify (fun s => let v := popfl cpu value (cs_eflags s) in
    {| cs_eflags := v; cs_events := cs_events s ++ [FlagsLoaded v] |}).

(** [pushfl; popl] *)
Definition read_flags : prog cpu_state Z := do s <- get ; ret (pushfl (cs_eflags s)).

Definition cpu_has_cpuid : prog cpu_state bool :=
  do original <- read_flags ;
  let toggled := Z.lxor original (Z.shiftl 1 21) in
  run load_flags toggled ;
  do changed <- read_flags ;
  run load_flags original ;
  ret (negb (Z.land (Z.lxor changed original) (Z.shiftl 1 21) =? 0)).

(** [if (p) *p = v]: what the variable behind a pointer receives, nothing behind a null pointer. *)
Definition store_out (pointer : bool) (v : Z) : option Z := if pointer then Some v else None.

(** The arguments say which pointers are not null. *)
Definition cpuid (leaf : Z) (eax_out ebx_out ecx_out edx_out : bool)
    : prog cpu_state (option Z * option Z * option Z * option Z) :=
  run modify (fun s => {| cs_eflags := cs_eflags s; cs_events := cs_events s ++ [CpuidExecuted leaf 0] |}) ;
  let r := cpu_answers cpu leaf 0 in
  ret (store_out eax_out (r_eax r), store_out ebx_out (r_ebx r), store_out ecx_out (r_ecx r), store_out edx_out (r_edx r)).

(** Reading a variable nothing was stored in is undefined. *)
Definition cpu_has_long_mode : prog cpu_state bool :=
  do has <- cpu_has_cpuid ;
  if negb has then ret false
  else
    do (eax, _, _, edx) <- cpuid 1 true false false true ;
    do d <- lift edx ;
    if Z.land d (Z.shiftl 1 6) =? 0 then ret false
    else
      do (eax, _, _, _) <- cpuid 0x80000000 true false false false ;
      do a <- lift eax ;
      if a <? 0x80000001 then ret false
      else
        do (_, _, _, edx) <- cpuid 0x80000001 false false false true ;
        do d <- lift edx ;
        ret (negb (Z.land d (Z.shiftl 1 29) =? 0)).

(** ** Reference: what the manual says the answers mean *)
Definition long_mode_supported : bool :=
  Z.testbit (cpu_writable_flags cpu) ID_FLAG &&
  Z.testbit (r_edx (cpu_answers cpu 1 0)) 6 &&
  (0x80000001 <=? r_eax (cpu_answers cpu 0x80000000 0)) &&
  Z.testbit (r_edx (cpu_answers cpu 0x80000001 0)) 29.

(** The leaves that may be asked for: none without CPUID, an extended one only when it is there. *)
Definition leaves_asked : list Z :=
  if Z.testbit (cpu_writable_flags cpu) ID_FLAG then
    1 :: (if Z.testbit (r_edx (cpu_answers cpu 1 0)) 6 then
            0x80000000 :: (if 0x80000001 <=? r_eax (cpu_answers cpu 0x80000000 0) then [0x80000001] else [])
          else [])
  else [].

(** EFLAGS with the identification flag inverted, where it can be. *)
Definition id_inverted (flags : Z) : Z :=
  if Z.testbit (cpu_writable_flags cpu) ID_FLAG then Z.lxor flags (2 ^ ID_FLAG) else flags.

(** ** Bits *)

(** The bit after toggling, and the bit after putting the original value back. *)
Lemma popfl_bit value flags i :
  0 <= i -> Z.testbit (popfl cpu value flags) i =
    if Z.testbit (cpu_writable_flags cpu) i then Z.testbit value i else Z.testbit flags i.
Proof.
  intros Hi. unfold popfl. rewrite Z.lor_spec, Z.land_spec, Z.ldiff_spec.
  destruct (Z.testbit (cpu_writable_flags cpu) i); cbn [negb]; by rewrite ?andb_true_r, ?andb_false_r, ?orb_false_r.
Qed.

Lemma toggle_bit flags i :
  0 <= i -> Z.testbit (Z.lxor (pushfl flags) (Z.shiftl 1 21)) i = xorb (Z.testbit (pushfl flags) i) (i =? 21).
Proof.
  intros Hi. rewrite Z.lxor_spec. f_equal. rewrite Z.shiftl_1_l.
  destruct (Z.eqb_spec i 21) as [->|Hne]; [done|]. by apply Z.pow2_bits_false; lia.
Qed.

(** ** What the functions do *)

(** EFLAGS as it is outside virtual-8086 mode, with the resume flag off: the bits PUSHFD clears are clear. *)
Definition flags_ok (flags : Z) : Prop := pushfl flags = flags.

(** EFLAGS after the first and after the second POPFD. *)
Definition flags_toggled (flags : Z) : Z := popfl cpu (Z.lxor (pushfl flags) (Z.shiftl 1 21)) flags.
Definition flags_after (flags : Z) : Z := popfl cpu (pushfl flags) (flags_toggled flags).

Lemma flags_toggled_bit flags i :
  flags_ok flags -> 0 <= i ->
  Z.testbit (flags_toggled flags) i =
    xorb (Z.testbit flags i) ((i =? 21) && Z.testbit (cpu_writable_flags cpu) 21).
Proof.
  intros Hf Hi. unfold flags_toggled. rewrite popfl_bit, toggle_bit, Hf by done.
  destruct (Z.eqb_spec i 21) as [->|Hne]; cbn [andb]; [|by rewrite xorb_false_r; destruct (Z.testbit _ i)].
  destruct (Z.testbit (cpu_writable_flags cpu) 21); [done|by rewrite xorb_false_r].
Qed.

Lemma flags_toggled_inverts flags : flags_ok flags -> flags_toggled flags = id_inverted flags.
Proof.
  intros Hf. apply Z.bits_inj'. intros i Hi. rewrite flags_toggled_bit by done. unfold id_inverted, ID_FLAG.
  destruct (Z.testbit (cpu_writable_flags cpu) 21); [|by rewrite andb_false_r, xorb_false_r].
  rewrite andb_true_r, Z.lxor_spec. f_equal. destruct (Z.eqb_spec i 21) as [->|Hne]; [done|].
  symmetry. by apply Z.pow2_bits_false; lia.
Qed.

Lemma flags_after_restored flags : flags_ok flags -> flags_after flags = flags.
Proof.
  intros Hf. apply Z.bits_inj'. intros i Hi. unfold flags_after. rewrite popfl_bit, Hf by done.
  destruct (Z.testbit (cpu_writable_flags cpu) i) eqn:Ew; [done|]. rewrite flags_toggled_bit by done.
  destruct (Z.eqb_spec i 21) as [->|Hne]; cbn [andb]; rewrite ?Ew; apply xorb_false_r.
Qed.

(** The state after the two POPFD. *)
Definition flags_tested (s : cpu_state) : cpu_state :=
  {| cs_eflags := flags_after (cs_eflags s);
     cs_events := cs_events s ++ [FlagsLoaded (flags_toggled (cs_eflags s)); FlagsLoaded (flags_after (cs_eflags s))] |}.

Lemma cpu_has_cpuid_run s : cpu_has_cpuid s = Some (Z.testbit (cpu_writable_flags cpu) ID_FLAG, flags_tested s).
Proof.
  destruct s as [flags events]. unfold cpu_has_cpuid, read_flags, load_flags, flags_tested, bind, get, modify, ret.
  cbn [cs_eflags cs_events]. rewrite <- app_assoc. rewrite bit_set_iff by lia. do 2 f_equal.
  change (popfl cpu _ flags) with (flags_toggled flags). rewrite Z.lxor_spec. unfold pushfl at 1.
  rewrite Z.land_spec. change (Z.testbit 0x00fcffff 21) with true. rewrite andb_true_r.
  unfold flags_toggled. rewrite popfl_bit, toggle_bit by lia. cbn [Z.eqb Pos.eqb]. unfold ID_FLAG.
  destruct (Z.testbit (cpu_writable_flags cpu) 21) eqn:Ew.
  - by destruct (Z.testbit (pushfl flags) 21).
  - unfold pushfl. rewrite Z.land_spec. change (Z.testbit 0x00fcffff 21) with true. by destruct (Z.testbit flags 21).
Qed.

Lemma cpu_has_long_mode_run s :
  cpu_has_long_mode s = Some (long_mode_supported,
    {| cs_eflags := flags_after (cs_eflags s);
       cs_events := cs_events (flags_tested s) ++ map (fun leaf => CpuidExecuted leaf 0) leaves_asked |}).
Proof.
  unfold cpu_has_long_mode, long_mode_supported, leaves_asked, cpuid, store_out, lift. unfold bind at 1. rewrite cpu_has_cpuid_run.
  destruct (Z.testbit (cpu_writable_flags cpu) ID_FLAG); cbn [negb andb map]; [|by rewrite app_nil_r].
  unfold bind, modify, ret. rewrite <- (bit_set_iff _ 6), <- (bit_set_iff _ 29), Z.leb_antisym by lia.
  destruct (Z.land _ (Z.shiftl 1 6) =? 0); cbn [negb andb map cs_events cs_eflags]; [done|].
  destruct (r_eax _ <? 0x80000001); cbn [negb andb map cs_events cs_eflags]; by rewrite <- ?app_assoc.
Qed.
End Processor.

(** An early 486 whose identification flag is stuck: no CPUID, whatever its answers would be. *)
Example stuck_flag :
  cpu_has_long_mode {| cpu_writable_flags := 0x00057fd5; cpu_answers _ _ := Build_cpuid_registers 0x80000008 0 0 0x20000040 |}
    {| cs_eflags := 0x246; cs_events := [] |}
  = Some (false, {| cs_eflags := 0x246; cs_events := [FlagsLoaded 0x246; FlagsLoaded 0x246] |}).
Proof. vm_compute. reflexivity. Qed.

(** C38: The processor check. For every processor and every value of EFLAGS with the bits PUSHFD
    clears (virtual-8086 mode, the resume flag, the reserved bits from 24 on) clear, the check ends
    and reads no variable that was not stored. It answers yes exactly when the identification flag can be changed, leaf 1 reports physical address extension, the extended
    leaves reach 0x80000001 and that leaf reports long mode. The only values it puts in EFLAGS on the
    way are the original one with the identification flag alone inverted (where the processor lets
    it), so that interrupts stay as they were, and then the original one. CPUID is executed only when
    the flag could be changed, and an extended leaf is asked for only when it is there. *)
Theorem long_mode_check (cpu : processor) (s : cpu_state) :
  flags_ok (cs_eflags s) ->
  cpu_has_long_mode cpu s = Some (long_mode_supported cpu,
    {| cs_eflags := cs_eflags s;
       cs_events := cs_events s ++ [FlagsLoaded (id_inverted cpu (cs_eflags s)); FlagsLoaded (cs_eflags s)] ++
                    map (fun leaf => CpuidExecuted leaf 0) (leaves_asked cpu) |}).
Proof.
  intros Hf. rewrite cpu_has_long_mode_run. unfold flags_tested. cbn [cs_events].
  by rewrite flags_after_restored, flags_toggled_inverts, <- app_assoc by done.
Qed.

(** A 64-bit processor: every documented flag can be written. *)
Definition example_cpu : processor :=
  {| cpu_writable_flags := 0x00257fd5;
     cpu_answers leaf _ := {| r_eax := 0x80000008; r_ebx := 0; r_ecx := 0; r_edx := 0x20000040 |} |}.

Lemma long_mode_check_witness :
  flags_ok 0x246 /\
  cpu_has_long_mode example_cpu {| cs_eflags := 0x246; cs_events := [] |} =
    Some (true, {| cs_eflags := 0x246;
                   cs_events := [FlagsLoaded 0x200246; FlagsLoaded 0x246;
                                 CpuidExecuted 1 0; CpuidExecuted 0x80000000 0; CpuidExecuted 0x80000001 0] |}).
Proof.
  assert (H : flags_ok 0x246) by reflexivity. split; [exact H|].
  rewrite (long_mode_check example_cpu {| cs_eflags := 0x246; cs_events := [] |} H). vm_compute. reflexivity.
Defined.
