(* ===== verification/Kernel.v ===== *)
(** * The proof kernel (kernel/kernel.c, kernel/bootinfo.h)

    The 32-bit kernel that shows the boot chain works: it checks the boot
    information it was handed, writes to the text screen and to the serial port,
    and stops.  The screen is the 80 by 25 cells at 0xB8000; a store outside them
    is undefined.  A message on the serial port is an entry of a log; [Serial]
    has the driver.  Stopping for ever is the end of the program. *)
From S2P Require Import Prelude Prog.

(** ** kernel/bootinfo.h *)
Definition JOSH_BOOT_INFO_MAGIC : Z := 0x48534f4a.
Definition JOSH_BOOT_INFO_VERSION : Z := 1.
Definition JOSH_FIRMWARE_LEGACY_BIOS : Z := 1.

Record JoshBootInfo := {
  magic : Z;
  version : Z;
  size : Z;
  boot_drive : Z;
  firmware_type : Z;
  flags : Z;
  reserved : Z
}.

Definition sizeof_JoshBootInfo : Z := 16.

(** The packed layout. *)
Definition boot_info_at (p : list Z) : option JoshBootInfo :=
  let? magic := rd32 p 0 in
  let? version := rd16 p 4 in
  let? size := rd16 p 6 in
  let? boot_drive := get8 p 8 in
  let? firmware_type := get8 p 9 in
  let? flags := rd16 p 10 in
  let? reserved := rd32 p 12 in
  Some {| magic := magic; version := version; size := size; boot_drive := boot_drive;
          firmware_type := firmware_type; flags := flags; reserved := reserved |}.

(** ** State *)
Definition SCREEN_CELLS : Z := 80 * 25.

Record kernel := {
  k_vga : list Z;
  k_row : Z;
  k_col : Z;
  k_serial : list string
}.

Definition set_cursor (row col : Z) : prog kernel unit :=
  modify (fun k => {| k_vga := k_vga k; k_row := row; k_col := col; k_serial := k_serial k |}).

(** [VGA[i] = v] *)
Definition store_cell (i v : Z) : prog kernel unit := fun k =>
  if (0 <=? i) && (i <? SCREEN_CELLS)
  then Some (tt, {| k_vga := <[Z.to_nat i := v]> (k_vga k); k_row := k_row k; k_col := k_col k; k_serial := k_serial k |})
  else None.

Definition serial_write (text : string) : prog kernel unit :=
  modify (fun k => {| k_vga := k_vga k; k_row := k_row k; k_col := k_col k; k_serial := k_serial k ++ [text] |}).
Arguments serial_write text%_string.

(** ** The screen *)

(** The loop of [clear_screen], [n] cells from [i] on. *)
Fixpoint clear_loop (n : nat) (i : Z) : prog kernel unit :=
  match n with
  | O => ret tt
  | S n' =>
      run store_cell i (u16 (Z.lor 32 (Z.shiftl 0x0F 8))) ;
      clear_loop n' (i + 1)
  end.

Definition clear_screen : prog kernel unit := clear_loop (Z.to_nat SCREEN_CELLS) 0.

Definition putc (c colour : Z) : prog kernel unit :=
  do k <- get ;
  if c =? 10 then set_cursor (u32 (k_row k + 1)) 0
  else
    let '(row, col) := if k_col k >=? 80 then (u32 (k_row k + 1), 0) else (k_row k, k_col k) in
    let row := if row >=? 25 then 0 else row in
    run set_cursor row col ;
    run store_cell (u32 (u32 (row * 80) + col)) (u16 (Z.lor (u8 c) (Z.shiftl colour 8))) ;
    set_cursor row (u32 (col + 1)).

(** [s] is zero-terminated; running past its end is undefined. *)
Fixpoint print (s : list Z) (colour : Z) : prog kernel unit :=
  match s with
  | [] => undefined
  | c :: rest =>
      if c =? 0 then ret tt
      else
        run putc c colour ;
        print rest colour
  end.

(** A string literal. *)
Definition literal (s : string) : list Z := chars s ++ [0].
Arguments literal s%_string.

Definition newline : string := String (Ascii.ascii_of_N 10) EmptyString.

(** ** The kernel *)
Definition valid_boot_info (info : option JoshBootInfo) : bool :=
  match info with
  | None => false
  | Some i => (magic i =? JOSH_BOOT_INFO_MAGIC) && (version i =? JOSH_BOOT_INFO_VERSION)
              && (size i >=? u16 sizeof_JoshBootInfo)
  end.

Definition kmain (boot_info : option JoshBootInfo) : prog kernel unit :=
  run serial_write "JOSHBIOS_KERNEL_ENTERED" ;
  run clear_screen ;
  run print (literal ("JoshBIOS" +:+ newline)) 0x0B ;
  run print (literal ("========" +:+ newline +:+ newline)) 0x08 ;
  if negb (valid_boot_info boot_info) then
    run print (literal ("Boot contract validation failed." +:+ newline)) 0x0C ;
    serial_write "JOSHBIOS_ERROR_BOOTINFO"
  else
    run print (literal ("Kernel entered successfully." +:+ newline)) 0x0F ;
    run print (literal ("JoshBootInfo ABI v1 validated." +:+ newline)) 0x0A ;
    run print (literal ("Stage 1 -> Boot Manager -> protected mode -> kernel" +:+ newline +:+ newline)) 0x07 ;
    do info <- lift boot_info ;
    run (if firmware_type info =? JOSH_FIRMWARE_LEGACY_BIOS
         then print (literal ("Firmware path: legacy BIOS" +:+ newline)) 0x07 else ret tt) ;
    run print (literal ("Welcome to the beginning of the Josh boot stack." +:+ newline)) 0x0A ;
    run serial_write "JOSHBIOS_BOOTINFO_OK" ;
    serial_write "JOSHBIOS_BOOT_OK".

(** ** The screen stays on the screen *)

(** The cursor may be behind the last column or below the last row; the next character moves it. *)
Definition screen_ok (k : kernel) : Prop :=
  zlen (k_vga k) = SCREEN_CELLS /\ 0 <= k_col k <= 80 /\ in_u32 (k_row k) /\ Forall in_u16 (k_vga k).

(** Only the screen and the cursor may differ. *)
Definition same_log (k k' : kernel) : Prop := k_serial k' = k_serial k.

Lemma store_cell_runs i v k :
  screen_ok k -> 0 <= i < SCREEN_CELLS -> in_u16 v ->
  runs (store_cell i v) k (fun _ k' => screen_ok k' /\ same_log k k' /\ k_row k' = k_row k /\ k_col k' = k_col k /\
    k_vga k' = <[Z.to_nat i := v]> (k_vga k)).
Proof.
  intros (Hl & Hc & Hr & Hv) Hi Hu. exists tt. eexists. unfold store_cell.
  rewrite (proj2 (Z.leb_le _ _)), (proj2 (Z.ltb_lt _ _)) by lia. cbn [andb]. split; [reflexivity|].
  unfold screen_ok, same_log. cbn. split_and!; try done; try lia.
  - unfold zlen in *. by rewrite length_insert.
  - by apply Forall_insert.
Qed.

(** Where a printable character goes. *)
Definition cursor_cell (k : kernel) : Z * Z :=
  let '(row, col) := if k_col k >=? 80 then (u32 (k_row k + 1), 0) else (k_row k, k_col k) in
  (if row >=? 25 then 0 else row, col).

Lemma screen_putc_runs c colour k :
  screen_ok k -> in_u8 c -> in_u8 colour ->
  runs (putc c colour) k (fun _ k' => screen_ok k' /\ same_log k k' /\
    if c =? 10 then k_vga k' = k_vga k /\ k_row k' = u32 (k_row k + 1) /\ k_col k' = 0
    else
      let '(row, col) := cursor_cell k in
      0 <= row < 25 /\ 0 <= col < 80 /\ k_row k' = row /\ k_col k' = col + 1 /\
      k_vga k' = <[Z.to_nat (row * 80 + col) := c + 256 * colour]> (k_vga k)).
Proof.
  intros Hs Hc Hcol. pose proof Hs as (Hl & Hk & Hr & Hv). unfold putc, cursor_cell. apply runs_get.
  destruct (Z.eqb_spec c 10) as [->|Hne].
  { apply runs_update. unfold screen_ok, same_log. cbn. split_and!; try (done || lia); apply u32_range. }
  set (p := if k_col k >=? 80 then _ else _).
  assert (Hp : 0 <= snd p < 80 /\ in_u32 (fst p)).
  { unfold p. destruct (Z.geb_spec (k_col k) 80); cbn; split; try lia; auto with josh. }
  destruct p as [row col]. cbn [fst snd] in Hp. destruct Hp as [Hc80 Hru].
  set (row' := if row >=? 25 then 0 else row).
  assert (Hrow : 0 <= row' < 25) by (unfold row', in_u32 in *; destruct (Z.geb_spec row 25); lia).
  clearbody row'. apply runs_modify. rewrite (u32_id (row' * 80)), (u32_id (row' * 80 + col)), (u32_id (col + 1)) by (unfold in_u32; lia).
  assert (Hcell : u16 (Z.lor (u8 c) (Z.shiftl colour 8)) = c + 256 * colour).
  { rewrite u8_id, lor_shiftl_add by (done || lia). apply u16_id. unfold in_u8, in_u16 in *. lia. }
  rewrite Hcell.
  eapply runs_call; [apply store_cell_runs|].
  - split_and!; try done; cbn; unfold in_u32; lia.
  - unfold SCREEN_CELLS. lia.
  - unfold in_u8, in_u16 in *. lia.
  - intros [] k' (Hs' & Hlog & Hr' & Hc' & Hv'). apply runs_update. cbn in *.
    destruct Hs' as (H1 & H2 & H3 & H4). unfold screen_ok, same_log in *. cbn in *.
    split_and!; try done; unfold in_u32 in *; lia.
Qed.

Lemma print_runs s colour : forall k,
  screen_ok k -> bytes s -> 0 ∈ s -> in_u8 colour ->
  runs (print s colour) k (fun _ k' => screen_ok k' /\ same_log k k').
Proof.
  induction s as [|c rest IH]; intros k Hk Hb Hz Hcol; [set_solver|]. cbn [print].
  inversion Hb as [|? ? Hc Hrest]; subst. destruct (Z.eqb_spec c 0) as [->|Hne]; [apply runs_ret; done|].
  eapply runs_call; [by apply screen_putc_runs|]. intros [] k1 (Hk1 & Hl1 & _).
  eapply runs_mono; [apply IH; [done|done|set_solver|done]|]. intros [] k2 [Hk2 Hl2]. split; [done|].
  unfold same_log in *. congruence.
Qed.

Lemma clear_loop_runs n : forall i k,
  screen_ok k -> 0 <= i -> i + Z.of_nat n = SCREEN_CELLS ->
  runs (clear_loop n i) k (fun _ k' => screen_ok k' /\ same_log k k' /\
    forall j, 0 <= j < SCREEN_CELLS -> k_vga k' !! Z.to_nat j = if j <? i then k_vga k !! Z.to_nat j else Some 0x0F20).
Proof.
  induction n as [|n IH]; intros i k Hk Hi Hn; cbn [clear_loop].
  { apply runs_ret. split_and!; try done. intros j Hj. by rewrite (proj2 (Z.ltb_lt _ _)) by lia. }
  change (u16 (Z.lor 32 (Z.shiftl 15 8))) with 0x0F20.
  eapply runs_call; [apply (store_cell_runs i 0x0F20 k Hk); [lia|unfold in_u16; lia]|].
  intros [] k1 (Hk1 & Hl1 & Hr1 & Hc1 & Hv1). pose proof Hk as (Hlen & _).
  eapply runs_mono; [apply IH; [done|lia..]|]. intros [] k2 (Hk2 & Hl2 & Hv2).
  split_and!; try done; [unfold same_log in *; congruence|]. intros j Hj. rewrite Hv2, Hv1 by done.
  destruct (Z.ltb_spec j i), (Z.ltb_spec j (i + 1)); try lia; try done.
  - by rewrite list_lookup_insert_ne by lia.
  - replace j with i by lia. rewrite list_lookup_insert_eq; [done|]. unfold zlen, SCREEN_CELLS in *. lia.
Qed.

Lemma literal_ok s : bytes (literal s) /\ 0 ∈ literal s.
Proof.
  unfold literal. split; [|set_solver]. apply Forall_app. split; [|repeat constructor; lia].
  unfold chars. apply Forall_map, Forall_forall. intros a _. unfold in_u8.
  pose proof (Ascii.N_ascii_bounded a). lia.
Qed.

Lemma print_literal s colour k :
  screen_ok k -> in_u8 colour -> runs (print (literal s) colour) k (fun _ k' => screen_ok k' /\ same_log k k').
Proof. intros Hk Hc. destruct (literal_ok s). by apply print_runs. Qed.

(** Printing as one step of a longer program. *)
Lemma print_then {B} s colour (q : prog kernel B) k Q :
  screen_ok k -> in_u8 colour ->
  (forall k', screen_ok k' -> same_log k k' -> runs q k' Q) -> runs (run print (literal s) colour ; q) k Q.
Proof. intros Hk Hc Hq. eapply runs_call; [by apply print_literal|]. intros [] k' [H1 H2]. auto. Qed.

Lemma log_then {B} text (q : prog kernel B) k Q :
  (forall k', k_vga k' = k_vga k -> k_row k' = k_row k -> k_col k' = k_col k -> k_serial k' = k_serial k ++ [text] ->
     runs q k' Q) ->
  runs (run serial_write text ; q) k Q.
Proof. intros Hq. apply runs_modify, Hq; done. Qed.

(** C34: The kernel on any boot information. Whatever pointer it is given, [kmain] runs to its end
    without a store outside the 80 by 25 screen, and its messages say exactly whether the boot
    information is present, has the magic number and version, and is at least as large as the
    structure. *)
Theorem kmain_reports_contract (info : option JoshBootInfo) (k : kernel) :
  screen_ok k ->
  runs (kmain info) k (fun _ k' => screen_ok k' /\
    k_serial k' = k_serial k ++ "JOSHBIOS_KERNEL_ENTERED"%string ::
      match info with
      | Some i => if bool_decide (magic i = 0x48534f4a /\ version i = 1 /\ 16 <= size i)
                  then ["JOSHBIOS_BOOTINFO_OK"; "JOSHBIOS_BOOT_OK"]%string else ["JOSHBIOS_ERROR_BOOTINFO"%string]
      | None => ["JOSHBIOS_ERROR_BOOTINFO"%string]
      end).
Proof.
  intros Hk. unfold kmain. assert (Hcol : forall c, (0 <=? c) && (c <? 256) = true -> in_u8 c) by (unfold in_u8; lia).
  apply log_then. intros k1 V1 R1 C1 L1.
  assert (Hk1 : screen_ok k1) by (unfold screen_ok in *; by rewrite V1, R1, C1).
  eapply runs_call; [by apply (clear_loop_runs (Z.to_nat SCREEN_CELLS) 0)|]. intros [] k2 (Hk2 & Hl2 & _).
  apply print_then; [done|by apply Hcol|]. intros k3 Hk3 Hl3.
  apply print_then; [done|by apply Hcol|]. intros k4 Hk4 Hl4. unfold same_log in *.
  destruct (valid_boot_info info) eqn:Ev; cbn [negb].
  - destruct info as [i|]; [|done]. cbn [valid_boot_info] in Ev. change (u16 sizeof_JoshBootInfo) with 16 in Ev.
    rewrite bool_decide_eq_true_2 by (unfold JOSH_BOOT_INFO_MAGIC, JOSH_BOOT_INFO_VERSION in Ev; lia).
    apply print_then; [done|by apply Hcol|]. intros k5 Hk5 Hl5.
    apply print_then; [done|by apply Hcol|]. intros k6 Hk6 Hl6.
    apply print_then; [done|by apply Hcol|]. intros k7 Hk7 Hl7. apply runs_lift.
    eapply (runs_call _ _ _ (fun _ k' => screen_ok k' /\ same_log k7 k')).
    { destruct (firmware_type i =? JOSH_FIRMWARE_LEGACY_BIOS); [apply print_literal; [done|by apply Hcol]|by apply runs_ret]. }
    intros [] k8 [Hk8 Hl8]. unfold same_log in *.
    apply print_then; [done|by apply Hcol|]. intros k9 Hk9 Hl9. apply runs_modify, runs_update. unfold same_log in *. cbn.
    split; [done|]. rewrite Hl9, Hl8, Hl7, Hl6, Hl5, Hl4, Hl3, Hl2, L1, <- !app_assoc. done.
  - apply print_then; [done|by apply Hcol|]. intros k5 Hk5 Hl5. apply runs_update. unfold same_log in *. cbn.
    split; [done|]. rewrite Hl5, Hl4, Hl3, Hl2, L1, <- !app_assoc. cbn. do 2 f_equal. destruct info as [i|]; [|done].
    cbn [valid_boot_info] in Ev. change (u16 sizeof_JoshBootInfo) with 16 in Ev.
    rewrite bool_decide_eq_false_2; [done|]. unfold JOSH_BOOT_INFO_MAGIC, JOSH_BOOT_INFO_VERSION in Ev. lia.
Qed.

(** ** An example *)
Definition power_on : kernel := {| k_vga := replicate 2000 0; k_row := 0; k_col := 0; k_serial := [] |}.

Lemma power_on_ok : screen_ok power_on.
Proof.
  unfold screen_ok, power_on, zlen, in_u32. cbn [k_vga k_row k_col]. rewrite length_replicate. split_and!; try (done || lia).
  apply Forall_replicate. unfold in_u16. lia.
Qed.

(** What the assembly stage stores for the kernel. *)
Definition example_info : list Z := [0x4a; 0x4f; 0x53; 0x48; 1; 0; 16; 0; 0x80; 1; 0; 0; 0; 0; 0; 0].

Lemma kmain_reports_contract_witness :
  exists k', kmain (boot_info_at example_info) power_on = Some (tt, k') /\
    k_serial k' = ["JOSHBIOS_KERNEL_ENTERED"; "JOSHBIOS_BOOTINFO_OK"; "JOSHBIOS_BOOT_OK"]%string.
Proof.
  destruct (kmain_reports_contract (boot_info_at example_info) power_on power_on_ok) as ([] & k' & Hrun & _ & Hs).
  exists k'. split; [exact Hrun|]. rewrite Hs. vm_compute. reflexivity.
Defined.

(** The text of a row of the screen. *)
Definition row_text (k : kernel) (row n : Z) : list Z :=
  map (fun v => v mod 256) (take (Z.to_nat n) (drop (Z.to_nat (80 * row)) (k_vga k))).

Lemma example_screen :
  option_map (fun r => (row_text (snd r) 0 8, row_text (snd r) 3 6, k_row (snd r)))
    (kmain (boot_info_at example_info) power_on) = Some (chars "JoshBIOS", chars "Kernel", 9).
Proof. vm_compute. reflexivity. Qed.
