(* ===== verification/Crc32.v ===== *)
(** * CRC-32 as the boot stack computes it

    The polynomial checksum is written three times in the source: the chainable
    [crc32_update] of boot/core/partition.c (GPT header and entry array),
    [crc32_bytes] of boot/core/health.c (boot-health records) and
    [josh_fw_crc32] of firmware/update.c (firmware images).  Each is translated
    as written; the lemmas show that they are the same function, that updates
    chain over chunks, and that corruption confined to four consecutive bytes
    always changes the checksum. *)
From S2P Require Import Prelude.

(** ** The three implementations *)

(** boot/core/partition.c: [mask = 0u - (crc & 1u)]. *)
Module PartitionCrc.
Definition bit_step (crc : Z) : Z :=
  let mask := u32 (0 - Z.land crc 1) in
  Z.lxor (Z.shiftr crc 1) (Z.land 0xEDB88320 mask).

Definition byte_step (crc byte : Z) : Z := Nat.iter 8 bit_step (Z.lxor crc byte).

Definition crc32_update (crc : Z) (data : list Z) : Z :=
  u32 (Z.lnot (foldl byte_step (u32 (Z.lnot crc)) data)).
End PartitionCrc.

(** boot/core/health.c: [mask = (uint32_t)-(int32_t)(crc & 1u)]. *)
Module HealthCrc.
Definition bit_step (crc : Z) : Z :=
  let mask := u32 (- Z.land crc 1) in
  Z.lxor (Z.shiftr crc 1) (Z.land 0xedb88320 mask).

Definition crc32_bytes (data : list Z) : Z :=
  u32 (Z.lnot (foldl (fun crc byte => Nat.iter 8 bit_step (Z.lxor crc byte)) 0xffffffff data)).
End HealthCrc.

(** firmware/update.c: the image pointer may be null. *)
Module FirmwareCrc.
Definition bit_step (crc : Z) : Z :=
  let mask := u32 (- Z.land crc 1) in
  Z.lxor (Z.shiftr crc 1) (Z.land 0xedb88320 mask).

Definition josh_fw_crc32 (data : option (list Z)) (length : Z) : option Z :=
  match data with
  | None => if negb (length =? 0) then Some 0 else Some (u32 (Z.lnot 0xffffffff))
  | Some buf =>
      let? bs := slice buf 0 length in
      Some (u32 (Z.lnot (foldl (fun crc byte => Nat.iter 8 bit_step (Z.lxor crc byte))
                               0xffffffff bs)))
  end.
End FirmwareCrc.

(** ** The common step *)
Definition poly : Z := 0xEDB88320.

Definition crc_bit (crc : Z) : Z :=
  Z.lxor (Z.shiftr crc 1) (if Z.odd crc then poly else 0).

Definition crc_bits (n : nat) (crc : Z) : Z := Nat.iter n crc_bit crc.

(** The register after a run of bytes, from the register [crc]. *)
Definition crc_run (crc : Z) (data : list Z) : Z :=
  foldl (fun c b => crc_bits 8 (Z.lxor c b)) crc data.

(** The checksum of a message. *)
Definition crc32 (data : list Z) : Z := u32 (Z.lnot (crc_run 0xffffffff data)).

Lemma land_one_odd c : Z.land c 1 = if Z.odd c then 1 else 0.
Proof.
  change 1 with (Z.ones 1) at 1. rewrite Z.land_ones by lia.
  change (2 ^ 1) with 2. by rewrite Zmod_odd.
Qed.

Lemma partition_bit_step c : PartitionCrc.bit_step c = crc_bit c.
Proof. unfold PartitionCrc.bit_step, crc_bit. rewrite land_one_odd. by destruct (Z.odd c). Qed.

Lemma health_bit_step c : HealthCrc.bit_step c = crc_bit c.
Proof. unfold HealthCrc.bit_step, crc_bit. rewrite land_one_odd. by destruct (Z.odd c). Qed.

Lemma iter_ext {A : Type} (f g : A -> A) n x :
  (forall y, f y = g y) -> Nat.iter n f x = Nat.iter n g x.
Proof. intros H. induction n; simpl; [done|]. by rewrite IHn, H. Qed.

Lemma foldl_ext2 {A B : Type} (f g : A -> B -> A) (l : list B) a :
  (forall x y, f x y = g x y) -> foldl f a l = foldl g a l.
Proof. intros H. revert a. induction l; simpl; intros; [done|]. by rewrite H, IHl. Qed.

Lemma crc32_update_run crc data :
  PartitionCrc.crc32_update crc data = u32 (Z.lnot (crc_run (u32 (Z.lnot crc)) data)).
Proof.
  unfold PartitionCrc.crc32_update, crc_run. do 2 f_equal. apply foldl_ext2. intros x y.
  apply iter_ext, partition_bit_step.
Qed.

Lemma crc32_bytes_crc32 data : HealthCrc.crc32_bytes data = crc32 data.
Proof.
  unfold HealthCrc.crc32_bytes, crc32, crc_run. do 2 f_equal. apply foldl_ext2. intros x y.
  apply iter_ext, health_bit_step.
Qed.

Lemma josh_fw_crc32_crc32 buf len bs :
  slice buf 0 len = Some bs -> FirmwareCrc.josh_fw_crc32 (Some buf) len = Some (crc32 bs).
Proof.
  intros H. unfold FirmwareCrc.josh_fw_crc32. rewrite H. f_equal.
  unfold crc32, crc_run. do 2 f_equal. apply foldl_ext2. intros x y.
  apply iter_ext. intros z. exact (health_bit_step z).
Qed.

(** ** Width *)
Lemma lxor_u32 a b : in_u32 a -> in_u32 b -> in_u32 (Z.lxor a b).
Proof.
  intros Ha Hb. unfold in_u32 in *.
  assert (Hn : 0 <= Z.lxor a b) by (apply Z.lxor_nonneg; lia).
  split; [done|]. destruct (Z.eq_dec (Z.lxor a b) 0) as [->|]; [lia|].
  apply Z.log2_lt_pow2; [lia|].
  eapply Z.le_lt_trans; [apply Z.log2_lxor; lia|].
  destruct (Z.eq_dec a 0) as [->|], (Z.eq_dec b 0) as [->|]; simpl;
    rewrite ?Z.max_lub_lt_iff; try lia; repeat split;
    try (apply Z.log2_lt_pow2; lia); simpl; lia.
Qed.

Lemma crc_bit_u32 c : in_u32 c -> in_u32 (crc_bit c).
Proof.
  intros Hc. unfold crc_bit. apply lxor_u32.
  - unfold in_u32 in *. rewrite Z.shiftr_div_pow2 by lia. change (2 ^ 1) with 2. zdm.
  - unfold poly. destruct (Z.odd c); word.
Qed.

Lemma crc_bits_S n c : crc_bits (S n) c = crc_bit (crc_bits n c).
Proof. done. Qed.

Lemma crc_bits_u32 n c : in_u32 c -> in_u32 (crc_bits n c).
Proof. intros Hc. induction n; [done|]. rewrite crc_bits_S. by apply crc_bit_u32. Qed.

Lemma crc_run_cons c b data : crc_run c (b :: data) = crc_run (crc_bits 8 (Z.lxor c b)) data.
Proof. done. Qed.

Lemma crc_run_u32 c data : in_u32 c -> bytes data -> in_u32 (crc_run c data).
Proof.
  intros Hc Hd. revert c Hc. induction Hd as [|b data Hb _ IH]; intros c Hc; [done|].
  rewrite crc_run_cons. apply IH, crc_bits_u32, lxor_u32; [done|]. word.
Qed.
#[export] Hint Resolve lxor_u32 crc_bits_u32 crc_run_u32 : josh.

Lemma u32_lnot_involutive c : in_u32 c -> u32 (Z.lnot (u32 (Z.lnot c))) = c.
Proof. intros Hc. unfold u32, in_u32, Z.lnot in *. zdm. Qed.

(** ** Chaining over chunks *)
Lemma crc_run_app c d1 d2 : crc_run c (d1 ++ d2) = crc_run (crc_run c d1) d2.
Proof. unfold crc_run. by rewrite foldl_app. Qed.

Lemma crc32_update_u32 crc data : in_u32 (PartitionCrc.crc32_update crc data).
Proof. apply u32_range. Qed.
Lemma crc32_u32 data : in_u32 (crc32 data).
Proof. apply u32_range. Qed.
#[export] Hint Resolve crc32_update_u32 crc32_u32 : josh.

Lemma crc32_update_app crc d1 d2 :
  in_u32 crc -> bytes d1 ->
  PartitionCrc.crc32_update (PartitionCrc.crc32_update crc d1) d2 =
  PartitionCrc.crc32_update crc (d1 ++ d2).
Proof.
  intros Hc Hd. rewrite !crc32_update_run, crc_run_app, u32_lnot_involutive; auto with josh.
Qed.

Lemma crc32_update_zero data : PartitionCrc.crc32_update 0 data = crc32 data.
Proof. by rewrite crc32_update_run. Qed.

(** ** Error detection

    One bit step can be undone: bit 31 of the result is the bit shifted out. *)
Definition crc_unbit (y : Z) : Z :=
  if Z.testbit y 31 then 2 * Z.lxor y poly + 1 else 2 * y.

Lemma crc_unbit_bit c : in_u32 c -> crc_unbit (crc_bit c) = c.
Proof.
  intros Hc. unfold crc_unbit, crc_bit, in_u32 in *.
  rewrite Z.shiftr_div_pow2 by lia. change (2 ^ 1) with 2.
  assert (Hk : 0 <= c / 2 < 2 ^ 31) by zdm.
  assert (Hb : Z.testbit (c / 2) 31 = false) by (apply (testbit_small _ 31); lia).
  pose proof (Z.div_mod c 2 ltac:(lia)) as Hd. rewrite Zmod_odd in Hd.
  rewrite Z.lxor_spec, Hb. destruct (Z.odd c).
  - change (Z.testbit poly 31) with true. cbn [xorb].
    rewrite Z.lxor_assoc, Z.lxor_nilpotent, Z.lxor_0_r. lia.
  - rewrite Z.bits_0, Z.lxor_0_r. cbn [xorb]. lia.
Qed.

Lemma crc_bits_inj n c d : in_u32 c -> in_u32 d -> crc_bits n c = crc_bits n d -> c = d.
Proof.
  intros Hc Hd. induction n as [|n IH]; [done|]. rewrite !crc_bits_S. intros H. apply IH.
  rewrite <- (crc_unbit_bit (crc_bits n c)), <- (crc_unbit_bit (crc_bits n d)) by auto with josh.
  by rewrite H.
Qed.

Lemma lxor_cancel a b c : Z.lxor a b = Z.lxor a c -> b = c.
Proof.
  intros H. apply (f_equal (Z.lxor a)) in H. by rewrite <- !Z.lxor_assoc, Z.lxor_nilpotent in H.
Qed.

Lemma crc_run_inj c d data :
  in_u32 c -> in_u32 d -> bytes data -> crc_run c data = crc_run d data -> c = d.
Proof.
  intros Hc Hd Hb. revert c d Hc Hd. induction Hb as [|b data Hb _ IH]; intros c d Hc Hd; [done|].
  rewrite !crc_run_cons. intros H.
  assert (in_u32 b) by word.
  apply IH, crc_bits_inj in H; auto with josh.
  rewrite (Z.lxor_comm c), (Z.lxor_comm d) in H. by apply lxor_cancel in H.
Qed.

(** The step is linear over GF(2). *)
Lemma crc_bit_lxor x y : crc_bit (Z.lxor x y) = Z.lxor (crc_bit x) (crc_bit y).
Proof.
  unfold crc_bit. rewrite Z.shiftr_lxor, <- !Z.bit0_odd, Z.lxor_spec.
  apply Z.bits_inj'. intros i Hi. rewrite !Z.lxor_spec.
  destruct (Z.testbit x 0), (Z.testbit y 0); cbn [xorb]; rewrite ?Z.bits_0;
    destruct (Z.testbit (x ≫ 1) i), (Z.testbit (y ≫ 1) i), (Z.testbit poly i); done.
Qed.

Lemma crc_bits_lxor n x y : crc_bits n (Z.lxor x y) = Z.lxor (crc_bits n x) (crc_bits n y).
Proof. induction n; [done|]. by rewrite !crc_bits_S, IHn, crc_bit_lxor. Qed.

(** Zero bits shifted out leave no trace. *)
Lemma crc_bits_mul n x : 0 <= x -> crc_bits n (2 ^ Z.of_nat n * x) = x.
Proof.
  revert x. induction n as [|n IH]; intros x Hx; [cbn; lia|].
  rewrite crc_bits_S.
  replace (2 ^ Z.of_nat (S n) * x) with (2 ^ Z.of_nat n * (2 * x))
    by (rewrite Nat2Z.inj_succ, Z.pow_succ_r by lia; lia).
  rewrite IH by lia. unfold crc_bit. rewrite Z.odd_mul, andb_false_l, Z.lxor_0_r.
  rewrite Z.shiftr_div_pow2 by lia. change (2 ^ 1) with 2. zdm.
Qed.

Lemma crc_bits_add n m c : crc_bits (n + m) c = crc_bits n (crc_bits m c).
Proof. induction n; [done|]. by rewrite Nat.add_succ_l, !crc_bits_S, IHn. Qed.

Lemma lxor_mul_256 b x : 0 <= x -> in_u8 b -> Z.lxor b (2 ^ 8 * x) = b + 2 ^ 8 * x.
Proof.
  intros Hx Hb. unfold in_u8 in Hb.
  rewrite <- lor_shiftl_add, Z.shiftl_mul_pow2, (Z.mul_comm x) by lia.
  apply Z.bits_inj'. intros i Hi. rewrite Z.lxor_spec, Z.lor_spec.
  destruct (Z.lt_ge_cases i 8).
  - rewrite Z.mul_comm, <- Z.shiftl_mul_pow2, Z.shiftl_spec_low by lia.
    by destruct (Z.testbit b i).
  - by rewrite (testbit_small b 8 i).
Qed.

(** Running over a word of bytes is one wide step on the word it spells. *)
Lemma crc_run_word c w :
  bytes w -> crc_run c w = crc_bits (8 * length w) (Z.lxor c (le_value w)).
Proof.
  intros Hw. revert c. induction Hw as [|b w Hb Hw IH]; intros c; [cbn; by rewrite Z.lxor_0_r|].
  rewrite crc_run_cons, IH. cbn [length le_value].
  pose proof (le_value_range w Hw) as [Hv _].
  rewrite Nat.mul_succ_r, crc_bits_add, <- lxor_mul_256 by done.
  rewrite <- Z.lxor_assoc, (crc_bits_lxor 8 (Z.lxor c b)).
  change (2 ^ 8) with (2 ^ Z.of_nat 8). by rewrite (crc_bits_mul 8 (le_value w)) by done.
Qed.

Lemma pow_le_u32 n v : 0 <= n <= 4 -> 0 <= v < 2 ^ (8 * n) -> in_u32 v.
Proof.
  intros Hn Hv. unfold in_u32. assert (2 ^ (8 * n) <= 2 ^ 32) by (apply Z.pow_le_mono_r; lia). lia.
Qed.

(** Different words of at most four bytes at the same place leave different registers. *)
Lemma crc_run_burst pre w1 w2 post :
  bytes pre -> bytes w1 -> bytes w2 -> bytes post ->
  length w1 = length w2 -> (length w1 <= 4)%nat ->
  crc_run 0xffffffff (pre ++ w1 ++ post) = crc_run 0xffffffff (pre ++ w2 ++ post) -> w1 = w2.
Proof.
  intros Hp H1 H2 Hq Hl H4 Heq.
  assert (Hr : in_u32 (crc_run 4294967295 pre)) by (apply crc_run_u32; [word|done]).
  rewrite !crc_run_app in Heq. apply crc_run_inj in Heq; auto with josh.
  rewrite (crc_run_word _ w1), (crc_run_word _ w2), Hl in Heq by done.
  pose proof (le_value_range w1 H1) as R1. pose proof (le_value_range w2 H2) as R2.
  assert (in_u32 (le_value w1)) by (apply (pow_le_u32 (zlen w1)); word).
  assert (in_u32 (le_value w2)) by (apply (pow_le_u32 (zlen w2)); word).
  apply crc_bits_inj in Heq; auto with josh. apply lxor_cancel in Heq. by apply le_value_inj.
Qed.

(** A change confined to at most four consecutive bytes changes the checksum. *)
Lemma crc32_detects_burst pre w1 w2 post :
  bytes pre -> bytes w1 -> bytes w2 -> bytes post ->
  length w1 = length w2 -> (length w1 <= 4)%nat -> w1 <> w2 ->
  crc32 (pre ++ w1 ++ post) <> crc32 (pre ++ w2 ++ post).
Proof.
  intros Hp H1 H2 Hq Hl H4 Hne Heq. apply Hne, (crc_run_burst pre w1 w2 post); try done.
  unfold crc32 in Heq. apply (f_equal (fun z => u32 (Z.lnot z))) in Heq.
  assert (in_u32 (crc_run 4294967295 pre)) by (apply crc_run_u32; [word|done]).
  rewrite !u32_lnot_involutive in Heq; [done|rewrite !crc_run_app; auto with josh..].
Qed.

(** The standard check value of CRC-32. *)
Example crc32_check_value : crc32 (chars "123456789") = 0xCBF43926.
Proof. vm_compute. reflexivity. Qed.

(** ** Code words

    A message followed by its checksum always leaves the same residue in the
    register, and only the checksum does. *)
Definition residue : Z := crc_bits 32 0xffffffff.

Lemma lxor_lnot_u32 c v : in_u32 c -> in_u32 v -> Z.lxor c v = 0xffffffff <-> v = u32 (Z.lnot c).
Proof.
  intros Hc Hv. assert (Hl : Z.lxor c (u32 (Z.lnot c)) = 0xffffffff).
  { unfold u32. rewrite <- Z.land_ones by lia. change 4294967295 with (Z.ones 32).
    apply Z.bits_inj'. intros i Hi. rewrite Z.lxor_spec, Z.land_spec, Z.lnot_spec by lia.
    destruct (Z.lt_ge_cases i 32).
    - rewrite Z.ones_spec_low by lia. by destruct (Z.testbit c i).
    - rewrite Z.ones_spec_high, (testbit_small c 32 i) by (done || lia). done. }
  split; [|by intros ->]. intros H. rewrite <- H in Hl. symmetry. by apply lxor_cancel in Hl.
Qed.

Lemma crc_run_codeword body v :
  bytes body -> in_u32 v ->
  crc_run 0xffffffff (body ++ le_bytes 4 v) = residue <-> v = crc32 body.
Proof.
  intros Hb Hv. rewrite crc_run_app.
  assert (Hr : in_u32 (crc_run 0xffffffff body)) by (apply crc_run_u32; [word|done]).
  rewrite (crc_run_word _ (le_bytes 4 v)), length_le_bytes, le_value_le_bytes by auto with josh.
  rewrite Z.mod_small by (unfold in_u32 in Hv; cbn; lia). change (8 * 4)%nat with 32%nat.
  unfold crc32. rewrite <- lxor_lnot_u32 by done. unfold residue. split; [|by intros ->].
  intros H. apply crc_bits_inj in H; [done| |word]. auto with josh.
Qed.

(** ** Properties *)

(** The three CRC-32 implementations of the repository compute the same
    function: the partition parser's, started from zero and fed the message in
    two pieces, the health record's and the firmware updater's. *)
Theorem crc_implementations_agree d1 d2 rest :
  bytes d1 ->
  PartitionCrc.crc32_update (PartitionCrc.crc32_update 0 d1) d2 = HealthCrc.crc32_bytes (d1 ++ d2) /\
  FirmwareCrc.josh_fw_crc32 (Some ((d1 ++ d2) ++ rest)) (zlen (d1 ++ d2)) =
    Some (HealthCrc.crc32_bytes (d1 ++ d2)).
Proof.
  intros Hb. rewrite (crc32_bytes_crc32 (d1 ++ d2)). split.
  - rewrite (crc32_update_app 0 d1 d2) by (word || done). apply crc32_update_zero.
  - apply josh_fw_crc32_crc32. exact (slice_full [] (d1 ++ d2) rest).
Qed.

Lemma crc_implementations_agree_witness :
  PartitionCrc.crc32_update (PartitionCrc.crc32_update 0 (chars "1234")) (chars "56789") =
    HealthCrc.crc32_bytes (chars "1234" ++ chars "56789") /\
  FirmwareCrc.josh_fw_crc32 (Some ((chars "1234" ++ chars "56789") ++ [0])) (zlen (chars "1234" ++ chars "56789")) =
    Some (HealthCrc.crc32_bytes (chars "1234" ++ chars "56789")).
Proof.
  apply (crc_implementations_agree (chars "1234") (chars "56789") [0]).
  repeat constructor; vm_compute; discriminate.
Defined.

(** The firmware image checksum detects every change confined to four
    consecutive bytes: two images that differ only there never share it. *)
Theorem fw_crc_detects_burst pre w1 w2 post :
  bytes pre -> bytes w1 -> bytes w2 -> bytes post ->
  length w1 = length w2 -> (length w1 <= 4)%nat -> w1 <> w2 ->
  FirmwareCrc.josh_fw_crc32 (Some (pre ++ w1 ++ post)) (zlen (pre ++ w1 ++ post)) <>
  FirmwareCrc.josh_fw_crc32 (Some (pre ++ w2 ++ post)) (zlen (pre ++ w2 ++ post)).
Proof.
  intros Hp H1 H2 Hq Hl H4 Hne.
  assert (Hfull : forall l : list Z, slice l 0 (zlen l) = Some l).
  { intros l. pose proof (slice_full [] l []) as H. by rewrite app_nil_r in H. }
  rewrite !(josh_fw_crc32_crc32 _ _ _ (Hfull _)). intros [= Heq].
  by apply (crc32_detects_burst pre w1 w2 post).
Qed.

Lemma fw_crc_detects_burst_witness :
  FirmwareCrc.josh_fw_crc32 (Some ([1; 2] ++ [3] ++ [4])) (zlen ([1; 2] ++ [3] ++ [4])) <>
  FirmwareCrc.josh_fw_crc32 (Some ([1; 2] ++ [7] ++ [4])) (zlen ([1; 2] ++ [7] ++ [4])).
Proof.
  apply (fw_crc_detects_burst [1; 2] [3] [7] [4]).
  - repeat constructor; vm_compute; discriminate.
  - repeat constructor; vm_compute; discriminate.
  - repeat constructor; vm_compute; discriminate.
  - repeat constructor; vm_compute; discriminate.
  - reflexivity.
  - vm_compute. lia.
  - discriminate.
Defined.
