(* ===== verification/Runtime32.v ===== *)
(** * Freestanding runtime of the 32-bit stage 2 (boot/runtime32.c)

    The byte loops [memcpy], [memset] and [memcmp] and the shift-subtract
    64-bit division behind [__udivdi3] and [__umoddi3].  Buffers are the bytes
    from the pointer on; running past one is [None].  The theorems state what
    the loops compute: the division is the Euclidean one for every pair of
    64-bit operands, including denominators above 2^63 where the shifted
    remainder overflows the register. *)
From S2P Require Import Prelude.

(** ** Byte loops *)
Fixpoint memcpy (destination source : list Z) (length : nat) {struct length} : option (list Z) :=
  match length with
  | O => Some destination
  | S n =>
      match destination, source with
      | _ :: d, b :: s => let? rest := memcpy d s n in Some (b :: rest)
      | _, _ => None
      end
  end.

Fixpoint memset (destination : list Z) (value : Z) (length : nat) {struct length} : option (list Z) :=
  match length with
  | O => Some destination
  | S n =>
      match destination with
      | _ :: d => let? rest := memset d value n in Some (u8 value :: rest)
      | [] => None
      end
  end.

Fixpoint memcmp (left right : list Z) (length : nat) {struct length} : option Z :=
  match length with
  | O => Some 0
  | S n =>
      match left, right with
      | a :: l, b :: r => if negb (a =? b) then Some (a - b) else memcmp l r n
      | _, _ => None
      end
  end.

(** ** 64-bit division *)
Record divstate := { quotient : Z; rem : Z; bit : Z }.

Definition udiv_step (numerator denominator : Z) (s : divstate) : divstate :=
  let carry := u32 (Z.shiftr (rem s) 63) in
  let r := Z.lor (u64 (Z.shiftl (rem s) 1))
                 (if negb (Z.land numerator (bit s) =? 0) then 1 else 0) in
  if negb (carry =? 0) || (r >=? denominator)
  then {| quotient := Z.lor (quotient s) (bit s);
          rem := u64 (r - denominator);
          bit := Z.shiftr (bit s) 1 |}
  else {| quotient := quotient s; rem := r; bit := Z.shiftr (bit s) 1 |}.

Definition udivmod64 (numerator denominator : Z) : Z * Z :=
  if denominator =? 0 then (0, 0)
  else
    let s := Nat.iter 64 (udiv_step numerator denominator)
               {| quotient := 0; rem := 0; bit := Z.shiftl 1 63 |} in
    (quotient s, rem s).

Definition __udivdi3 (numerator denominator : Z) : Z := (udivmod64 numerator denominator).1.

Definition __umoddi3 (numerator denominator : Z) : Z := (udivmod64 numerator denominator).2.

(** ** What the byte loops compute *)
Lemma memcpy_take_drop d s n :
  (n <= length d)%nat -> (n <= length s)%nat -> memcpy d s n = Some (take n s ++ drop n d).
Proof.
  revert d s. induction n as [|n IH]; intros d s Hd Hs; [done|].
  destruct d, s; simpl in *; try lia. by rewrite IH by lia.
Qed.

Lemma memset_fill d v n :
  (n <= length d)%nat -> memset d v n = Some (replicate n (u8 v) ++ drop n d).
Proof.
  revert d. induction n as [|n IH]; intros d Hd; [done|].
  destruct d; simpl in *; [lia|]. by rewrite IH by lia.
Qed.

Lemma memcmp_defined l r n :
  (n <= length l)%nat -> (n <= length r)%nat -> exists z, memcmp l r n = Some z.
Proof.
  revert l r. induction n as [|n IH]; intros l r Hl Hr; [by eexists|].
  destruct l, r; simpl in *; try lia. destruct (negb _); [by eexists|]. apply IH; lia.
Qed.

Lemma memcmp_zero l r n :
  (n <= length l)%nat -> (n <= length r)%nat ->
  memcmp l r n = Some 0 <-> take n l = take n r.
Proof.
  revert l r. induction n as [|n IH]; intros l r Hl Hr; [done|].
  destruct l as [|a l], r as [|b r]; simpl in *; try lia.
  destruct (negb (a =? b)) eqn:E.
  - split; intros; simplify_eq; lia.
  - rewrite IH by lia. assert (a = b) as -> by lia. split; [by intros ->|by intros [= ->]].
Qed.

(** [Z.eqb] on the outcome of [memcmp], as the callers test it. *)
Lemma memcmp_eqb l r n z :
  length l = n -> length r = n -> memcmp l r n = Some z -> (z =? 0) = bool_decide (l = r).
Proof.
  intros Hl Hr H. destruct (z =? 0) eqn:E; symmetry.
  - apply bool_decide_eq_true. apply Z.eqb_eq in E as ->.
    apply memcmp_zero in H; [|lia..]. rewrite !take_ge in H by lia. done.
  - apply bool_decide_eq_false. intros ->.
    assert (Hz : memcmp r r n = Some 0) by (rewrite memcmp_zero by lia; done).
    rewrite H in Hz. by simplify_eq.
Qed.

(** ** The division loop *)

(** After the loop has consumed the bits of the numerator above [k]. *)
Definition div_inv (n d k : Z) (s : divstate) : Prop :=
  quotient s = 2 ^ k * ((n / 2 ^ k) / d) /\ rem s = (n / 2 ^ k) mod d /\
  bit s = if k =? 0 then 0 else 2 ^ (k - 1).

Lemma land_pow2_test n k : 0 <= k -> negb (Z.land n (2 ^ k) =? 0) = Z.testbit n k.
Proof.
  intros Hk. destruct (Z.testbit n k) eqn:E.
  - apply negb_true_iff, Z.eqb_neq. intros H.
    apply (f_equal (fun z => Z.testbit z k)) in H.
    rewrite Z.land_spec, Z.pow2_bits_true, E, Z.bits_0 in H by lia. done.
  - apply negb_false_iff, Z.eqb_eq, Z.bits_inj'. intros i Hi.
    rewrite Z.land_spec, Z.bits_0, Z.pow2_bits_eqb by lia.
    destruct (k =? i) eqn:Ek; [|by rewrite andb_false_r].
    apply Z.eqb_eq in Ek as <-. by rewrite E.
Qed.

Lemma div_pow2_step n k :
  0 <= n -> 0 < k -> n / 2 ^ (k - 1) = 2 * (n / 2 ^ k) + Z.b2z (Z.testbit n (k - 1)).
Proof.
  intros Hn Hk. rewrite Z.testbit_spec' by lia.
  replace (2 ^ k) with (2 ^ (k - 1) * 2)
    by (rewrite Z.mul_comm, <- Z.pow_succ_r by lia; f_equal; lia).
  assert (0 < 2 ^ (k - 1)) by (apply Z.pow_pos_nonneg; lia).
  rewrite <- Z.div_div by lia. apply Z.div_mod. lia.
Qed.

(** One shift-subtract step on a remainder below the denominator. *)
Lemma shift_subtract r b d :
  0 <= r < d -> in_u64 d -> 0 <= b <= 1 ->
  let r2 := Z.lor (u64 (Z.shiftl r 1)) b in
  (negb (u32 (Z.shiftr r 63) =? 0) || (r2 >=? d)) = (2 * r + b >=? d) /\
  (d <= 2 * r + b -> u64 (r2 - d) = 2 * r + b - d) /\
  (2 * r + b < d -> r2 = 2 * r + b).
Proof.
  intros Hr Hd Hb r2. unfold in_u64 in *.
  assert (Hr2 : r2 = u64 (2 * r) + b).
  { subst r2. rewrite Z.shiftl_mul_pow2, Z.mul_comm by lia. change (2 ^ 1) with 2.
    set (y := u64 (2 * r) / 2).
    assert (Hx : u64 (2 * r) = 2 ^ 1 * y) by (unfold y, u64; change (2 ^ 1) with 2; zdm).
    rewrite Hx, Z.lor_comm, (Z.mul_comm (2 ^ 1) y), <- Z.shiftl_mul_pow2 by lia.
    rewrite lor_shiftl_add, Z.shiftl_mul_pow2 by lia. lia. }
  assert (Hc : u32 (Z.shiftr r 63) = if r <? 2 ^ 63 then 0 else 1).
  { rewrite Z.shiftr_div_pow2 by lia. unfold u32. destruct (r <? 2 ^ 63) eqn:E; zdm. }
  rewrite Hc, Hr2. unfold u64. destruct (r <? 2 ^ 63) eqn:E.
  - rewrite (Z.mod_small (2 * r)) by lia. split; [cbn [negb Z.eqb orb]; lia|].
    split; [|lia]. intros ?. rewrite Z.mod_small by lia. lia.
  - assert ((2 * r) mod 2 ^ 64 = 2 * r - 2 ^ 64) as -> by zdm.
    split; [cbn [negb Z.eqb orb]; lia|]. split; [|lia]. intros ?.
    replace (2 * r - 2 ^ 64 + b - d) with (2 * r + b - d + (-1) * 2 ^ 64) by lia.
    rewrite Z.mod_add, Z.mod_small by lia. lia.
Qed.

Lemma udiv_step_inv n d k s :
  in_u64 n -> in_u64 d -> d <> 0 -> 0 < k <= 64 ->
  div_inv n d k s -> div_inv n d (k - 1) (udiv_step n d s).
Proof.
  intros Hn Hd Hd0 Hk (Hq & Hr & Hb). unfold in_u64 in *.
  rewrite (proj2 (Z.eqb_neq k 0)) in Hb by lia.
  assert (Hrd : 0 <= rem s < d) by (rewrite Hr; apply Z.mod_pos_bound; lia).
  set (b := Z.b2z (Z.testbit n (k - 1))).
  assert (Hb01 : 0 <= b <= 1) by (unfold b; destruct (Z.testbit _ _); simpl; lia).
  pose proof (div_pow2_step n k ltac:(lia) ltac:(lia)) as Hstep. fold b in Hstep.
  pose proof (shift_subtract (rem s) b d Hrd Hd Hb01) as (Hcond & Hsub & Hkeep).
  assert (Hbit : Z.shiftr (bit s) 1 = if k - 1 =? 0 then 0 else 2 ^ (k - 1 - 1)).
  { rewrite Hb, Z.shiftr_div_pow2 by lia. change (2 ^ 1) with 2.
    destruct (k - 1 =? 0) eqn:E; [replace (k - 1) with 0 by lia; done|].
    replace (2 ^ (k - 1)) with (2 ^ (k - 1 - 1) * 2)
      by (rewrite Z.mul_comm, <- Z.pow_succ_r by lia; f_equal; lia).
    apply Z.div_mul. lia. }
  assert (Hpk : 2 ^ k = 2 * 2 ^ (k - 1)) by (rewrite <- Z.pow_succ_r by lia; f_equal; lia).
  assert (0 < 2 ^ (k - 1)) by (apply Z.pow_pos_nonneg; lia).
  unfold udiv_step. rewrite Hb, land_pow2_test by lia.
  assert (Hbz : (if Z.testbit n (k - 1) then 1 else 0) = b)
    by (unfold b; by destruct (Z.testbit _ _)).
  rewrite Hbz, Hcond. rewrite Hb in Hbit.
  set (N := n / 2 ^ k) in *. pose proof (Z.div_mod N d ltac:(lia)) as HN. rewrite <- Hr in HN.
  destruct (2 * rem s + b >=? d) eqn:E; repeat split; cbn [quotient rem bit];
    try (rewrite Hbit; reflexivity); rewrite Hstep.
  - rewrite Hq, Hpk.
    replace ((2 * N + b) / d) with (2 * (N / d) + 1)
      by (apply (Z.div_unique _ _ _ (2 * rem s + b - d)); lia).
    rewrite Z.lor_comm, Z.mul_comm, <- Hpk, <- (Z.shiftl_mul_pow2 _ k), lor_shiftl_add by lia. lia.
  - rewrite Hsub by lia. apply (Z.mod_unique _ _ (2 * (N / d) + 1)); lia.
  - rewrite Hq, Hpk.
    replace ((2 * N + b) / d) with (2 * (N / d))
      by (apply (Z.div_unique _ _ _ (2 * rem s + b)); lia). lia.
  - rewrite Hkeep by lia. apply (Z.mod_unique _ _ (2 * (N / d))); lia.
Qed.

Lemma udiv_iter_inv n d m s :
  in_u64 n -> in_u64 d -> d <> 0 -> (m <= 64)%nat ->
  div_inv n d 64 s -> div_inv n d (64 - Z.of_nat m) (Nat.iter m (udiv_step n d) s).
Proof.
  intros Hn Hd Hd0 Hm Hs. induction m as [|m IH]; [done|].
  change (Nat.iter (S m) (udiv_step n d) s) with (udiv_step n d (Nat.iter m (udiv_step n d) s)).
  replace (64 - Z.of_nat (S m)) with (64 - Z.of_nat m - 1) by lia.
  apply udiv_step_inv; try done; [lia|]. apply IH. lia.
Qed.

Lemma udivmod64_spec n d :
  in_u64 n -> in_u64 d -> d <> 0 -> udivmod64 n d = (n / d, n mod d).
Proof.
  intros Hn Hd Hd0. unfold udivmod64. rewrite (proj2 (Z.eqb_neq d 0) Hd0).
  destruct (udiv_iter_inv n d 64 {| quotient := 0; rem := 0; bit := Z.shiftl 1 63 |})
    as (Hq & Hr & _); try done.
  - unfold in_u64 in Hn. unfold div_inv. rewrite (Z.div_small n) by lia.
    rewrite Z.div_small, Z.mod_small by (unfold in_u64 in *; lia). done.
  - cbv zeta. rewrite Hq, Hr. change (64 - Z.of_nat 64) with 0.
    by rewrite Z.pow_0_r, Z.div_1_r, Z.mul_1_l.
Qed.

(** ** Properties *)

(** The 64-bit division helpers the compiler calls on the 32-bit target are
    exact for every numerator and every non-zero denominator, and return zero for
    a zero denominator. *)
Theorem udiv_is_euclidean n d :
  in_u64 n -> in_u64 d ->
  __udivdi3 n d = (if d =? 0 then 0 else n / d) /\ __umoddi3 n d = (if d =? 0 then 0 else n mod d).
Proof.
  intros Hn Hd. unfold __udivdi3, __umoddi3. destruct (d =? 0) eqn:E.
  - assert (d = 0) as -> by lia. done.
  - by rewrite udivmod64_spec by (done || lia).
Qed.

Lemma udiv_is_euclidean_witness :
  __udivdi3 (2 ^ 64 - 1) (2 ^ 63 + 5) = 1 /\ __umoddi3 (2 ^ 64 - 1) (2 ^ 63 + 5) = 2 ^ 63 - 6.
Proof.
  apply (udiv_is_euclidean (2 ^ 64 - 1) (2 ^ 63 + 5)).
  - vm_compute. split; [discriminate|reflexivity].
  - vm_compute. split; [discriminate|reflexivity].
Defined.

(** The byte loops do what their callers rely on, for buffers of at least
    [n] bytes: [memcpy] and [memset] replace exactly the first [n] bytes of the
    destination, and [memcmp] is zero exactly when the first [n] bytes agree. *)
Theorem memory_functions_spec d s v n :
  (n <= length d)%nat -> (n <= length s)%nat ->
  memcpy d s n = Some (take n s ++ drop n d) /\
  memset d v n = Some (replicate n (u8 v) ++ drop n d) /\
  (memcmp d s n = Some 0 <-> take n d = take n s).
Proof. intros Hd Hs. split; [by apply memcpy_take_drop|]. split; [by apply memset_fill|by apply memcmp_zero]. Qed.

Lemma memory_functions_spec_witness :
  memcpy [1; 2; 3] [7; 8] 2 = Some [7; 8; 3] /\ memset [1; 2; 3] 256 2 = Some [0; 0; 3] /\
  (memcmp [1; 2; 3] [7; 8] 2 = Some 0 <-> [1; 2] = [7; 8]).
Proof. apply (memory_functions_spec [1; 2; 3] [7; 8] 256 2); vm_compute; lia. Defined.
