(* ===== verification/Block.v ===== *)
(** * Block devices (boot/core/block.h)

    A device is its sector count and a read callback; the callback's context
    is folded into the function, so a device is a snapshot of the medium.
    [josh_block_read] is the only gate through which the partition and file
    system code reads a device.  [JoshBlockDevice] is the contract of the
    callback the clients rely on, and [disk_device] the instance for a medium
    given sector by sector. *)
From S2P Require Import Prelude.

Definition JOSH_BLOCK_SECTOR_SIZE : Z := 512.

Record josh_block_device_t := {
  bd_sector_count : Z;
  bd_read : option (Z -> Z -> option (list Z))
}.

(** [Some data]: the call returned 0 and the buffer now holds [data];
    [None]: the call returned a non-zero value.  The pointers may be null. *)
Definition josh_block_read (device : option josh_block_device_t)
    (lba sector_count : Z) (buffer : option (list Z)) : option (list Z) :=
  match device with
  | None => None
  | Some d =>
      match bd_read d, buffer with
      | Some rd, Some _ =>
          if sector_count =? 0 then None
          else if lba >=? bd_sector_count d then None
          else if sector_count >? u64 (bd_sector_count d - lba) then None
          else rd lba sector_count
      | _, _ => None
      end
  end.

(** A local buffer whose contents are not read before the call fills it. *)
Definition uninit : option (list Z) := Some [].

(** The contract of a read callback: a successful read fills the whole buffer. *)
Class JoshBlockDevice (d : josh_block_device_t) : Prop := {
  device_size_u64 : in_u64 (bd_sector_count d);
  device_read_full rd lba n data :
    0 < n -> bd_read d = Some rd -> rd lba n = Some data -> zlen data = 512 * n /\ bytes data
}.

(** ** Reading through the gate *)
Lemma josh_block_read_inv d lba n buf data :
  josh_block_read (Some d) lba n buf = Some data ->
  exists rd, bd_read d = Some rd /\ rd lba n = Some data /\
    n <> 0 /\ lba < bd_sector_count d /\ n <= u64 (bd_sector_count d - lba).
Proof.
  unfold josh_block_read. intros H. steps H. exists o. repeat split; try done; lia.
Qed.

Lemma josh_block_read_range d `{!JoshBlockDevice d} lba n buf data :
  in_u64 lba -> 0 <= n -> josh_block_read (Some d) lba n buf = Some data ->
  0 < n /\ lba + n <= bd_sector_count d.
Proof.
  intros Hl Hn (rd&_&_&Hn0&Hlt&Hle)%josh_block_read_inv.
  pose proof device_size_u64 as Hs. rewrite u64_id in Hle by word. lia.
Qed.

Lemma josh_block_read_full d `{!JoshBlockDevice d} lba n buf data :
  0 <= n -> josh_block_read (Some d) lba n buf = Some data ->
  zlen data = 512 * n /\ bytes data.
Proof. intros Hn (rd&Hrd&H&?&_)%josh_block_read_inv. eapply device_read_full; eauto. lia. Qed.

(** The single-sector read every client performs. *)
Definition read_sector (d : josh_block_device_t) (lba : Z) : option (list Z) :=
  josh_block_read (Some d) lba 1 uninit.
Arguments read_sector : simpl never.
Arguments josh_block_read : simpl never.

Lemma read_sector_full d `{!JoshBlockDevice d} lba data :
  read_sector d lba = Some data -> zlen data = 512 /\ bytes data.
Proof. intros H. by apply josh_block_read_full in H. Qed.

(** ** Media given sector by sector *)
Definition disk_read (content : Z -> list Z) (lba n : Z) : option (list Z) :=
  Some (concat (map content (seqZ lba n))).

Definition disk_device (sectors : Z) (content : Z -> list Z) : josh_block_device_t :=
  {| bd_sector_count := sectors; bd_read := Some (disk_read content) |}.

Definition good_sector (s : list Z) : Prop := zlen s = 512 /\ bytes s.

Lemma concat_sectors content (ls : list Z) :
  (forall lba, good_sector (content lba)) ->
  zlen (concat (map content ls)) = 512 * zlen ls /\ bytes (concat (map content ls)).
Proof.
  intros Hg. induction ls as [|x ls [IHl IHb]]; [done|].
  destruct (Hg x) as [Hl Hb]. cbn. split.
  - unfold zlen in *. rewrite length_app. cbn [length]. lia.
  - by apply Forall_app.
Qed.

Lemma disk_device_ok sectors content :
  in_u64 sectors -> (forall lba, good_sector (content lba)) ->
  JoshBlockDevice (disk_device sectors content).
Proof.
  intros Hs Hg. split; [done|]. cbn. intros rd lba n data Hn [= <-] [= <-].
  destruct (concat_sectors content (seqZ lba n) Hg) as [Hl Hb]. split; [|done].
  rewrite Hl. unfold zlen. rewrite length_seqZ. lia.
Qed.

Lemma disk_read_sector sectors content lba :
  in_u64 sectors -> 0 <= lba < sectors ->
  read_sector (disk_device sectors content) lba = Some (content lba).
Proof.
  intros Hs Hl. unfold read_sector, josh_block_read, uninit, disk_device. cbn [bd_read bd_sector_count].
  rewrite u64_id by word. cbn [Z.eqb].
  rewrite (Z.geb_leb lba), (proj2 (Z.leb_gt sectors lba)) by lia.
  rewrite (Z.gtb_ltb 1), (proj2 (Z.ltb_ge _ 1)) by lia.
  unfold disk_read. replace (seqZ lba 1) with [lba] by (rewrite seqZ_cons by lia; done).
  cbn. by rewrite app_nil_r.
Qed.

(** ** Executable check of a sector, for concrete media *)
Definition good_sectorb (s : list Z) : bool :=
  (zlen s =? 512) && forallb (fun b => (0 <=? b) && (b <? 256)) s.

Lemma good_sectorb_ok s : good_sectorb s = true -> good_sector s.
Proof.
  unfold good_sectorb. intros [Hl Hb]%andb_true_iff. split; [lia|].
  apply Forall_forall. intros x Hx. rewrite forallb_forall in Hb.
  apply list_elem_of_In, Hb in Hx. word.
Qed.

(** Sparse media: the listed sectors, zero elsewhere. *)
Definition zero_sector : list Z := replicate 512 0.

Fixpoint sparse (ss : list (Z * list Z)) (lba : Z) : list Z :=
  match ss with
  | [] => zero_sector
  | (k, s) :: rest => if lba =? k then s else sparse rest lba
  end.

Lemma sparse_good ss : forallb (fun e => good_sectorb e.2) ss = true ->
  forall lba, good_sector (sparse ss lba).
Proof.
  induction ss as [|[k s] ss IH]; cbn.
  - intros _ lba. by apply good_sectorb_ok.
  - intros [Hs Hr]%andb_true_iff lba. destruct (lba =? k); [by apply good_sectorb_ok|by apply IH].
Qed.

(** Store [bs] at offset [off] of a buffer. *)
Definition put (off : nat) (bs buf : list Z) : list Z :=
  take off buf ++ bs ++ drop (off + length bs) buf.

Definition sparse_device (sectors : Z) (ss : list (Z * list Z)) : josh_block_device_t :=
  disk_device sectors (sparse ss).

Lemma sparse_device_ok sectors ss :
  (0 <=? sectors) && (sectors <? 2 ^ 64) = true ->
  forallb (fun e => good_sectorb e.2) ss = true -> JoshBlockDevice (sparse_device sectors ss).
Proof. intros Hn Hs. apply disk_device_ok; [word|]. by apply sparse_good. Qed.
