(* ===== verification/Partition.v ===== *)
(** * Partition discovery (boot/core/partition.c, boot/core/partition.h)

    [josh_partition_find_boot] reads sector 0, walks the four MBR entries and
    either picks an MBR partition or hands over to [parse_gpt], which checks
    the GPT header and entry-array checksums before it takes the first
    non-empty entry.  [josh_partition_range_is_unallocated] decides whether raw
    sectors may be written outside every partition.  All functions read the
    device through [josh_block_read] only. *)
From S2P Require Import Prelude Crc32 Runtime32 Block.

Inductive josh_partition_status_t :=
| JOSH_PARTITION_OK
| JOSH_PARTITION_NO_TABLE
| JOSH_PARTITION_NO_USABLE_PARTITION
| JOSH_PARTITION_IO_ERROR
| JOSH_PARTITION_CORRUPT
| JOSH_PARTITION_UNSUPPORTED.

Inductive josh_partition_scheme_t :=
| JOSH_PARTITION_SCHEME_NONE
| JOSH_PARTITION_SCHEME_MBR
| JOSH_PARTITION_SCHEME_GPT.

Record josh_partition_t := {
  pt_scheme : josh_partition_scheme_t;
  pt_first_lba : Z;
  pt_sector_count : Z;
  pt_mbr_type : Z;
  pt_gpt_type_guid : list Z;
  pt_gpt_unique_guid : list Z
}.

Definition MBR_SIGNATURE_OFFSET : Z := 510.
Definition MBR_PARTITION_OFFSET : Z := 446.
Definition MBR_PARTITION_SIZE : Z := 16.
Definition MBR_PARTITION_COUNT : nat := 4.
Definition GPT_HEADER_LBA : Z := 1.
Definition GPT_HEADER_MIN_SIZE : Z := 92.
Definition GPT_SIGNATURE : list Z := chars "EFI PART".

Definition read_le32 (buf : list Z) (off : Z) : option Z := rd32 buf off.
Definition read_le64 (buf : list Z) (off : Z) : option Z := rd64 buf off.

Fixpoint bytes_all_zero (buf : list Z) (off : Z) (length : nat) : option bool :=
  match length with
  | O => Some true
  | S n =>
      let? b := get8 buf off in
      if negb (b =? 0) then Some false else bytes_all_zero buf (off + 1) n
  end.

Definition range_valid (device : josh_block_device_t) (first count : Z) : bool :=
  if (count =? 0) || (first >=? bd_sector_count device) then false
  else count <=? u64 (bd_sector_count device - first).

(** [memset(buf + off, value, n)]. *)
Definition memset_at (buf : list Z) (off value : Z) (n : nat) : option (list Z) :=
  let? tail := memset (drop (Z.to_nat off) buf) value n in
  Some (take (Z.to_nat off) buf ++ tail).

(** The fields of the GPT header the code reads. *)
Record gpt_header := {
  gh_header_size : Z;
  gh_expected_header_crc : Z;
  gh_current_lba : Z;
  gh_first_usable : Z;
  gh_last_usable : Z;
  gh_entries_lba : Z;
  gh_entry_count : Z;
  gh_entry_size : Z;
  gh_expected_entries_crc : Z
}.

Definition read_gpt_header (header : list Z) : option gpt_header :=
  let? header_size := read_le32 header 12 in
  let? expected_header_crc := read_le32 header 16 in
  let? current_lba := read_le64 header 24 in
  let? first_usable := read_le64 header 40 in
  let? last_usable := read_le64 header 48 in
  let? entries_lba := read_le64 header 72 in
  let? entry_count := read_le32 header 80 in
  let? entry_size := read_le32 header 84 in
  let? expected_entries_crc := read_le32 header 88 in
  Some {| gh_header_size := header_size;
          gh_expected_header_crc := expected_header_crc;
          gh_current_lba := current_lba;
          gh_first_usable := first_usable;
          gh_last_usable := last_usable;
          gh_entries_lba := entries_lba;
          gh_entry_count := entry_count;
          gh_entry_size := entry_size;
          gh_expected_entries_crc := expected_entries_crc |}.

(** The header checksum: computed over a copy whose own checksum field is zero. *)
Definition gpt_header_crc (header : list Z) (header_size : Z) : option Z :=
  let? copied := memcpy (replicate 512 0) header (Z.to_nat header_size) in
  let? header_copy := memset_at copied 16 0 4 in
  let? covered := slice header_copy 0 header_size in
  Some (PartitionCrc.crc32_update 0 covered).

(** The checksum loop over the sectors of the entry array. *)
Fixpoint gpt_entries_crc (device : josh_block_device_t) (entries_lba : Z)
    (sectors : nat) (i bytes_remaining entries_crc : Z) {struct sectors}
    : res josh_partition_status_t Z :=
  match sectors with
  | O => Ok entries_crc
  | S n =>
      match josh_block_read (Some device) (u64 (entries_lba + i)) 1 uninit with
      | None => Err JOSH_PARTITION_IO_ERROR
      | Some sector =>
          let chunk := if bytes_remaining >? JOSH_BLOCK_SECTOR_SIZE
                       then JOSH_BLOCK_SECTOR_SIZE else bytes_remaining in
          load data := slice sector 0 chunk in
          gpt_entries_crc device entries_lba n (i + 1) (u64 (bytes_remaining - chunk))
            (PartitionCrc.crc32_update entries_crc data)
      end
  end.

(** The search for the first non-empty entry. *)
Fixpoint gpt_scan (device : josh_block_device_t) (h : gpt_header)
    (entries_per_sector : Z) (n : nat) (index : Z) {struct n}
    : res josh_partition_status_t josh_partition_t :=
  match n with
  | O => Err JOSH_PARTITION_NO_USABLE_PARTITION
  | S n' =>
      let sector_lba := u64 (gh_entries_lba h + index / entries_per_sector) in
      let offset := u32 (index mod entries_per_sector * gh_entry_size h) in
      match josh_block_read (Some device) sector_lba 1 uninit with
      | None => Err JOSH_PARTITION_IO_ERROR
      | Some sector =>
          load unused := bytes_all_zero sector offset 16 in
          if unused then gpt_scan device h entries_per_sector n' (index + 1)
          else
            load first := read_le64 sector (offset + 32) in
            load last := read_le64 sector (offset + 40) in
            if (first >? last) || (first <? gh_first_usable h) || (last >? gh_last_usable h)
            then Err JOSH_PARTITION_CORRUPT
            else
              load type_guid := slice sector offset 16 in
              load unique_guid := slice sector (offset + 16) 16 in
              Ok {| pt_scheme := JOSH_PARTITION_SCHEME_GPT;
                    pt_first_lba := first;
                    pt_sector_count := u64 (last - first + 1);
                    pt_mbr_type := 0;
                    pt_gpt_type_guid := type_guid;
                    pt_gpt_unique_guid := unique_guid |}
      end
  end.

Definition parse_gpt (device : josh_block_device_t)
    : res josh_partition_status_t josh_partition_t :=
  match josh_block_read (Some device) GPT_HEADER_LBA 1 uninit with
  | None => Err JOSH_PARTITION_IO_ERROR
  | Some header =>
      load signature_diff := memcmp header GPT_SIGNATURE 8 in
      if negb (signature_diff =? 0) then Err JOSH_PARTITION_CORRUPT
      else
        load h := read_gpt_header header in
        if (gh_header_size h <? GPT_HEADER_MIN_SIZE)
           || (gh_header_size h >? JOSH_BLOCK_SECTOR_SIZE)
        then Err JOSH_PARTITION_CORRUPT
        else if negb (gh_current_lba h =? GPT_HEADER_LBA)
                || (gh_first_usable h >? gh_last_usable h)
                || (gh_last_usable h >=? bd_sector_count device)
        then Err JOSH_PARTITION_CORRUPT
        else if (gh_entry_count h =? 0) || (gh_entry_count h >? 4096)
                || (gh_entry_size h <? 128) || (gh_entry_size h >? JOSH_BLOCK_SECTOR_SIZE)
                || negb (JOSH_BLOCK_SECTOR_SIZE mod gh_entry_size h =? 0)
        then Err JOSH_PARTITION_UNSUPPORTED
        else
          load header_crc := gpt_header_crc header (gh_header_size h) in
          if negb (header_crc =? gh_expected_header_crc h) then Err JOSH_PARTITION_CORRUPT
          else
            let entry_bytes := u64 (gh_entry_count h * gh_entry_size h) in
            let entry_sectors :=
              u64 (u64 (entry_bytes + JOSH_BLOCK_SECTOR_SIZE) - 1) / JOSH_BLOCK_SECTOR_SIZE in
            if negb (range_valid device (gh_entries_lba h) entry_sectors)
            then Err JOSH_PARTITION_CORRUPT
            else
              let* entries_crc :=
                gpt_entries_crc device (gh_entries_lba h) (Z.to_nat entry_sectors) 0 entry_bytes 0 in
              if negb (entries_crc =? gh_expected_entries_crc h) then Err JOSH_PARTITION_CORRUPT
              else gpt_scan device h (JOSH_BLOCK_SECTOR_SIZE / gh_entry_size h)
                     (Z.to_nat (gh_entry_count h)) 0
  end.

(** One MBR entry, at its offset in the sector. *)
Record mbr_entry := { me_status : Z; me_type : Z; me_first : Z; me_count : Z }.

Definition read_mbr_entry (mbr : list Z) (i : Z) : option mbr_entry :=
  let entry := MBR_PARTITION_OFFSET + i * MBR_PARTITION_SIZE in
  let? status := get8 mbr entry in
  let? type := get8 mbr (entry + 4) in
  let? first := read_le32 mbr (entry + 8) in
  let? count := read_le32 mbr (entry + 12) in
  Some {| me_status := status; me_type := type; me_first := first; me_count := count |}.

(** The loop over the four entries; [inl] is the entry the fallback pointer
    points to after the loop, [inr] what [parse_gpt] returned from inside it. *)
Fixpoint mbr_scan (device : josh_block_device_t) (mbr : list Z) (n : nat) (i : Z)
    (fallback : option mbr_entry) {struct n}
    : res josh_partition_status_t (option mbr_entry + josh_partition_t) :=
  match n with
  | O => Ok (inl fallback)
  | S n' =>
      load e := read_mbr_entry mbr i in
      if negb (me_status e =? 0x00) && negb (me_status e =? 0x80)
      then Err JOSH_PARTITION_CORRUPT
      else if (me_type e =? 0) || (me_count e =? 0)
      then mbr_scan device mbr n' (i + 1) fallback
      else if me_type e =? 0xEE
      then let* p := parse_gpt device in Ok (inr p)
      else if negb (range_valid device (me_first e) (me_count e))
      then Err JOSH_PARTITION_CORRUPT
      else
        let fallback := match fallback with None => Some e | Some f => Some f end in
        if me_status e =? 0x80 then Ok (inl (Some e))
        else mbr_scan device mbr n' (i + 1) fallback
  end.

(** [partition] is the pointee of the out-parameter, [None] for a null pointer. *)
Definition josh_partition_find_boot (device : option josh_block_device_t)
    (partition : option josh_partition_t) : res josh_partition_status_t josh_partition_t :=
  match device, partition with
  | Some d, Some _ =>
      match bd_read d with
      | None => Err JOSH_PARTITION_NO_TABLE
      | Some _ =>
          if bd_sector_count d <? 2 then Err JOSH_PARTITION_NO_TABLE
          else
            match josh_block_read (Some d) 0 1 uninit with
            | None => Err JOSH_PARTITION_IO_ERROR
            | Some mbr =>
                load s0 := get8 mbr MBR_SIGNATURE_OFFSET in
                load s1 := get8 mbr (MBR_SIGNATURE_OFFSET + 1) in
                if negb (s0 =? 0x55) || negb (s1 =? 0xAA) then Err JOSH_PARTITION_NO_TABLE
                else
                  let* found := mbr_scan d mbr MBR_PARTITION_COUNT 0 None in
                  match found with
                  | inr p => Ok p
                  | inl None => Err JOSH_PARTITION_NO_USABLE_PARTITION
                  | inl (Some e) =>
                      Ok {| pt_scheme := JOSH_PARTITION_SCHEME_MBR;
                            pt_first_lba := me_first e;
                            pt_sector_count := me_count e;
                            pt_mbr_type := me_type e;
                            pt_gpt_type_guid := replicate 16 0;
                            pt_gpt_unique_guid := replicate 16 0 |}
                  end
            end
      end
  | _, _ => Err JOSH_PARTITION_NO_TABLE
  end.

Definition ranges_overlap (a_first a_count b_first b_count : Z) : bool :=
  if (a_count =? 0) || (b_count =? 0) then false
  else
    let a_last := u64 (u64 (a_first + a_count) - 1) in
    let b_last := u64 (u64 (b_first + b_count) - 1) in
    if (a_last <? a_first) || (b_last <? b_first) then true
    else negb ((a_last <? b_first) || (b_last <? a_first)).

Fixpoint unallocated_scan (device : josh_block_device_t) (mbr : list Z)
    (first_lba sector_count : Z) (n : nat) (i : Z) {struct n} : option bool :=
  match n with
  | O => Some true
  | S n' =>
      let? e := read_mbr_entry mbr i in
      if negb (me_status e =? 0x00) && negb (me_status e =? 0x80) then Some false
      else if (me_type e =? 0) || (me_count e =? 0)
      then unallocated_scan device mbr first_lba sector_count n' (i + 1)
      else if me_type e =? 0xEE then Some false
      else if negb (range_valid device (me_first e) (me_count e)) then Some false
      else if ranges_overlap first_lba sector_count (me_first e) (me_count e) then Some false
      else unallocated_scan device mbr first_lba sector_count n' (i + 1)
  end.

Definition josh_partition_range_is_unallocated (device : option josh_block_device_t)
    (first_lba sector_count : Z) : option bool :=
  match device with
  | None => Some false
  | Some d =>
      match bd_read d with
      | None => Some false
      | Some _ =>
          if negb (range_valid d first_lba sector_count)
             || ranges_overlap first_lba sector_count 0 1
          then Some false
          else
            match josh_block_read (Some d) 0 1 uninit with
            | None => Some false
            | Some mbr =>
                let? s0 := get8 mbr MBR_SIGNATURE_OFFSET in
                let? s1 := get8 mbr (MBR_SIGNATURE_OFFSET + 1) in
                if negb (s0 =? 0x55) || negb (s1 =? 0xAA) then Some false
                else unallocated_scan d mbr first_lba sector_count MBR_PARTITION_COUNT 0
            end
      end
  end.

(** The switch of [josh_partition_status_string], on the integer value. *)
Definition partition_status_code (s : josh_partition_status_t) : Z :=
  match s with
  | JOSH_PARTITION_OK => 0
  | JOSH_PARTITION_NO_TABLE => 1
  | JOSH_PARTITION_NO_USABLE_PARTITION => 2
  | JOSH_PARTITION_IO_ERROR => 3
  | JOSH_PARTITION_CORRUPT => 4
  | JOSH_PARTITION_UNSUPPORTED => 5
  end.

Definition josh_partition_status_string (status : Z) : string :=
  match status with
  | 0 => "ok"
  | 1 => "no partition table"
  | 2 => "no usable partition"
  | 3 => "I/O error"
  | 4 => "corrupt partition table"
  | 5 => "unsupported partition table"
  | _ => "unknown partition error"
  end.

(** ** Reading fixed fields of a sector *)
Section Sector.
Context (s : list Z) (Hs : good_sector s).

Lemma sector_get8 off : 0 <= off < 512 -> exists b, get8 s off = Some b /\ in_u8 b.
Proof.
  destruct Hs as [Hl Hb]. intros Ho. destruct (get8_Some s off) as [b E]; [lia|].
  exists b. eauto with josh.
Qed.
Lemma sector_rd32 off : 0 <= off <= 508 -> exists v, rd32 s off = Some v /\ in_u32 v.
Proof. destruct Hs as [Hl Hb]. intros. apply rd32_ok; [done|lia..]. Qed.
Lemma sector_rd64 off : 0 <= off <= 504 -> exists v, rd64 s off = Some v /\ in_u64 v.
Proof. destruct Hs as [Hl Hb]. intros. apply rd64_ok; [done|lia..]. Qed.
Lemma sector_slice off len :
  0 <= off -> 0 <= len -> off + len <= 512 ->
  exists l, slice s off len = Some l /\ zlen l = len /\ bytes l.
Proof.
  destruct Hs as [Hl Hb]. intros Ho Hn Hle. eexists.
  assert (E : slice s off len = Some (take (Z.to_nat len) (drop (Z.to_nat off) s)))
    by (apply slice_Some; lia).
  split; [exact E|]. split; [by apply slice_inv in E as (_&_&_&?&_)|]. eauto with josh.
Qed.
End Sector.

(** Discharge a checked read at a known offset of a good sector. *)
Ltac read32 s off := let v := fresh "v" in let E := fresh "E" in let R := fresh "R" in
  destruct (sector_rd32 s ltac:(assumption) off ltac:(lia)) as (v & E & R);
  unfold read_le32; rewrite ?E; cbn [res_bind need].
Ltac read64 s off := let v := fresh "v" in let E := fresh "E" in let R := fresh "R" in
  destruct (sector_rd64 s ltac:(assumption) off ltac:(lia)) as (v & E & R);
  unfold read_le64; rewrite ?E; cbn [res_bind need].
Ltac read8 s off := let v := fresh "v" in let E := fresh "E" in let R := fresh "R" in
  destruct (sector_get8 s ltac:(assumption) off ltac:(lia)) as (v & E & R);
  rewrite ?E; cbn [res_bind need].

Lemma read_mbr_entry_ok mbr i :
  good_sector mbr -> 0 <= i < 4 ->
  exists e, read_mbr_entry mbr i = Some e /\ in_u32 (me_first e) /\ in_u32 (me_count e).
Proof.
  intros Hg Hi. unfold read_mbr_entry, MBR_PARTITION_OFFSET, MBR_PARTITION_SIZE.
  read8 mbr (446 + i * 16). read8 mbr (446 + i * 16 + 4).
  read32 mbr (446 + i * 16 + 8). read32 mbr (446 + i * 16 + 12).
  by eexists.
Qed.

Definition gpt_header_range (h : gpt_header) : Prop :=
  in_u32 (gh_header_size h) /\ in_u32 (gh_expected_header_crc h) /\ in_u64 (gh_current_lba h) /\
  in_u64 (gh_first_usable h) /\ in_u64 (gh_last_usable h) /\ in_u64 (gh_entries_lba h) /\
  in_u32 (gh_entry_count h) /\ in_u32 (gh_entry_size h) /\ in_u32 (gh_expected_entries_crc h).

Lemma read_gpt_header_ok header :
  good_sector header -> exists h, read_gpt_header header = Some h /\ gpt_header_range h.
Proof.
  intros Hg. unfold read_gpt_header.
  read32 header 12. read32 header 16. read64 header 24. read64 header 40. read64 header 48.
  read64 header 72. read32 header 80. read32 header 84. read32 header 88.
  eexists. split; [done|]. repeat split; cbn; word.
Qed.

(** ** Ranges *)
Lemma range_valid_iff d first count :
  in_u64 (bd_sector_count d) -> in_u64 first -> in_u64 count ->
  range_valid d first count = true <-> 0 < count /\ first + count <= bd_sector_count d.
Proof.
  intros Hd Hf Hc. unfold range_valid. destruct ((count =? 0) || _) eqn:E; [split; [done|word]|].
  rewrite u64_id by word. word.
Qed.

(** Sector ranges as the sets of sectors they cover. *)
Definition disjoint_ranges (a_first a_count b_first b_count : Z) : Prop :=
  forall lba, ~ (a_first <= lba < a_first + a_count /\ b_first <= lba < b_first + b_count).

(** The overlap test is exact for ranges that end below 2^64. *)
Lemma ranges_overlap_iff a n b m :
  in_u64 a -> in_u64 n -> in_u64 b -> in_u64 m -> a + n <= 2 ^ 64 -> b + m <= 2 ^ 64 ->
  ranges_overlap a n b m = false <-> disjoint_ranges a n b m.
Proof.
  intros Ha Hn Hb Hm Han Hbm. unfold ranges_overlap, disjoint_ranges, in_u64 in *.
  destruct ((n =? 0) || (m =? 0)) eqn:E; [split; [intros _ x; lia|done]|].
  assert (Hl : forall x k, 0 <= x -> 0 < k < 2 ^ 64 -> x + k <= 2 ^ 64 ->
                 u64 (u64 (x + k) - 1) = x + k - 1).
  { intros x k ? ? ?. unfold u64. destruct (Z.eq_dec (x + k) (2 ^ 64)) as [->|].
    - rewrite Z.mod_same by lia. done.
    - rewrite (Z.mod_small (x + k)), Z.mod_small by lia. done. }
  rewrite !Hl by lia.
  destruct ((a + n - 1 <? a) || _) eqn:E2; [lia|]. split.
  - intros H x. lia.
  - intros H. destruct (Z.lt_ge_cases a b); [specialize (H b)|specialize (H a)]; lia.
Qed.

(** ** Memory safety and termination *)
Lemma bytes_all_zero_spec s off n :
  good_sector s -> 0 <= off -> off + Z.of_nat n <= 512 ->
  exists l, slice s off (Z.of_nat n) = Some l /\
    bytes_all_zero s off n = Some (forallb (fun b => b =? 0) l).
Proof.
  intros Hg. revert off. induction n as [|n IH]; intros off Ho Hn.
  { exists []. by rewrite slice_Some by (destruct Hg; lia). }
  destruct (IH (off + 1)) as (l & Hl & Hz); [lia..|].
  destruct (sector_get8 s Hg off) as (b & Hb & _); [lia|].
  exists (b :: l). cbn [bytes_all_zero]. rewrite Hb. split.
  - destruct Hg as [Hlen _]. apply slice_inv in Hl as (_&_&_&_&->).
    rewrite slice_Some by lia. f_equal.
    unfold get8 in Hb. rewrite (proj2 (Z.ltb_ge off 0)) in Hb by lia.
    rewrite (drop_S _ _ _ Hb), !Nat2Z.id. cbn [take]. do 3 f_equal. lia.
  - cbn [forallb]. destruct (b =? 0); cbn [negb]; [done|done].
Qed.

Section Safety.
Context (d : josh_block_device_t) `{!JoshBlockDevice d}.

Lemma read_good lba s : read_sector d lba = Some s -> good_sector s.
Proof. intros H. by apply (read_sector_full d lba). Qed.

Lemma gpt_entries_crc_safe lba n i rem crc :
  in_u64 rem -> gpt_entries_crc d lba n i rem crc <> Stuck.
Proof.
  revert i rem crc. induction n as [|n IH]; intros i rem crc Hr; [done|].
  cbn [gpt_entries_crc]. fold (read_sector d (u64 (lba + i))).
  destruct (read_sector d _) as [s|] eqn:Es; [|done]. apply read_good in Es.
  unfold JOSH_BLOCK_SECTOR_SIZE.
  set (chunk := if rem >? 512 then 512 else rem).
  assert (Hc : 0 <= chunk <= 512) by (unfold chunk; destruct (rem >? 512) eqn:E; word).
  destruct (sector_slice s Es 0 chunk) as (l & -> & _); [lia..|]. cbn [res_bind need].
  apply IH. auto with josh.
Qed.

(** An entry of the array never straddles a sector. *)
Lemma entry_offset_range es idx :
  128 <= es <= 512 -> 512 mod es = 0 -> 0 <= idx ->
  1 <= 512 / es /\ es * (512 / es) = 512 /\
  u32 (idx mod (512 / es) * es) = idx mod (512 / es) * es /\
  0 <= idx mod (512 / es) * es <= 512 - es.
Proof.
  intros He Hm Hi.
  assert (Hp : es * (512 / es) = 512) by (pose proof (Z.div_mod 512 es ltac:(lia)); lia).
  assert (H1 : 1 <= 512 / es) by (apply Z.div_le_lower_bound; lia).
  pose proof (Z.mod_pos_bound idx (512 / es) ltac:(lia)) as Hr.
  assert (0 <= idx mod (512 / es) * es <= 512 - es) by nia.
  repeat split; try lia. apply u32_id. word.
Qed.

Lemma gpt_scan_safe h n idx :
  128 <= gh_entry_size h <= 512 -> 512 mod gh_entry_size h = 0 -> 0 <= idx ->
  gpt_scan d h (512 / gh_entry_size h) n idx <> Stuck.
Proof.
  intros He Hm. revert idx. induction n as [|n IH]; intros idx Hi; [done|]. cbn [gpt_scan].
  destruct (entry_offset_range (gh_entry_size h) idx He Hm Hi) as (_ & _ & -> & Ho).
  set (off := _ * gh_entry_size h) in *.
  fold (read_sector d (u64 (gh_entries_lba h + idx / (512 / gh_entry_size h)))).
  destruct (read_sector d _) as [s|] eqn:Es; [|done]. apply read_good in Es.
  destruct (bytes_all_zero_spec s off 16 Es) as (l & _ & ->); [lia..|]. cbn [res_bind need].
  destruct (forallb _ l); [apply IH; lia|].
  read64 s (off + 32). read64 s (off + 40). destruct (_ || _); [done|].
  destruct (sector_slice s Es off 16) as (l1 & -> & _); [lia..|].
  destruct (sector_slice s Es (off + 16) 16) as (l2 & -> & _); [lia..|]. done.
Qed.

Lemma length_of_zlen {A} (l : list A) n : zlen l = Z.of_nat n -> length l = n.
Proof. unfold zlen. lia. Qed.

(** The zeroed copy the header checksum is computed over. *)
Definition zeroed_header (header : list Z) (size : Z) : list Z :=
  take (Z.to_nat size) (take 16 header ++ replicate 4 0 ++ drop 20 header).

Lemma gpt_header_crc_spec header size :
  good_sector header -> 92 <= size <= 512 ->
  gpt_header_crc header size = Some (crc32 (zeroed_header header size)).
Proof.
  intros [Hl Hb] Hs. assert (Hlen : length header = 512%nat) by (apply length_of_zlen; done).
  unfold gpt_header_crc, memset_at.
  rewrite memcpy_take_drop by (rewrite ?length_replicate; lia).
  rewrite memset_fill
    by (rewrite length_drop, length_app, length_take, length_drop, length_replicate; lia).
  set (X := take (Z.to_nat size) header ++ drop (Z.to_nat size) (replicate 512 0)).
  change (Z.to_nat 16) with 16%nat. change (u8 0) with 0.
  rewrite drop_drop. change (16 + 4)%nat with 20%nat.
  assert (HX : length X = 512%nat)
    by (unfold X; rewrite length_app, length_take, length_drop, length_replicate; lia).
  rewrite slice_Some; [|lia..|unfold zlen; rewrite !length_app, length_take, length_replicate, length_drop; lia].
  rewrite crc32_update_zero, drop_0. do 2 f_equal. unfold zeroed_header.
  assert (Hh : take (Z.to_nat size) X = take (Z.to_nat size) header).
  { unfold X. rewrite take_app_le by (rewrite length_take; lia). rewrite take_take. f_equal. lia. }
  assert (HP : forall l : list Z, take (Z.to_nat size) (take 16 l ++ replicate 4 0 ++ drop 20 l) =
     take 16 (take (Z.to_nat size) l) ++ replicate 4 0 ++ drop 20 (take (Z.to_nat size) l)
     \/ (length l < 512)%nat).
  { intros l. destruct (Nat.lt_ge_cases (length l) 512); [by right|left].
    rewrite take_app_ge by (rewrite length_take; lia).
    rewrite take_app_ge by (rewrite length_take, length_replicate; lia).
    rewrite take_take, length_take, length_replicate, skipn_firstn_comm.
    f_equal; [f_equal; lia|]. f_equal. f_equal. lia. }
  destruct (HP X) as [->|]; [|lia]. destruct (HP header) as [->|]; [|lia]. by rewrite Hh.
Qed.

Lemma entry_sectors_eq b :
  0 < b < 2 ^ 32 * 2 ^ 16 -> u64 (u64 (b + 512) - 1) / 512 = (b + 511) / 512.
Proof. intros Hb. rewrite !u64_id by (rewrite ?u64_id; word). f_equal. lia. Qed.

Lemma parse_gpt_safe : parse_gpt d <> Stuck.
Proof.
  unfold parse_gpt. fold (read_sector d GPT_HEADER_LBA).
  destruct (read_sector d _) as [hdr|] eqn:Eh; [|done]. apply read_good in Eh.
  assert (length hdr = 512%nat) by (destruct Eh; by apply length_of_zlen).
  destruct (memcmp_defined hdr GPT_SIGNATURE 8) as [z ->]; [lia|done|]. cbn [res_bind need].
  destruct (negb (z =? 0)); [done|].
  destruct (read_gpt_header_ok hdr Eh) as (h & -> & Hr). cbn [res_bind need].
  unfold GPT_HEADER_MIN_SIZE, JOSH_BLOCK_SECTOR_SIZE.
  destruct (_ || (gh_header_size h >? 512)) eqn:E1; [done|].
  destruct (_ || (gh_last_usable h >=? _)) eqn:E2; [done|].
  destruct (_ || negb (512 mod gh_entry_size h =? 0)) eqn:E3; [done|].
  rewrite gpt_header_crc_spec by (done || lia). cbn [res_bind need].
  destruct (negb (_ =? gh_expected_header_crc h)); [done|].
  destruct (negb (range_valid _ _ _)); [done|].
  destruct (gpt_entries_crc _ _ _ _ _ _) eqn:E4; cbn [res_bind]; [|done|].
  - destruct (negb (a =? _)); [done|]. apply gpt_scan_safe; lia.
  - by apply gpt_entries_crc_safe in E4; auto with josh.
Qed.

Lemma mbr_scan_safe mbr n i fb :
  good_sector mbr -> 0 <= i -> i + Z.of_nat n <= 4 -> mbr_scan d mbr n i fb <> Stuck.
Proof.
  intros Hg. revert i fb. induction n as [|n IH]; intros i fb Hi Hn; [done|]. cbn [mbr_scan].
  destruct (read_mbr_entry_ok mbr i Hg) as (e & -> & _); [lia|]. cbn [res_bind need].
  destruct (negb _ && negb _); [done|]. destruct (_ || _); [apply IH; lia|].
  destruct (me_type e =? 0xEE).
  { destruct (parse_gpt d) eqn:E; [done|done|]. by apply parse_gpt_safe in E. }
  destruct (negb _); [done|]. destruct (me_status e =? 0x80); [done|]. apply IH; lia.
Qed.

End Safety.

(** ** What the GPT parser checks *)

(** Consecutive sectors from [lba] on. *)
Fixpoint read_sectors (d : josh_block_device_t) (lba : Z) (n : nat) : option (list (list Z)) :=
  match n with
  | O => Some []
  | S n' =>
      let? s := read_sector d lba in
      let? rest := read_sectors d (lba + 1) n' in
      Some (s :: rest)
  end.

Definition gpt_entry (arr : list Z) (entry_size k : Z) : option (list Z) :=
  slice arr (k * entry_size) entry_size.

Section GptSpec.
Context (d : josh_block_device_t) `{!JoshBlockDevice d}.

Lemma read_sectors_lookup lba n secs k :
  read_sectors d lba n = Some secs -> (k < n)%nat ->
  exists s, secs !! k = Some s /\ read_sector d (lba + Z.of_nat k) = Some s.
Proof.
  revert lba secs k. induction n as [|n IH]; intros lba secs k H Hk; [lia|].
  cbn [read_sectors] in H. steps H. simplify_eq. destruct k as [|k].
  - exists l. by rewrite Z.add_0_r.
  - destruct (IH _ _ k E0) as (s & ? & ?); [lia|]. exists s. split; [done|].
    replace (lba + Z.of_nat (S k)) with (lba + 1 + Z.of_nat k) by lia. done.
Qed.

Lemma read_sectors_good lba n secs :
  read_sectors d lba n = Some secs -> length secs = n /\ Forall good_sector secs.
Proof.
  revert lba secs. induction n as [|n IH]; intros lba secs H;
    cbn [read_sectors] in H; [by simplify_eq|].
  steps H. simplify_eq. apply IH in E0 as [? ?]. apply read_good in E; [|done].
  split; [cbn; lia|by constructor].
Qed.

Lemma concat_good_length (secs : list (list Z)) :
  Forall good_sector secs -> zlen (concat secs) = 512 * zlen secs.
Proof.
  unfold zlen. induction 1 as [|s secs [Hl _] _ IH]; [done|].
  cbn. rewrite length_app. unfold zlen in Hl. lia.
Qed.

Lemma gpt_entries_crc_eq lba n i rem crc :
  0 <= lba + i -> lba + i + Z.of_nat n <= 2 ^ 64 -> in_u64 rem -> in_u32 crc ->
  gpt_entries_crc d lba n i rem crc =
  match read_sectors d (lba + i) n with
  | Some secs => Ok (PartitionCrc.crc32_update crc (take (Z.to_nat rem) (concat secs)))
  | None => Err JOSH_PARTITION_IO_ERROR
  end.
Proof.
  revert i rem crc. induction n as [|n IH]; intros i rem crc Hi Hn Hr Hc.
  { cbn [gpt_entries_crc read_sectors concat]. rewrite take_nil, crc32_update_run. f_equal. symmetry. by apply u32_lnot_involutive. }
  cbn [gpt_entries_crc read_sectors]. rewrite u64_id by word. fold (read_sector d (lba + i)).
  destruct (read_sector d (lba + i)) as [s|] eqn:Es; [|done].
  destruct (read_good d (lba + i) s Es) as [Hl Hb]. unfold JOSH_BLOCK_SECTOR_SIZE.
  set (chunk := if rem >? 512 then 512 else rem).
  assert (Hch : chunk = Z.min rem 512) by (unfold chunk; destruct (rem >? 512) eqn:E; lia).
  unfold in_u64 in Hr. rewrite slice_Some, (u64_id (rem - chunk)) by word. cbn [res_bind need].
  rewrite IH by (lia || word || apply crc32_update_u32). replace (lba + (i + 1)) with (lba + i + 1) by lia.
  destruct (read_sectors d (lba + i + 1) n) as [secs|]; [|done]. f_equal.
  rewrite crc32_update_app by auto with josh. f_equal. cbn [concat].
  rewrite drop_0, take_app. f_equal; [|f_equal; word].
  destruct (Z.le_gt_cases rem 512); [f_equal; lia|]. rewrite !take_ge by word. done.
Qed.

(** The entry the scan looks at is the entry of the array. *)
Lemma scan_entry lba n secs es idx s :
  read_sectors d lba n = Some secs -> 128 <= es <= 512 -> 512 mod es = 0 -> 0 <= idx ->
  (idx + 1) * es <= 512 * Z.of_nat n ->
  read_sector d (lba + idx / (512 / es)) = Some s ->
  gpt_entry (concat secs) es idx = slice s (idx mod (512 / es) * es) es.
Proof.
  intros Hs He Hm Hi Hn Hr. destruct (entry_offset_range es idx He Hm Hi) as (H1 & Hp & _ & Ho).
  set (eps := 512 / es) in *. pose proof (Z.div_mod idx eps ltac:(lia)) as Hdm.
  assert (Hk : 0 <= idx / eps < Z.of_nat n).
  { split; [apply Z.div_pos; lia|]. apply Z.div_lt_upper_bound; [lia|]. nia. }
  destruct (read_sectors_lookup lba n secs (Z.to_nat (idx / eps)) Hs) as (s' & Hlk & Hr'); [lia|].
  rewrite Z2Nat.id in Hr' by lia. rewrite Hr in Hr'. simplify_eq.
  apply read_sectors_good in Hs as [_ Hg].
  unfold gpt_entry.
  rewrite <- (slice_concat 512 secs (Z.to_nat (idx / eps)) s' (idx mod eps * es) es);
    [|intros t Ht; rewrite Forall_forall in Hg; by destruct (Hg t Ht)|done|lia..].
  f_equal. rewrite Z2Nat.id by lia. nia.
Qed.

End GptSpec.

(** ** Where the boot partition lies *)
Section Placement.
Context (d : josh_block_device_t) `{!JoshBlockDevice d}.

Lemma gpt_scan_in_device h n idx p :
  gh_last_usable h < bd_sector_count d -> in_u64 (gh_first_usable h) ->
  128 <= gh_entry_size h <= 512 -> 512 mod gh_entry_size h = 0 -> 0 <= idx ->
  gpt_scan d h (512 / gh_entry_size h) n idx = Ok p ->
  0 <= pt_first_lba p /\ 0 < pt_sector_count p /\
  pt_first_lba p + pt_sector_count p <= bd_sector_count d.
Proof.
  intros Hl Hf He Hm. pose proof device_size_u64 as Hd.
  revert idx. induction n as [|n IH]; intros idx Hi H; [done|]. cbn [gpt_scan] in H.
  destruct (josh_block_read _ _ _ _) as [s|]; [|done].
  destruct (bytes_all_zero _ _ _) as [[]|]; cbn [res_bind need] in H; [apply (IH (idx + 1)); [lia|done]| |done].
  destruct (read_le64 _ _) as [first|]; cbn [res_bind need] in H; [|done].
  destruct (read_le64 _ _) as [last|]; cbn [res_bind need] in H; [|done].
  destruct (_ || _) eqn:E; [done|].
  destruct (slice _ _ _); cbn [res_bind need] in H; [|done].
  destruct (slice _ _ _); cbn [res_bind need] in H; [|done]. simplify_eq. cbn.
  rewrite u64_id by word. word.
Qed.

Lemma parse_gpt_inv p :
  parse_gpt d = Ok p ->
  exists header h c n,
    read_sector d 1 = Some header /\ memcmp header GPT_SIGNATURE 8 = Some 0 /\
    read_gpt_header header = Some h /\ gpt_header_range h /\
    92 <= gh_header_size h <= 512 /\ gh_last_usable h < bd_sector_count d /\
    0 < gh_entry_count h <= 4096 /\ 128 <= gh_entry_size h <= 512 /\ 512 mod gh_entry_size h = 0 /\
    gpt_header_crc header (gh_header_size h) = Some (gh_expected_header_crc h) /\
    n = Z.to_nat ((gh_entry_count h * gh_entry_size h + 511) / 512) /\
    gh_entries_lba h + Z.of_nat n <= bd_sector_count d /\
    gpt_entries_crc d (gh_entries_lba h) n 0 (gh_entry_count h * gh_entry_size h) 0 = Ok c /\
    c = gh_expected_entries_crc h /\
    gpt_scan d h (512 / gh_entry_size h) (Z.to_nat (gh_entry_count h)) 0 = Ok p.
Proof.
  unfold parse_gpt. fold (read_sector d GPT_HEADER_LBA). unfold GPT_HEADER_LBA. intros H.
  destruct (read_sector d 1) as [hdr|] eqn:Eh; [|done].
  destruct (read_gpt_header_ok hdr (read_good d 1 hdr Eh)) as (h & Ehd & Hr).
  destruct (memcmp hdr _ 8) as [z|] eqn:Ez; cbn [res_bind need] in H; [|done].
  destruct (negb (z =? 0)) eqn:E0; [done|]. assert (z = 0) as -> by lia.
  rewrite Ehd in H. cbn [res_bind need] in H.
  unfold GPT_HEADER_MIN_SIZE, JOSH_BLOCK_SECTOR_SIZE in H.
  destruct (_ || (gh_header_size h >? 512)) eqn:E1; [done|].
  destruct (_ || (gh_last_usable h >=? _)) eqn:E2; [done|].
  destruct (_ || negb (512 mod gh_entry_size h =? 0)) eqn:E3; [done|].
  destruct (gpt_header_crc _ _) as [crc|] eqn:E4; cbn [res_bind need] in H; [|done].
  destruct (negb (crc =? _)) eqn:E5; [done|]. assert (crc = gh_expected_header_crc h) as -> by lia.
  destruct Hr as (Rhs & Rhc & Rcl & Rfu & Rlu & Rel & Rec & Res & Rex).
  assert (Hec : 0 < gh_entry_count h <= 4096) by word.
  assert (Hez : 128 <= gh_entry_size h <= 512) by lia.
  assert (Heb : 0 < gh_entry_count h * gh_entry_size h < 2 ^ 32 * 2 ^ 16) by (clear -Hec Hez; nia).
  rewrite (u64_id (gh_entry_count h * gh_entry_size h)) in H by word.
  rewrite entry_sectors_eq in H by done.
  set (es := (gh_entry_count h * gh_entry_size h + 511) / 512) in *.
  assert (Hes : 0 < es < 2 ^ 48) by (unfold es; zdm).
  destruct (negb (range_valid _ _ _)) eqn:E6; [done|]. apply negb_false_iff in E6.
  apply range_valid_iff in E6; [|apply device_size_u64|done|word].
  destruct (gpt_entries_crc _ _ _ _ _ _) as [c| |] eqn:E7; cbn [res_bind] in H; [|done..].
  destruct (negb (c =? _)) eqn:E8; [done|].
  exists hdr, h, c, (Z.to_nat es). repeat split; try done; word.
Qed.

Lemma parse_gpt_in_device p :
  parse_gpt d = Ok p ->
  0 <= pt_first_lba p /\ 0 < pt_sector_count p /\
  pt_first_lba p + pt_sector_count p <= bd_sector_count d.
Proof.
  intros (hdr&h&c&n&_&_&_&Hr&_&Hlu&_&He&Hm&_&_&_&_&_&Hs)%parse_gpt_inv.
  eapply gpt_scan_in_device in Hs; eauto; [|lia]. by destruct Hr as (_&_&_&?&_).
Qed.

Definition entry_in_device (e : mbr_entry) : Prop :=
  0 <= me_first e /\ 0 < me_count e /\ me_first e + me_count e <= bd_sector_count d.

Lemma mbr_scan_in_device mbr n i fb r :
  good_sector mbr -> 0 <= i -> i + Z.of_nat n <= 4 ->
  (forall e, fb = Some e -> entry_in_device e) -> mbr_scan d mbr n i fb = Ok r ->
  match r with
  | inl None => True
  | inl (Some e) => entry_in_device e
  | inr p => parse_gpt d = Ok p
  end.
Proof.
  intros Hg. revert i fb. induction n as [|n IH]; intros i fb Hi Hn Hfb H; cbn [mbr_scan] in H.
  { simplify_eq. destruct fb; auto. }
  destruct (read_mbr_entry_ok mbr i Hg) as (e & Ee & Hf & Hc); [lia|].
  rewrite Ee in H. cbn [res_bind need] in H.
  destruct (negb _ && negb _); [done|]. destruct ((me_type e =? 0) || _); [apply (IH (i + 1) fb); [lia|lia|done|done]|].
  destruct (me_type e =? 0xEE).
  { destruct (parse_gpt d) eqn:Ep; cbn in H; by simplify_eq. }
  destruct (negb (range_valid _ _ _)) eqn:Er; [done|]. apply negb_false_iff in Er.
  apply range_valid_iff in Er; [|apply device_size_u64|word|word].
  assert (entry_in_device e) by (unfold entry_in_device; word).
  destruct (me_status e =? 0x80); [by simplify_eq|].
  eapply IH; [..|exact H]; [lia|lia|]. intros e' He'. destruct fb; simplify_eq; auto.
Qed.

(** The two ways [josh_partition_find_boot] succeeds. *)
Lemma find_boot_inv p0 p :
  josh_partition_find_boot (Some d) p0 = Ok p ->
  exists mbr r, read_sector d 0 = Some mbr /\
    get8 mbr 510 = Some 0x55 /\ get8 mbr 511 = Some 0xAA /\ 2 <= bd_sector_count d /\
    mbr_scan d mbr 4 0 None = Ok r /\
    match r with
    | inr q => p = q
    | inl (Some e) => p = {| pt_scheme := JOSH_PARTITION_SCHEME_MBR; pt_first_lba := me_first e;
                             pt_sector_count := me_count e; pt_mbr_type := me_type e;
                             pt_gpt_type_guid := replicate 16 0; pt_gpt_unique_guid := replicate 16 0 |}
    | inl None => False
    end.
Proof.
  unfold josh_partition_find_boot, MBR_SIGNATURE_OFFSET, MBR_PARTITION_COUNT. intros H.
  destruct p0; [|done]. destruct (bd_read d); [|done].
  destruct (bd_sector_count d <? 2) eqn:E2; [done|]. fold (read_sector d 0) in H.
  destruct (read_sector d 0) as [mbr|] eqn:Em; [|done].
  destruct (get8 mbr 510) as [a|] eqn:Ea; cbn [res_bind need] in H; [|done].
  change (510 + 1) with 511 in H.
  destruct (get8 mbr 511) as [b|] eqn:Eb; cbn [res_bind need] in H; [|done].
  destruct (negb (a =? 85) || _) eqn:Es; [done|].
  destruct (mbr_scan _ _ _ _ _) as [r| |] eqn:Er; cbn [res_bind] in H; [|done..].
  exists mbr, r. split; [done|]. rewrite Ea, Eb. repeat split; try (f_equal; lia); try lia; [done|].
  destruct r as [[e|]|q]; by simplify_eq.
Qed.
End Placement.

(** ** Which MBR entry is chosen *)

(** A reference definition: the first active used entry, else the first used one. *)
Definition used_entry (e : mbr_entry) : bool := negb ((me_type e =? 0) || (me_count e =? 0)).
Definition active_entry (e : mbr_entry) : bool := me_status e =? 0x80.

Definition mbr_choice (es : list mbr_entry) : option mbr_entry :=
  let used := List.filter used_entry es in
  match List.find active_entry used with
  | Some e => Some e
  | None => head used
  end.

Definition mbr_partition (e : mbr_entry) : josh_partition_t :=
  {| pt_scheme := JOSH_PARTITION_SCHEME_MBR; pt_first_lba := me_first e;
     pt_sector_count := me_count e; pt_mbr_type := me_type e;
     pt_gpt_type_guid := replicate 16 0; pt_gpt_unique_guid := replicate 16 0 |}.

(** The entries of a sector, from entry [i] on. *)
Fixpoint mbr_entries (mbr : list Z) (n : nat) (i : Z) : option (list mbr_entry) :=
  match n with
  | O => Some []
  | S n' =>
      let? e := read_mbr_entry mbr i in
      let? rest := mbr_entries mbr n' (i + 1) in
      Some (e :: rest)
  end.

(** An entry of a plain (non-GPT) table the scan accepts. *)
Definition plain_entry (d : josh_block_device_t) (e : mbr_entry) : bool :=
  ((me_status e =? 0x00) || (me_status e =? 0x80)) &&
  (negb (used_entry e) || (negb (me_type e =? 0xEE) && range_valid d (me_first e) (me_count e))).

Lemma mbr_scan_choice d mbr n i fb es :
  mbr_entries mbr n i = Some es -> forallb (plain_entry d) es = true ->
  mbr_scan d mbr n i fb =
  Ok (inl (match List.find active_entry (List.filter used_entry es) with
           | Some e => Some e
           | None => match fb with Some f => Some f | None => head (List.filter used_entry es) end
           end)).
Proof.
  revert i fb es. induction n as [|n IH]; intros i fb es He Hp; cbn [mbr_entries mbr_scan] in *.
  { simplify_eq. cbn. by destruct fb. }
  destruct (read_mbr_entry mbr i) as [e|]; [|done].
  destruct (mbr_entries mbr n (i + 1)) as [rest|] eqn:Er; [|done]. simplify_eq.
  cbn [forallb] in Hp. apply andb_true_iff in Hp as [Hpe Hpr]. cbn [res_bind need].
  unfold plain_entry in Hpe. apply andb_true_iff in Hpe as [Hst Hu].
  replace (negb (me_status e =? 0) && negb (me_status e =? 128)) with false by lia.
  cbn [List.filter].
  assert (Hue : (me_type e =? 0) || (me_count e =? 0) = negb (used_entry e))
    by (unfold used_entry; by rewrite negb_involutive).
  rewrite Hue. destruct (used_entry e); cbn [negb] in *; [|by rewrite (IH (i + 1) fb rest) by done].
  cbn [orb] in Hu. apply andb_true_iff in Hu as [Ht Hrv]. rewrite Hrv.
  destruct (me_type e =? 0xEE); [done|]. cbn [negb List.find].
  unfold active_entry at 1. destruct (me_status e =? 128); [done|].
  rewrite (IH (i + 1) _ rest) by done. destruct (List.find _ _); [done|]. by destruct fb.
Qed.

(** ** Writing outside every partition *)
Lemma unallocated_scan_true d `{!JoshBlockDevice d} mbr f c n i :
  good_sector mbr -> 0 <= i -> i + Z.of_nat n <= 4 ->
  in_u64 f -> in_u64 c -> f + c <= bd_sector_count d ->
  unallocated_scan d mbr f c n i = Some true ->
  exists es, mbr_entries mbr n i = Some es /\ forallb (plain_entry d) es = true /\
    Forall (fun e => used_entry e = true -> disjoint_ranges f c (me_first e) (me_count e)) es.
Proof.
  intros Hg. revert i. induction n as [|n IH]; intros i Hi Hn Hf Hc Hfc H.
  { by exists []. }
  cbn [unallocated_scan mbr_entries] in *.
  destruct (read_mbr_entry_ok mbr i Hg) as (e & Ee & Hef & Hec); [lia|]. rewrite Ee in *.
  destruct (negb _ && negb _) eqn:Es; [done|]. pose proof (device_size_u64 (d := d)) as Hd.
  destruct ((me_type e =? 0) || (me_count e =? 0)) eqn:Eu.
  - destruct (IH (i + 1)) as (es & -> & Hp & Hdj); [lia..|done|done|done|done|].
    exists (e :: es). split; [done|]. cbn [forallb]. unfold plain_entry at 1, used_entry at 1. rewrite Eu, Hp.
    split; [cbn [negb orb]; lia|]. constructor; [|done]. unfold used_entry. by rewrite Eu.
  - destruct (me_type e =? 0xEE) eqn:Et; [done|].
    destruct (negb (range_valid _ _ _)) eqn:Er; [done|]. apply negb_false_iff in Er.
    destruct (ranges_overlap _ _ _ _) eqn:Eo; [done|].
    destruct (IH (i + 1)) as (es & -> & Hp & Hdj); [lia..|done|done|done|done|].
    exists (e :: es). split; [done|]. cbn [forallb]. unfold plain_entry at 1, used_entry at 1.
    rewrite Eu, Et, Er, Hp. split; [cbn [negb orb andb]; lia|]. constructor; [|done]. intros _.
    apply range_valid_iff in Er; [|done|word|word].
    apply ranges_overlap_iff in Eo; [done|word..].
Qed.

Lemma mbr_choice_used es e : mbr_choice es = Some e -> e ∈ es /\ used_entry e = true.
Proof.
  unfold mbr_choice. intros H.
  assert (Hin : In e (List.filter used_entry es)).
  { destruct (List.find _ _) eqn:E; [simplify_eq; by apply find_some in E as [? _]|].
    destruct (List.filter used_entry es); [done|]. cbn in H. simplify_eq. by left. }
  apply filter_In in Hin as [Hin Hu]. split; [by apply list_elem_of_In|done].
Qed.

Lemma unallocated_scan_total d mbr f c n : forall i,
  good_sector mbr -> 0 <= i -> i + Z.of_nat n <= 4 ->
  exists safe, unallocated_scan d mbr f c n i = Some safe.
Proof.
  induction n as [|n IH]; intros i Hg Hi Hn; [by eexists|]. cbn [unallocated_scan].
  destruct (read_mbr_entry_ok mbr i Hg) as (e & -> & _); [lia|].
  destruct (negb _ && negb _); [by eexists|]. destruct (_ || _); [apply IH; done || lia|].
  destruct (_ =? 0xEE); [by eexists|]. destruct (negb _); [by eexists|].
  destruct (ranges_overlap _ _ _ _); [by eexists|]. apply IH; done || lia.
Qed.

Lemma unallocated_total d `{!JoshBlockDevice d} f c :
  exists safe, josh_partition_range_is_unallocated (Some d) f c = Some safe.
Proof.
  unfold josh_partition_range_is_unallocated, MBR_SIGNATURE_OFFSET, MBR_PARTITION_COUNT.
  destruct (bd_read d); [|by eexists]. destruct (_ || _); [by eexists|].
  fold (read_sector d 0). destruct (read_sector d 0) as [mbr|] eqn:Em; [|by eexists].
  pose proof (read_good d 0 mbr Em) as Hg. change (510 + 1) with 511.
  read8 mbr 510. read8 mbr 511. destruct (negb _ || negb _); [by eexists|].
  by apply unallocated_scan_total; [..|lia].
Qed.

Lemma unallocated_inv d `{!JoshBlockDevice d} f c :
  in_u64 f -> in_u64 c ->
  josh_partition_range_is_unallocated (Some d) f c = Some true ->
  exists mbr es, read_sector d 0 = Some mbr /\ good_sector mbr /\ mbr_entries mbr 4 0 = Some es /\
    forallb (plain_entry d) es = true /\ 0 < c /\ 0 < f /\ f + c <= bd_sector_count d /\
    Forall (fun e => used_entry e = true -> disjoint_ranges f c (me_first e) (me_count e)) es.
Proof.
  intros Hf Hc H. unfold josh_partition_range_is_unallocated, MBR_PARTITION_COUNT in H.
  destruct (bd_read d); [|done]. pose proof (device_size_u64 (d := d)) as Hd.
  destruct (negb (range_valid d f c) || _) eqn:E; [done|].
  apply orb_false_iff in E as [Er%negb_false_iff Eo].
  apply range_valid_iff in Er as [Hc0 Hfc]; [|done..].
  apply ranges_overlap_iff in Eo; [|word..]. specialize (Eo 0).
  fold (read_sector d 0) in H. destruct (read_sector d 0) as [mbr|] eqn:Em; [|done].
  pose proof (read_good d 0 mbr Em) as Hg.
  destruct (get8 mbr _); [|done]. destruct (get8 mbr _); [|done].
  destruct (negb _ || negb _); [done|].
  apply unallocated_scan_true in H as (es & He & Hp & Hdj); [|done..].
  exists mbr, es. split_and!; try done. word.
Qed.

(** ** The sectors the answers depend on *)

(** The check of a raw range reads nothing but sector 0. *)
Lemma unallocated_same d d' f c :
  bd_sector_count d' = bd_sector_count d -> is_Some (bd_read d) -> is_Some (bd_read d') -> read_sector d' 0 = read_sector d 0 ->
  josh_partition_range_is_unallocated (Some d') f c = josh_partition_range_is_unallocated (Some d) f c.
Proof.
  intros Hn [x Hx] [y Hy] H0. unfold josh_partition_range_is_unallocated, range_valid. fold (read_sector d' 0) (read_sector d 0).
  rewrite Hn, H0, Hx, Hy.
  destruct (_ || _); [done|]. destruct (read_sector d 0) as [mbr|]; [|done].
  destruct (get8 mbr MBR_SIGNATURE_OFFSET); [|done]. destruct (get8 mbr (MBR_SIGNATURE_OFFSET + 1)); [|done].
  destruct (_ || _); [done|]. generalize MBR_PARTITION_COUNT 0.
  induction n as [|n IH]; intros i; [done|]. cbn [unallocated_scan]. unfold range_valid. rewrite Hn, IH. done.
Qed.

(** On a disk with room for raw records, finding the boot partition reads nothing but sector 0. *)
Lemma find_boot_same d d' p0 f c :
  JoshBlockDevice d -> in_u64 f -> in_u64 c -> josh_partition_range_is_unallocated (Some d) f c = Some true ->
  bd_sector_count d' = bd_sector_count d -> is_Some (bd_read d) -> is_Some (bd_read d') -> read_sector d' 0 = read_sector d 0 ->
  josh_partition_find_boot (Some d') p0 = josh_partition_find_boot (Some d) p0.
Proof.
  intros Hd Hf Hc (mbr & es & Em & _ & Hes & Hp & _)%unallocated_inv Hn [x Hx] [y Hy] H0; [|done..].
  unfold josh_partition_find_boot. destruct p0; [|done]. fold (read_sector d' 0) (read_sector d 0). rewrite Hn, H0, Em, Hx, Hy.
  assert (Hp' : forallb (plain_entry d') es = true) by (rewrite <- Hp; unfold plain_entry, range_valid; by rewrite Hn).
  destruct (_ <? 2); [done|].
  destruct (get8 mbr MBR_SIGNATURE_OFFSET); cbn [need res_bind]; [|done].
  destruct (get8 mbr (MBR_SIGNATURE_OFFSET + 1)); cbn [need res_bind]; [|done].
  destruct (_ || _); [done|]. unfold MBR_PARTITION_COUNT. by rewrite !(mbr_scan_choice _ mbr 4 0 None es).
Qed.

(** ** The properties of partition discovery *)

Lemma find_boot_total (d : josh_block_device_t) (p0 : option josh_partition_t) :
  JoshBlockDevice d -> josh_partition_find_boot (Some d) p0 <> Stuck.
Proof.
  intros Hd. unfold josh_partition_find_boot, MBR_SIGNATURE_OFFSET.
  destruct p0; [|done]. destruct (bd_read d); [|done]. destruct (_ <? 2); [done|].
  fold (read_sector d 0). destruct (read_sector d 0) as [mbr|] eqn:Em; [|done].
  pose proof (read_good d 0 mbr Em) as Hg. change (510 + 1) with 511.
  read8 mbr 510. read8 mbr 511.
  destruct (negb _ || negb _); [done|].
  destruct (mbr_scan _ _ _ _ _) as [[[e|]|q]| |] eqn:Er; cbn [res_bind]; try done.
  by apply mbr_scan_safe in Er.
Qed.

(** On every device that honours the read contract, finding the boot partition terminates and
    performs no out-of-range access of a sector buffer, whatever the disk holds. *)
Theorem find_boot_never_stuck (d : josh_block_device_t) (p0 : option josh_partition_t) :
  JoshBlockDevice d -> josh_partition_find_boot (Some d) p0 <> Stuck.
Proof. apply find_boot_total. Qed.

Lemma find_boot_range (d : josh_block_device_t) (p0 : option josh_partition_t)
    (p : josh_partition_t) :
  JoshBlockDevice d -> josh_partition_find_boot (Some d) p0 = Ok p ->
  0 <= pt_first_lba p /\ 0 < pt_sector_count p /\
  pt_first_lba p + pt_sector_count p <= bd_sector_count d.
Proof.
  intros Hd (mbr & r & Em & _ & _ & _ & Hs & Hr)%find_boot_inv.
  apply mbr_scan_in_device in Hs; try done; [|by apply (read_good d 0)].
  destruct r as [[e|]|q]; [by subst|done|]. subst. by apply parse_gpt_in_device.
Qed.

(** A boot partition that is found, by MBR or by GPT, is non-empty and lies inside the device. *)
Theorem find_boot_in_device (d : josh_block_device_t) (p0 : option josh_partition_t)
    (p : josh_partition_t) :
  JoshBlockDevice d -> josh_partition_find_boot (Some d) p0 = Ok p ->
  0 <= pt_first_lba p /\ 0 < pt_sector_count p /\
  pt_first_lba p + pt_sector_count p <= bd_sector_count d.
Proof. apply find_boot_range. Qed.

(** On a plain MBR disk the boot partition is the first active used entry, else the first used
    entry, and a table without used entries reports that there is none. *)
Theorem find_boot_mbr_choice (d : josh_block_device_t) (p0 : josh_partition_t)
    (mbr : list Z) (es : list mbr_entry) :
  JoshBlockDevice d -> 2 <= bd_sector_count d -> read_sector d 0 = Some mbr ->
  get8 mbr 510 = Some 0x55 -> get8 mbr 511 = Some 0xAA ->
  mbr_entries mbr 4 0 = Some es -> forallb (plain_entry d) es = true ->
  josh_partition_find_boot (Some d) (Some p0) =
  match mbr_choice es with
  | Some e => Ok (mbr_partition e)
  | None => Err JOSH_PARTITION_NO_USABLE_PARTITION
  end.
Proof.
  intros Hd Hn Em E510 E511 Hes Hp. unfold josh_partition_find_boot, MBR_SIGNATURE_OFFSET.
  assert (Hrd : is_Some (bd_read d)).
  { apply josh_block_read_inv in Em as (rd & -> & _). done. }
  destruct Hrd as [rd ->]. rewrite (proj2 (Z.ltb_ge _ 2)) by lia.
  fold (read_sector d 0). rewrite Em, E510. change (510 + 1) with 511. rewrite E511.
  cbn [res_bind need Z.eqb Pos.eqb negb orb].
  unfold MBR_PARTITION_COUNT. rewrite (mbr_scan_choice d mbr 4 0 None es) by done.
  cbn [res_bind]. unfold mbr_choice.
  destruct (List.find _ _); [done|]. by destruct (head _).
Qed.

Lemma unallocated_disjoint (d : josh_block_device_t) (first_lba sector_count : Z)
    (p0 : option josh_partition_t) (p : josh_partition_t) :
  JoshBlockDevice d -> in_u64 first_lba -> in_u64 sector_count ->
  josh_partition_range_is_unallocated (Some d) first_lba sector_count = Some true ->
  josh_partition_find_boot (Some d) p0 = Ok p ->
  pt_scheme p = JOSH_PARTITION_SCHEME_MBR /\
  0 < sector_count /\ 0 < first_lba /\ first_lba + sector_count <= bd_sector_count d /\
  disjoint_ranges first_lba sector_count (pt_first_lba p) (pt_sector_count p).
Proof.
  intros Hd Hf Hc (mbr & es & Em & Hg & Hes & Hp & H1 & H2 & H3 & Hdj)%unallocated_inv Hb; [|done..].
  apply find_boot_inv in Hb as (mbr' & r & Em' & _ & _ & _ & Hs & Hr).
  rewrite Em in Em'. simplify_eq. rewrite (mbr_scan_choice d mbr' 4 0 None es) in Hs by done.
  simplify_eq. fold (mbr_choice es) in Hr. destruct (mbr_choice es) as [e|] eqn:Ee; [|done].
  subst p. apply mbr_choice_used in Ee as [Hin Hu].
  rewrite Forall_forall in Hdj. split_and!; try done. by apply Hdj.
Qed.

(** When a sector range is reported unallocated and a boot partition is found, the partition is
    an MBR partition, and the range is inside the device, non-empty and disjoint from the partition
    and from sector 0: raw records written there never touch the partition table or the partition. *)
Theorem unallocated_disjoint_from_boot (d : josh_block_device_t) (first_lba sector_count : Z)
    (p0 : option josh_partition_t) (p : josh_partition_t) :
  JoshBlockDevice d -> in_u64 first_lba -> in_u64 sector_count ->
  josh_partition_range_is_unallocated (Some d) first_lba sector_count = Some true ->
  josh_partition_find_boot (Some d) p0 = Ok p ->
  pt_scheme p = JOSH_PARTITION_SCHEME_MBR /\
  0 < sector_count /\ 0 < first_lba /\ first_lba + sector_count <= bd_sector_count d /\
  disjoint_ranges first_lba sector_count (pt_first_lba p) (pt_sector_count p).
Proof. apply unallocated_disjoint. Qed.

(** ** Concrete disks *)
Definition no_partition : josh_partition_t :=
  {| pt_scheme := JOSH_PARTITION_SCHEME_NONE; pt_first_lba := 0; pt_sector_count := 0;
     pt_mbr_type := 0; pt_gpt_type_guid := []; pt_gpt_unique_guid := [] |}.

(** One active FAT32 partition at sector 2048 of a 72000-sector disk. *)
Definition example_mbr : list Z :=
  put 510 [0x55; 0xAA]
    (put 446 ([0x80; 0; 0; 0; 0x0C; 0; 0; 0] ++ le_bytes 4 2048 ++ le_bytes 4 68000) zero_sector).
Definition example_mbr_disk : josh_block_device_t := sparse_device 72000 [(0, example_mbr)].

Lemma example_mbr_disk_ok : JoshBlockDevice example_mbr_disk.
Proof. apply sparse_device_ok; vm_compute; reflexivity. Defined.

(** A GPT disk of 4096 sectors: four entries, the first of them used. *)
Definition example_gpt_entries : list Z :=
  put 0 ([0xA2; 0xA0; 0xD0; 0xEB; 0xE5; 0xB9; 0x33; 0x44; 0x87; 0xC0; 0x68; 0xB6; 0xB7; 0x26; 0x99; 0xC7]
         ++ seqZ 1 16 ++ le_bytes 8 100 ++ le_bytes 8 200) zero_sector.
Definition example_gpt_body : list Z :=
  put 0 (chars "EFI PART" ++ le_bytes 4 0x10000 ++ le_bytes 4 92 ++ le_bytes 4 0 ++ le_bytes 4 0
         ++ le_bytes 8 1 ++ le_bytes 8 4095 ++ le_bytes 8 34 ++ le_bytes 8 4000 ++ seqZ 0xA0 16
         ++ le_bytes 8 2 ++ le_bytes 4 4 ++ le_bytes 4 128 ++ le_bytes 4 (crc32 example_gpt_entries))
    zero_sector.
Definition example_gpt_header : list Z :=
  put 16 (le_bytes 4 (crc32 (take 92 example_gpt_body))) example_gpt_body.
Definition example_gpt_disk : josh_block_device_t :=
  sparse_device 4096
    [(0, put 510 [0x55; 0xAA]
           (put 446 ([0; 0; 0; 0; 0xEE; 0; 0; 0] ++ le_bytes 4 1 ++ le_bytes 4 4095) zero_sector));
     (1, example_gpt_header); (2, example_gpt_entries)].

Lemma example_gpt_disk_ok : JoshBlockDevice example_gpt_disk.
Proof. apply sparse_device_ok; vm_compute; reflexivity. Defined.

Definition example_gpt_partition : josh_partition_t :=
  {| pt_scheme := JOSH_PARTITION_SCHEME_GPT; pt_first_lba := 100; pt_sector_count := 101;
     pt_mbr_type := 0; pt_gpt_type_guid := take 16 example_gpt_entries;
     pt_gpt_unique_guid := seqZ 1 16 |}.

Lemma example_gpt_found :
  josh_partition_find_boot (Some example_gpt_disk) (Some no_partition) = Ok example_gpt_partition.
Proof. vm_compute. reflexivity. Defined.

(** ** Witnesses *)
Lemma find_boot_never_stuck_witness :
  JoshBlockDevice example_gpt_disk /\
  josh_partition_find_boot (Some example_gpt_disk) (Some no_partition) <> Stuck.
Proof.
  split; [apply sparse_device_ok; vm_compute; reflexivity|].
  apply (find_boot_never_stuck example_gpt_disk (Some no_partition)).
  apply sparse_device_ok; vm_compute; reflexivity.
Defined.

Lemma find_boot_in_device_witness :
  0 <= pt_first_lba example_gpt_partition /\ 0 < pt_sector_count example_gpt_partition /\
  pt_first_lba example_gpt_partition + pt_sector_count example_gpt_partition
    <= bd_sector_count example_gpt_disk.
Proof.
  apply (find_boot_in_device example_gpt_disk (Some no_partition) example_gpt_partition).
  - apply sparse_device_ok; vm_compute; reflexivity.
  - vm_compute. reflexivity.
Defined.

Lemma find_boot_mbr_choice_witness :
  josh_partition_find_boot (Some example_mbr_disk) (Some no_partition) =
  Ok (mbr_partition {| me_status := 0x80; me_type := 0x0C; me_first := 2048; me_count := 68000 |}).
Proof.
  refine (find_boot_mbr_choice example_mbr_disk no_partition example_mbr
    ({| me_status := 0x80; me_type := 0x0C; me_first := 2048; me_count := 68000 |} ::
     replicate 3 {| me_status := 0; me_type := 0; me_first := 0; me_count := 0 |}) _ _ _ _ _ _ _).
  - apply sparse_device_ok; vm_compute; reflexivity.
  - cbn. lia.
  - vm_compute. reflexivity.
  - vm_compute. reflexivity.
  - vm_compute. reflexivity.
  - vm_compute. reflexivity.
  - vm_compute. reflexivity.
Defined.

Lemma unallocated_disjoint_from_boot_witness :
  JOSH_PARTITION_SCHEME_MBR = JOSH_PARTITION_SCHEME_MBR /\
  0 < 2 /\ 0 < 1984 /\ 1984 + 2 <= 72000 /\ disjoint_ranges 1984 2 2048 68000.
Proof.
  refine (unallocated_disjoint_from_boot example_mbr_disk 1984 2 (Some no_partition)
    (mbr_partition {| me_status := 0x80; me_type := 0x0C; me_first := 2048; me_count := 68000 |})
    _ _ _ _ _).
  - apply sparse_device_ok; vm_compute; reflexivity.
  - word.
  - word.
  - vm_compute. reflexivity.
  - vm_compute. reflexivity.
Defined.
