(* ===== verification/PartitionRef.v ===== *)
(** * Boot partition discovery against a reference (boot/core/partition.c)

    The reference reads the tables as data: the four MBR entries as a list, the
    GPT entry array as one byte string cut into entries.  It has no loop over
    sectors, no second pass over the array and no modular arithmetic, and gives
    a result for every disk, errors included; the code computes the same. *)
From S2P Require Import Prelude Runtime32 Block Crc32 Partition.

(** ** Reference: GPT *)
Definition gpt_entry_at (arr : list Z) (entry_size k : Z) : list Z :=
  take (Z.to_nat entry_size) (drop (Z.to_nat (k * entry_size)) arr).

(** An entry is in use when its type GUID is not zero. *)
Definition gpt_used (entry : list Z) : bool := negb (forallb (fun b => b =? 0) (take 16 entry)).

Definition gpt_partition (h : gpt_header) (entry : list Z) : res josh_partition_status_t josh_partition_t :=
  match rd64 entry 32, rd64 entry 40 with
  | Some first, Some last =>
      if (gh_first_usable h <=? first) && (first <=? last) && (last <=? gh_last_usable h)
      then Ok {| pt_scheme := JOSH_PARTITION_SCHEME_GPT; pt_first_lba := first; pt_sector_count := last - first + 1;
                 pt_mbr_type := 0; pt_gpt_type_guid := take 16 entry; pt_gpt_unique_guid := take 16 (drop 16 entry) |}
      else Err JOSH_PARTITION_CORRUPT
  | _, _ => Stuck
  end.

Definition gpt_bytes (h : gpt_header) : Z := gh_entry_count h * gh_entry_size h.
Definition gpt_sectors (h : gpt_header) : Z := (gpt_bytes h + 511) / 512.

Definition gpt_ref (d : josh_block_device_t) : res josh_partition_status_t josh_partition_t :=
  match read_sector d 1 with
  | None => Err JOSH_PARTITION_IO_ERROR
  | Some header =>
      match read_gpt_header header with
      | None => Stuck
      | Some h =>
          if negb (bool_decide (take 8 header = GPT_SIGNATURE)) then Err JOSH_PARTITION_CORRUPT
          else if negb ((92 <=? gh_header_size h) && (gh_header_size h <=? 512) && (gh_current_lba h =? 1)
                        && (gh_first_usable h <=? gh_last_usable h) && (gh_last_usable h <? bd_sector_count d))
          then Err JOSH_PARTITION_CORRUPT
          else if negb ((1 <=? gh_entry_count h) && (gh_entry_count h <=? 4096) && (128 <=? gh_entry_size h)
                        && (gh_entry_size h <=? 512) && (512 mod gh_entry_size h =? 0))
          then Err JOSH_PARTITION_UNSUPPORTED
          else if negb (crc32 (zeroed_header header (gh_header_size h)) =? gh_expected_header_crc h)
                  || negb (gh_entries_lba h + gpt_sectors h <=? bd_sector_count d)
          then Err JOSH_PARTITION_CORRUPT
          else
            match read_sectors d (gh_entries_lba h) (Z.to_nat (gpt_sectors h)) with
            | None => Err JOSH_PARTITION_IO_ERROR
            | Some sectors =>
                let arr := take (Z.to_nat (gpt_bytes h)) (concat sectors) in
                if negb (crc32 arr =? gh_expected_entries_crc h) then Err JOSH_PARTITION_CORRUPT
                else
                  match List.find gpt_used (map (gpt_entry_at arr (gh_entry_size h)) (seqZ 0 (gh_entry_count h))) with
                  | Some entry => gpt_partition h entry
                  | None => Err JOSH_PARTITION_NO_USABLE_PARTITION
                  end
            end
      end
  end.

(** ** Reference: MBR *)
Definition status_ok (e : mbr_entry) : bool := (me_status e =? 0x00) || (me_status e =? 0x80).
Definition fits (d : josh_block_device_t) (e : mbr_entry) : bool := me_first e + me_count e <=? bd_sector_count d.

(** The first entry the answer does not depend on the later ones for. *)
Definition decisive (d : josh_block_device_t) (e : mbr_entry) : bool :=
  negb (status_ok e) || (used_entry e && ((me_type e =? 0xEE) || negb (fits d e) || active_entry e)).

Definition mbr_ref (d : josh_block_device_t) (es : list mbr_entry) : res josh_partition_status_t josh_partition_t :=
  match List.find (decisive d) es with
  | Some e =>
      if negb (status_ok e) then Err JOSH_PARTITION_CORRUPT
      else if me_type e =? 0xEE then gpt_ref d
      else if negb (fits d e) then Err JOSH_PARTITION_CORRUPT
      else Ok (mbr_partition e)
  | None =>
      match List.filter used_entry es with
      | e :: _ => Ok (mbr_partition e)
      | [] => Err JOSH_PARTITION_NO_USABLE_PARTITION
      end
  end.

Definition find_boot_ref (d : josh_block_device_t) : res josh_partition_status_t josh_partition_t :=
  match bd_read d with
  | None => Err JOSH_PARTITION_NO_TABLE
  | Some _ =>
      if bd_sector_count d <? 2 then Err JOSH_PARTITION_NO_TABLE
      else
        match read_sector d 0 with
        | None => Err JOSH_PARTITION_IO_ERROR
        | Some mbr =>
            if bool_decide (take 2 (drop 510 mbr) = [0x55; 0xAA])
            then match mbr_entries mbr 4 0 with Some es => mbr_ref d es | None => Stuck end
            else Err JOSH_PARTITION_NO_TABLE
        end
  end.

(** ** The code computes the reference *)
Section Equivalence.
Context (d : josh_block_device_t) `{!JoshBlockDevice d}.

(** The outcome of looking at the entries one by one. *)
Definition scan_ref (h : gpt_header) (entries : list (list Z)) : res josh_partition_status_t josh_partition_t :=
  match List.find gpt_used entries with
  | Some entry => gpt_partition h entry
  | None => Err JOSH_PARTITION_NO_USABLE_PARTITION
  end.

Lemma gpt_scan_eq h m secs n : forall idx,
  gh_last_usable h < bd_sector_count d -> read_sectors d (gh_entries_lba h) m = Some secs -> gpt_header_range h ->
  128 <= gh_entry_size h <= 512 -> 512 mod gh_entry_size h = 0 -> 0 <= idx ->
  (idx + Z.of_nat n) * gh_entry_size h <= 512 * Z.of_nat m -> gh_entries_lba h + Z.of_nat m <= 2 ^ 64 ->
  gpt_scan d h (512 / gh_entry_size h) n idx =
  scan_ref h (map (gpt_entry_at (concat secs) (gh_entry_size h)) (seqZ idx (Z.of_nat n))).
Proof.
  induction n as [|n IH]; intros idx Hlast Hs Hr He Hm Hi Hn Hw; [done|]. pose proof (device_size_u64 (d := d)) as Hds. pose proof Hr as (_ & _ & _ & Hfu & Hlu & Hu & _).
  cbn [gpt_scan]. rewrite seqZ_cons by lia. replace (Z.succ idx) with (idx + 1) by lia. replace (Z.pred (Z.of_nat (S n))) with (Z.of_nat n) by lia.
  destruct (entry_offset_range (gh_entry_size h) idx He Hm Hi) as (H1 & Hp & -> & Ho). set (es := gh_entry_size h) in *.
  set (off := idx mod (512 / es) * es) in *. pose proof (Z.div_mod idx (512 / es) ltac:(lia)) as Hdm.
  assert (Hk : 0 <= idx / (512 / es) < Z.of_nat m) by (split; [apply Z.div_pos; lia|]; apply Z.div_lt_upper_bound; [lia|]; nia).
  rewrite u64_id by word. fold (read_sector d (gh_entries_lba h + idx / (512 / es))).
  destruct (read_sectors_lookup d _ m secs (Z.to_nat (idx / (512 / es))) Hs) as (s & _ & Es); [lia|]. rewrite Z2Nat.id in Es by lia.
  rewrite Es. pose proof (read_good d _ s Es) as Hg.
  pose proof (scan_entry d _ m secs es idx s Hs He Hm Hi ltac:(nia) Es) as Hent. fold off in Hent.
  destruct (sector_slice s Hg off es) as (e & Hse & Hle & Hbe); [lia..|]. rewrite Hse in Hent. unfold gpt_entry in Hent.
  assert (Hat : gpt_entry_at (concat secs) es idx = e) by (by apply slice_inv in Hent as (_ & _ & _ & _ & ->)).
  destruct (bytes_all_zero_spec s off 16 Hg) as (g & Hsg & Hz); [lia..|]. rewrite Hz. cbn [res_bind need map].
  assert (Hgt : g = take 16 e).
  { replace off with (off + 0) in Hsg by lia. rewrite <- (slice_sub s off es e) in Hsg by (done || lia).
    by apply slice_inv in Hsg as (_ & _ & _ & _ & ->). }
  unfold scan_ref. cbn [List.find]. rewrite Hat. unfold gpt_used at 1. rewrite <- Hgt.
  destruct (forallb (fun b => b =? 0) g); cbn [negb]; [by rewrite IH by (done || nia)|].
  unfold gpt_partition, read_le64. rewrite <- (rd64_sub s off es e 32), <- (rd64_sub s off es e 40) by (done || lia).
  destruct (rd64_ok e 32) as (first & E32 & _); [done|lia..|]. destruct (rd64_ok e 40) as (last & E40 & _); [done|lia..|]. rewrite E32, E40. cbn [res_bind need].
  pose proof (rd64_range _ _ _ Hbe E32) as Hf. pose proof (rd64_range _ _ _ Hbe E40) as Hl.
  replace ((first >? last) || (first <? gh_first_usable h) || (last >? gh_last_usable h)) with
    (negb ((gh_first_usable h <=? first) && (first <=? last) && (last <=? gh_last_usable h))) by lia.
  destruct (_ && (last <=? gh_last_usable h)) eqn:Er; cbn [negb]; [|done].
  replace (slice s off 16) with (slice s (off + 0) 16) by (f_equal; lia).
  rewrite <- (slice_sub s off es e 0), <- (slice_sub s off es e 16) by (done || lia).
  rewrite !slice_Some by lia. cbn [res_bind need]. rewrite u64_id by word. done.
Qed.
Lemma parse_gpt_eq : parse_gpt d = gpt_ref d.
Proof.
  unfold parse_gpt, gpt_ref, GPT_HEADER_LBA. fold (read_sector d 1). pose proof (device_size_u64 (d := d)) as Hds.
  destruct (read_sector d 1) as [hdr|] eqn:Eh; [|done]. pose proof (read_good d _ _ Eh) as Hg.
  assert (Hlen : length hdr = 512%nat) by (destruct Hg; by apply length_of_zlen).
  destruct (read_gpt_header_ok hdr Hg) as (h & -> & Hr). pose proof Hr as (Rhs & _ & _ & Rfu & Rlu & Rel & Rec & Res & _).
  destruct (memcmp_defined hdr GPT_SIGNATURE 8) as [z Hz]; [lia|done|]. rewrite Hz. cbn [res_bind need].
  assert (Hsig : (z =? 0) = bool_decide (take 8 hdr = GPT_SIGNATURE)).
  { pose proof (memcmp_zero hdr GPT_SIGNATURE 8 ltac:(lia) ltac:(cbn; lia)) as Hmz. rewrite Hz in Hmz.
    change (take 8 GPT_SIGNATURE) with GPT_SIGNATURE in Hmz. symmetry. destruct (Z.eqb_spec z 0) as [->|Hne].
    - apply bool_decide_eq_true_2. by apply Hmz.
    - apply bool_decide_eq_false_2. intros E%Hmz. congruence. }
  rewrite Hsig. destruct (bool_decide (take 8 hdr = GPT_SIGNATURE)); cbn [negb]; [|done].
  unfold GPT_HEADER_MIN_SIZE, JOSH_BLOCK_SECTOR_SIZE.
  destruct ((92 <=? gh_header_size h) && _ && _ && _ && _) eqn:E1; cbn [negb].
  2: { destruct (_ || (gh_header_size h >? 512)) eqn:E1a; [done|]. by replace (_ || (gh_last_usable h >=? _)) with true by lia. }
  replace ((gh_header_size h <? 92) || (gh_header_size h >? 512)) with false by lia.
  replace (_ || (gh_last_usable h >=? bd_sector_count d)) with false by lia.
  destruct ((1 <=? gh_entry_count h) && _ && _ && _ && _) eqn:E2; cbn [negb].
  2: { by replace (_ || negb (512 mod gh_entry_size h =? 0)) with true by (unfold in_u32 in *; lia). }
  replace (_ || negb (512 mod gh_entry_size h =? 0)) with false by lia.
  rewrite gpt_header_crc_spec by (done || lia). cbn [res_bind need].
  destruct (crc32 (zeroed_header hdr (gh_header_size h)) =? _); cbn [negb orb]; [|done].
  assert (Hnb : 0 < gpt_bytes h <= 4096 * 512) by (clear -E2; unfold gpt_bytes; nia).
  rewrite (u64_id (gh_entry_count h * gh_entry_size h)) by (fold (gpt_bytes h); word). fold (gpt_bytes h).
  rewrite entry_sectors_eq by lia. fold (gpt_sectors h).
  assert (Hns : 0 < gpt_sectors h <= 4096) by (unfold gpt_sectors; clear -Hnb; zdm).
  assert (Hrv : range_valid d (gh_entries_lba h) (gpt_sectors h) = (gh_entries_lba h + gpt_sectors h <=? bd_sector_count d)).
  { apply eq_bool_prop_intro. pose proof (range_valid_iff d (gh_entries_lba h) (gpt_sectors h) Hds Rel ltac:(word)) as Hiff.
    destruct (range_valid _ _ _), (Z.leb_spec (gh_entries_lba h + gpt_sectors h) (bd_sector_count d)); cbn; intuition lia. }
  rewrite Hrv. destruct (gh_entries_lba h + gpt_sectors h <=? bd_sector_count d) eqn:Efit; cbn [negb]; [|done].
  rewrite gpt_entries_crc_eq by (done || word). rewrite Z.add_0_r.
  destruct (read_sectors d (gh_entries_lba h) (Z.to_nat (gpt_sectors h))) as [secs|] eqn:Es; [|done]. cbn [res_bind].
  rewrite crc32_update_zero. destruct (crc32 (take (Z.to_nat (gpt_bytes h)) (concat secs)) =? _); cbn [negb]; [|done].
  rewrite (gpt_scan_eq h (Z.to_nat (gpt_sectors h)) secs _ 0); try done; try lia;
    [|rewrite !Z2Nat.id by lia; fold (gpt_bytes h); unfold gpt_sectors; clear -Hnb; unfold gpt_bytes in *; zdm|word].
  unfold scan_ref. rewrite Z2Nat.id by lia.
  erewrite map_ext_in; [reflexivity|]. intros k Hk%list_elem_of_In%elem_of_seqZ.
  unfold gpt_entry_at. rewrite skipn_firstn_comm, take_take. f_equal. unfold gpt_bytes. nia.
Qed.

Lemma mbr_scan_eq mbr n : forall i fb es,
  good_sector mbr -> 0 <= i -> i + Z.of_nat n <= 4 -> mbr_entries mbr n i = Some es ->
  (let* found := mbr_scan d mbr n i fb in
   match found with
   | inr p => Ok p
   | inl None => Err JOSH_PARTITION_NO_USABLE_PARTITION
   | inl (Some e) => Ok (mbr_partition e)
   end) =
  match List.find (decisive d) es, fb with
  | None, Some e => Ok (mbr_partition e)
  | _, _ => mbr_ref d es
  end.
Proof.
  induction n as [|n IH]; intros i fb es Hg Hi Hn He; cbn [mbr_entries mbr_scan] in *.
  { injection He as <-. by destruct fb. }
  destruct (read_mbr_entry_ok mbr i Hg) as (e & Ee & Hef & Hec); [lia|]. rewrite Ee in *.
  destruct (mbr_entries mbr n (i + 1)) as [rest|] eqn:Er; [|done]. injection He as <-. cbn [need res_bind].
  assert (Hst : negb (me_status e =? 0) && negb (me_status e =? 128) = negb (status_ok e)) by (unfold status_ok; lia).
  assert (Hdec : decisive d e = negb (status_ok e) || (used_entry e && ((me_type e =? 0xEE) || negb (fits d e) || (me_status e =? 128)))) by done.
  rewrite Hst. unfold mbr_ref. cbn [List.find List.filter]. rewrite !Hdec.
  destruct (status_ok e) eqn:Eok; cbn [negb orb]; [|rewrite Eok; by destruct fb].
  assert (Hue : (me_type e =? 0) || (me_count e =? 0) = negb (used_entry e)) by (unfold used_entry; by rewrite negb_involutive).
  rewrite Hue. destruct (used_entry e) eqn:Eu; cbn [negb andb]; [|rewrite (IH (i + 1) fb rest) by (done || lia); done].
  destruct (me_type e =? 0xEE) eqn:Et; cbn [orb].
  { rewrite parse_gpt_eq, Eok, Et. cbn [negb]. by destruct (gpt_ref d), fb. }
  pose proof (device_size_u64 (d := d)) as Hds.
  assert (Hrv : range_valid d (me_first e) (me_count e) = fits d e).
  { unfold fits. apply eq_bool_prop_intro. pose proof (range_valid_iff d (me_first e) (me_count e) Hds ltac:(word) ltac:(word)) as Hiff.
    assert (0 < me_count e) by (unfold used_entry, in_u32 in *; lia).
    destruct (range_valid _ _ _), (Z.leb_spec (me_first e + me_count e) (bd_sector_count d)); cbn; intuition lia. }
  rewrite Hrv. destruct (fits d e) eqn:Ef; cbn [negb orb]; [|rewrite Eok, Et, Ef; by destruct fb].
  destruct (me_status e =? 128); [rewrite Eok, Et, Ef; by destruct fb|].
  rewrite (IH (i + 1) _ rest) by (done || lia). unfold mbr_ref. destruct (List.find (decisive d) rest); by destruct fb.
Qed.
End Equivalence.

Lemma signature_bytes s : good_sector s ->
  exists a b, get8 s 510 = Some a /\ get8 s 511 = Some b /\ take 2 (drop 510 s) = [a; b].
Proof.
  intros [Hl _]. unfold zlen in Hl. unfold get8. cbn [Z.ltb Z.compare].
  destruct (lookup_lt_is_Some_2 s (Z.to_nat 510)) as [a Ha]; [lia|]. destruct (lookup_lt_is_Some_2 s (Z.to_nat 511)) as [b Hb]; [lia|].
  exists a, b. split_and!; try done. change 510%nat with (Z.to_nat 510).
  rewrite (drop_S s a (Z.to_nat 510) Ha). change (S (Z.to_nat 510)) with (Z.to_nat 511). by rewrite (drop_S s b (Z.to_nat 511) Hb).
Qed.

(** C17: Finding the boot partition gives, for every disk, exactly the answer of the reference, errors
    included: no table without the signature, a bad entry before the decision point is corrupt, a
    protective entry hands over to GPT, otherwise the first active entry or else the first used one;
    for GPT the header and the whole entry array must carry their checksums and lie in the device, and
    the first entry in use is taken if it lies in the usable range. The loops over sectors and their
    64-bit arithmetic never run out of bounds or wrap around, and a partition that is found is not
    empty and lies inside the device. *)
Theorem find_boot_matches_reference (d : josh_block_device_t) (p0 : josh_partition_t) :
  JoshBlockDevice d -> josh_partition_find_boot (Some d) (Some p0) = find_boot_ref d /\ find_boot_ref d <> Stuck /\
  forall p, find_boot_ref d = Ok p ->
    0 <= pt_first_lba p /\ 0 < pt_sector_count p /\ pt_first_lba p + pt_sector_count p <= bd_sector_count d.
Proof.
  intros Hd. assert (E : josh_partition_find_boot (Some d) (Some p0) = find_boot_ref d);
    [|split; [done|rewrite <- E; split; [by apply find_boot_total|intros p; by apply find_boot_range]]].
  unfold josh_partition_find_boot, find_boot_ref, MBR_SIGNATURE_OFFSET. destruct (bd_read d) as [rd|]; [|done].
  destruct (bd_sector_count d <? 2); [done|]. fold (read_sector d 0). destruct (read_sector d 0) as [mbr|] eqn:Em; [|done].
  pose proof (read_good d _ _ Em) as Hg. destruct (signature_bytes mbr Hg) as (a & b & Ha & Hb & ->).
  change (510 + 1) with 511. rewrite Ha, Hb. cbn [need res_bind].
  destruct (negb (a =? 85) || negb (b =? 170)) eqn:Es.
  - rewrite bool_decide_eq_false_2; [done|]. intros [= -> ->]. done.
  - assert (a = 85 /\ b = 170) as [-> ->] by lia. rewrite bool_decide_eq_true_2 by done.
    assert (Hes : exists es, mbr_entries mbr 4 0 = Some es).
    { cbn [mbr_entries].
      destruct (read_mbr_entry_ok mbr 0 Hg) as (e0 & -> & _); [lia|]. destruct (read_mbr_entry_ok mbr (0 + 1) Hg) as (e1 & -> & _); [lia|].
      destruct (read_mbr_entry_ok mbr (0 + 1 + 1) Hg) as (e2 & -> & _); [lia|]. destruct (read_mbr_entry_ok mbr (0 + 1 + 1 + 1) Hg) as (e3 & -> & _); [lia|]. by eexists. }
    destruct Hes as [es Hes]. rewrite Hes. pose proof (mbr_scan_eq d mbr 4 0 None es Hg ltac:(lia) ltac:(lia) Hes) as Hsc.
    unfold MBR_PARTITION_COUNT. unfold mbr_partition in Hsc. rewrite Hsc. by destruct (List.find (decisive d) es).
Qed.

Lemma find_boot_matches_reference_witness :
  josh_partition_find_boot (Some example_gpt_disk) (Some no_partition) = Ok example_gpt_partition /\
  find_boot_ref example_gpt_disk = Ok example_gpt_partition.
Proof.
  destruct (find_boot_matches_reference example_gpt_disk no_partition example_gpt_disk_ok) as [E _].
  rewrite <- E. split; vm_compute; reflexivity.
Defined.
