(* ===== verification/Health.v ===== *)
(** * Boot-health records (boot/core/health.c, boot/core/health.h)

    The 56-byte record that remembers which kernel slot to boot, whether an
    update is on trial and how often it was tried.  The enumerations of the
    header convert freely to and from [uint32_t] in the code, so slots and
    failure stages are integers with named values.  A record pointer is an
    [option]; an operation returns the [int] of the C function together with
    the record the pointer points to afterwards. *)
From S2P Require Import Prelude Crc32.

Definition JOSH_BOOT_HEALTH_MAGIC : Z := 0x48424a53.
Definition JOSH_BOOT_HEALTH_VERSION : Z := 1.
Definition JOSH_BOOT_HEALTH_MAX_ATTEMPTS : Z := 3.
Definition JOSH_BOOT_HEALTH_SECTOR_SIZE : Z := 512.
Definition JOSH_BOOT_HEALTH_LBA_A : Z := 1984.
Definition JOSH_BOOT_HEALTH_LBA_B : Z := 1985.

Definition JOSH_BOOT_SLOT_CURRENT : Z := 0.
Definition JOSH_BOOT_SLOT_PREVIOUS : Z := 1.
Definition JOSH_BOOT_SLOT_RECOVERY : Z := 2.

Definition JOSH_BOOT_FAILURE_NONE : Z := 0.
Definition JOSH_BOOT_FAILURE_KERNEL_FILE : Z := 2.
Definition JOSH_BOOT_FAILURE_KERNEL : Z := 5.
Definition JOSH_BOOT_FAILURE_DESKTOP : Z := 7.

Record josh_boot_health_record_t := {
  hr_magic : Z;
  hr_version : Z;
  hr_size : Z;
  hr_generation : Z;
  hr_selected_slot : Z;
  hr_last_good_slot : Z;
  hr_pending_good : Z;
  hr_attempt_count : Z;
  hr_last_failure_stage : Z;
  hr_reserved0 : Z;
  hr_update_generation : Z;
  hr_reserved1 : Z;
  hr_checksum : Z
}.

#[export] Instance health_record_eq_dec : EqDecision josh_boot_health_record_t.
Proof. solve_decision. Defined.

(** ** The packed layout *)
Definition RECORD_SIZE : Z := 56.
Definition CHECKSUM_OFFSET : Z := 52.

(** The bytes before the checksum field. *)
Definition record_body (r : josh_boot_health_record_t) : list Z :=
  le_bytes 4 (hr_magic r) ++ le_bytes 2 (hr_version r) ++ le_bytes 2 (hr_size r) ++
  le_bytes 8 (hr_generation r) ++ le_bytes 4 (hr_selected_slot r) ++
  le_bytes 4 (hr_last_good_slot r) ++ le_bytes 4 (hr_pending_good r) ++
  le_bytes 4 (hr_attempt_count r) ++ le_bytes 4 (hr_last_failure_stage r) ++
  le_bytes 4 (hr_reserved0 r) ++ le_bytes 8 (hr_update_generation r) ++
  le_bytes 4 (hr_reserved1 r).

Definition record_bytes (r : josh_boot_health_record_t) : list Z :=
  record_body r ++ le_bytes 4 (hr_checksum r).

(** Copying bytes over a record. *)
Definition record_of_bytes (buf : list Z) : option josh_boot_health_record_t :=
  let? magic := rd32 buf 0 in
  let? version := rd16 buf 4 in
  let? size := rd16 buf 6 in
  let? generation := rd64 buf 8 in
  let? selected_slot := rd32 buf 16 in
  let? last_good_slot := rd32 buf 20 in
  let? pending_good := rd32 buf 24 in
  let? attempt_count := rd32 buf 28 in
  let? last_failure_stage := rd32 buf 32 in
  let? reserved0 := rd32 buf 36 in
  let? update_generation := rd64 buf 40 in
  let? reserved1 := rd32 buf 48 in
  let? checksum := rd32 buf 52 in
  Some {| hr_magic := magic; hr_version := version; hr_size := size; hr_generation := generation;
          hr_selected_slot := selected_slot; hr_last_good_slot := last_good_slot;
          hr_pending_good := pending_good; hr_attempt_count := attempt_count;
          hr_last_failure_stage := last_failure_stage; hr_reserved0 := reserved0;
          hr_update_generation := update_generation; hr_reserved1 := reserved1;
          hr_checksum := checksum |}.

(** ** Operations *)
Definition slot_valid (slot : Z) : bool := slot <=? JOSH_BOOT_SLOT_RECOVERY.

Definition checksum_for (r : josh_boot_health_record_t) : Z :=
  HealthCrc.crc32_bytes (take (Z.to_nat CHECKSUM_OFFSET) (record_bytes r)).

Definition seal (r : josh_boot_health_record_t) : josh_boot_health_record_t :=
  {| hr_magic := hr_magic r; hr_version := hr_version r; hr_size := hr_size r;
     hr_generation := hr_generation r; hr_selected_slot := hr_selected_slot r;
     hr_last_good_slot := hr_last_good_slot r; hr_pending_good := hr_pending_good r;
     hr_attempt_count := hr_attempt_count r; hr_last_failure_stage := hr_last_failure_stage r;
     hr_reserved0 := hr_reserved0 r; hr_update_generation := hr_update_generation r;
     hr_reserved1 := hr_reserved1 r; hr_checksum := checksum_for r |}.

Definition josh_boot_health_seal (record : option josh_boot_health_record_t)
    : option josh_boot_health_record_t :=
  match record with Some r => Some (seal r) | None => None end.

Definition default_record : josh_boot_health_record_t :=
  seal {| hr_magic := JOSH_BOOT_HEALTH_MAGIC; hr_version := JOSH_BOOT_HEALTH_VERSION;
          hr_size := RECORD_SIZE; hr_generation := 0;
          hr_selected_slot := JOSH_BOOT_SLOT_CURRENT; hr_last_good_slot := JOSH_BOOT_SLOT_CURRENT;
          hr_pending_good := 0; hr_attempt_count := 0; hr_last_failure_stage := 0;
          hr_reserved0 := 0; hr_update_generation := 0; hr_reserved1 := 0; hr_checksum := 0 |}.

Definition josh_boot_health_default (record : option josh_boot_health_record_t)
    : option josh_boot_health_record_t :=
  match record with Some _ => Some default_record | None => None end.

Definition josh_boot_health_valid (record : option josh_boot_health_record_t) : bool :=
  match record with
  | None => false
  | Some r =>
      if negb (hr_magic r =? JOSH_BOOT_HEALTH_MAGIC)
         || negb (hr_version r =? JOSH_BOOT_HEALTH_VERSION)
         || negb (hr_size r =? RECORD_SIZE)
         || negb (slot_valid (hr_selected_slot r))
         || negb (slot_valid (hr_last_good_slot r))
         || (hr_pending_good r >? 1)
         || (hr_last_failure_stage r >? JOSH_BOOT_FAILURE_DESKTOP)
      then false
      else hr_checksum r =? checksum_for r
  end.

Definition josh_boot_health_choose (a b out : option josh_boot_health_record_t)
    : Z * option josh_boot_health_record_t :=
  match out with
  | None => (0, None)
  | Some _ =>
      let a_valid := josh_boot_health_valid a in
      let b_valid := josh_boot_health_valid b in
      if negb a_valid && negb b_valid then (0, josh_boot_health_default out)
      else
        let newer :=
          match a, b with
          | Some ra, Some rb => hr_generation ra >=? hr_generation rb
          | _, _ => false
          end in
        (1, if a_valid && (negb b_valid || newer) then a else b)
  end.

(** The fields the operations assign; the rest of the record is kept. *)
Definition with_fields (r : josh_boot_health_record_t)
    (generation selected_slot last_good_slot pending_good attempt_count
     last_failure_stage update_generation : Z) : josh_boot_health_record_t :=
  {| hr_magic := hr_magic r; hr_version := hr_version r; hr_size := hr_size r;
     hr_generation := generation; hr_selected_slot := selected_slot;
     hr_last_good_slot := last_good_slot; hr_pending_good := pending_good;
     hr_attempt_count := attempt_count; hr_last_failure_stage := last_failure_stage;
     hr_reserved0 := hr_reserved0 r; hr_update_generation := update_generation;
     hr_reserved1 := hr_reserved1 r; hr_checksum := hr_checksum r |}.

Definition josh_boot_health_begin_update (record : option josh_boot_health_record_t)
    (candidate : Z) : Z * option josh_boot_health_record_t :=
  match record with
  | None => (0, None)
  | Some r =>
      if negb (josh_boot_health_valid record) || negb (slot_valid candidate)
         || (candidate =? JOSH_BOOT_SLOT_RECOVERY)
      then (0, record)
      else
        (1, Some (seal (with_fields r
               (u64 (hr_generation r + 1)) candidate (hr_last_good_slot r) 1 0
               JOSH_BOOT_FAILURE_NONE (u64 (hr_update_generation r + 1)))))
  end.

(** Returns the slot to boot. *)
Definition josh_boot_health_prepare_attempt (record : option josh_boot_health_record_t)
    (max_attempts : Z) : Z * option josh_boot_health_record_t :=
  match record with
  | None => (JOSH_BOOT_SLOT_RECOVERY, None)
  | Some r =>
      if negb (josh_boot_health_valid record) then (JOSH_BOOT_SLOT_RECOVERY, record)
      else
        let max_attempts :=
          if max_attempts =? 0 then JOSH_BOOT_HEALTH_MAX_ATTEMPTS else max_attempts in
        let r' :=
          if negb (hr_pending_good r =? 0) then
            let generation := u64 (hr_generation r + 1) in
            seal
              (if hr_attempt_count r >=? max_attempts then
                 with_fields r generation
                   (if negb (hr_last_good_slot r =? hr_selected_slot r)
                    then hr_last_good_slot r else JOSH_BOOT_SLOT_RECOVERY)
                   (hr_last_good_slot r) 0 0 JOSH_BOOT_FAILURE_KERNEL (hr_update_generation r)
               else
                 with_fields r generation (hr_selected_slot r) (hr_last_good_slot r)
                   (hr_pending_good r) (u32 (hr_attempt_count r + 1))
                   (hr_last_failure_stage r) (hr_update_generation r))
          else r in
        (hr_selected_slot r', Some r')
  end.

Definition josh_boot_health_mark_good (record : option josh_boot_health_record_t)
    (slot : Z) : Z * option josh_boot_health_record_t :=
  match record with
  | None => (0, None)
  | Some r =>
      if negb (josh_boot_health_valid record) || negb (slot_valid slot) then (0, record)
      else
        (1, Some (seal (with_fields r (u64 (hr_generation r + 1)) slot slot 0 0
                          JOSH_BOOT_FAILURE_NONE (hr_update_generation r))))
  end.

Definition josh_boot_health_note_failure (record : option josh_boot_health_record_t)
    (stage : Z) : option josh_boot_health_record_t :=
  match record with
  | None => None
  | Some r =>
      if negb (josh_boot_health_valid record) || (stage >? JOSH_BOOT_FAILURE_DESKTOP)
      then record
      else
        Some (seal (with_fields r (u64 (hr_generation r + 1)) (hr_selected_slot r)
                      (hr_last_good_slot r) (hr_pending_good r) (hr_attempt_count r)
                      stage (hr_update_generation r)))
  end.

Definition josh_boot_health_select_fallback (record : option josh_boot_health_record_t)
    (slot stage : Z) : Z * option josh_boot_health_record_t :=
  match record with
  | None => (0, None)
  | Some r =>
      if negb (josh_boot_health_valid record) || negb (slot_valid slot)
         || (stage >? JOSH_BOOT_FAILURE_DESKTOP)
      then (0, record)
      else
        (1, Some (seal (with_fields r (u64 (hr_generation r + 1)) slot (hr_last_good_slot r) 0 0
                          stage (hr_update_generation r))))
  end.

(** ** Layout lemmas *)
Definition record_ok (r : josh_boot_health_record_t) : Prop :=
  in_u32 (hr_magic r) /\ in_u16 (hr_version r) /\ in_u16 (hr_size r) /\ in_u64 (hr_generation r) /\
  in_u32 (hr_selected_slot r) /\ in_u32 (hr_last_good_slot r) /\ in_u32 (hr_pending_good r) /\
  in_u32 (hr_attempt_count r) /\ in_u32 (hr_last_failure_stage r) /\ in_u32 (hr_reserved0 r) /\
  in_u64 (hr_update_generation r) /\ in_u32 (hr_reserved1 r) /\ in_u32 (hr_checksum r).

Lemma length_record_body r : length (record_body r) = 52%nat.
Proof. unfold record_body. by rewrite !length_app, !length_le_bytes. Qed.

Lemma length_record_bytes r : length (record_bytes r) = 56%nat.
Proof. unfold record_bytes. by rewrite length_app, length_record_body, length_le_bytes. Qed.

Lemma bytes_record_body r : bytes (record_body r).
Proof. unfold record_body. repeat apply Forall_app_2; apply bytes_le_bytes. Qed.

Lemma bytes_record_bytes r : bytes (record_bytes r).
Proof. apply Forall_app_2; [apply bytes_record_body|apply bytes_le_bytes]. Qed.
#[export] Hint Resolve bytes_record_body bytes_record_bytes : josh.

Lemma checksum_for_body r : checksum_for r = crc32 (record_body r).
Proof.
  unfold checksum_for, record_bytes, CHECKSUM_OFFSET. rewrite crc32_bytes_crc32.
  rewrite take_app_le, take_ge by (rewrite length_record_body; lia). done.
Qed.

(** Rebuild the bytes of a record from the slices a decoder reads. *)
Lemma take_split_slice (l : list Z) a n s :
  slice l a n = Some s -> take (Z.to_nat (a + n)) l = take (Z.to_nat a) l ++ s.
Proof.
  intros (Ha & Hn & _ & _ & ->)%slice_inv. rewrite Z2Nat.inj_add by lia. by rewrite take_take_drop.
Qed.

Lemma rd_encode (rd : list Z -> Z -> option Z) n l off v :
  bytes l ->
  (forall s, slice l off (Z.of_nat n) = Some s -> rd l off = Some (le_value s)) ->
  0 <= off -> off + Z.of_nat n <= zlen l -> rd l off = Some v ->
  take (Z.to_nat (off + Z.of_nat n)) l = take (Z.to_nat off) l ++ le_bytes n v.
Proof.
  intros Hb Hrd Ho Hl Hv. pose proof (slice_Some l off (Z.of_nat n) Ho ltac:(lia) Hl) as Hs.
  rewrite (take_split_slice _ _ _ _ Hs). f_equal.
  rewrite (Hrd _ Hs) in Hv. simplify_eq.
  pose proof (slice_inv _ _ _ _ Hs) as (_ & _ & _ & Hlen & _).
  pose proof (le_bytes_le_value _ (slice_bytes _ _ _ _ Hb Hs)) as Hx.
  unfold zlen in Hlen. rewrite (Nat2Z.inj _ _ Hlen) in Hx. done.
Qed.

Lemma record_of_bytes_encode l r :
  bytes l -> record_of_bytes l = Some r -> take 56 l = record_bytes r /\ record_ok r.
Proof.
  intros Hb H. unfold record_of_bytes in H. steps H. simplify_eq. 
  assert (Hl : 56 <= zlen l) by (apply rd32_inv in E11; lia).
  split; [|unfold record_ok; cbn; split_and!; eauto with josh].
  unfold record_bytes, record_body. cbn [hr_magic hr_version hr_size hr_generation hr_selected_slot
    hr_last_good_slot hr_pending_good hr_attempt_count hr_last_failure_stage hr_reserved0
    hr_update_generation hr_reserved1 hr_checksum].
  assert (R32 : forall off v, 0 <= off -> off + 4 <= zlen l -> rd32 l off = Some v ->
    take (Z.to_nat (off + 4)) l = take (Z.to_nat off) l ++ le_bytes 4 v).
  { intros. apply (rd_encode rd32 4); try done. intros. by apply rd32_slice. }
  assert (R16 : forall off v, 0 <= off -> off + 2 <= zlen l -> rd16 l off = Some v ->
    take (Z.to_nat (off + 2)) l = take (Z.to_nat off) l ++ le_bytes 2 v).
  { intros. apply (rd_encode rd16 2); try done. intros. by apply rd16_slice. }
  assert (R64 : forall off v, 0 <= off -> off + 8 <= zlen l -> rd64 l off = Some v ->
    take (Z.to_nat (off + 8)) l = take (Z.to_nat off) l ++ le_bytes 8 v).
  { intros. apply (rd_encode rd64 8); try done. intros. by apply rd64_slice. }
  change (take 56 l) with (take (Z.to_nat (52 + 4)) l).
  rewrite (R32 52 _ ltac:(lia) ltac:(lia) E11). change 52 with (48 + 4) at 1.
  rewrite (R32 48 _ ltac:(lia) ltac:(lia) E10). change 48 with (40 + 8) at 1.
  rewrite (R64 40 _ ltac:(lia) ltac:(lia) E9). change 40 with (36 + 4) at 1.
  rewrite (R32 36 _ ltac:(lia) ltac:(lia) E8). change 36 with (32 + 4) at 1.
  rewrite (R32 32 _ ltac:(lia) ltac:(lia) E7). change 32 with (28 + 4) at 1.
  rewrite (R32 28 _ ltac:(lia) ltac:(lia) E6). change 28 with (24 + 4) at 1.
  rewrite (R32 24 _ ltac:(lia) ltac:(lia) E5). change 24 with (20 + 4) at 1.
  rewrite (R32 20 _ ltac:(lia) ltac:(lia) E4). change 20 with (16 + 4) at 1.
  rewrite (R32 16 _ ltac:(lia) ltac:(lia) E3). change 16 with (8 + 8) at 1.
  rewrite (R64 8 _ ltac:(lia) ltac:(lia) E2). change 8 with (6 + 2) at 1.
  rewrite (R16 6 _ ltac:(lia) ltac:(lia) E1). change 6 with (4 + 2) at 1.
  rewrite (R16 4 _ ltac:(lia) ltac:(lia) E0). change 4 with (0 + 4) at 1.
  rewrite (R32 0 _ ltac:(lia) ltac:(lia) E).
  change (take (Z.to_nat 0) l) with (@nil Z). rewrite app_nil_l.
  by rewrite <- !app_assoc.
Qed.

Lemma le_bytes_inj n a b :
  0 <= a < 2 ^ (8 * Z.of_nat n) -> 0 <= b < 2 ^ (8 * Z.of_nat n) ->
  le_bytes n a = le_bytes n b -> a = b.
Proof.
  intros Ha Hb H%(f_equal le_value). rewrite !le_value_le_bytes, !Z.mod_small in H by done. done.
Qed.

(** Split an equation between encodings into its first fields and the rest. *)
Ltac split_field H :=
  apply app_inj_1 in H; [destruct H as [?Hfield H]|by rewrite !length_le_bytes].

Lemma record_bytes_inj r1 r2 :
  record_ok r1 -> record_ok r2 -> record_bytes r1 = record_bytes r2 -> r1 = r2.
Proof.
  intros H1 H2 H. unfold record_bytes, record_body in H. rewrite <- !app_assoc in H.
  do 12 split_field H.
  destruct r1, r2. unfold record_ok, in_u16, in_u32, in_u64 in *. cbn in *.
  f_equal; (eapply le_bytes_inj; [..|eassumption]); lia.
Qed.

Lemma record_of_bytes_some l :
  bytes l -> 56 <= zlen l -> exists r, record_of_bytes l = Some r.
Proof.
  intros Hb Hl. unfold record_of_bytes.
  repeat match goal with
  | |- context [rd16 l ?o] => destruct (rd16_ok l o) as (? & -> & _); [done|lia..|]
  | |- context [rd32 l ?o] => destruct (rd32_ok l o) as (? & -> & _); [done|lia..|]
  | |- context [rd64 l ?o] => destruct (rd64_ok l o) as (? & -> & _); [done|lia..|]
  end. by eexists.
Qed.

Lemma record_of_record_bytes r rest :
  record_ok r -> bytes rest -> record_of_bytes (record_bytes r ++ rest) = Some r.
Proof.
  intros Hr Hb.
  assert (Hbs : bytes (record_bytes r ++ rest)) by (apply Forall_app_2; auto with josh).
  destruct (record_of_bytes_some (record_bytes r ++ rest)) as [r' Hr']; [done| |].
  { unfold zlen. rewrite length_app, length_record_bytes. lia. }
  rewrite Hr'. f_equal. apply record_of_bytes_encode in Hr' as [He Hok]; [|done].
  rewrite take_app_le, take_ge in He by (rewrite length_record_bytes; lia).
  symmetry. by apply record_bytes_inj.
Qed.

(** ** Validity *)

(** The checks of [josh_boot_health_valid] other than the checksum. *)
Definition fields_valid (r : josh_boot_health_record_t) : Prop :=
  hr_magic r = JOSH_BOOT_HEALTH_MAGIC /\ hr_version r = JOSH_BOOT_HEALTH_VERSION /\
  hr_size r = RECORD_SIZE /\ hr_selected_slot r <= 2 /\ hr_last_good_slot r <= 2 /\
  hr_pending_good r <= 1 /\ hr_last_failure_stage r <= 7.

Lemma valid_iff r :
  josh_boot_health_valid (Some r) = true <-> fields_valid r /\ hr_checksum r = crc32 (record_body r).
Proof.
  unfold josh_boot_health_valid, fields_valid, slot_valid, JOSH_BOOT_SLOT_RECOVERY,
    JOSH_BOOT_FAILURE_DESKTOP. rewrite checksum_for_body.
  destruct (_ || (hr_last_failure_stage r >? 7)) eqn:E; [split; [done|lia]|].
  rewrite Z.eqb_eq. split; [|tauto]. intros H. split; [|done].
  repeat apply orb_false_iff in E as [E ?]. lia.
Qed.

Lemma body_seal r : record_body (seal r) = record_body r.
Proof. done. Qed.

Lemma seal_valid r : josh_boot_health_valid (Some (seal r)) = true <-> fields_valid r.
Proof.
  rewrite valid_iff, body_seal. cbn. rewrite checksum_for_body. unfold fields_valid. cbn. tauto.
Qed.

Lemma seal_ok r : record_ok r -> record_ok (seal r).
Proof.
  unfold record_ok. cbn. rewrite checksum_for_body. intros. destruct_and!. split_and!; auto with josh.
Qed.

Lemma with_fields_ok r g s l p a f u :
  record_ok r -> in_u64 g -> in_u32 s -> in_u32 l -> in_u32 p -> in_u32 a -> in_u32 f -> in_u64 u ->
  record_ok (with_fields r g s l p a f u).
Proof. unfold record_ok. cbn. intros. destruct_and!. split_and!; done. Qed.

Lemma with_fields_valid r g s l p a f u :
  fields_valid r -> s <= 2 -> l <= 2 -> p <= 1 -> f <= 7 ->
  fields_valid (with_fields r g s l p a f u).
Proof. unfold fields_valid. cbn. intros. destruct_and!. split_and!; done. Qed.

Lemma default_record_ok : record_ok default_record.
Proof. unfold default_record. apply seal_ok. unfold record_ok. cbn.
  unfold RECORD_SIZE, JOSH_BOOT_HEALTH_MAGIC, JOSH_BOOT_HEALTH_VERSION, JOSH_BOOT_SLOT_CURRENT.
  split_and!; word.
Qed.

Lemma default_record_valid : josh_boot_health_valid (Some default_record) = true.
Proof.
  apply seal_valid. unfold fields_valid, JOSH_BOOT_SLOT_CURRENT. cbn. split_and!; lia || done.
Qed.

(** ** Sequences of operations *)
Inductive health_op :=
| BeginUpdate (candidate : Z)
| PrepareAttempt (max_attempts : Z)
| MarkGood (slot : Z)
| NoteFailure (stage : Z)
| SelectFallback (slot stage : Z).

Definition op_args (op : health_op) : Prop :=
  match op with
  | BeginUpdate c => in_u32 c
  | PrepareAttempt m => in_u32 m
  | MarkGood s => in_u32 s
  | NoteFailure f => in_u32 f
  | SelectFallback s f => in_u32 s /\ in_u32 f
  end.

Definition apply_op (record : option josh_boot_health_record_t) (op : health_op)
    : option josh_boot_health_record_t :=
  match op with
  | BeginUpdate c => (josh_boot_health_begin_update record c).2
  | PrepareAttempt m => (josh_boot_health_prepare_attempt record m).2
  | MarkGood s => (josh_boot_health_mark_good record s).2
  | NoteFailure f => josh_boot_health_note_failure record f
  | SelectFallback s f => (josh_boot_health_select_fallback record s f).2
  end.

(** The records a machine can hold when it performs the [allowed] operations:
    the default record and what operations make of it. *)
Inductive health_reachable (allowed : health_op -> Prop) : josh_boot_health_record_t -> Prop :=
| reach_default : health_reachable allowed default_record
| reach_step r op r' :
    health_reachable allowed r -> allowed op -> apply_op (Some r) op = Some r' ->
    health_reachable allowed r'.

(** Stage 2, the UEFI loader and the host tool all pass the same attempt limit. *)
Definition loader_op (op : health_op) : Prop :=
  op_args op /\
  match op with PrepareAttempt m => m = JOSH_BOOT_HEALTH_MAX_ATTEMPTS | _ => True end.

(** Case analysis on what an operation did to a valid record. *)
Inductive op_effect (r : josh_boot_health_record_t) : health_op -> josh_boot_health_record_t -> Prop :=
| eff_none op : op_effect r op r
| eff_begin c :
    c < 2 ->
    op_effect r (BeginUpdate c)
      (seal (with_fields r (u64 (hr_generation r + 1)) c (hr_last_good_slot r) 1 0 0
               (u64 (hr_update_generation r + 1))))
| eff_try m :
    hr_pending_good r <> 0 -> hr_attempt_count r < (if m =? 0 then 3 else m) ->
    op_effect r (PrepareAttempt m)
      (seal (with_fields r (u64 (hr_generation r + 1)) (hr_selected_slot r) (hr_last_good_slot r)
               (hr_pending_good r) (u32 (hr_attempt_count r + 1)) (hr_last_failure_stage r)
               (hr_update_generation r)))
| eff_rollback m :
    hr_pending_good r <> 0 -> (if m =? 0 then 3 else m) <= hr_attempt_count r ->
    op_effect r (PrepareAttempt m)
      (seal (with_fields r (u64 (hr_generation r + 1))
               (if negb (hr_last_good_slot r =? hr_selected_slot r) then hr_last_good_slot r else 2)
               (hr_last_good_slot r) 0 0 5 (hr_update_generation r)))
| eff_good s :
    s <= 2 ->
    op_effect r (MarkGood s)
      (seal (with_fields r (u64 (hr_generation r + 1)) s s 0 0 0 (hr_update_generation r)))
| eff_note f :
    f <= 7 ->
    op_effect r (NoteFailure f)
      (seal (with_fields r (u64 (hr_generation r + 1)) (hr_selected_slot r) (hr_last_good_slot r)
               (hr_pending_good r) (hr_attempt_count r) f (hr_update_generation r)))
| eff_fallback s f :
    s <= 2 -> f <= 7 ->
    op_effect r (SelectFallback s f)
      (seal (with_fields r (u64 (hr_generation r + 1)) s (hr_last_good_slot r) 0 0 f
               (hr_update_generation r))).

Lemma apply_op_effect r op r' :
  apply_op (Some r) op = Some r' -> op_effect r op r'.
Proof.
  destruct op; cbn [apply_op]; unfold josh_boot_health_begin_update, josh_boot_health_prepare_attempt,
    josh_boot_health_mark_good, josh_boot_health_note_failure, josh_boot_health_select_fallback,
    slot_valid, JOSH_BOOT_SLOT_RECOVERY, JOSH_BOOT_FAILURE_DESKTOP, JOSH_BOOT_HEALTH_MAX_ATTEMPTS.
  - destruct (_ || _) eqn:E; intros [= <-]; [apply eff_none|apply eff_begin; lia].
  - destruct (negb (josh_boot_health_valid _)); cbn [snd]; [intros [= <-]; apply eff_none|].
    destruct (negb (hr_pending_good r =? 0)) eqn:Ep; [|intros [= <-]; apply eff_none].
    destruct (_ >=? _) eqn:Ea; intros [= <-]; [apply eff_rollback; lia|apply eff_try; lia].
  - destruct (_ || _) eqn:E; intros [= <-]; [apply eff_none|apply eff_good; lia].
  - destruct (_ || _) eqn:E; intros [= <-]; [apply eff_none|apply eff_note; lia].
  - destruct (_ || _) eqn:E; intros [= <-]; [apply eff_none|apply eff_fallback; lia].
Qed.

Lemma apply_op_some r op : exists r', apply_op (Some r) op = Some r'.
Proof.
  destruct op; cbn [apply_op]; unfold josh_boot_health_begin_update, josh_boot_health_prepare_attempt,
    josh_boot_health_mark_good, josh_boot_health_note_failure, josh_boot_health_select_fallback;
    first [destruct (_ || _)|destruct (negb (josh_boot_health_valid _))]; cbn [snd];
    eexists; reflexivity.
Qed.

Lemma fields_valid_seal r : fields_valid r -> fields_valid (seal r).
Proof. done. Qed.

Lemma op_effect_valid r op r' :
  op_args op -> record_ok r -> fields_valid r -> op_effect r op r' ->
  record_ok r' /\ fields_valid r'.
Proof.
  intros Ha Hr Hf He. pose proof Hr as Hr'. unfold record_ok in Hr'. destruct_and! Hr'.
  pose proof Hf as Hf'. unfold fields_valid in Hf'. destruct_and! Hf'.
  destruct He; cbn [op_args] in Ha; [done|..];
    (split; [apply seal_ok, with_fields_ok|apply fields_valid_seal, with_fields_valid]);
    auto with josh; try destruct (negb (hr_last_good_slot r =? _)); try word; lia.
Qed.

Lemma op_effect_sealed r op r' :
  josh_boot_health_valid (Some r) = true -> fields_valid r' -> op_effect r op r' ->
  josh_boot_health_valid (Some r') = true.
Proof. intros Hv Hf He. destruct He; [exact Hv|apply seal_valid; exact Hf..]. Qed.

Lemma default_fields_valid : fields_valid default_record.
Proof. apply (proj1 (valid_iff default_record) default_record_valid). Qed.

Lemma reachable_invariant allowed r :
  (forall op, allowed op -> op_args op) -> health_reachable allowed r ->
  record_ok r /\ fields_valid r /\ josh_boot_health_valid (Some r) = true.
Proof.
  intros Hal. induction 1 as [|r op r' _ (Hr & Hf & Hv) Ha He].
  - split; [exact default_record_ok|]. split; [exact default_fields_valid|exact default_record_valid].
  - apply apply_op_effect in He.
    pose proof (op_effect_valid r op r' (Hal _ Ha) Hr Hf He) as [Hr' Hf'].
    split; [exact Hr'|]. split; [exact Hf'|]. exact (op_effect_sealed r op r' Hv Hf' He).
Qed.

(** ** Trials of an update *)

(** The slots chosen by [n] boots in a row, and the record they leave. *)
Fixpoint boots (n : nat) (record : option josh_boot_health_record_t) (max_attempts : Z)
    : list Z * option josh_boot_health_record_t :=
  match n with
  | O => ([], record)
  | S n' =>
      let '(slot, record') := josh_boot_health_prepare_attempt record max_attempts in
      let '(slots, final) := boots n' record' max_attempts in
      (slot :: slots, final)
  end.

Definition rollback_slot (r : josh_boot_health_record_t) : Z :=
  if negb (hr_last_good_slot r =? hr_selected_slot r) then hr_last_good_slot r
  else JOSH_BOOT_SLOT_RECOVERY.

Definition attempt_limit (max_attempts : Z) : Z :=
  if max_attempts =? 0 then JOSH_BOOT_HEALTH_MAX_ATTEMPTS else max_attempts.

Lemma attempt_below_limit r m :
  josh_boot_health_valid (Some r) = true -> hr_pending_good r = 1 ->
  hr_attempt_count r < attempt_limit m ->
  josh_boot_health_prepare_attempt (Some r) m =
  (hr_selected_slot r,
   Some (seal (with_fields r (u64 (hr_generation r + 1)) (hr_selected_slot r) (hr_last_good_slot r)
           (hr_pending_good r) (u32 (hr_attempt_count r + 1)) (hr_last_failure_stage r)
           (hr_update_generation r)))).
Proof.
  intros Hv Hp Ha. unfold josh_boot_health_prepare_attempt. fold (attempt_limit m).
  rewrite Hv, Hp. cbn [negb Z.eqb].
  rewrite Z.geb_leb, (proj2 (Z.leb_gt (attempt_limit m) (hr_attempt_count r))) by lia. reflexivity.
Qed.

Lemma attempt_at_limit r m :
  josh_boot_health_valid (Some r) = true -> hr_pending_good r = 1 ->
  attempt_limit m <= hr_attempt_count r ->
  josh_boot_health_prepare_attempt (Some r) m =
  (rollback_slot r,
   Some (seal (with_fields r (u64 (hr_generation r + 1)) (rollback_slot r) (hr_last_good_slot r) 0 0
           JOSH_BOOT_FAILURE_KERNEL (hr_update_generation r)))).
Proof.
  intros Hv Hp Ha. unfold josh_boot_health_prepare_attempt. fold (attempt_limit m).
  rewrite Hv, Hp. cbn [negb Z.eqb].
  rewrite Z.geb_leb, (proj2 (Z.leb_le (attempt_limit m) (hr_attempt_count r))) by lia. reflexivity.
Qed.

Lemma attempt_not_pending r m :
  josh_boot_health_valid (Some r) = true -> hr_pending_good r = 0 ->
  josh_boot_health_prepare_attempt (Some r) m = (hr_selected_slot r, Some r).
Proof.
  intros Hv Hp. unfold josh_boot_health_prepare_attempt. rewrite Hv, Hp. reflexivity.
Qed.

Lemma boots_stable k r m :
  josh_boot_health_valid (Some r) = true -> hr_pending_good r = 0 ->
  boots k (Some r) m = (replicate k (hr_selected_slot r), Some r).
Proof.
  intros Hv Hp. induction k as [|k IH]; [reflexivity|].
  cbn [boots]. rewrite attempt_not_pending by assumption. rewrite IH. reflexivity.
Qed.

(** An attempt within the limit is counted and changes nothing else of the trial. *)
Lemma trial_attempt r m :
  josh_boot_health_valid (Some r) = true -> record_ok r -> hr_pending_good r = 1 -> in_u32 m ->
  hr_attempt_count r < attempt_limit m ->
  exists r1, josh_boot_health_prepare_attempt (Some r) m = (hr_selected_slot r, Some r1) /\
    josh_boot_health_valid (Some r1) = true /\ record_ok r1 /\ hr_pending_good r1 = 1 /\
    hr_attempt_count r1 = hr_attempt_count r + 1 /\ hr_selected_slot r1 = hr_selected_slot r /\
    hr_last_good_slot r1 = hr_last_good_slot r.
Proof.
  intros Hv Hr Hp Hm Hn. pose proof (proj1 (valid_iff r) Hv) as [Hf _].
  assert (Ha : op_effect r (PrepareAttempt m)
    (seal (with_fields r (u64 (hr_generation r + 1)) (hr_selected_slot r) (hr_last_good_slot r)
         (hr_pending_good r) (u32 (hr_attempt_count r + 1)) (hr_last_failure_stage r)
         (hr_update_generation r)))).
  { apply eff_try; [lia|]. unfold attempt_limit, JOSH_BOOT_HEALTH_MAX_ATTEMPTS in Hn. lia. }
  rewrite attempt_below_limit by assumption. eexists. split; [reflexivity|]. set (r1 := seal _) in *.
  pose proof (op_effect_valid r (PrepareAttempt m) r1 Hm Hr Hf Ha) as [Hr1 Hf1].
  pose proof (op_effect_sealed r _ r1 Hv Hf1 Ha) as Hv1. split_and!; try done.
  unfold r1. cbn. apply u32_id. unfold record_ok, attempt_limit, JOSH_BOOT_HEALTH_MAX_ATTEMPTS in *.
  destruct_and!. destruct (m =? 0); word.
Qed.

(** While attempts are left every boot selects the slot on trial. *)
Lemma boots_within_trial k m : forall r,
  josh_boot_health_valid (Some r) = true -> record_ok r -> hr_pending_good r = 1 -> in_u32 m ->
  hr_attempt_count r + Z.of_nat k <= attempt_limit m ->
  exists r', boots k (Some r) m = (replicate k (hr_selected_slot r), Some r') /\
    josh_boot_health_valid (Some r') = true /\ record_ok r' /\ hr_selected_slot r' = hr_selected_slot r.
Proof.
  induction k as [|k IH]; intros r Hv Hr Hp Hm Hn; [by exists r|].
  destruct (trial_attempt r m Hv Hr Hp Hm ltac:(lia)) as (r1 & Hb1 & Hv1 & Hr1 & Hp1 & Ha1 & Hs1 & _).
  destruct (IH r1 Hv1 Hr1 Hp1 Hm ltac:(lia)) as (r' & Hb & Hv' & Hr' & Hs'). rewrite Hs1 in *.
  exists r'. cbn [boots replicate]. by rewrite Hb1, Hb.
Qed.

Lemma boots_trial n r m :
  josh_boot_health_valid (Some r) = true -> record_ok r -> hr_pending_good r = 1 -> in_u32 m ->
  hr_attempt_count r + Z.of_nat n = attempt_limit m ->
  exists r',
    boots (S n) (Some r) m = (replicate n (hr_selected_slot r) ++ [rollback_slot r], Some r') /\
    josh_boot_health_valid (Some r') = true /\ hr_pending_good r' = 0 /\
    hr_selected_slot r' = rollback_slot r /\ hr_last_good_slot r' = hr_last_good_slot r /\
    hr_last_failure_stage r' = JOSH_BOOT_FAILURE_KERNEL.
Proof.
  revert r. induction n as [|n IH]; intros r Hv Hr Hp Hm Hn.
  - pose proof (proj1 (valid_iff r) Hv) as [Hf _]. pose proof Hf as Hf'. unfold fields_valid in Hf'.
    eexists. cbn [boots]. rewrite attempt_at_limit by (assumption || lia). split; [reflexivity|].
    cbn [replicate app]. split; [|done]. apply seal_valid, with_fields_valid; [exact Hf|..]; try lia.
    + unfold rollback_slot, JOSH_BOOT_SLOT_RECOVERY. destruct (negb _); lia.
    + unfold JOSH_BOOT_FAILURE_KERNEL. lia.
  - destruct (trial_attempt r m Hv Hr Hp Hm ltac:(lia)) as (r1 & Hb1 & Hv1 & Hr1 & Hp1 & Ha1 & Hs1 & Hg1).
    destruct (IH r1 Hv1 Hr1 Hp1 Hm ltac:(lia)) as (r' & Hb & Hrest). unfold rollback_slot in *. rewrite Hs1, Hg1 in *.
    exists r'. split; [|exact Hrest]. cbn [boots] in *. by rewrite Hb1, Hb.
Qed.

(** ** The properties of boot-health records *)

(** Every record reachable from the default record by the operations, in any order and with any
    32-bit arguments, passes [josh_boot_health_valid]: each operation leaves a sealed record. *)
Theorem health_operations_preserve_valid (r : josh_boot_health_record_t) :
  health_reachable op_args r -> josh_boot_health_valid (Some r) = true.
Proof. intros H. apply (reachable_invariant op_args r); [done|exact H]. Qed.

(** With the attempt limit the loaders pass, a reachable record never counts more than three
    attempts, counts none unless an update is on trial, and never has the recovery slot on trial. *)
Theorem health_trial_invariant (r : josh_boot_health_record_t) :
  health_reachable loader_op r ->
  0 <= hr_attempt_count r <= JOSH_BOOT_HEALTH_MAX_ATTEMPTS /\
  (hr_pending_good r = 0 -> hr_attempt_count r = 0) /\
  (hr_pending_good r <> 0 ->
     hr_selected_slot r = JOSH_BOOT_SLOT_CURRENT \/ hr_selected_slot r = JOSH_BOOT_SLOT_PREVIOUS).
Proof.
  unfold JOSH_BOOT_HEALTH_MAX_ATTEMPTS, JOSH_BOOT_SLOT_CURRENT, JOSH_BOOT_SLOT_PREVIOUS.
  induction 1 as [|r op r' Hreach (Hac & Hnp & Hp) [Hargs Hlim] He]; [cbn; lia|].
  apply apply_op_effect in He. 
  destruct He; cbn [op_args seal with_fields hr_attempt_count hr_pending_good hr_selected_slot] in *;
    try lia; unfold in_u32 in *; try lia.
  - subst m. cbn [Z.eqb] in *. unfold JOSH_BOOT_HEALTH_MAX_ATTEMPTS in *. cbn in *.
    rewrite u32_id by word. lia.
Qed.

(** An update on trial is booted until the attempt limit is reached, then rolled back exactly
    once: the next boot selects the last good slot (or recovery when that is the slot on trial),
    records a kernel failure, and every later boot keeps that slot without touching the record. *)
Theorem trial_ends_in_rollback (r : josh_boot_health_record_t) (max_attempts : Z) :
  josh_boot_health_valid (Some r) = true -> record_ok r -> hr_pending_good r = 1 ->
  in_u32 max_attempts -> hr_attempt_count r <= attempt_limit max_attempts ->
  let tries := Z.to_nat (attempt_limit max_attempts - hr_attempt_count r) in
  exists r',
    boots (S tries) (Some r) max_attempts =
      (replicate tries (hr_selected_slot r) ++ [rollback_slot r], Some r') /\
    hr_pending_good r' = 0 /\ hr_selected_slot r' = rollback_slot r /\
    hr_last_good_slot r' = hr_last_good_slot r /\
    hr_last_failure_stage r' = JOSH_BOOT_FAILURE_KERNEL /\
    forall k, boots k (Some r') max_attempts = (replicate k (rollback_slot r), Some r').
Proof.
  intros Hv Hr Hp Hm Ha tries.
  destruct (boots_trial tries r max_attempts) as (r' & Hb & Hv' & Hp' & Hs & Hg & Hf);
    try assumption; [unfold tries; lia|].
  exists r'. split; [exact Hb|]. split_and!; try assumption.
  intros k. rewrite boots_stable, Hs by assumption. reflexivity.
Qed.

(** Choosing between the two stored copies returns the valid copy with the higher generation,
    the only valid one, or the default record with result 0 when neither is valid. *)
Theorem choose_newest_valid (a b out : josh_boot_health_record_t) :
  let va := josh_boot_health_valid (Some a) in
  let vb := josh_boot_health_valid (Some b) in
  exists code r, josh_boot_health_choose (Some a) (Some b) (Some out) = (code, Some r) /\
    (code = 0 <-> va = false /\ vb = false) /\
    josh_boot_health_valid (Some r) = true /\
    (code <> 0 -> (r = a /\ va = true) \/ (r = b /\ vb = true)) /\
    (va = true -> hr_generation a <= hr_generation r) /\
    (vb = true -> hr_generation b <= hr_generation r) /\
    (code = 0 -> r = default_record).
Proof.
  intros va vb. unfold josh_boot_health_choose. fold va vb.
  destruct va eqn:Ea, vb eqn:Eb; cbn [negb andb orb josh_boot_health_default].
  - destruct (hr_generation a >=? hr_generation b) eqn:Eg;
      eexists _, _; (split; [reflexivity|]); split_and!; naive_solver lia.
  - eexists _, _; (split; [reflexivity|]); split_and!; naive_solver lia.
  - eexists _, _; (split; [reflexivity|]); split_and!; naive_solver lia.
  - eexists _, _; (split; [reflexivity|]).
    pose proof default_record_valid. split_and!; try tauto; try discriminate.
Qed.

(** A record written to a sector and copied back is the same record, and the bytes of any record
    that was read are its encoding: the packed layout loses nothing. *)
Theorem record_layout_roundtrip (r : josh_boot_health_record_t) (rest : list Z) :
  record_ok r -> bytes rest ->
  length (record_bytes r) = Z.to_nat RECORD_SIZE /\
  record_of_bytes (record_bytes r ++ rest) = Some r /\
  (forall buf r', bytes buf -> record_of_bytes buf = Some r' ->
     take (Z.to_nat RECORD_SIZE) buf = record_bytes r' /\ record_ok r').
Proof.
  intros Hr Hb. split; [apply length_record_bytes|].
  split; [by apply record_of_record_bytes|]. intros buf r' Hbuf Hr'. by apply record_of_bytes_encode.
Qed.

(** C30: Overwriting up to four consecutive bytes of a valid stored record, anywhere in it including
    across the checksum field, gives bytes that decode to a record the validity check rejects. *)
Theorem corruption_is_detected (r : josh_boot_health_record_t) (pre w1 w2 post : list Z) :
  josh_boot_health_valid (Some r) = true -> record_ok r ->
  record_bytes r = pre ++ w1 ++ post ->
  bytes w2 -> length w2 = length w1 -> (length w1 <= 4)%nat -> w2 <> w1 ->
  exists r', record_of_bytes (pre ++ w2 ++ post) = Some r' /\ josh_boot_health_valid (Some r') = false.
Proof.
  intros Hv Hr Heq Hw2 Hl H4 Hne.
  pose proof (bytes_record_bytes r) as Hb. rewrite Heq in Hb.
  apply Forall_app in Hb as [Hpre [Hw1 Hpost]%Forall_app].
  assert (Hlen : length (pre ++ w2 ++ post) = 56%nat).
  { rewrite <- (length_record_bytes r), Heq, !length_app. lia. }
  assert (Hb2 : bytes (pre ++ w2 ++ post)) by (repeat apply Forall_app_2; assumption).
  destruct (record_of_bytes_some (pre ++ w2 ++ post) Hb2) as [r' Hr']; [unfold zlen; lia|].
  exists r'. split; [exact Hr'|]. apply not_true_is_false. intros Hv'.
  apply record_of_bytes_encode in Hr' as [He Hok']; [|exact Hb2].
  rewrite take_ge in He by lia. apply valid_iff in Hv as [_ Hc], Hv' as [_ Hc'].
  apply Hne. symmetry. apply (crc_run_burst pre w1 w2 post); try assumption; [lia|].
  rewrite <- Heq, He. unfold record_bytes. transitivity residue.
  - apply crc_run_codeword; [apply bytes_record_body| |exact Hc]. by destruct_and! Hr.
  - symmetry. apply crc_run_codeword; [apply bytes_record_body| |exact Hc']. by destruct_and! Hok'.
Qed.

(** ** Witnesses *)

(** The default record with an update of the previous slot on trial. *)
Definition example_trial : josh_boot_health_record_t :=
  seal (with_fields default_record 1 1 0 1 0 0 1).

Lemma example_trial_begin :
  josh_boot_health_begin_update (Some default_record) JOSH_BOOT_SLOT_PREVIOUS = (1, Some example_trial).
Proof. vm_compute. reflexivity. Defined.

Lemma health_operations_preserve_valid_witness :
  josh_boot_health_valid (Some example_trial) = true.
Proof.
  apply (health_operations_preserve_valid example_trial).
  apply (reach_step op_args default_record (BeginUpdate 1)); [constructor|cbn; word|].
  vm_compute. reflexivity.
Defined.

Lemma health_trial_invariant_witness :
  0 <= hr_attempt_count example_trial <= 3 /\
  (hr_pending_good example_trial = 0 -> hr_attempt_count example_trial = 0) /\
  (hr_pending_good example_trial <> 0 ->
     hr_selected_slot example_trial = 0 \/ hr_selected_slot example_trial = 1).
Proof.
  apply (health_trial_invariant example_trial).
  apply (reach_step loader_op default_record (BeginUpdate 1)); [constructor|split; [cbn; word|done]|].
  vm_compute. reflexivity.
Defined.

Lemma trial_ends_in_rollback_witness :
  exists r',
    boots 4 (Some example_trial) 3 = ([1; 1; 1; 0], Some r') /\
    hr_pending_good r' = 0 /\ hr_selected_slot r' = 0 /\ hr_last_good_slot r' = 0 /\
    hr_last_failure_stage r' = JOSH_BOOT_FAILURE_KERNEL /\
    forall k, boots k (Some r') 3 = (replicate k 0, Some r').
Proof.
  refine (trial_ends_in_rollback example_trial 3 _ _ _ _ _).
  - vm_compute. reflexivity.
  - unfold record_ok, in_u16, in_u32, in_u64. vm_compute. repeat split; discriminate.
  - reflexivity.
  - word.
  - vm_compute. discriminate.
Defined.

Lemma record_layout_roundtrip_witness :
  record_of_bytes (record_bytes example_trial ++ replicate 456 0) = Some example_trial.
Proof.
  destruct (record_layout_roundtrip example_trial (replicate 456 0)) as (_ & H & _).
  - unfold record_ok, in_u16, in_u32, in_u64. vm_compute. repeat split; discriminate.
  - apply Forall_replicate. word.
  - exact H.
Defined.

Lemma corruption_is_detected_witness :
  let l := record_bytes example_trial in
  exists r', record_of_bytes (take 50 l ++ [1; 2; 3; 4] ++ drop 54 l) = Some r' /\
    josh_boot_health_valid (Some r') = false.
Proof.
  intros l. refine (corruption_is_detected example_trial (take 50 l) (take 4 (drop 50 l)) [1; 2; 3; 4]
    (drop 54 l) _ _ _ _ _ _ _).
  - vm_compute. reflexivity.
  - unfold record_ok, in_u16, in_u32, in_u64. vm_compute. repeat split; discriminate.
  - vm_compute. reflexivity.
  - repeat constructor; word.
  - vm_compute. reflexivity.
  - vm_compute. lia.
  - vm_compute. discriminate.
Defined.
