(* ===== verification/Elf64.v ===== *)
(** * The ELF64 parser (boot/elf64.c, boot/elf64.h)

    [josh_elf64_validate] checks an untrusted kernel image before anything of
    it is loaded, and [josh_elf64_load_segment] hands out its load segments one
    by one.  The image is the list of bytes from the image pointer on, which
    may be null; every header field is a checked little-endian read.  A pointer
    argument is an [option], a function returns its status together with the
    pointee of the out-parameter, and [None] is an access outside the image. *)
From S2P Require Import Prelude.

Definition JOSH_ELF64_MAX_PHDRS : Z := 128.
Definition JOSH_ELF64_PT_LOAD : Z := 1.
Definition JOSH_ELF64_PF_X : Z := 1.

Inductive JoshElf64Status :=
| JOSH_ELF64_OK
| JOSH_ELF64_ERR_ARGUMENT
| JOSH_ELF64_ERR_TRUNCATED
| JOSH_ELF64_ERR_MAGIC
| JOSH_ELF64_ERR_CLASS
| JOSH_ELF64_ERR_ENDIAN
| JOSH_ELF64_ERR_VERSION
| JOSH_ELF64_ERR_TYPE
| JOSH_ELF64_ERR_RELOCATION_MODEL
| JOSH_ELF64_ERR_MACHINE
| JOSH_ELF64_ERR_PHDR
| JOSH_ELF64_ERR_SEGMENT
| JOSH_ELF64_ERR_OVERLAP
| JOSH_ELF64_ERR_ENTRY.

#[export] Instance elf_status_eq_dec : EqDecision JoshElf64Status.
Proof. solve_decision. Defined.

Record JoshElf64LoadSegment := {
  ls_file_offset : Z;
  ls_virtual_address : Z;
  ls_file_size : Z;
  ls_memory_size : Z;
  ls_alignment : Z;
  ls_flags : Z
}.

Record JoshElf64Summary := {
  es_entry : Z;
  es_virtual_min : Z;
  es_virtual_max : Z;
  es_load_segment_count : Z
}.

Definition ELFCLASS64 : Z := 2.
Definition ELFDATA2LSB : Z := 1.
Definition EV_CURRENT : Z := 1.
Definition ET_EXEC : Z := 2.
Definition ET_DYN : Z := 3.
Definition EM_X86_64 : Z := 62.

(** The packed structures overlaid on the image. *)
Record Elf64Header := {
  eh_ident : list Z;
  eh_type : Z;
  eh_machine : Z;
  eh_version : Z;
  eh_entry : Z;
  eh_phoff : Z;
  eh_shoff : Z;
  eh_flags : Z;
  eh_ehsize : Z;
  eh_phentsize : Z;
  eh_phnum : Z;
  eh_shentsize : Z;
  eh_shnum : Z;
  eh_shstrndx : Z
}.
Definition sizeof_Elf64Header : Z := 64.

Definition Elf64Header_at (image : list Z) : option Elf64Header :=
  let? ident := slice image 0 16 in
  let? type := rd16 image 16 in
  let? machine := rd16 image 18 in
  let? version := rd32 image 20 in
  let? entry := rd64 image 24 in
  let? phoff := rd64 image 32 in
  let? shoff := rd64 image 40 in
  let? flags := rd32 image 48 in
  let? ehsize := rd16 image 52 in
  let? phentsize := rd16 image 54 in
  let? phnum := rd16 image 56 in
  let? shentsize := rd16 image 58 in
  let? shnum := rd16 image 60 in
  let? shstrndx := rd16 image 62 in
  Some {| eh_ident := ident; eh_type := type; eh_machine := machine; eh_version := version;
          eh_entry := entry; eh_phoff := phoff; eh_shoff := shoff; eh_flags := flags;
          eh_ehsize := ehsize; eh_phentsize := phentsize; eh_phnum := phnum;
          eh_shentsize := shentsize; eh_shnum := shnum; eh_shstrndx := shstrndx |}.

Record Elf64ProgramHeader := {
  ph_type : Z;
  ph_flags : Z;
  ph_offset : Z;
  ph_vaddr : Z;
  ph_paddr : Z;
  ph_filesz : Z;
  ph_memsz : Z;
  ph_align : Z
}.
Definition sizeof_Elf64ProgramHeader : Z := 56.

Definition Elf64ProgramHeader_at (image : list Z) (p : Z) : option Elf64ProgramHeader :=
  let? type := rd32 image p in
  let? flags := rd32 image (p + 4) in
  let? offset := rd64 image (p + 8) in
  let? vaddr := rd64 image (p + 16) in
  let? paddr := rd64 image (p + 24) in
  let? filesz := rd64 image (p + 32) in
  let? memsz := rd64 image (p + 40) in
  let? align := rd64 image (p + 48) in
  Some {| ph_type := type; ph_flags := flags; ph_offset := offset; ph_vaddr := vaddr;
          ph_paddr := paddr; ph_filesz := filesz; ph_memsz := memsz; ph_align := align |}.

(** ** Arithmetic helpers *)
Definition add_overflows (a b : Z) : bool := u64 (Z.lnot a) <? b.

Definition range_inside (offset length total : Z) : bool :=
  negb (add_overflows offset length) && (u64 (offset + length) <=? total).

Definition power_of_two (value : Z) : bool :=
  negb (value =? 0) && (Z.land value (u64 (value - 1)) =? 0).

(** ** Validation *)

(** Returns the header pointer (null on failure) and the pointee of [status]. *)
Definition header_if_basic_valid (image : option (list Z)) (image_size : Z)
    (status : option JoshElf64Status) : option (option Elf64Header * option JoshElf64Status) :=
  match image, status with
  | Some img, Some _ =>
      let fail s := Some (None, Some s) in
      if image_size <? sizeof_Elf64Header then fail JOSH_ELF64_ERR_TRUNCATED
      else
        let? h := Elf64Header_at img in
        let? i0 := get8 (eh_ident h) 0 in
        let? i1 := get8 (eh_ident h) 1 in
        let? i2 := get8 (eh_ident h) 2 in
        let? i3 := get8 (eh_ident h) 3 in
        let? i4 := get8 (eh_ident h) 4 in
        let? i5 := get8 (eh_ident h) 5 in
        let? i6 := get8 (eh_ident h) 6 in
        if negb (i0 =? 0x7f) || negb (i1 =? 69) || negb (i2 =? 76) || negb (i3 =? 70)
        then fail JOSH_ELF64_ERR_MAGIC
        else if negb (i4 =? ELFCLASS64) then fail JOSH_ELF64_ERR_CLASS
        else if negb (i5 =? ELFDATA2LSB) then fail JOSH_ELF64_ERR_ENDIAN
        else if negb (i6 =? EV_CURRENT) || negb (eh_version h =? EV_CURRENT)
        then fail JOSH_ELF64_ERR_VERSION
        else if eh_type h =? ET_DYN then fail JOSH_ELF64_ERR_RELOCATION_MODEL
        else if negb (eh_type h =? ET_EXEC) then fail JOSH_ELF64_ERR_TYPE
        else if negb (eh_machine h =? EM_X86_64) then fail JOSH_ELF64_ERR_MACHINE
        else if negb (eh_ehsize h =? sizeof_Elf64Header)
                || negb (eh_phentsize h =? sizeof_Elf64ProgramHeader)
                || (eh_phnum h =? 0) || (eh_phnum h >? JOSH_ELF64_MAX_PHDRS)
        then fail JOSH_ELF64_ERR_PHDR
        else if negb (range_inside (eh_phoff h) (u64 (eh_phnum h * eh_phentsize h)) image_size)
        then fail JOSH_ELF64_ERR_TRUNCATED
        else Some (Some h, Some JOSH_ELF64_OK)
  | _, _ => Some (None, status)
  end.

Definition program_header (image : list Z) (h : Elf64Header) (index : Z)
    : option Elf64ProgramHeader :=
  Elf64ProgramHeader_at image (u64 (eh_phoff h + u64 (index * eh_phentsize h))).

Definition validate_load_segment (p : Elf64ProgramHeader) (image_size : Z) : JoshElf64Status :=
  if ph_filesz p >? ph_memsz p then JOSH_ELF64_ERR_SEGMENT
  else if negb (range_inside (ph_offset p) (ph_filesz p) image_size)
  then JOSH_ELF64_ERR_TRUNCATED
  else if negb (ph_memsz p =? 0) && add_overflows (ph_vaddr p) (ph_memsz p)
  then JOSH_ELF64_ERR_SEGMENT
  else if (ph_align p >? 1)
          && (negb (power_of_two (ph_align p))
              || negb (Z.land (ph_vaddr p) (u64 (ph_align p - 1))
                       =? Z.land (ph_offset p) (u64 (ph_align p - 1))))
  then JOSH_ELF64_ERR_SEGMENT
  else JOSH_ELF64_OK.

(** The inner loop: does segment [p] overlap a load segment before it? *)
Fixpoint overlap_loop (image : list Z) (h : Elf64Header) (p : Elf64ProgramHeader) (end_ : Z)
    (n : nat) (j : Z) {struct n} : option bool :=
  match n with
  | O => Some false
  | S n' =>
      let? q := program_header image h j in
      if negb (ph_type q =? JOSH_ELF64_PT_LOAD) || (ph_memsz q =? 0)
      then overlap_loop image h p end_ n' (j + 1)
      else
        let q_end := u64 (ph_vaddr q + ph_memsz q) in
        if (ph_vaddr p <? q_end) && (ph_vaddr q <? end_) then Some true
        else overlap_loop image h p end_ n' (j + 1)
  end.

Record validate_state := {
  vs_virtual_min : Z;
  vs_virtual_max : Z;
  vs_load_count : Z;
  vs_entry_is_executable : bool
}.

(** The loop over the program headers, from header [i] on. *)
Fixpoint validate_loop (image : list Z) (image_size : Z) (h : Elf64Header) (n : nat) (i : Z)
    (s : validate_state) {struct n} : res JoshElf64Status validate_state :=
  match n with
  | O => Ok s
  | S n' =>
      load p := program_header image h i in
      if negb (ph_type p =? JOSH_ELF64_PT_LOAD) then validate_loop image image_size h n' (i + 1) s
      else
        match validate_load_segment p image_size with
        | JOSH_ELF64_OK =>
            if ph_memsz p =? 0 then validate_loop image image_size h n' (i + 1) s
            else
              let end_ := u64 (ph_vaddr p + ph_memsz p) in
              let s' :=
                {| vs_virtual_min :=
                     if ph_vaddr p <? vs_virtual_min s then ph_vaddr p else vs_virtual_min s;
                   vs_virtual_max :=
                     if end_ >? vs_virtual_max s then end_ else vs_virtual_max s;
                   vs_load_count := u16 (vs_load_count s + 1);
                   vs_entry_is_executable :=
                     (negb (Z.land (ph_flags p) JOSH_ELF64_PF_X =? 0)
                      && (eh_entry h >=? ph_vaddr p) && (eh_entry h <? end_))
                     || vs_entry_is_executable s |} in
              load overlap := overlap_loop image h p end_ (Z.to_nat i) 0 in
              if overlap then Err JOSH_ELF64_ERR_OVERLAP
              else validate_loop image image_size h n' (i + 1) s'
        | status => Err status
        end
  end.

Definition josh_elf64_validate (image : option (list Z)) (image_size : Z)
    (summary : option JoshElf64Summary) : option (JoshElf64Status * option JoshElf64Summary) :=
  match summary with
  | None => Some (JOSH_ELF64_ERR_ARGUMENT, None)
  | Some _ =>
      match header_if_basic_valid image image_size (Some JOSH_ELF64_OK), image with
      | Some (Some h, _), Some img =>
          match validate_loop img image_size h (Z.to_nat (eh_phnum h)) 0
                  {| vs_virtual_min := u64 (Z.lnot 0); vs_virtual_max := 0; vs_load_count := 0;
                     vs_entry_is_executable := false |} with
          | Ok s =>
              if vs_load_count s =? 0 then Some (JOSH_ELF64_ERR_SEGMENT, summary)
              else if negb (vs_entry_is_executable s) then Some (JOSH_ELF64_ERR_ENTRY, summary)
              else
                Some (JOSH_ELF64_OK,
                      Some {| es_entry := eh_entry h; es_virtual_min := vs_virtual_min s;
                              es_virtual_max := vs_virtual_max s;
                              es_load_segment_count := vs_load_count s |})
          | Err status => Some (status, summary)
          | Stuck => None
          end
      | Some (_, Some status), _ => Some (status, summary)
      | _, _ => None
      end
  end.

Fixpoint load_segment_loop (image : list Z) (image_size : Z) (h : Elf64Header) (load_index : Z)
    (n : nat) (i current : Z) {struct n} : res JoshElf64Status JoshElf64LoadSegment :=
  match n with
  | O => Err JOSH_ELF64_ERR_SEGMENT
  | S n' =>
      load p := program_header image h i in
      if negb (ph_type p =? JOSH_ELF64_PT_LOAD) || (ph_memsz p =? 0)
      then load_segment_loop image image_size h load_index n' (i + 1) current
      else
        match validate_load_segment p image_size with
        | JOSH_ELF64_OK =>
            if negb (current =? load_index)
            then load_segment_loop image image_size h load_index n' (i + 1) (u16 (current + 1))
            else
              Ok {| ls_file_offset := ph_offset p; ls_virtual_address := ph_vaddr p;
                    ls_file_size := ph_filesz p; ls_memory_size := ph_memsz p;
                    ls_alignment := ph_align p; ls_flags := ph_flags p |}
        | status => Err status
        end
  end.

Definition josh_elf64_load_segment (image : option (list Z)) (image_size load_index : Z)
    (segment : option JoshElf64LoadSegment)
    : option (JoshElf64Status * option JoshElf64LoadSegment) :=
  match segment with
  | None => Some (JOSH_ELF64_ERR_ARGUMENT, None)
  | Some _ =>
      match header_if_basic_valid image image_size (Some JOSH_ELF64_OK), image with
      | Some (Some h, _), Some img =>
          match load_segment_loop img image_size h load_index (Z.to_nat (eh_phnum h)) 0 0 with
          | Ok s => Some (JOSH_ELF64_OK, Some s)
          | Err status => Some (status, segment)
          | Stuck => None
          end
      | Some (_, Some status), _ => Some (status, segment)
      | _, _ => None
      end
  end.

(** The switch of [josh_elf64_status_string], on the integer value. *)
Definition josh_elf64_status_string (status : Z) : string :=
  match status with
  | 0 => "ok"
  | 1 => "invalid argument"
  | 2 => "truncated image"
  | 3 => "bad ELF magic"
  | 4 => "not ELF64"
  | 5 => "not little endian"
  | 6 => "unsupported ELF version"
  | 7 => "not executable ELF"
  | 8 => "unsupported position-independent/relocatable ELF"
  | 9 => "not x86-64"
  | 10 => "invalid program headers"
  | 11 => "invalid load segment"
  | 12 => "overlapping load segments"
  | 13 => "entry outside executable segment"
  | _ => "unknown ELF error"
  end.

(** ** Arithmetic facts *)
Lemma add_overflows_iff a b : in_u64 a -> in_u64 b -> add_overflows a b = true <-> 2 ^ 64 <= a + b.
Proof.
  intros Ha Hb. unfold add_overflows, u64, Z.lnot, in_u64 in *.
  replace (Z.pred (- a)) with (2 ^ 64 - 1 - a + (-1) * 2 ^ 64) by lia.
  rewrite Z.mod_add, Z.mod_small by lia. lia.
Qed.

Lemma range_inside_iff o l t :
  in_u64 o -> in_u64 l -> in_u64 t -> range_inside o l t = true <-> o + l <= t.
Proof.
  intros Ho Hl Ht. unfold range_inside. pose proof (add_overflows_iff o l Ho Hl) as Ha.
  destruct (add_overflows o l); cbn [negb andb]; [split; [done|word]|].
  rewrite u64_id by (split; [word|]; destruct (Z.lt_ge_cases (o + l) (2 ^ 64)); [done|naive_solver]).
  lia.
Qed.

Lemma land_pred_pow2 v : 0 < v -> Z.land v (v - 1) = 0 -> v = 2 ^ Z.log2 v.
Proof.
  intros Hv Hl. destruct (Z.log2_spec v Hv) as [Hlo Hhi].
  destruct (Z.eq_dec v (2 ^ Z.log2 v)) as [|Hne]; [done|]. exfalso.
  assert (Hp : Z.log2 (v - 1) = Z.log2 v) by (apply Z.log2_unique; lia || (pose proof (Z.log2_nonneg v); lia)).
  apply (f_equal (fun z => Z.testbit z (Z.log2 v))) in Hl.
  rewrite Z.land_spec, Z.bits_0, Z.bit_log2 in Hl by lia.
  rewrite <- Hp, Z.bit_log2 in Hl; [done|].
  assert (0 < 2 ^ Z.log2 v) by (apply Z.pow_pos_nonneg; [lia|apply Z.log2_nonneg]). lia.
Qed.

Lemma power_of_two_iff v : in_u64 v -> power_of_two v = true <-> exists k, 0 <= k /\ v = 2 ^ k.
Proof.
  intros Hv. unfold power_of_two, in_u64 in *. split.
  - intros [H0 Hl]%andb_true_iff. rewrite u64_id in Hl by word.
    exists (Z.log2 v). split; [apply Z.log2_nonneg|]. apply land_pred_pow2; lia.
  - intros (k & Hk & ->). assert (0 < 2 ^ k) by (apply Z.pow_pos_nonneg; lia).
    rewrite u64_id by word. apply andb_true_iff. split; [lia|]. apply Z.eqb_eq.
    replace (2 ^ k - 1) with (Z.ones k) by (rewrite Z.ones_equiv; lia).
    rewrite Z.land_ones by lia. apply Z.mod_same. lia.
Qed.

Lemma land_mask v k : 0 <= k -> in_u64 (2 ^ k) -> Z.land v (u64 (2 ^ k - 1)) = v mod 2 ^ k.
Proof.
  intros Hk Hp. unfold in_u64 in *. assert (0 < 2 ^ k) by (apply Z.pow_pos_nonneg; lia).
  rewrite u64_id by word. replace (2 ^ k - 1) with (Z.ones k) by (rewrite Z.ones_equiv; lia).
  by apply Z.land_ones.
Qed.

(** ** What an acceptable image is *)
Definition ph_range (p : Elf64ProgramHeader) : Prop :=
  in_u32 (ph_type p) /\ in_u32 (ph_flags p) /\ in_u64 (ph_offset p) /\ in_u64 (ph_vaddr p) /\
  in_u64 (ph_filesz p) /\ in_u64 (ph_memsz p) /\ in_u64 (ph_align p).

Definition ph_end (p : Elf64ProgramHeader) : Z := ph_vaddr p + ph_memsz p.

Definition is_load (p : Elf64ProgramHeader) : bool :=
  (ph_type p =? JOSH_ELF64_PT_LOAD) && negb (ph_memsz p =? 0).

(** A load segment whose bytes lie in the file and whose addresses do not wrap. *)
Definition segment_ok (image_size : Z) (p : Elf64ProgramHeader) : Prop :=
  ph_filesz p <= ph_memsz p /\ ph_offset p + ph_filesz p <= image_size /\
  (ph_memsz p <> 0 -> ph_end p < 2 ^ 64) /\
  (1 < ph_align p -> exists k, 0 <= k /\ ph_align p = 2 ^ k /\
     ph_vaddr p mod ph_align p = ph_offset p mod ph_align p).

Lemma validate_load_segment_iff p size :
  ph_range p -> in_u64 size -> validate_load_segment p size = JOSH_ELF64_OK <-> segment_ok size p.
Proof.
  intros (_ & _ & Ho & Hv & Hf & Hm & Ha) Hs. unfold validate_load_segment, segment_ok, ph_end.
  pose proof (range_inside_iff (ph_offset p) (ph_filesz p) size Ho Hf Hs) as Hri.
  pose proof (add_overflows_iff (ph_vaddr p) (ph_memsz p) Hv Hm) as Hao.
  pose proof (power_of_two_iff (ph_align p) Ha) as Hpt.
  destruct (ph_filesz p >? ph_memsz p) eqn:E1; [split; [done|lia]|].
  destruct (range_inside _ _ _); cbn [negb]; [|split; [done|intros (_&?&_); naive_solver]].
  destruct (negb (ph_memsz p =? 0) && add_overflows _ _) eqn:E2.
  { apply andb_true_iff in E2 as [Hm0 Hao'%Hao]. split; [done|]. intros (_&_&H&_). lia. }
  assert (Hend : ph_memsz p <> 0 -> ph_vaddr p + ph_memsz p < 2 ^ 64).
  { intros Hne. destruct (add_overflows _ _); [lia|]. 
    destruct (Z.lt_ge_cases (ph_vaddr p + ph_memsz p) (2 ^ 64)); [done|naive_solver]. }
  destruct (ph_align p >? 1) eqn:E3; cbn [andb]; [|split; [intros _|done]; split_and!; naive_solver lia].
  destruct (power_of_two _); cbn [negb orb].
  - destruct (proj1 Hpt eq_refl) as (k & Hk & Hak).
    assert (Hpk : in_u64 (2 ^ k)) by (rewrite <- Hak; exact Ha).
    rewrite Hak, !land_mask by assumption.
    destruct (ph_vaddr p mod 2 ^ k =? ph_offset p mod 2 ^ k) eqn:E4; cbn [negb].
    + split; [intros _|reflexivity]. split_and!; [lia|naive_solver|done|]. intros _.
      exists k. split_and!; try done. lia.
    + split; [done|]. intros (_&_&_&H). rewrite Hak in E3. destruct (H ltac:(lia)) as (k' & _ & _ & ?). lia.
  - split; [done|]. intros (_&_&_&H). destruct (H ltac:(lia)) as (k & ? & ? & _). naive_solver.
Qed.

Definition segments_disjoint (p q : Elf64ProgramHeader) : Prop :=
  ph_end p <= ph_vaddr q \/ ph_end q <= ph_vaddr p.

(** The header checks of [header_if_basic_valid]. *)
Definition basic_header (img : list Z) (size : Z) (h : Elf64Header) : Prop :=
  64 <= size /\ Elf64Header_at img = Some h /\
  take 7 (eh_ident h) = [0x7f; 69; 76; 70; ELFCLASS64; ELFDATA2LSB; EV_CURRENT] /\
  eh_version h = EV_CURRENT /\ eh_type h = ET_EXEC /\ eh_machine h = EM_X86_64 /\
  eh_ehsize h = 64 /\ eh_phentsize h = 56 /\ 1 <= eh_phnum h <= JOSH_ELF64_MAX_PHDRS /\
  eh_phoff h + eh_phnum h * 56 <= size.

(** The program header table, and the segments to load. *)
Fixpoint phdrs (img : list Z) (h : Elf64Header) (n : nat) (i : Z) : option (list Elf64ProgramHeader) :=
  match n with
  | O => Some []
  | S n' =>
      let? p := program_header img h i in
      let? rest := phdrs img h n' (i + 1) in
      Some (p :: rest)
  end.

Definition loads (ps : list Elf64ProgramHeader) : list Elf64ProgramHeader := List.filter is_load ps.

Definition pairwise {A} (R : A -> A -> Prop) (l : list A) : Prop :=
  forall i j x y, (i < j)%nat -> l !! i = Some x -> l !! j = Some y -> R x y.

Definition enters (h : Elf64Header) (p : Elf64ProgramHeader) : bool :=
  negb (Z.land (ph_flags p) JOSH_ELF64_PF_X =? 0)
  && (ph_vaddr p <=? eh_entry h) && (eh_entry h <? ph_end p).

(** The images [josh_elf64_validate] accepts, with the summary it stores. *)
Definition elf_accepts (img : list Z) (size : Z) (sm : JoshElf64Summary) : Prop :=
  exists h ps, basic_header img size h /\ phdrs img h (Z.to_nat (eh_phnum h)) 0 = Some ps /\
    (forall p, p ∈ ps -> ph_type p = JOSH_ELF64_PT_LOAD -> segment_ok size p) /\
    pairwise segments_disjoint (loads ps) /\
    existsb (enters h) (loads ps) = true /\
    sm = {| es_entry := eh_entry h;
            es_virtual_min := foldr Z.min (2 ^ 64 - 1) (map ph_vaddr (loads ps));
            es_virtual_max := foldr Z.max 0 (map ph_end (loads ps));
            es_load_segment_count := zlen (loads ps) |}.

(** ** Lemmas on segment lists *)
Lemma foldr_min_snoc a l x : foldr Z.min a (l ++ [x]) = Z.min x (foldr Z.min a l).
Proof. induction l as [|y l IH]; cbn; [done|]. rewrite IH. lia. Qed.

Lemma foldr_max_snoc a l x : foldr Z.max a (l ++ [x]) = Z.max x (foldr Z.max a l).
Proof. induction l as [|y l IH]; cbn; [done|]. rewrite IH. lia. Qed.

Lemma pairwise_snoc {A} (R : A -> A -> Prop) l x :
  pairwise R (l ++ [x]) <-> pairwise R l /\ Forall (fun y => R y x) l.
Proof.
  unfold pairwise. split.
  - intros H. split.
    + intros i j y z Hij Hi Hj. apply (H i j y z Hij); by apply lookup_app_l_Some.
    + apply Forall_lookup. intros i y Hi. pose proof (lookup_lt_Some _ _ _ Hi).
      apply (H i (length l) y x); [lia|by apply lookup_app_l_Some|by apply list_lookup_middle].
  - intros [H Hf] i j y z Hij Hi Hj. apply lookup_snoc_Some in Hi, Hj.
    destruct Hj as [[Hj Hz]|[Hj <-]]; destruct Hi as [[Hi Hy]|[Hi <-]]; try lia.
    + by apply (H i j).
    + by eapply Forall_lookup_1 in Hf.
Qed.

Lemma pairwise_app_l {A} (R : A -> A -> Prop) l k : pairwise R (l ++ k) -> pairwise R l.
Proof. intros H i j x y Hij Hi Hj. apply (H i j x y Hij); by apply lookup_app_l_Some. Qed.

Lemma loads_app l k : loads (l ++ k) = loads l ++ loads k.
Proof. apply List.filter_app. Qed.

Lemma loads_snoc_other l p : is_load p = false -> loads (l ++ [p]) = loads l.
Proof. intros Hp. rewrite loads_app. unfold loads at 2. cbn. by rewrite Hp, app_nil_r. Qed.

Lemma loads_snoc_load l p : is_load p = true -> loads (l ++ [p]) = loads l ++ [p].
Proof. intros Hp. rewrite loads_app. unfold loads at 2. cbn. by rewrite Hp. Qed.

Lemma zlen_loads l : zlen (loads l) <= zlen l.
Proof. unfold zlen, loads. pose proof (List.filter_length_le is_load l). lia. Qed.

Lemma zlen_zero {A} (l : list A) : (zlen l =? 0) = true <-> l = [].
Proof. rewrite Z.eqb_eq. unfold zlen. rewrite <- length_zero_iff_nil. lia. Qed.

Lemma foldr_min_le a l x : x ∈ l -> foldr Z.min a l <= x.
Proof. induction l as [|y l IH]; [set_solver|]. intros [->|H]%elem_of_cons; cbn; [lia|]. specialize (IH H). lia. Qed.

Lemma foldr_max_ge a l x : x ∈ l -> x <= foldr Z.max a l.
Proof. induction l as [|y l IH]; [set_solver|]. intros [->|H]%elem_of_cons; cbn; [lia|]. specialize (IH H). lia. Qed.

Lemma load_in_loads p ps : p ∈ loads ps -> p ∈ ps /\ ph_type p = JOSH_ELF64_PT_LOAD /\ ph_memsz p <> 0.
Proof.
  unfold loads, is_load. rewrite !list_elem_of_In, filter_In. intros [? ?%andb_true_iff]. split_and!; [done|lia..].
Qed.

Lemma ident_bytes (l : list Z) (c0 c1 c2 c3 c4 c5 c6 : Z) :
  get8 l 0 = Some c0 -> get8 l 1 = Some c1 -> get8 l 2 = Some c2 -> get8 l 3 = Some c3 ->
  get8 l 4 = Some c4 -> get8 l 5 = Some c5 -> get8 l 6 = Some c6 ->
  take 7 l = [c0; c1; c2; c3; c4; c5; c6].
Proof.
  intros. do 7 (destruct l as [|? l]; [done|]).
  repeat match goal with H : get8 _ _ = Some _ |- _ => vm_compute in H; injection H as <- end.
  reflexivity.
Qed.

(** ** The header checks *)
Section Image.
Context (img : list Z) (size : Z).
Context (Hbytes : bytes img) (Hsize : in_u64 size) (Hlen : size <= zlen img).

Lemma header_at_ok :
  64 <= size -> exists h, Elf64Header_at img = Some h /\ length (eh_ident h) = 16%nat /\
    in_u64 (eh_entry h) /\ in_u64 (eh_phoff h) /\ in_u16 (eh_phentsize h) /\ in_u16 (eh_phnum h).
Proof.
  intros H64. unfold Elf64Header_at. rewrite slice_Some by lia.
  repeat match goal with
  | |- context [rd16 img ?o] => destruct (rd16_ok img o) as (? & -> & ?); [done|lia..|]
  | |- context [rd32 img ?o] => destruct (rd32_ok img o) as (? & -> & ?); [done|lia..|]
  | |- context [rd64 img ?o] => destruct (rd64_ok img o) as (? & -> & ?); [done|lia..|]
  end.
  eexists. split; [done|]. cbn. split_and!; try done.
  rewrite length_take, length_drop. word.
Qed.

Lemma header_basic_iff st h st' :
  header_if_basic_valid (Some img) size (Some st) = Some (Some h, st') <->
  basic_header img size h /\ st' = Some JOSH_ELF64_OK.
Proof.
  unfold header_if_basic_valid, basic_header, sizeof_Elf64Header, sizeof_Elf64ProgramHeader.
  destruct (size <? 64) eqn:E0; [split; [done|lia]|].
  destruct (header_at_ok ltac:(lia)) as (h0 & -> & Hid & He & Hpo & Hpe & Hpn).
  assert (Hg : forall k, 0 <= k < 16 -> exists c, get8 (eh_ident h0) k = Some c)
    by (intros; apply get8_Some; word).
  destruct (Hg 0) as [c0 G0], (Hg 1) as [c1 G1], (Hg 2) as [c2 G2], (Hg 3) as [c3 G3],
    (Hg 4) as [c4 G4], (Hg 5) as [c5 G5], (Hg 6) as [c6 G6]; try lia.
  rewrite G0, G1, G2, G3, G4, G5, G6. pose proof (ident_bytes _ _ _ _ _ _ _ _ G0 G1 G2 G3 G4 G5 G6) as Ht.
  unfold in_u16 in *. unfold ELFCLASS64, ELFDATA2LSB, EV_CURRENT, ET_DYN, ET_EXEC, EM_X86_64,
    JOSH_ELF64_MAX_PHDRS.
  destruct (_ || negb (c3 =? 70)) eqn:E1; [split; [done|intros [(_&[= <-]&Hi&_) _]; rewrite Ht in Hi; simplify_eq; lia]|].
  destruct (negb (c4 =? 2)) eqn:E2; [split; [done|intros [(_&[= <-]&Hi&_) _]; rewrite Ht in Hi; simplify_eq; lia]|].
  destruct (negb (c5 =? 1)) eqn:E3; [split; [done|intros [(_&[= <-]&Hi&_) _]; rewrite Ht in Hi; simplify_eq; lia]|].
  destruct (_ || negb (eh_version h0 =? 1)) eqn:E4; [split; [done|intros [(_&[= <-]&Hi&?&_) _]; rewrite Ht in Hi; simplify_eq; lia]|].
  destruct (eh_type h0 =? 3) eqn:E5; [split; [done|intros [(_&[= <-]&_&_&?&_) _]; lia]|].
  destruct (negb (eh_type h0 =? 2)) eqn:E6; [split; [done|intros [(_&[= <-]&_&_&?&_) _]; lia]|].
  destruct (negb (eh_machine h0 =? 62)) eqn:E7; [split; [done|intros [(_&[= <-]&_&_&_&?&_) _]; lia]|].
  destruct (_ || (eh_phnum h0 >? 128)) eqn:E8; [split; [done|intros [(_&[= <-]&_&_&_&_&?&?&?&_) _]; lia]|].
  assert (Hpe56 : eh_phentsize h0 = 56) by lia. rewrite Hpe56, u64_id by word.
  pose proof (range_inside_iff (eh_phoff h0) (eh_phnum h0 * 56) size Hpo ltac:(word) Hsize) as Hri.
  destruct (range_inside _ _ _); cbn [negb].
  - split; [|by intros [(_&[= <-]&_) ->]]. intros [= <- <-]. split; [|done].
    split_and!; try lia; try done. rewrite Ht. repeat f_equal; lia.
  - split; [done|]. intros [(_&[= <-]&H) _]. destruct_and! H. naive_solver.
Qed.

Lemma program_header_ok h i :
  basic_header img size h -> 0 <= i < eh_phnum h ->
  exists p, program_header img h i = Some p /\ ph_range p.
Proof.
  intros (H64 & Hh & _ & _ & _ & _ & _ & Hpe & Hpn & Hpo) Hi.
  destruct (header_at_ok H64) as (h' & Hh' & _ & _ & Hphoff & _). rewrite Hh in Hh'. simplify_eq.
  unfold program_header, Elf64ProgramHeader_at, JOSH_ELF64_MAX_PHDRS in *. rewrite Hpe.
  rewrite (u64_id (i * 56)) by word. unfold in_u64 in *. rewrite u64_id by word.
  set (o := eh_phoff h' + i * 56).
  assert (Ho : 0 <= o /\ o + 56 <= zlen img) by (unfold o; lia).
  repeat match goal with
  | |- context [rd32 img ?o] => destruct (rd32_ok img o) as (? & -> & ?); [done|lia..|]
  | |- context [rd64 img ?o] => destruct (rd64_ok img o) as (? & -> & ?); [done|lia..|]
  end.
  eexists. split; [done|]. unfold ph_range. cbn. split_and!; word.
Qed.

Lemma phdrs_ok h n i :
  basic_header img size h -> 0 <= i -> i + Z.of_nat n <= eh_phnum h ->
  exists ps, phdrs img h n i = Some ps /\ length ps = n /\ Forall ph_range ps /\
    forall k p, ps !! k = Some p -> program_header img h (i + Z.of_nat k) = Some p.
Proof.
  intros Hbh. revert i. induction n as [|n IH]; intros i Hi Hn; [by exists []|].
  destruct (program_header_ok h i Hbh) as (p & Hp & Hr); [lia|].
  destruct (IH (i + 1)) as (ps & Hps & Hl & Hrs & Hlk); [lia..|].
  exists (p :: ps). cbn [phdrs]. rewrite Hp, Hps. split_and!; [done|cbn; lia|by constructor|].
  intros [|k] q Hq; cbn in Hq; simplify_eq; [by rewrite Z.add_0_r|].
  replace (i + Z.of_nat (S k)) with (i + 1 + Z.of_nat k) by lia. by apply Hlk.
Qed.

(** The inner loop looks at the headers before the current one. *)
Definition clash (p : Elf64ProgramHeader) (e : Z) (q : Elf64ProgramHeader) : bool :=
  is_load q && ((ph_vaddr p <? u64 (ph_end q)) && (ph_vaddr q <? e)).

Lemma overlap_loop_spec h p e (qs : list Elf64ProgramHeader) j :
  (forall k q, qs !! k = Some q -> program_header img h (j + Z.of_nat k) = Some q) ->
  overlap_loop img h p e (length qs) j = Some (existsb (clash p e) qs).
Proof.
  revert j. induction qs as [|q qs IH]; intros j Hlk; [done|].
  cbn [length overlap_loop existsb].
  pose proof (Hlk 0%nat q eq_refl) as Hq. rewrite Z.add_0_r in Hq. rewrite Hq.
  assert (Htl : overlap_loop img h p e (length qs) (j + 1) = Some (existsb (clash p e) qs)).
  { apply IH. intros k q' Hk. replace (j + 1 + Z.of_nat k) with (j + Z.of_nat (S k)) by lia. by apply Hlk. }
  rewrite Htl. generalize (existsb (clash p e) qs). intros b. unfold clash, is_load, ph_end.
  destruct (ph_type q =? JOSH_ELF64_PT_LOAD), (ph_memsz q =? 0); cbn [negb orb andb]; try done.
  by destruct (_ && _).
Qed.

(** The loop state after the headers [ps]. *)
Definition vs_of (h : Elf64Header) (ls : list Elf64ProgramHeader) : validate_state :=
  {| vs_virtual_min := foldr Z.min (2 ^ 64 - 1) (map ph_vaddr ls);
     vs_virtual_max := foldr Z.max 0 (map ph_end ls);
     vs_load_count := zlen ls;
     vs_entry_is_executable := existsb (enters h) ls |}.

Lemma vs_of_snoc h ls p :
  zlen ls < 2 ^ 16 - 1 ->
  vs_of h (ls ++ [p]) =
  let s := vs_of h ls in
  {| vs_virtual_min := if ph_vaddr p <? vs_virtual_min s then ph_vaddr p else vs_virtual_min s;
     vs_virtual_max := if ph_end p >? vs_virtual_max s then ph_end p else vs_virtual_max s;
     vs_load_count := u16 (vs_load_count s + 1);
     vs_entry_is_executable := enters h p || vs_entry_is_executable s |}.
Proof.
  intros Hl. unfold vs_of. cbn. rewrite !map_app, existsb_app. cbn [map existsb].
  rewrite foldr_min_snoc, foldr_max_snoc, orb_false_r, orb_comm.
  assert (Hz : zlen (ls ++ [p]) = zlen ls + 1) by (unfold zlen; rewrite length_app; cbn; lia).
  rewrite Hz, u16_id by word. f_equal.
  - destruct (_ <? _) eqn:E; lia.
  - destruct (_ >? _) eqn:E; lia.
Qed.

Definition load_ok (p : Elf64ProgramHeader) : Prop :=
  ph_type p = JOSH_ELF64_PT_LOAD -> segment_ok size p.

Lemma no_clash p pre :
  0 < ph_memsz p -> Forall ph_range pre -> Forall load_ok pre ->
  existsb (clash p (ph_end p)) pre = false <->
  Forall (fun q => segments_disjoint q p) (loads pre).
Proof.
  intros Hm. induction pre as [|q pre IH]; intros Hr Ho; [split; [constructor|done]|].
  apply Forall_cons in Hr as [Hq Hr], Ho as [Hqo Ho]. specialize (IH Hr Ho).
  cbn [existsb]. unfold clash at 1, loads. cbn [List.filter].
  destruct (is_load q) eqn:El; cbn [andb orb]; [|exact IH].
  unfold is_load in El. destruct (Hqo ltac:(lia)) as (_ & _ & He & _).
  rewrite u64_id by (unfold ph_range, ph_end in *; word).
  rewrite orb_false_iff, IH, Forall_cons. unfold segments_disjoint.
  assert ((ph_vaddr p <? ph_end q) && (ph_vaddr q <? ph_end p) = false <->
          ph_end q <= ph_vaddr p \/ ph_end p <= ph_vaddr q) as -> by lia. done.
Qed.

(** The loop over [post], started after the headers [pre]: it never leaves the
    image, and succeeds exactly when the remaining load segments are acceptable
    and disjoint from all others. *)
Definition loop_spec (h : Elf64Header) (pre post : list Elf64ProgramHeader)
    (r : res JoshElf64Status validate_state) : Prop :=
  r <> Stuck /\
  forall s, r = Ok s <->
    Forall load_ok post /\ pairwise segments_disjoint (loads (pre ++ post)) /\
    s = vs_of h (loads (pre ++ post)).

Lemma loop_spec_cons h pre p post r :
  load_ok p -> loop_spec h (pre ++ [p]) post r -> loop_spec h pre (p :: post) r.
Proof.
  intros Hp [Hs Hi]. split; [exact Hs|]. intros s. rewrite Hi, Forall_cons, <- app_assoc. cbn [app].
  tauto.
Qed.

Lemma loop_spec_bad h pre p post e : ~ load_ok p -> loop_spec h pre (p :: post) (Err e).
Proof. intros Hp. split; [done|]. intros s. rewrite Forall_cons. split; [done|tauto]. Qed.

Lemma loop_spec_overlap h pre p post e :
  is_load p = true -> ~ Forall (fun q => segments_disjoint q p) (loads pre) ->
  loop_spec h pre (p :: post) (Err e).
Proof.
  intros Hl Hn. split; [done|]. intros s. split; [done|]. intros (_ & Hpw & _). exfalso.
  rewrite (cons_middle p pre post), app_assoc, loads_app, (loads_snoc_load _ _ Hl) in Hpw.
  by apply pairwise_app_l, pairwise_snoc in Hpw as [_ Hf].
Qed.

Lemma validate_loop_spec h pre post :
  zlen (pre ++ post) <= JOSH_ELF64_MAX_PHDRS ->
  (forall k q, (pre ++ post) !! k = Some q -> program_header img h (Z.of_nat k) = Some q) ->
  Forall ph_range (pre ++ post) -> Forall load_ok pre -> pairwise segments_disjoint (loads pre) ->
  loop_spec h pre post (validate_loop img size h (length post) (zlen pre) (vs_of h (loads pre))).
Proof.
  revert pre. induction post as [|p post IH]; intros pre Hn Hlk Hr Ho Hd.
  { unfold loop_spec. rewrite app_nil_r. cbn. split; [done|]. naive_solver. }
  cbn [length validate_loop].
  assert (Hp : program_header img h (zlen pre) = Some p) by (apply Hlk; by apply list_lookup_middle).
  rewrite Hp. cbn [need res_bind].
  specialize (IH (pre ++ [p])). rewrite <- !app_assoc in IH. cbn [app] in IH.
  assert (zlen (pre ++ [p]) = zlen pre + 1) as Hz by (unfold zlen; rewrite length_app; cbn; lia).
  rewrite Hz in IH. apply Forall_app in Hr as Hr'. destruct Hr' as [Hrpre [Hpr _]%Forall_cons].
  assert (Hpre : load_ok p -> Forall load_ok (pre ++ [p])) by (intros; by apply Forall_app_2, Forall_singleton).
  assert (Hskip : load_ok p -> is_load p = false ->
    loop_spec h pre (p :: post) (validate_loop img size h (length post) (zlen pre + 1) (vs_of h (loads pre)))).
  { intros Hpo Hl. apply loop_spec_cons; [exact Hpo|]. rewrite (loads_snoc_other _ _ Hl) in IH.
    apply IH; auto. }
  destruct (ph_type p =? JOSH_ELF64_PT_LOAD) eqn:Et; cbn [negb];
    [|apply Hskip; [intros ?; exfalso; lia|unfold is_load; by rewrite Et]].
  destruct (decide (validate_load_segment p size = JOSH_ELF64_OK)) as [Hv|Hv].
  2: { assert (~ load_ok p) by (intros Hlo; apply Hv, validate_load_segment_iff; [done..|apply Hlo; lia]).
       destruct (validate_load_segment p size); by try apply loop_spec_bad. }
  rewrite Hv. apply validate_load_segment_iff in Hv; [|done..]. assert (Hpo : load_ok p) by by intros _.
  destruct (ph_memsz p =? 0) eqn:Em; [apply Hskip; [exact Hpo|unfold is_load; by rewrite Em, andb_false_r]|].
  assert (Hl : is_load p = true) by (unfold is_load; by rewrite Et, Em).
  assert (He : u64 (ph_vaddr p + ph_memsz p) = ph_end p)
    by (destruct Hv as (_ & _ & He & _); unfold ph_range, ph_end in *; apply u64_id; word).
  rewrite He, (loads_snoc_load _ _ Hl) in *.
  assert (Hov : overlap_loop img h p (ph_end p) (Z.to_nat (zlen pre)) 0 = Some (existsb (clash p (ph_end p)) pre)).
  { unfold zlen. rewrite Nat2Z.id. apply overlap_loop_spec. intros k q Hk. apply Hlk. by apply lookup_app_l_Some. }
  pose proof (no_clash p pre ltac:(unfold ph_range in Hpr; word) Hrpre Ho) as Hnc.
  rewrite Hov. cbn [need res_bind]. destruct (existsb _ pre).
  - apply loop_spec_overlap; [exact Hl|]. by rewrite <- Hnc.
  - apply loop_spec_cons; [exact Hpo|]. rewrite vs_of_snoc in IH; cbn zeta in IH.
    2: { pose proof (zlen_loads pre). unfold JOSH_ELF64_MAX_PHDRS, zlen in *. rewrite length_app in Hn. lia. }
    assert ((eh_entry h >=? ph_vaddr p) = (ph_vaddr p <=? eh_entry h)) as -> by lia.
    apply IH; auto. apply pairwise_snoc. split; [exact Hd|by apply Hnc].
Qed.

Lemma header_total st :
  (exists h, header_if_basic_valid (Some img) size (Some st) = Some (Some h, Some JOSH_ELF64_OK)) \/
  (exists st', header_if_basic_valid (Some img) size (Some st) = Some (None, Some st') /\ st' <> JOSH_ELF64_OK).
Proof.
  unfold header_if_basic_valid, sizeof_Elf64Header.
  destruct (size <? 64) eqn:E; [right; by eexists|].
  destruct (header_at_ok ltac:(lia)) as (h & -> & Hid & _).
  assert (Hg : forall k, 0 <= k < 16 -> exists c, get8 (eh_ident h) k = Some c)
    by (intros; apply get8_Some; word).
  destruct (Hg 0) as [c0 G0], (Hg 1) as [c1 G1], (Hg 2) as [c2 G2], (Hg 3) as [c3 G3],
    (Hg 4) as [c4 G4], (Hg 5) as [c5 G5], (Hg 6) as [c6 G6]; try lia.
  rewrite G0, G1, G2, G3, G4, G5, G6.
  repeat match goal with
  | |- context [if ?b then _ else _] => destruct b; [right; by eexists|]
  end. left. by eexists.
Qed.

Lemma phnum_phdrs h :
  basic_header img size h ->
  exists ps, phdrs img h (Z.to_nat (eh_phnum h)) 0 = Some ps /\ zlen ps = eh_phnum h /\
    Forall ph_range ps /\ forall k p, ps !! k = Some p -> program_header img h (Z.of_nat k) = Some p.
Proof.
  intros Hbh. destruct (phdrs_ok h (Z.to_nat (eh_phnum h)) 0 Hbh) as (ps & Hps & Hl & Hr & Hk);
    destruct Hbh as (_ & _ & _ & _ & _ & _ & _ & _ & Hn & _); [lia..|].
  exists ps. split_and!; [done|unfold zlen; lia|done|done].
Qed.

(** The validation loop run from the first header. *)
Lemma validate_loop_all h ps :
  basic_header img size h -> zlen ps = eh_phnum h -> Forall ph_range ps ->
  (forall k p, ps !! k = Some p -> program_header img h (Z.of_nat k) = Some p) ->
  loop_spec h [] ps
    (validate_loop img size h (Z.to_nat (eh_phnum h)) 0
       {| vs_virtual_min := u64 (Z.lnot 0); vs_virtual_max := 0; vs_load_count := 0;
          vs_entry_is_executable := false |}).
Proof.
  intros Hbh Hz Hr Hlk. rewrite <- Hz. unfold zlen at 1. rewrite Nat2Z.id.
  apply (validate_loop_spec h [] ps); cbn [app]; try done.
  destruct Hbh as (_ & _ & _ & _ & _ & _ & _ & _ & Hn & _). lia.
Qed.

Lemma validate_loop_err h n i s e : validate_loop img size h n i s = Err e -> e <> JOSH_ELF64_OK.
Proof.
  revert i s. induction n as [|n IH]; intros i s H; [done|]. cbn [validate_loop] in H.
  destruct (program_header img h i) as [p|]; cbn [need res_bind] in H; [|done].
  destruct (negb _); [by apply IH in H|].
  destruct (validate_load_segment p size); try by injection H as <-.
  destruct (ph_memsz p =? 0); [by apply IH in H|].
  destruct (overlap_loop _ _ _ _ _ _) as [[]|]; cbn [need res_bind] in H;
    [by injection H as <-|by apply IH in H|done].
Qed.

Lemma load_ok_all ps : Forall load_ok ps <-> forall p, p ∈ ps -> ph_type p = JOSH_ELF64_PT_LOAD -> segment_ok size p.
Proof. by rewrite Forall_forall. Qed.

Lemma validate_iff s0 sm :
  josh_elf64_validate (Some img) size (Some s0) = Some (JOSH_ELF64_OK, Some sm) <->
  elf_accepts img size sm.
Proof.
  unfold elf_accepts. split.
  - intros Hv. unfold josh_elf64_validate in Hv.
    destruct (header_total JOSH_ELF64_OK) as [[h Hh]|(st & Hh & Hne)]; rewrite Hh in Hv; [|by simplify_eq].
    apply header_basic_iff in Hh as [Hbh _].
    destruct (phnum_phdrs h Hbh) as (ps & Hps & Hz & Hr & Hlk).
    destruct (validate_loop_all h ps Hbh Hz Hr Hlk) as [Hns Hok]. cbn [app] in Hok.
    destruct (validate_loop _ _ _ _ _ _) as [s|e|] eqn:El; [|injection Hv as -> |done].
    2: { by apply validate_loop_err in El. }
    destruct (proj1 (Hok s) eq_refl) as (Hlo & Hpw & ->). cbn in Hv.
    destruct (zlen (loads ps) =? 0); [done|]. destruct (existsb _ _) eqn:Ee; cbn in Hv; [|done].
    injection Hv as <-. exists h, ps. split_and!; try done. by apply load_ok_all.
  - intros (h & ps & Hbh & Hps & Hlo & Hpw & Hen & ->).
    assert (Hh : header_if_basic_valid (Some img) size (Some JOSH_ELF64_OK) = Some (Some h, Some JOSH_ELF64_OK))
      by by apply header_basic_iff.
    unfold josh_elf64_validate. rewrite Hh.
    destruct (phnum_phdrs h Hbh) as (ps' & Hps' & Hz & Hr & Hlk).
    assert (ps' = ps) as -> by (rewrite Hps in Hps'; by injection Hps').
    destruct (validate_loop_all h ps Hbh Hz Hr Hlk) as [_ Hok]. cbn [app] in Hok.
    rewrite (proj2 (Hok (vs_of h (loads ps)))) by (split_and!; [by apply load_ok_all|done|done]).
    cbn. rewrite Hen. destruct (zlen (loads ps) =? 0) eqn:E0; [|done].
    apply zlen_zero in E0. by rewrite E0 in Hen.
Qed.

(** Segment enumeration: the loop over [post] with [current] segments passed. *)
Definition segment_of (p : Elf64ProgramHeader) : JoshElf64LoadSegment :=
  {| ls_file_offset := ph_offset p; ls_virtual_address := ph_vaddr p;
     ls_file_size := ph_filesz p; ls_memory_size := ph_memsz p;
     ls_alignment := ph_align p; ls_flags := ph_flags p |}.

Lemma load_segment_loop_spec h idx post i c :
  (forall k q, post !! k = Some q -> program_header img h (i + Z.of_nat k) = Some q) ->
  Forall ph_range post -> Forall load_ok post ->
  0 <= c <= idx -> c + zlen post < 2 ^ 16 ->
  load_segment_loop img size h idx (length post) i c =
  match loads post !! Z.to_nat (idx - c) with
  | Some p => Ok (segment_of p)
  | None => Err JOSH_ELF64_ERR_SEGMENT
  end.
Proof.
  revert i c. induction post as [|p post IH]; intros i c Hlk Hr Ho Hc Hz.
  { cbn. by rewrite lookup_nil. }
  apply Forall_cons in Hr as [Hpr Hr], Ho as [Hpo Ho]. cbn [length load_segment_loop].
  pose proof (Hlk 0%nat p eq_refl) as Hp. rewrite Z.add_0_r in Hp. rewrite Hp. cbn [need res_bind].
  assert (Hlk' : forall k q, post !! k = Some q -> program_header img h (i + 1 + Z.of_nat k) = Some q).
  { intros k q Hk. replace (i + 1 + Z.of_nat k) with (i + Z.of_nat (S k)) by lia. by apply Hlk. }
  assert (zlen (p :: post) = zlen post + 1) as Hz' by (unfold zlen; cbn; lia).
  unfold loads. cbn [List.filter]. unfold is_load at 1.
  destruct (ph_type p =? JOSH_ELF64_PT_LOAD) eqn:Et; cbn [negb orb andb];
    [|apply IH; try done; lia].
  destruct (ph_memsz p =? 0); cbn [negb orb andb]; [apply IH; try done; lia|].
  rewrite (proj2 (validate_load_segment_iff p size Hpr Hsize)) by (apply Hpo; lia).
  destruct (c =? idx) eqn:Ec; cbn [negb].
  - replace (Z.to_nat (idx - c)) with 0%nat by lia. done.
  - assert (0 <= zlen post) by word. rewrite u16_id by word. rewrite IH by (done || lia).
    replace (Z.to_nat (idx - c)) with (S (Z.to_nat (idx - (c + 1)))) by lia. done.
Qed.

Lemma load_segment_accepted h ps g idx :
  basic_header img size h -> phdrs img h (Z.to_nat (eh_phnum h)) 0 = Some ps ->
  Forall load_ok ps -> 0 <= idx ->
  josh_elf64_load_segment (Some img) size idx (Some g) =
  match loads ps !! Z.to_nat idx with
  | Some p => Some (JOSH_ELF64_OK, Some (segment_of p))
  | None => Some (JOSH_ELF64_ERR_SEGMENT, Some g)
  end.
Proof.
  intros Hbh Hps Hlo Hi. unfold josh_elf64_load_segment.
  rewrite (proj2 (header_basic_iff JOSH_ELF64_OK h (Some JOSH_ELF64_OK))) by done.
  destruct (phnum_phdrs h Hbh) as (ps' & Hps' & Hz & Hr & Hlk).
  assert (ps' = ps) as -> by (rewrite Hps in Hps'; by injection Hps').
  assert (Hn : 1 <= eh_phnum h <= 128) by by destruct Hbh as (_ & _ & _ & _ & _ & _ & _ & _ & Hn & _).
  rewrite <- Hz. unfold zlen at 1. rewrite Nat2Z.id.
  rewrite (load_segment_loop_spec h idx ps 0 0); try done; [|lia..].
  rewrite Z.sub_0_r. by destruct (loads ps !! _).
Qed.

(** Both entry points return on every image. *)
Lemma validate_total s0 :
  exists st sm, josh_elf64_validate (Some img) size (Some s0) = Some (st, Some sm) /\
    (st <> JOSH_ELF64_OK -> sm = s0).
Proof.
  unfold josh_elf64_validate.
  destruct (header_total JOSH_ELF64_OK) as [[h Hh]|(st & Hh & _)]; rewrite Hh; [|by eexists _, _].
  apply header_basic_iff in Hh as [Hbh _].
  destruct (phnum_phdrs h Hbh) as (ps & Hps & Hz & Hr & Hlk).
  destruct (validate_loop_all h ps Hbh Hz Hr Hlk) as [Hns _].
  destruct (validate_loop _ _ _ _ _ _) as [s|e|]; [|by eexists _, _|done].
  destruct (_ =? 0); [by eexists _, _|]. destruct (negb _); by eexists _, _.
Qed.

Lemma load_segment_loop_total h idx post : forall i c,
  (forall k q, post !! k = Some q -> program_header img h (i + Z.of_nat k) = Some q) ->
  Forall ph_range post ->
  load_segment_loop img size h idx (length post) i c <> Stuck /\
  forall g, load_segment_loop img size h idx (length post) i c = Ok g ->
    exists p, g = segment_of p /\ ph_range p /\ ph_memsz p <> 0 /\ segment_ok size p.
Proof.
  induction post as [|p post IH]; intros i c Hlk Hr; [done|].
  apply Forall_cons in Hr as [Hpr Hr]. cbn [length load_segment_loop].
  pose proof (Hlk 0%nat p eq_refl) as Hp. rewrite Z.add_0_r in Hp. rewrite Hp. cbn [need res_bind].
  assert (Hlk' : forall k q, post !! k = Some q -> program_header img h (i + 1 + Z.of_nat k) = Some q).
  { intros k q Hk. replace (i + 1 + Z.of_nat k) with (i + Z.of_nat (S k)) by lia. by apply Hlk. }
  destruct (negb (ph_type p =? JOSH_ELF64_PT_LOAD) || (ph_memsz p =? 0)) eqn:Et; [by apply IH|].
  destruct (validate_load_segment p size) eqn:Ev; try done.
  destruct (negb (c =? idx)); [by apply IH|]. split; [done|]. intros g [= <-]. exists p.
  split_and!; try done; [lia|]. by apply validate_load_segment_iff.
Qed.

Lemma load_segment_loop_err h idx n : forall i c e,
  load_segment_loop img size h idx n i c = Err e -> e <> JOSH_ELF64_OK.
Proof.
  induction n as [|n IH]; intros i c e H; cbn [load_segment_loop] in H; [by injection H as <-|].
  destruct (program_header img h i) as [p|]; cbn [need res_bind] in H; [|done].
  destruct (_ || _); [by apply IH in H|].
  destruct (validate_load_segment p size); try by injection H as <-.
  destruct (negb _); [by apply IH in H|done].
Qed.

Lemma load_segment_total idx g0 :
  exists st g, josh_elf64_load_segment (Some img) size idx (Some g0) = Some (st, Some g) /\
    (st = JOSH_ELF64_OK ->
     exists p, g = segment_of p /\ ph_range p /\ ph_memsz p <> 0 /\ segment_ok size p).
Proof.
  unfold josh_elf64_load_segment.
  destruct (header_total JOSH_ELF64_OK) as [[h Hh]|(st & Hh & Hne)]; rewrite Hh; [|by eexists _, _].
  apply header_basic_iff in Hh as [Hbh _].
  destruct (phnum_phdrs h Hbh) as (ps & Hps & Hz & Hr & Hlk).
  destruct (load_segment_loop_total h idx ps 0 0 Hlk Hr) as [Hns Hok].
  rewrite <- Hz. unfold zlen at 1. rewrite Nat2Z.id.
  destruct (load_segment_loop _ _ _ _ _ _ _) as [s|e|] eqn:El; [| |done].
  - eexists _, _. split; [done|]. intros _. by apply Hok.
  - eexists _, _. split; [done|]. intros ->. exfalso. by apply load_segment_loop_err in El.
Qed.

(** The load segments of an accepted image, as the loader sees them. *)
Definition seg_end (s : JoshElf64LoadSegment) : Z := ls_virtual_address s + ls_memory_size s.

Definition seg_ok (sm : JoshElf64Summary) (s : JoshElf64LoadSegment) : Prop :=
  in_u64 (ls_file_offset s) /\ in_u64 (ls_virtual_address s) /\ in_u64 (ls_file_size s) /\
  0 < ls_memory_size s /\ ls_file_size s <= ls_memory_size s /\
  ls_file_offset s + ls_file_size s <= size /\ seg_end s < 2 ^ 64 /\
  es_virtual_min sm <= ls_virtual_address s /\ seg_end s <= es_virtual_max sm.

Definition accepted_segments (sm : JoshElf64Summary) (segs : list JoshElf64LoadSegment) : Prop :=
  es_load_segment_count sm = zlen segs /\
  (forall k g, 0 <= k ->
     josh_elf64_load_segment (Some img) size k (Some g) =
     match segs !! Z.to_nat k with
     | Some s => Some (JOSH_ELF64_OK, Some s)
     | None => Some (JOSH_ELF64_ERR_SEGMENT, Some g)
     end) /\
  Forall (seg_ok sm) segs /\
  pairwise (fun s t => seg_end s <= ls_virtual_address t \/ seg_end t <= ls_virtual_address s) segs /\
  exists s, s ∈ segs /\ Z.land (ls_flags s) JOSH_ELF64_PF_X <> 0 /\
    ls_virtual_address s <= es_entry sm < seg_end s.

Lemma validate_segments s0 sm :
  josh_elf64_validate (Some img) size (Some s0) = Some (JOSH_ELF64_OK, Some sm) ->
  exists segs, accepted_segments sm segs.
Proof.
  intros (h & ps & Hbh & Hps & Hlo & Hpw & Hen & ->)%validate_iff.
  pose proof (proj2 (load_ok_all ps) Hlo) as Hlo'.
  exists (map segment_of (loads ps)). unfold accepted_segments. cbn [es_load_segment_count es_entry].
  split_and!.
  - unfold zlen. by rewrite length_map.
  - intros k g Hk. rewrite (load_segment_accepted h ps g k Hbh Hps Hlo' Hk), list_lookup_fmap.
    by destruct (loads ps !! _).
  - apply Forall_map, Forall_forall. intros p Hp. destruct (load_in_loads _ _ Hp) as (Hin & Ht & Hm).
    destruct (Hlo p Hin Ht) as (Hfm & Hfo & Hend & _).
    destruct (phnum_phdrs h Hbh) as (ps' & Hps' & _ & Hr & _). rewrite Hps in Hps'. injection Hps' as <-.
    rewrite Forall_forall in Hr. destruct (Hr p Hin) as (_ & _ & Ho & Hv & Hf & Hms & _).
    unfold seg_ok, seg_end. cbn. unfold ph_end in Hend. specialize (Hend Hm).
    split_and!; try done; [word| |].
    + apply foldr_min_le, list_elem_of_fmap. by exists p.
    + apply (foldr_max_ge 0 (map ph_end (loads ps)) (ph_end p)), list_elem_of_fmap. by exists p.
  - intros i j x y Hij Hx Hy. apply list_lookup_fmap_Some in Hx as (p & -> & Hp), Hy as (q & -> & Hq).
    exact (Hpw i j p q Hij Hp Hq).
  - apply existsb_exists in Hen as (p & Hp & He). exists (segment_of p). split_and!.
    + apply list_elem_of_fmap. exists p. split; [done|]. by apply list_elem_of_In.
    + unfold enters in He. cbn. lia.
    + unfold enters, ph_end in He. cbn. lia.
    + unfold enters, ph_end in He. unfold seg_end. cbn. lia.
Qed.

(** The summary of an accepted image is in range. *)
Lemma validate_magic s0 sm :
  josh_elf64_validate (Some img) size (Some s0) = Some (JOSH_ELF64_OK, Some sm) -> take 4 img = [0x7f; 69; 76; 70].
Proof.
  intros (h & ps & (_ & Hat & Hid & _) & _)%validate_iff. unfold Elf64Header_at in Hat.
  destruct (slice img 0 16) as [ident|] eqn:Es; [|done]. steps Hat. simplify_eq. cbn in Hid.
  destruct (slice_inv _ _ _ _ Es) as (_ & _ & _ & _ & Hs). rewrite Hs in Hid. change (Z.to_nat 0) with 0%nat in Hid. rewrite drop_0, take_take in Hid.
  apply (f_equal (take 4)) in Hid. rewrite take_take in Hid. exact Hid.
Qed.

Lemma validate_bounds s0 sm :
  josh_elf64_validate (Some img) size (Some s0) = Some (JOSH_ELF64_OK, Some sm) ->
  es_virtual_max sm < 2 ^ 64 /\ 0 <= es_load_segment_count sm <= JOSH_ELF64_MAX_PHDRS.
Proof.
  intros (h & ps & Hbh & Hps & Hlo & _ & _ & ->)%validate_iff. cbn. split.
  - assert (Hall : forall l, (forall p, p ∈ l -> p ∈ loads ps) -> foldr Z.max 0 (map ph_end l) < 2 ^ 64); [|by apply Hall].
    induction l as [|p l IH]; intros Hl'; cbn; [lia|].
    destruct (load_in_loads p ps) as (Hin & Ht & Hms); [apply Hl'; set_solver|].
    destruct (Hlo p Hin Ht) as (_ & _ & Hpe & _). specialize (Hpe Hms).
    specialize (IH ltac:(intros q Hq; apply Hl'; set_solver)). lia.
  - destruct (phnum_phdrs h Hbh) as (ps' & Hps' & Hz & _). rewrite Hps in Hps'. injection Hps' as <-.
    pose proof (zlen_loads ps). destruct Hbh as (_ & _ & _ & _ & _ & _ & _ & _ & Hn & _). unfold zlen in *. lia.
Qed.

Lemma accepted_segments_unique sm segs segs' :
  accepted_segments sm segs -> accepted_segments sm segs' -> segs = segs'.
Proof.
  intros (_ & H1 & _) (_ & H2 & _). apply list_eq. intros i.
  set (g := {| ls_file_offset := 0; ls_virtual_address := 0; ls_file_size := 0; ls_memory_size := 0;
               ls_alignment := 0; ls_flags := 0 |}).
  specialize (H1 (Z.of_nat i) g ltac:(lia)). specialize (H2 (Z.of_nat i) g ltac:(lia)).
  rewrite Nat2Z.id in *. rewrite H1 in H2. destruct (segs !! i), (segs' !! i); congruence.
Qed.

End Image.

(** ** The example image of the tests *)
Definition example_phdr (flags off vaddr filesz memsz : Z) : list Z :=
  le_bytes 4 1 ++ le_bytes 4 flags ++ le_bytes 8 off ++ le_bytes 8 vaddr ++ le_bytes 8 0 ++
  le_bytes 8 filesz ++ le_bytes 8 memsz ++ le_bytes 8 0x100.

Definition example_image : list Z :=
  [0x7f; 69; 76; 70; 2; 1; 1] ++ replicate 9 0 ++ le_bytes 2 2 ++ le_bytes 2 62 ++ le_bytes 4 1 ++
  le_bytes 8 0xffffffff80001000 ++ le_bytes 8 64 ++ le_bytes 8 0 ++ le_bytes 4 0 ++
  le_bytes 2 64 ++ le_bytes 2 56 ++ le_bytes 2 2 ++ replicate 6 0 ++
  example_phdr 5 0x200 0xffffffff80001000 32 64 ++
  example_phdr 6 0x300 0xffffffff80002000 16 32 ++ replicate 848 0.

Definition blank_summary : JoshElf64Summary :=
  {| es_entry := 0; es_virtual_min := 0; es_virtual_max := 0; es_load_segment_count := 0 |}.
Definition blank_segment : JoshElf64LoadSegment :=
  {| ls_file_offset := 0; ls_virtual_address := 0; ls_file_size := 0; ls_memory_size := 0;
     ls_alignment := 0; ls_flags := 0 |}.
Definition example_summary : JoshElf64Summary :=
  {| es_entry := 0xffffffff80001000; es_virtual_min := 0xffffffff80001000;
     es_virtual_max := 0xffffffff80002020; es_load_segment_count := 2 |}.

Lemma example_image_bytes : bytes example_image.
Proof.
  assert (H : forallb (fun b => (0 <=? b) && (b <? 2 ^ 8)) example_image = true) by (vm_compute; reflexivity).
  apply Forall_forall. intros x Hx%list_elem_of_In. rewrite forallb_forall in H.
  specialize (H x Hx). unfold in_u8. lia.
Qed.

Lemma example_validates :
  josh_elf64_validate (Some example_image) 1024 (Some blank_summary) =
  Some (JOSH_ELF64_OK, Some example_summary).
Proof. vm_compute. reflexivity. Qed.

(** ** Properties *)

(** C12: [josh_elf64_validate] accepts exactly the well-formed images: the ELF64
    x86-64 executables whose program header table lies in the file, all of whose
    load segments lie in the file, do not wrap, are congruent to their offset
    modulo their power-of-two alignment and are pairwise disjoint, and whose
    entry point is in an executable one; the summary it stores is the entry
    point, the hull of the segments and their number. *)
Theorem elf_validate_accepts_iff img size s0 sm :
  bytes img -> in_u64 size -> size <= zlen img ->
  josh_elf64_validate (Some img) size (Some s0) = Some (JOSH_ELF64_OK, Some sm) <->
  elf_accepts img size sm.
Proof. intros Hb Hs Hl. by apply validate_iff. Qed.

Lemma elf_validate_accepts_iff_witness : elf_accepts example_image 1024 example_summary.
Proof.
  apply (elf_validate_accepts_iff example_image 1024 blank_summary example_summary).
  - exact example_image_bytes.
  - vm_compute. split; [discriminate|reflexivity].
  - vm_compute. discriminate.
  - exact example_validates.
Defined.

(** Validation is total and memory safe on every byte string: it returns a
    status without reading outside the [size] bytes of the image, and writes the
    summary only when it accepts. *)
Theorem elf_validate_total img size s0 :
  bytes img -> in_u64 size -> size = zlen img ->
  exists st sm, josh_elf64_validate (Some img) size (Some s0) = Some (st, Some sm) /\
    (st <> JOSH_ELF64_OK -> sm = s0).
Proof.
  intros Hb Hs Hl. apply validate_total; [done|done|lia].
Qed.

Lemma elf_validate_total_witness :
  exists st sm, josh_elf64_validate (Some (take 100 example_image)) 100 (Some blank_summary) = Some (st, Some sm) /\
    (st <> JOSH_ELF64_OK -> sm = blank_summary).
Proof.
  apply (elf_validate_total (take 100 example_image) 100 blank_summary).
  - apply bytes_take, example_image_bytes.
  - vm_compute. split; [discriminate|reflexivity].
  - vm_compute. reflexivity.
Defined.

(** C25: After a successful validation the loader gets every load segment: index
    [k] below the stored count yields a segment whose file bytes lie in the
    image, which is at least as large in memory, lies inside the stored hull and
    is disjoint from the segment of every other index; an index from the count
    on yields [JOSH_ELF64_ERR_SEGMENT] and leaves the output alone. *)
Theorem elf_segments_after_validate img size s0 sm g :
  bytes img -> in_u64 size -> size <= zlen img ->
  josh_elf64_validate (Some img) size (Some s0) = Some (JOSH_ELF64_OK, Some sm) ->
  (forall k, es_load_segment_count sm <= k < 2 ^ 16 ->
     josh_elf64_load_segment (Some img) size k (Some g) = Some (JOSH_ELF64_ERR_SEGMENT, Some g)) /\
  exists seg, forall k, 0 <= k < es_load_segment_count sm ->
    josh_elf64_load_segment (Some img) size k (Some g) = Some (JOSH_ELF64_OK, Some (seg k)) /\
    ls_file_offset (seg k) + ls_file_size (seg k) <= size /\
    ls_file_size (seg k) <= ls_memory_size (seg k) /\
    es_virtual_min sm <= ls_virtual_address (seg k) /\
    ls_virtual_address (seg k) + ls_memory_size (seg k) <= es_virtual_max sm /\
    forall j, 0 <= j < es_load_segment_count sm -> j <> k ->
      ls_virtual_address (seg j) + ls_memory_size (seg j) <= ls_virtual_address (seg k) \/
      ls_virtual_address (seg k) + ls_memory_size (seg k) <= ls_virtual_address (seg j).
Proof.
  intros Hb Hs Hl Hv. apply validate_iff in Hv as (h & ps & Hbh & Hps & Hlo & Hpw & _ & ->); try done.
  cbn [es_load_segment_count es_virtual_min es_virtual_max].
  pose proof (proj2 (load_ok_all size ps) Hlo) as Hlo'.
  pose proof (fun k => load_segment_accepted img size Hb Hs Hl h ps g k Hbh Hps Hlo') as Hseg.
  split.
  { intros k Hk. rewrite Hseg by word. rewrite lookup_ge_None_2 by word. done. }
  set (P k := default {| ph_type := 0; ph_flags := 0; ph_offset := 0; ph_vaddr := 0; ph_paddr := 0;
                         ph_filesz := 0; ph_memsz := 0; ph_align := 0 |} (loads ps !! Z.to_nat k)).
  assert (HP : forall k, 0 <= k < zlen (loads ps) -> loads ps !! Z.to_nat k = Some (P k)).
  { intros k Hk. unfold P. destruct (lookup_lt_is_Some_2 (loads ps) (Z.to_nat k)) as [p Hp]; [word|].
    by rewrite Hp. }
  exists (fun k => segment_of (P k)). intros k Hk. pose proof (HP k Hk) as Hpk.
  apply list_elem_of_lookup_2 in Hpk as Hin. apply load_in_loads in Hin as Hin'.
  destruct Hin' as (Hin' & Ht & _). destruct (Hlo _ Hin' Ht) as (Hfm & Hfo & _).
  rewrite Hseg, Hpk by lia. cbn. split_and!; [done|done|done|..].
  - apply foldr_min_le, list_elem_of_fmap. by exists (P k).
  - apply foldr_max_ge, list_elem_of_fmap. by exists (P k).
  - intros j Hj Hne. pose proof (HP j Hj) as Hpj.
    destruct (Z.lt_ge_cases j k) as [Hjk|Hjk].
    + assert (Z.to_nat j < Z.to_nat k)%nat as Hjk' by lia.
      destruct (Hpw _ _ _ _ Hjk' Hpj Hpk); unfold ph_end in *; lia.
    + assert (Z.to_nat k < Z.to_nat j)%nat as Hkj by lia. destruct (Hpw _ _ _ _ Hkj Hpk Hpj); unfold ph_end in *; lia.
Qed.

Lemma elf_segments_after_validate_witness :
  josh_elf64_load_segment (Some example_image) 1024 2 (Some blank_segment) =
  Some (JOSH_ELF64_ERR_SEGMENT, Some blank_segment).
Proof.
  apply (elf_segments_after_validate example_image 1024 blank_summary example_summary blank_segment).
  - exact example_image_bytes.
  - vm_compute. split; [discriminate|reflexivity].
  - vm_compute. discriminate.
  - exact example_validates.
  - vm_compute. split; [discriminate|reflexivity].
Defined.

(** With a null image pointer the status variable keeps its initial value, so
    both entry points report success without storing anything. *)
Lemma elf_null_image_reports_ok size idx sm g :
  josh_elf64_validate None size (Some sm) = Some (JOSH_ELF64_OK, Some sm) /\
  josh_elf64_load_segment None size idx (Some g) = Some (JOSH_ELF64_OK, Some g).
Proof. done. Qed.
