(* ===== verification/FwUpdate.v ===== *)
(** * The firmware update engine (firmware/update.c, firmware/update.h)

    An update image is staged into the slot after the active one, read back and
    compared, and becomes pending; the boot selector then tries it a bounded
    number of times, and a boot that reports success makes it active.

    The flash chip is behind [josh_fw_flash_backend_t], a record of callbacks
    over an opaque context of type [W].  What the engine relies on is the class
    [FlashBackend]: an operation on one slot leaves the others alone, and a
    successful read returns what the slot holds.  Nothing is assumed of an erase
    or a write on its own slot, since the engine verifies by reading back.

    Pointers are options; a function returns its result with the pointees it
    may change, and [None] is an access outside a buffer. *)
From stdpp Require Import relations.
From S2P Require Import Prelude Crc32.

Definition JOSH_FW_UPDATE_MAGIC : Z := 0x5557464a.
Definition JOSH_FW_UPDATE_VERSION : Z := 1.
Definition JOSH_FW_BOARD_ID_MAX : Z := 31.
Definition JOSH_FW_SLOT_NONE : Z := 0xffffffff.
Definition JOSH_FW_MAX_ATTEMPTS : Z := 3.
Definition VERIFY_CHUNK : Z := 256.

Inductive josh_fw_update_status_t :=
| JOSH_FW_UPDATE_OK
| JOSH_FW_UPDATE_INVALID_ARGUMENT
| JOSH_FW_UPDATE_BAD_MANIFEST
| JOSH_FW_UPDATE_WRONG_BOARD
| JOSH_FW_UPDATE_ROLLBACK_BLOCKED
| JOSH_FW_UPDATE_IMAGE_TOO_LARGE
| JOSH_FW_UPDATE_IMAGE_CORRUPT
| JOSH_FW_UPDATE_ERASE_FAILED
| JOSH_FW_UPDATE_WRITE_FAILED
| JOSH_FW_UPDATE_VERIFY_FAILED.

#[export] Instance fw_status_eq_dec : EqDecision josh_fw_update_status_t.
Proof. solve_decision. Defined.

(** [board_id] is the array of 32 characters. *)
Record josh_fw_update_manifest_t := {
  fm_magic : Z;
  fm_version : Z;
  fm_header_size : Z;
  fm_board_id : list Z;
  fm_generation : Z;
  fm_image_size : Z;
  fm_image_crc32 : Z
}.
Definition sizeof_josh_fw_update_manifest_t : Z := 56.

Record josh_fw_update_state_t := {
  fs_active_slot : Z;
  fs_previous_good_slot : Z;
  fs_pending_slot : Z;
  fs_pending_attempts : Z;
  fs_active_generation : Z;
  fs_pending_generation : Z
}.

(** A callback takes the flash context and returns its [int] and the context
    afterwards; [read_slot] also returns the bytes it stored in the buffer. *)
Record josh_fw_flash_backend_t (W : Type) := {
  fb_slot_count : Z;
  fb_slot_size : Z;
  fb_erase_slot : option (W -> Z -> Z * W);
  fb_write_slot : option (W -> Z -> Z -> list Z -> Z * W);
  fb_read_slot : option (W -> Z -> Z -> Z -> Z * list Z * W)
}.
Arguments fb_slot_count {W}.
Arguments fb_slot_size {W}.
Arguments fb_erase_slot {W}.
Arguments fb_write_slot {W}.
Arguments fb_read_slot {W}.

(** ** Operations *)
Fixpoint text_equal_loop (a b : list Z) (n : nat) (i : Z) {struct n} : option bool :=
  match n with
  | O => Some false
  | S n' =>
      let? ai := get8 a i in
      let? bi := get8 b i in
      if negb (ai =? bi) then Some false
      else if ai =? 0 then Some true
      else text_equal_loop a b n' (i + 1)
  end.

Definition text_equal (a b : option (list Z)) (limit : Z) : option bool :=
  match a, b with
  | Some a, Some b => text_equal_loop a b (Z.to_nat limit) 0
  | _, _ => Some false
  end.

Definition default_state : josh_fw_update_state_t :=
  {| fs_active_slot := 0; fs_previous_good_slot := 0; fs_pending_slot := JOSH_FW_SLOT_NONE;
     fs_pending_attempts := 0; fs_active_generation := 0; fs_pending_generation := 0 |}.

Definition josh_fw_update_state_default (state : option josh_fw_update_state_t)
    : option josh_fw_update_state_t :=
  match state with None => None | Some _ => Some default_state end.

Fixpoint board_id_loop (board_id : list Z) (n : nat) (i : Z) {struct n} : option bool :=
  match n with
  | O => Some false
  | S n' =>
      let? c := get8 board_id i in
      if c =? 0 then Some (negb (i =? 0))
      else if (c <? 0x21) || (c >? 0x7e) then Some false
      else board_id_loop board_id n' (i + 1)
  end.

Definition manifest_valid (manifest : option josh_fw_update_manifest_t) : option bool :=
  match manifest with
  | None => Some false
  | Some m =>
      if negb (fm_magic m =? JOSH_FW_UPDATE_MAGIC)
         || negb (fm_version m =? JOSH_FW_UPDATE_VERSION)
         || negb (fm_header_size m =? sizeof_josh_fw_update_manifest_t)
         || (fm_image_size m =? 0)
      then Some false
      else board_id_loop (fm_board_id m) (Z.to_nat (JOSH_FW_BOARD_ID_MAX + 1)) 0
  end.

Definition state_valid {W : Type} (state : option josh_fw_update_state_t)
    (backend : option (josh_fw_flash_backend_t W)) : bool :=
  match state, backend with
  | Some st, Some be =>
      if fb_slot_count be <? 2 then false
      else if (fs_active_slot st >=? fb_slot_count be)
              || (fs_previous_good_slot st >=? fb_slot_count be) then false
      else if negb (fs_pending_slot st =? JOSH_FW_SLOT_NONE)
              && (fs_pending_slot st >=? fb_slot_count be) then false
      else true
  | _, _ => false
  end.

(** [for (i = 0; i < length; ++i) if (verify[i] != source[offset + i])]:
    [Some true] when the loop runs through. *)
Fixpoint compare_loop (verify source : list Z) (offset : Z) (n : nat) (i : Z) {struct n} : option bool :=
  match n with
  | O => Some true
  | S n' =>
      let? v := get8 verify i in
      let? s := get8 source (offset + i) in
      if negb (v =? s) then Some false else compare_loop verify source offset n' (i + 1)
  end.

(** The read-back loop, at most [fuel] chunks: [Some (ok, w)] when it ends. *)
Fixpoint verify_loop {W : Type} (read_slot : W -> Z -> Z -> Z -> Z * list Z * W) (target : Z)
    (source : list Z) (image_size : Z) (fuel : nat) (w : W) (offset : Z) {struct fuel}
    : option (bool * W) :=
  if offset <? image_size then
    match fuel with
    | O => None
    | S fuel' =>
        let remaining := u32 (image_size - offset) in
        let length := if remaining <? VERIFY_CHUNK then remaining else VERIFY_CHUNK in
        let '(rc, verify, w) := read_slot w target offset length in
        if negb (rc =? 0) then Some (false, w)
        else
          let? same := compare_loop verify source offset (Z.to_nat length) 0 in
          if negb same then Some (false, w)
          else verify_loop read_slot target source image_size fuel' w (u32 (offset + length))
    end
  else Some (true, w).

(** Returns the status, the flash context and the pointee of [state]. *)
Definition josh_fw_stage_update {W : Type} (manifest : option josh_fw_update_manifest_t)
    (image expected_board_id : option (list Z)) (backend : option (josh_fw_flash_backend_t W))
    (state : option josh_fw_update_state_t) (allow_rollback : bool) (w : W)
    : option (josh_fw_update_status_t * W * option josh_fw_update_state_t) :=
  match image, expected_board_id, backend, state with
  | Some source, Some board, Some be, Some st =>
      match fb_erase_slot be, fb_write_slot be, fb_read_slot be with
      | Some erase_slot, Some write_slot, Some read_slot =>
          let? mv := manifest_valid manifest in
          match manifest with
          | None => Some (JOSH_FW_UPDATE_BAD_MANIFEST, w, state)
          | Some m =>
              if negb mv || negb (state_valid state backend)
              then Some (JOSH_FW_UPDATE_BAD_MANIFEST, w, state)
              else
                let? same_board :=
                  text_equal (Some (fm_board_id m)) (Some board) (JOSH_FW_BOARD_ID_MAX + 1) in
                if negb same_board then Some (JOSH_FW_UPDATE_WRONG_BOARD, w, state)
                else if negb allow_rollback && (fm_generation m <=? fs_active_generation st)
                then Some (JOSH_FW_UPDATE_ROLLBACK_BLOCKED, w, state)
                else if fm_image_size m >? fb_slot_size be
                then Some (JOSH_FW_UPDATE_IMAGE_TOO_LARGE, w, state)
                else
                  let? crc := FirmwareCrc.josh_fw_crc32 (Some source) (fm_image_size m) in
                  if negb (crc =? fm_image_crc32 m)
                  then Some (JOSH_FW_UPDATE_IMAGE_CORRUPT, w, state)
                  else
                    let target := u32 (fs_active_slot st + 1) mod fb_slot_count be in
                    if target =? fs_active_slot st
                    then Some (JOSH_FW_UPDATE_BAD_MANIFEST, w, state)
                    else
                      let '(rc, w) := erase_slot w target in
                      if negb (rc =? 0) then Some (JOSH_FW_UPDATE_ERASE_FAILED, w, state)
                      else
                        let? data := slice source 0 (fm_image_size m) in
                        let '(rc, w) := write_slot w target 0 data in
                        if negb (rc =? 0) then Some (JOSH_FW_UPDATE_WRITE_FAILED, w, state)
                        else
                          let? (verified, w) :=
                            verify_loop read_slot target source (fm_image_size m)
                              (Z.to_nat (fm_image_size m)) w 0 in
                          if negb verified then Some (JOSH_FW_UPDATE_VERIFY_FAILED, w, state)
                          else
                            Some (JOSH_FW_UPDATE_OK, w,
                                  Some {| fs_active_slot := fs_active_slot st;
                                          fs_previous_good_slot := fs_active_slot st;
                                          fs_pending_slot := target;
                                          fs_pending_attempts := 0;
                                          fs_active_generation := fs_active_generation st;
                                          fs_pending_generation := fm_generation m |})
          end
      | _, _, _ => Some (JOSH_FW_UPDATE_INVALID_ARGUMENT, w, state)
      end
  | _, _, _, _ => Some (JOSH_FW_UPDATE_INVALID_ARGUMENT, w, state)
  end.

Definition josh_fw_select_boot_slot (state : option josh_fw_update_state_t) (max_attempts : Z)
    : Z * option josh_fw_update_state_t :=
  match state with
  | None => (JOSH_FW_SLOT_NONE, None)
  | Some st =>
      let max_attempts := if max_attempts =? 0 then JOSH_FW_MAX_ATTEMPTS else max_attempts in
      if fs_pending_slot st =? JOSH_FW_SLOT_NONE then (fs_active_slot st, state)
      else if fs_pending_attempts st >=? max_attempts
      then (fs_active_slot st,
            Some {| fs_active_slot := fs_active_slot st;
                    fs_previous_good_slot := fs_previous_good_slot st;
                    fs_pending_slot := JOSH_FW_SLOT_NONE; fs_pending_attempts := 0;
                    fs_active_generation := fs_active_generation st;
                    fs_pending_generation := 0 |})
      else (fs_pending_slot st,
            Some {| fs_active_slot := fs_active_slot st;
                    fs_previous_good_slot := fs_previous_good_slot st;
                    fs_pending_slot := fs_pending_slot st;
                    fs_pending_attempts := u32 (fs_pending_attempts st + 1);
                    fs_active_generation := fs_active_generation st;
                    fs_pending_generation := fs_pending_generation st |})
  end.

Definition josh_fw_mark_boot_good (state : option josh_fw_update_state_t) (slot : Z)
    : bool * option josh_fw_update_state_t :=
  match state with
  | None => (false, None)
  | Some st =>
      if (fs_pending_slot st =? JOSH_FW_SLOT_NONE) || negb (slot =? fs_pending_slot st)
      then (false, state)
      else (true,
            Some {| fs_active_slot := fs_pending_slot st;
                    fs_previous_good_slot := fs_active_slot st;
                    fs_pending_slot := JOSH_FW_SLOT_NONE; fs_pending_attempts := 0;
                    fs_active_generation := fs_pending_generation st;
                    fs_pending_generation := 0 |})
  end.

(** The switch of [josh_fw_update_status_string], on the integer value. *)
Definition josh_fw_update_status_string (status : Z) : string :=
  match status with
  | 0 => "ok"
  | 1 => "invalid argument"
  | 2 => "bad manifest"
  | 3 => "wrong board"
  | 4 => "rollback blocked"
  | 5 => "image too large"
  | 6 => "image integrity mismatch"
  | 7 => "erase failed"
  | 8 => "write failed"
  | 9 => "read-back verify failed"
  | _ => "unknown update error"
  end.

(** ** What the engine relies on *)
Class FlashBackend {W : Type} (be : josh_fw_flash_backend_t W) (contents : W -> Z -> list Z) : Prop := {
  flash_count : in_u32 (fb_slot_count be);
  flash_size : in_u32 (fb_slot_size be);
  flash_erase : forall f w slot rc w', fb_erase_slot be = Some f -> f w slot = (rc, w') ->
    forall other, other <> slot -> contents w' other = contents w other;
  flash_write : forall f w slot off data rc w', fb_write_slot be = Some f -> f w slot off data = (rc, w') ->
    forall other, other <> slot -> contents w' other = contents w other;
  flash_read : forall f w slot off len rc data w', fb_read_slot be = Some f ->
    f w slot off len = (rc, data, w') ->
    (forall s, contents w' s = contents w s) /\
    (rc = 0 -> slice (contents w slot) off len = Some data)
}.

(** ** Comparing buffers *)
Lemma slice_cons buf i b n :
  get8 buf i = Some b -> 0 <= n ->
  slice buf i (1 + n) = let? r := slice buf (i + 1) n in Some (b :: r).
Proof.
  intros Hg Hn. pose proof (get8_inv _ _ _ Hg) as Hi. unfold slice.
  replace ((0 <=? i) && (0 <=? 1 + n) && (i + (1 + n) <=? zlen buf))
    with ((0 <=? i + 1) && (0 <=? n) && (i + 1 + n <=? zlen buf)) by lia.
  destruct (_ && _); [|done]. f_equal. unfold get8 in Hg. destruct (i <? 0); [done|].
  rewrite (drop_S _ _ _ Hg). replace (Z.to_nat (1 + n)) with (S (Z.to_nat n)) by lia.
  replace (Z.to_nat (i + 1)) with (S (Z.to_nat i)) by lia. done.
Qed.

Lemma slice_join buf off n m x y :
  slice buf off n = Some x -> slice buf (off + n) m = Some y -> slice buf off (n + m) = Some (x ++ y).
Proof.
  intros (?&?&?&?&->)%slice_inv (?&?&?&?&->)%slice_inv. rewrite slice_Some by lia. f_equal.
  rewrite !Z2Nat.inj_add by lia. by rewrite <- drop_drop, take_take_drop.
Qed.

(** The two buffers hold the same [n] bytes from [off] on. *)
Definition agree (a b : list Z) (off n : Z) : Prop :=
  exists x, slice a off n = Some x /\ slice b off n = Some x.

Lemma agree_join a b off n m : agree a b off n -> agree a b (off + n) m -> agree a b off (n + m).
Proof.
  intros (x & Ha & Hb) (y & Ha' & Hb'). exists (x ++ y). split; by eapply slice_join.
Qed.

Lemma compare_loop_true v s off n i :
  compare_loop v s off n i = Some true -> 0 <= i <= zlen v -> 0 <= off + i <= zlen s ->
  exists x, slice v i (Z.of_nat n) = Some x /\ slice s (off + i) (Z.of_nat n) = Some x.
Proof.
  revert i. induction n as [|n IH]; intros i H Hi Hoi.
  { exists []. by rewrite !slice_Some by lia. }
  cbn [compare_loop] in H. steps H.
  apply IH in H as (x & Hx & Hy); [|apply get8_inv in E, E0; lia..].
  replace (Z.of_nat (S n)) with (1 + Z.of_nat n) by lia. exists (z :: x).
  rewrite (slice_cons _ _ _ _ E), (slice_cons _ _ _ _ E0) by lia.
  rewrite <- Z.add_assoc, Hx, Hy. split; [done|]. do 2 f_equal. lia.
Qed.

Lemma compare_loop_total v s off n i :
  0 <= i -> 0 <= off -> i + Z.of_nat n <= zlen v -> off + i + Z.of_nat n <= zlen s ->
  exists b, compare_loop v s off n i = Some b.
Proof.
  revert i. induction n as [|n IH]; intros i Hi Ho Hv Hs; [by exists true|].
  cbn [compare_loop]. destruct (get8_Some v i) as [a ->]; [lia|].
  destruct (get8_Some s (off + i)) as [b ->]; [lia|].
  destruct (negb _); [by exists false|]. apply IH; lia.
Qed.

(** ** Board identifiers *)
Lemma get8_drop l i b : get8 l i = Some b -> drop (Z.to_nat i) l = b :: drop (Z.to_nat (i + 1)) l.
Proof.
  intros H. pose proof (get8_inv _ _ _ H). unfold get8 in H. destruct (i <? 0); [done|].
  rewrite (drop_S _ _ _ H). do 2 f_equal. lia.
Qed.

Lemma text_equal_loop_true a b n i :
  text_equal_loop a b n i = Some true -> c_str (drop (Z.to_nat i) a) = c_str (drop (Z.to_nat i) b).
Proof.
  revert i. induction n as [|n IH]; intros i H; [done|]. cbn [text_equal_loop] in H.
  destruct (get8 a i) as [x|] eqn:Ea; [|done]. destruct (get8 b i) as [y|] eqn:Eb; [|done].
  destruct (x =? y) eqn:Exy; cbn [negb] in H; [|done]. assert (x = y) as <- by lia.
  rewrite (get8_drop _ _ _ Ea), (get8_drop _ _ _ Eb). cbn [c_str].
  destruct (x =? 0); [done|]. f_equal. by apply IH.
Qed.

Lemma text_equal_loop_total a b n i :
  0 <= i -> i + Z.of_nat n <= zlen a -> (i + Z.of_nat n <= zlen b \/ 0 ∈ drop (Z.to_nat i) b) ->
  exists r, text_equal_loop a b n i = Some r.
Proof.
  revert i. induction n as [|n IH]; intros i Hi Ha Hb; [by exists false|]. cbn [text_equal_loop].
  destruct (get8_Some a i) as [x ->]; [lia|].
  assert (exists y, get8 b i = Some y) as [y Hy].
  { apply get8_Some. destruct Hb as [Hb|Hb]; [lia|].
    destruct (Z.lt_ge_cases i (zlen b)); [lia|]. rewrite drop_ge in Hb by word. set_solver. }
  rewrite Hy. destruct (x =? y) eqn:Exy; cbn [negb]; [|by eexists].
  destruct (x =? 0) eqn:Ex; [by eexists|]. apply IH; [lia..|]. destruct Hb as [Hb|Hb]; [left; lia|right].
  rewrite (get8_drop _ _ _ Hy) in Hb. apply elem_of_cons in Hb as [?|?]; [lia|done].
Qed.

Lemma board_id_loop_total l n i :
  0 <= i -> i + Z.of_nat n <= zlen l -> exists r, board_id_loop l n i = Some r.
Proof.
  revert i. induction n as [|n IH]; intros i Hi Hl; [by eexists|]. cbn [board_id_loop].
  destruct (get8_Some l i) as [x ->]; [lia|].
  destruct (x =? 0); [by eexists|]. destruct (_ || _); [by eexists|]. apply IH; lia.
Qed.

(** ** The engine over any flash *)
Section Engine.
Context {W : Type} (be : josh_fw_flash_backend_t W) (contents : W -> Z -> list Z).
Context {Hflash : FlashBackend be contents}.

Lemma verify_loop_spec read target source size fuel w offset :
  fb_read_slot be = Some read -> in_u32 size -> size <= zlen source ->
  0 <= offset <= size -> size - offset <= Z.of_nat fuel ->
  exists ok w', verify_loop read target source size fuel w offset = Some (ok, w') /\
    (forall s, contents w' s = contents w s) /\
    (ok = true -> offset <= zlen (contents w target) ->
     agree (contents w target) source offset (size - offset)).
Proof.
  intros Hread Hsz Hsrc. revert w offset. induction fuel as [|fuel IH]; intros w offset Ho Hf;
    cbn [verify_loop].
  { replace (offset <? size) with false by lia. exists true, w. split_and!; [done..|].
    intros _ Hl. exists []. rewrite !slice_Some by lia. by replace (Z.to_nat (size - offset)) with 0%nat by lia. }
  destruct (offset <? size) eqn:Eo.
  2: { exists true, w. split_and!; [done..|]. intros _ Hl. exists [].
       rewrite !slice_Some by lia. by replace (Z.to_nat (size - offset)) with 0%nat by lia. }
  rewrite (u32_id (size - offset)) by word. unfold VERIFY_CHUNK.
  set (len := if size - offset <? 256 then size - offset else 256).
  assert (Hlen : 0 < len <= size - offset) by (unfold len; destruct (_ <? 256) eqn:?; lia).
  destruct (read w target offset len) as [[rc data] w1] eqn:Er.
  destruct (flash_read _ _ _ _ _ _ _ _ Hread Er) as [Hsame Hdata].
  destruct (negb (rc =? 0)) eqn:Erc; [by exists false, w1|].
  specialize (Hdata ltac:(lia)). pose proof (slice_inv _ _ _ _ Hdata) as (_ & _ & Hbnd & Hdl & _).
  destruct (compare_loop_total data source offset (Z.to_nat len) 0) as [same Hc]; [lia..|].
  rewrite Hc. destruct same; cbn [negb]; [|by exists false, w1].
  rewrite (u32_id (offset + len)) by word.
  destruct (IH w1 (offset + len)) as (ok & w' & -> & Hs' & Hag); [lia..|].
  exists ok, w'. split_and!; [done|intros s; by rewrite Hs', Hsame|]. intros Hok _.
  rewrite Hsame in Hag. specialize (Hag Hok Hbnd).
  apply compare_loop_true in Hc as (x & Hx & Hy); [|lia..].
  rewrite Z2Nat.id, Z.add_0_r in * by lia.
  replace (size - offset) with (len + (size - (offset + len))) by lia. apply agree_join; [|done].
  exists x. split; [|done]. rewrite Hdata. f_equal.
  rewrite slice_Some in Hx by lia. injection Hx as <-. rewrite drop_0, firstn_all2; [done|].
  unfold zlen in Hdl. lia.
Qed.
(** The slot an update goes to. *)
Definition next_slot (st : josh_fw_update_state_t) : Z :=
  (fs_active_slot st + 1) mod fb_slot_count be.

Definition staged (st : josh_fw_update_state_t) (m : josh_fw_update_manifest_t)
    : josh_fw_update_state_t :=
  {| fs_active_slot := fs_active_slot st; fs_previous_good_slot := fs_active_slot st;
     fs_pending_slot := next_slot st; fs_pending_attempts := 0;
     fs_active_generation := fs_active_generation st; fs_pending_generation := fm_generation m |}.

Lemma state_valid_inv st :
  state_valid (Some st) (Some be) = true ->
  2 <= fb_slot_count be /\ fs_active_slot st < fb_slot_count be /\
  fs_previous_good_slot st < fb_slot_count be /\
  (fs_pending_slot st = JOSH_FW_SLOT_NONE \/ fs_pending_slot st < fb_slot_count be).
Proof.
  unfold state_valid. destruct (_ <? 2) eqn:E1; [done|]. destruct (_ || _) eqn:E2; [done|].
  destruct (negb _ && _) eqn:E3; [done|]. intros _. lia.
Qed.

Lemma next_slot_spec st :
  state_valid (Some st) (Some be) = true -> 0 <= fs_active_slot st ->
  u32 (fs_active_slot st + 1) mod fb_slot_count be = next_slot st /\
  next_slot st <> fs_active_slot st /\ 0 <= next_slot st < fb_slot_count be.
Proof.
  intros (H2 & Ha & _)%state_valid_inv H0. pose proof (flash_count (be := be)) as Hc.
  unfold next_slot. rewrite u32_id by word. split; [done|].
  split; [|apply Z.mod_pos_bound; lia].
  destruct (Z.eq_dec (fs_active_slot st + 1) (fb_slot_count be)) as [He|].
  - rewrite He, Z.mod_same; lia.
  - rewrite Z.mod_small; lia.
Qed.

(** The image fits its buffers: what the caller of [josh_fw_stage_update] owes. *)
Definition call_ok (m : josh_fw_update_manifest_t) (source board : list Z) : Prop :=
  in_u32 (fm_image_size m) /\ fm_image_size m <= zlen source /\ zlen (fm_board_id m) = 32 /\
  (32 <= zlen board \/ 0 ∈ board).

(** The checks made before the flash is touched. *)
Definition acceptable (m : josh_fw_update_manifest_t) (source board : list Z)
    (st : josh_fw_update_state_t) (allow_rollback : bool) : Prop :=
  manifest_valid (Some m) = Some true /\ state_valid (Some st) (Some be) = true /\
  c_str (fm_board_id m) = c_str board /\
  (allow_rollback = false -> fs_active_generation st < fm_generation m) /\
  fm_image_size m <= fb_slot_size be /\
  crc32 (take (Z.to_nat (fm_image_size m)) source) = fm_image_crc32 m.

Definition flash_untouched (status : josh_fw_update_status_t) : bool :=
  match status with
  | JOSH_FW_UPDATE_OK | JOSH_FW_UPDATE_ERASE_FAILED | JOSH_FW_UPDATE_WRITE_FAILED
  | JOSH_FW_UPDATE_VERIFY_FAILED => false
  | _ => true
  end.

(** One call, whatever the flash does: it returns, it changes no slot but the
    next one, and it changes the state only after a verified write. *)
Definition stage_outcome (m : josh_fw_update_manifest_t) (source board : list Z)
    (st : josh_fw_update_state_t) (allow_rollback : bool) (w : W)
    (status : josh_fw_update_status_t) (w' : W) (st' : option josh_fw_update_state_t) : Prop :=
  (forall s, s <> next_slot st -> contents w' s = contents w s) /\
  (flash_untouched status = true -> w' = w) /\
  (status <> JOSH_FW_UPDATE_OK -> st' = Some st) /\
  (status = JOSH_FW_UPDATE_OK ->
     st' = Some (staged st m) /\ acceptable m source board st allow_rollback /\
     slice (contents w' (next_slot st)) 0 (fm_image_size m) =
     Some (take (Z.to_nat (fm_image_size m)) source)).

Lemma outcome_untouched m source board st ar w e :
  flash_untouched e = true -> stage_outcome m source board st ar w e w (Some st).
Proof. intros He. unfold stage_outcome. split_and!; try done. by destruct e. Qed.

Lemma outcome_failed m source board st ar w e w' :
  e <> JOSH_FW_UPDATE_OK -> flash_untouched e = false ->
  (forall s, s <> next_slot st -> contents w' s = contents w s) ->
  stage_outcome m source board st ar w e w' (Some st).
Proof. intros He Hu Hw. unfold stage_outcome. split_and!; try done. by rewrite Hu. Qed.

Lemma stage_spec m source board erase write read st ar w :
  fb_erase_slot be = Some erase -> fb_write_slot be = Some write -> fb_read_slot be = Some read ->
  call_ok m source board -> 0 <= fs_active_slot st ->
  exists status w' st',
    josh_fw_stage_update (Some m) (Some source) (Some board) (Some be) (Some st) ar w
    = Some (status, w', st') /\
    stage_outcome m source board st ar w status w' st'.
Proof.
  intros Her Hwr Hrd (Hsz & Hsrc & Hid & Hbd) Ha. unfold josh_fw_stage_update.
  rewrite Her, Hwr, Hrd.
  assert (exists mv, manifest_valid (Some m) = Some mv) as [mv Hmv].
  { unfold manifest_valid. destruct (_ || _); [by eexists|]. apply board_id_loop_total; [done|].
    rewrite Hid. done. }
  rewrite Hmv. destruct mv; cbn [negb orb]; [|by eexists _, _, _; split; [|apply outcome_untouched]].
  destruct (state_valid (Some st) (Some be)) eqn:Esv; cbn [negb];
    [|by eexists _, _, _; split; [|apply outcome_untouched]].
  assert (exists te, text_equal (Some (fm_board_id m)) (Some board) (JOSH_FW_BOARD_ID_MAX + 1) = Some te) as [te Hte].
  { apply text_equal_loop_total; [done|rewrite Hid; done|]. destruct Hbd; [left; done|right; done]. }
  rewrite Hte. destruct te; cbn [negb]; [|by eexists _, _, _; split; [|apply outcome_untouched]].
  destruct (negb ar && _) eqn:Erb; [by eexists _, _, _; split; [|apply outcome_untouched]|].
  destruct (_ >? fb_slot_size be) eqn:Esize; [by eexists _, _, _; split; [|apply outcome_untouched]|].
  pose proof (slice_Some source 0 (fm_image_size m) ltac:(lia) ltac:(word) ltac:(lia)) as Hsl.
  rewrite drop_0 in Hsl. rewrite (josh_fw_crc32_crc32 _ _ _ Hsl).
  destruct (_ =? fm_image_crc32 m) eqn:Ecrc; cbn [negb]; [|by eexists _, _, _; split; [|apply outcome_untouched]].
  destruct (next_slot_spec st Esv Ha) as (-> & Hne & Hr).
  replace (next_slot st =? fs_active_slot st) with false by lia.
  destruct (erase w (next_slot st)) as [rc w1] eqn:Ee. pose proof (flash_erase _ _ _ _ _ Her Ee) as Hw1.
  destruct (rc =? 0); cbn [negb]; [|by eexists _, _, _; split; [|apply outcome_failed]].
  rewrite Hsl. destruct (write w1 _ _ _) as [rc2 w2] eqn:Ew. pose proof (flash_write _ _ _ _ _ _ _ Hwr Ew) as Hw2.
  assert (Hw12 : forall s, s <> next_slot st -> contents w2 s = contents w s)
    by (intros s Hs; by rewrite Hw2, Hw1).
  destruct (rc2 =? 0); cbn [negb]; [|by eexists _, _, _; split; [|apply outcome_failed]].
  destruct (verify_loop_spec read (next_slot st) source (fm_image_size m) (Z.to_nat (fm_image_size m)) w2 0)
    as (ok & w3 & -> & Hw3 & Hok); try done; [word..|].
  assert (Hw123 : forall s, s <> next_slot st -> contents w3 s = contents w s)
    by (intros s Hs; by rewrite Hw3, Hw12).
  destruct ok; cbn [negb]; [|by eexists _, _, _; split; [|apply outcome_failed]].
  eexists _, _, _. split; [reflexivity|]. unfold stage_outcome, acceptable.
  destruct (Hok eq_refl ltac:(word)) as (x & Hx1 & Hx2). rewrite Z.sub_0_r in Hx1, Hx2.
  split_and!; try done. intros _. split_and!; try done.
  - by apply (text_equal_loop_true _ _ _ 0) in Hte.
  - intros ->. cbn in Erb. lia.
  - lia.
  - lia.
  - rewrite Hw3, Hx1, <- Hx2, Hsl. done.
Qed.
Lemma stage_any m source board st ar w status w' st' :
  call_ok m source board -> 0 <= fs_active_slot st ->
  josh_fw_stage_update (Some m) (Some source) (Some board) (Some be) (Some st) ar w
    = Some (status, w', st') ->
  stage_outcome m source board st ar w status w' st'.
Proof.
  intros Hc Ha H.
  destruct (fb_erase_slot be) as [er|] eqn:E1, (fb_write_slot be) as [wr|] eqn:E2,
    (fb_read_slot be) as [rd|] eqn:E3;
    try (unfold josh_fw_stage_update in H; rewrite E1, ?E2, ?E3 in H; injection H as <- <- <-;
         by apply outcome_untouched).
  destruct (stage_spec m source board er wr rd st ar w E1 E2 E3 Hc Ha) as (? & ? & ? & H' & Ho).
  rewrite H in H'. by simplify_eq.
Qed.

(** ** The update protocol as a transition system

    Firmware and boot selector share the update state and the flash; rollback
    is not allowed. *)
Inductive fw_step : W * josh_fw_update_state_t -> W * josh_fw_update_state_t -> Prop :=
| fw_stage m source board w st status w' st' :
    call_ok m source board -> in_u64 (fm_generation m) ->
    josh_fw_stage_update (Some m) (Some source) (Some board) (Some be) (Some st) false w
      = Some (status, w', Some st') ->
    fw_step (w, st) (w', st')
| fw_select max_attempts w st slot st' :
    in_u32 max_attempts ->
    josh_fw_select_boot_slot (Some st) max_attempts = (slot, Some st') ->
    fw_step (w, st) (w, st')
| fw_mark_good slot w st ok st' :
    josh_fw_mark_boot_good (Some st) slot = (ok, Some st') ->
    fw_step (w, st) (w, st').

Definition has_pending (st : josh_fw_update_state_t) : Prop := fs_pending_slot st <> JOSH_FW_SLOT_NONE.

Record fw_inv (st : josh_fw_update_state_t) : Prop := {
  inv_valid : state_valid (Some st) (Some be) = true;
  inv_active : in_u32 (fs_active_slot st);
  inv_attempts : in_u32 (fs_pending_attempts st);
  inv_pending : has_pending st ->
    fs_pending_slot st <> fs_active_slot st /\ 0 <= fs_pending_slot st < fb_slot_count be /\
    fs_active_generation st < fs_pending_generation st
}.

Lemma state_valid_intro st :
  2 <= fb_slot_count be -> fs_active_slot st < fb_slot_count be ->
  fs_previous_good_slot st < fb_slot_count be ->
  (fs_pending_slot st = JOSH_FW_SLOT_NONE \/ fs_pending_slot st < fb_slot_count be) ->
  state_valid (Some st) (Some be) = true.
Proof.
  intros H1 H2 H3 H4. unfold state_valid. replace (_ <? 2) with false by lia.
  replace (_ || _) with false by lia. by replace (negb _ && _) with false by lia.
Qed.

Lemma fw_step_inv w st w' st' :
  fw_step (w, st) (w', st') -> fw_inv st ->
  fw_inv st' /\ fs_active_generation st <= fs_active_generation st' /\
  contents w' (fs_active_slot st) = contents w (fs_active_slot st).
Proof.
  intros Hstep [Hv Ha Hat Hp]. pose proof (state_valid_inv _ Hv) as (H2 & Hact & Hprev & Hpend).
  assert (Ha0 : 0 <= fs_active_slot st) by word.
  inversion Hstep as [m source board ?? status ?? Hc Hg H|ma ?? slot ? Hma H|slot ?? ok ? H]; subst.
  - pose proof (stage_any _ _ _ _ _ _ _ _ _ Hc Ha0 H) as (Hoth & _ & Hfail & Hok).
    destruct (next_slot_spec st Hv Ha0) as (_ & Hne & Hr).
    split; [|split; [|apply Hoth; congruence]];
      (destruct (decide (status = JOSH_FW_UPDATE_OK)) as [He|He];
       [destruct (Hok He) as ([= ->] & (_ & _ & _ & Hgen & _) & _)|by injection (Hfail He) as ->]); [|done].
    split; [apply state_valid_intro; cbn; lia|done|done|cbn]. intros _.
    split; [lia|split; [lia|by apply Hgen]].
  - unfold josh_fw_select_boot_slot in H.
    destruct (fs_pending_slot st =? JOSH_FW_SLOT_NONE) eqn:En; [by simplify_eq|].
    destruct (_ >=? _) eqn:Em; injection H as <- <-; (split; [|done]).
    + split; [apply state_valid_intro; cbn; try lia; by left|done|done|done].
    + split; [apply state_valid_intro; cbn; lia|done|apply u32_range|exact Hp].
  - unfold josh_fw_mark_boot_good in H. destruct (_ || _) eqn:Em; [by simplify_eq|].
    injection H as <- <-. destruct Hp as (Hpa & Hpr & Hpg); [unfold has_pending; lia|]. 
    pose proof (flash_count (be := be)). split; [|cbn; split; [lia|done]].
    split; [apply state_valid_intro; cbn; try lia; by left|cbn; word|done|done].
Qed.
End Engine.

(** ** A trial boot *)

(** The slots of [n] boots in a row, none of which reports success. *)
Fixpoint boots (n : nat) (max_attempts : Z) (st : josh_fw_update_state_t)
    : list Z * josh_fw_update_state_t :=
  match n with
  | O => ([], st)
  | S n' =>
      match josh_fw_select_boot_slot (Some st) max_attempts with
      | (slot, Some st') => let '(slots, st'') := boots n' max_attempts st' in (slot :: slots, st'')
      | (slot, None) => ([slot], st)
      end
  end.

Definition with_attempts (st : josh_fw_update_state_t) (k : Z) : josh_fw_update_state_t :=
  {| fs_active_slot := fs_active_slot st; fs_previous_good_slot := fs_previous_good_slot st;
     fs_pending_slot := fs_pending_slot st; fs_pending_attempts := k;
     fs_active_generation := fs_active_generation st;
     fs_pending_generation := fs_pending_generation st |}.

Definition without_pending (st : josh_fw_update_state_t) : josh_fw_update_state_t :=
  {| fs_active_slot := fs_active_slot st; fs_previous_good_slot := fs_previous_good_slot st;
     fs_pending_slot := JOSH_FW_SLOT_NONE; fs_pending_attempts := 0;
     fs_active_generation := fs_active_generation st; fs_pending_generation := 0 |}.

Definition attempt_limit (max_attempts : Z) : Z :=
  if max_attempts =? 0 then JOSH_FW_MAX_ATTEMPTS else max_attempts.

Lemma fw_boots_trial n ma st k :
  has_pending st -> in_u32 ma -> 0 <= k -> attempt_limit ma = k + Z.of_nat n ->
  forall j, boots (n + 1 + j) ma (with_attempts st k) =
    (replicate n (fs_pending_slot st) ++ replicate (1 + j) (fs_active_slot st), without_pending st).
Proof.
  intros Hp Hm. unfold has_pending in Hp. revert k. induction n as [|n IH]; intros k Hk Hl j.
  - cbn [Nat.add boots]. unfold josh_fw_select_boot_slot. fold (attempt_limit ma).
    replace (fs_pending_slot (with_attempts st k) =? JOSH_FW_SLOT_NONE) with false by (cbn; lia).
    replace (fs_pending_attempts (with_attempts st k) >=? attempt_limit ma) with true by (cbn; lia).
    change (boots j ma _) with (boots j ma (without_pending st)). cbn [app replicate].
    assert (boots j ma (without_pending st) = (replicate j (fs_active_slot st), without_pending st)) as ->.
    { induction j as [|j IHj]; [done|]. cbn [boots]. unfold josh_fw_select_boot_slot.
      change (fs_pending_slot (without_pending st) =? JOSH_FW_SLOT_NONE) with true. cbn match.
      by rewrite IHj. }
    done.
  - cbn [Nat.add boots]. unfold josh_fw_select_boot_slot. fold (attempt_limit ma).
    replace (fs_pending_slot (with_attempts st k) =? JOSH_FW_SLOT_NONE) with false by (cbn; lia).
    replace (fs_pending_attempts (with_attempts st k) >=? attempt_limit ma) with false by (cbn; lia).
    cbn [with_attempts fs_pending_attempts fs_active_slot fs_pending_slot fs_previous_good_slot
      fs_active_generation fs_pending_generation].
    assert (attempt_limit ma < 2 ^ 32) by (unfold attempt_limit, JOSH_FW_MAX_ATTEMPTS; destruct (ma =? 0); word).
    rewrite u32_id by word. fold (with_attempts st (k + 1)). rewrite IH by lia. done.
Qed.

(** ** The flash of the tests *)
Record mock_flash := {
  mf_slots : list (list Z);
  mf_fail_write : bool;
  mf_corrupt_after_write : bool
}.
Definition mock_slot_size : Z := 64.

Definition mock_contents (f : mock_flash) (slot : Z) : list Z :=
  if slot <? 0 then [] else default [] (mf_slots f !! Z.to_nat slot).

Definition mock_set (f : mock_flash) (slot : Z) (data : list Z) : mock_flash :=
  {| mf_slots := <[Z.to_nat slot := data]> (mf_slots f); mf_fail_write := mf_fail_write f;
     mf_corrupt_after_write := mf_corrupt_after_write f |}.

Definition mock_erase (f : mock_flash) (slot : Z) : Z * mock_flash :=
  if (slot <? 0) || (slot >=? 2) then (-1, f)
  else (0, mock_set f slot (replicate (Z.to_nat mock_slot_size) 0xff)).

Definition mock_write (f : mock_flash) (slot offset : Z) (data : list Z) : Z * mock_flash :=
  if (slot <? 0) || (slot >=? 2) || (offset >? mock_slot_size)
     || (zlen data >? mock_slot_size - offset) then (-1, f)
  else if mf_fail_write f then (-1, f)
  else
    let old := mock_contents f slot in
    let data := if mf_corrupt_after_write f
                then match data with b :: r => Z.lxor b 1 :: r | [] => [] end else data in
    (0, mock_set f slot (take (Z.to_nat offset) old ++ data ++
                         drop (Z.to_nat offset + length data) old)).

Definition mock_read (f : mock_flash) (slot offset length : Z) : Z * list Z * mock_flash :=
  match slice (mock_contents f slot) offset length with
  | Some data => (0, data, f)
  | None => (-1, [], f)
  end.

Definition mock_backend : josh_fw_flash_backend_t mock_flash :=
  {| fb_slot_count := 2; fb_slot_size := mock_slot_size; fb_erase_slot := Some mock_erase;
     fb_write_slot := Some mock_write; fb_read_slot := Some mock_read |}.

Lemma mock_set_other f slot data other :
  0 <= slot -> other <> slot -> mock_contents (mock_set f slot data) other = mock_contents f other.
Proof.
  intros Hs Ho. unfold mock_contents, mock_set. cbn. destruct (other <? 0) eqn:E; [done|].
  rewrite list_lookup_insert_ne by lia. done.
Qed.

#[export] Instance mock_flash_backend : FlashBackend mock_backend mock_contents.
Proof.
  split.
  - done.
  - done.
  - intros f w slot rc w' [= <-] H other Ho. unfold mock_erase in H.
    destruct (_ || _) eqn:E; injection H as <- <-; [done|]. apply mock_set_other; lia.
  - intros f w slot off data rc w' [= <-] H other Ho. unfold mock_write in H.
    destruct (_ || _) eqn:E; [by injection H as <- <-|]. destruct (mf_fail_write w); injection H as <- <-; [done|].
    apply mock_set_other; lia.
  - intros f w slot off len rc data w' [= <-] H. unfold mock_read in H.
    destruct (slice _ _ _) eqn:E; injection H as <- <- <-; by split.
Qed.

Definition test_image : list Z := chars "JoshFirmware inactive-slot integration fixture" ++ [0].
Definition test_board : list Z := chars "qemu-x86_64" ++ [0].
Definition test_manifest (generation : Z) : josh_fw_update_manifest_t :=
  {| fm_magic := JOSH_FW_UPDATE_MAGIC; fm_version := JOSH_FW_UPDATE_VERSION; fm_header_size := 56;
     fm_board_id := chars "qemu-x86_64" ++ replicate 21 0; fm_generation := generation;
     fm_image_size := 47; fm_image_crc32 := crc32 test_image |}.
Definition test_flash (fail_write : bool) : mock_flash :=
  {| mf_slots := replicate 2 (replicate 64 0xa5); mf_fail_write := fail_write;
     mf_corrupt_after_write := false |}.
Definition test_state : josh_fw_update_state_t :=
  {| fs_active_slot := 0; fs_previous_good_slot := 0; fs_pending_slot := JOSH_FW_SLOT_NONE;
     fs_pending_attempts := 0; fs_active_generation := 7; fs_pending_generation := 0 |}.
Definition test_flash_staged : mock_flash :=
  {| mf_slots := [replicate 64 0xa5; test_image ++ replicate 17 0xff]; mf_fail_write := false;
     mf_corrupt_after_write := false |}.
Definition test_state_staged : josh_fw_update_state_t := staged mock_backend test_state (test_manifest 8).

Lemma test_call_ok generation : call_ok (test_manifest generation) test_image test_board.
Proof.
  split; [vm_compute; split; [discriminate|reflexivity]|].
  split; [vm_compute; discriminate|]. split; [vm_compute; reflexivity|].
  right. apply list_elem_of_In. vm_compute. intuition congruence.
Qed.

Lemma test_stage :
  josh_fw_stage_update (Some (test_manifest 8)) (Some test_image) (Some test_board)
    (Some mock_backend) (Some test_state) false (test_flash false) =
  Some (JOSH_FW_UPDATE_OK, test_flash_staged, Some test_state_staged).
Proof. vm_compute. reflexivity. Qed.

Lemma test_state_inv : fw_inv mock_backend test_state.
Proof.
  split; [vm_compute; reflexivity|vm_compute; split; [discriminate|reflexivity]|
    vm_compute; split; [discriminate|reflexivity]|].
  intros Hp. exfalso. apply Hp. reflexivity.
Qed.

(** ** Properties *)

(** C19: A call of [josh_fw_stage_update] with buffers as large as the manifest
    says always returns.  Whatever the flash does, no slot but the one after the
    active slot changes; a rejected manifest, board, generation, size or
    checksum leaves the flash alone; any failure leaves the update state as it
    was; and on success the image passed every check, the target slot reads back
    as exactly the image bytes, and the state has the target pending with zero
    attempts. *)
Theorem fw_stage_update_outcome {W : Type} (be : josh_fw_flash_backend_t W)
    (contents : W -> Z -> list Z) `{!FlashBackend be contents} m source board erase write read st ar w :
  fb_erase_slot be = Some erase -> fb_write_slot be = Some write -> fb_read_slot be = Some read ->
  call_ok m source board -> 0 <= fs_active_slot st ->
  exists status w' st',
    josh_fw_stage_update (Some m) (Some source) (Some board) (Some be) (Some st) ar w
    = Some (status, w', st') /\
    stage_outcome be contents m source board st ar w status w' st'.
Proof. intros. by eapply stage_spec. Qed.

Lemma fw_stage_update_outcome_witness :
  exists status w' st',
    josh_fw_stage_update (Some (test_manifest 8)) (Some test_image) (Some test_board)
      (Some mock_backend) (Some test_state) false (test_flash false) = Some (status, w', st') /\
    stage_outcome mock_backend mock_contents (test_manifest 8) test_image test_board test_state false
      (test_flash false) status w' st'.
Proof.
  apply (fw_stage_update_outcome mock_backend mock_contents (test_manifest 8) test_image test_board
           mock_erase mock_write mock_read test_state false (test_flash false)).
  - reflexivity.
  - reflexivity.
  - reflexivity.
  - apply test_call_ok.
  - vm_compute. discriminate.
Defined.

(** C31: An update that staged successfully boots: the selector returns the
    staged slot, whose first bytes have the checksum of the manifest, and
    confirming that slot makes it active with the manifest's generation and the
    old active slot as the previous good one. *)
Theorem fw_staged_update_boots {W : Type} (be : josh_fw_flash_backend_t W)
    (contents : W -> Z -> list Z) `{!FlashBackend be contents} m source board st ar w w' st' ma :
  call_ok m source board -> 0 <= fs_active_slot st -> in_u32 ma ->
  josh_fw_stage_update (Some m) (Some source) (Some board) (Some be) (Some st) ar w
    = Some (JOSH_FW_UPDATE_OK, w', st') ->
  exists img st2,
    josh_fw_select_boot_slot st' ma = (next_slot be st, Some st2) /\
    slice (contents w' (next_slot be st)) 0 (fm_image_size m) = Some img /\
    crc32 img = fm_image_crc32 m /\
    josh_fw_mark_boot_good (Some st2) (next_slot be st) =
      (true, Some {| fs_active_slot := next_slot be st; fs_previous_good_slot := fs_active_slot st;
                     fs_pending_slot := JOSH_FW_SLOT_NONE; fs_pending_attempts := 0;
                     fs_active_generation := fm_generation m; fs_pending_generation := 0 |}).
Proof.
  intros Hc Ha Hma H. apply (stage_any be contents) in H as (_ & _ & _ & Hok); try done.
  destruct (Hok eq_refl) as (-> & (_ & Hv & _ & _ & _ & Hcrc) & Hsl).
  destruct (next_slot_spec be contents st Hv Ha) as (_ & _ & Hr). pose proof (flash_count (be := be)).
  assert (Hn : (next_slot be st =? JOSH_FW_SLOT_NONE) = false) by (unfold JOSH_FW_SLOT_NONE; word).
  eexists _, _. split; [|split; [exact Hsl|split; [exact Hcrc|]]].
  - unfold josh_fw_select_boot_slot. cbn [staged fs_pending_slot fs_pending_attempts]. rewrite Hn.
    replace (0 >=? _) with false by (destruct (ma =? 0) eqn:?; unfold JOSH_FW_MAX_ATTEMPTS; word). done.
  - unfold josh_fw_mark_boot_good. cbn. by rewrite Hn, Z.eqb_refl.
Qed.

Lemma fw_staged_update_boots_witness :
  exists img st2,
    josh_fw_select_boot_slot (Some test_state_staged) 3 = (1, Some st2) /\
    slice (mock_contents test_flash_staged 1) 0 47 = Some img /\ crc32 img = crc32 test_image /\
    josh_fw_mark_boot_good (Some st2) 1 =
      (true, Some {| fs_active_slot := 1; fs_previous_good_slot := 0;
                     fs_pending_slot := JOSH_FW_SLOT_NONE; fs_pending_attempts := 0;
                     fs_active_generation := 8; fs_pending_generation := 0 |}).
Proof.
  apply (fw_staged_update_boots mock_backend mock_contents (test_manifest 8) test_image test_board
           test_state false (test_flash false) test_flash_staged (Some test_state_staged) 3).
  - apply test_call_ok.
  - vm_compute. discriminate.
  - vm_compute. split; [discriminate|reflexivity].
  - exact test_stage.
Defined.

(** C27: Anti-rollback.  Over every interleaving of staging (rollback not
    allowed), boot selection and boot confirmation, the state stays well formed,
    a pending slot is never the active slot and its generation is newer than the
    active one, and the active generation never decreases. *)
Theorem fw_generation_never_decreases {W : Type} (be : josh_fw_flash_backend_t W)
    (contents : W -> Z -> list Z) `{!FlashBackend be contents} w st w' st' :
  rtc (fw_step be) (w, st) (w', st') -> fw_inv be st ->
  fw_inv be st' /\ fs_active_generation st <= fs_active_generation st'.
Proof.
  intros Hr. remember (w, st) as a eqn:Ea. remember (w', st') as b eqn:Eb. revert w st Ea.
  induction Hr as [x|x [w1 st1] z Hs Hr IH]; intros w st -> Hi.
  - injection Eb as -> ->. split; [done|lia].
  - apply (fw_step_inv be contents) in Hs as (Hi1 & Hg & _); [|done].
    destruct (IH Eb _ _ eq_refl Hi1). split; [done|lia].
Qed.

Lemma fw_generation_never_decreases_witness :
  fw_inv mock_backend test_state_staged /\ 7 <= fs_active_generation test_state_staged.
Proof.
  apply (fw_generation_never_decreases mock_backend mock_contents (test_flash false) test_state
           test_flash_staged test_state_staged).
  - apply rtc_once. eapply fw_stage.
    + apply (test_call_ok 8).
    + vm_compute. split; [discriminate|reflexivity].
    + exact test_stage.
  - exact test_state_inv.
Defined.

(** Every step of the protocol keeps what the active slot holds, so the slot
    to fall back to survives a failed or interrupted update. *)
Theorem fw_active_slot_preserved {W : Type} (be : josh_fw_flash_backend_t W)
    (contents : W -> Z -> list Z) `{!FlashBackend be contents} w st w' st' :
  fw_step be (w, st) (w', st') -> fw_inv be st ->
  contents w' (fs_active_slot st) = contents w (fs_active_slot st).
Proof. intros Hs Hi. by apply (fw_step_inv be contents) in Hs as (_ & _ & ?). Qed.

Lemma fw_active_slot_preserved_witness :
  mock_contents test_flash_staged 0 = mock_contents (test_flash false) 0.
Proof.
  apply (fw_active_slot_preserved mock_backend mock_contents (test_flash false) test_state
           test_flash_staged test_state_staged).
  - eapply fw_stage.
    + apply (test_call_ok 8).
    + vm_compute. split; [discriminate|reflexivity].
    + exact test_stage.
  - exact test_state_inv.
Defined.

(** C40: A trial is bounded: when no boot of a freshly staged slot reports
    success, it is selected exactly as many times as the attempt limit (three
    when zero is passed), and from then on every boot selects the active slot
    and nothing is pending. *)
Theorem fw_trial_is_bounded st ma j :
  has_pending st -> fs_pending_attempts st = 0 -> in_u32 ma ->
  boots (Z.to_nat (attempt_limit ma) + 1 + j) ma st =
  (replicate (Z.to_nat (attempt_limit ma)) (fs_pending_slot st) ++ replicate (1 + j) (fs_active_slot st),
   without_pending st).
Proof.
  intros Hp H0 Hm. replace st with (with_attempts st 0) at 1 by (destruct st; cbn in *; by subst).
  apply fw_boots_trial; [done..|]. rewrite Z2Nat.id; [lia|].
  unfold attempt_limit, JOSH_FW_MAX_ATTEMPTS. destruct (ma =? 0); word.
Qed.

Lemma fw_trial_is_bounded_witness :
  boots (Z.to_nat (attempt_limit 0) + 1 + 2) 0 test_state_staged =
  ([1; 1; 1] ++ [0; 0; 0], without_pending test_state_staged).
Proof.
  apply (fw_trial_is_bounded test_state_staged 0 2).
  - intros H. vm_compute in H. discriminate H.
  - reflexivity.
  - vm_compute. split; [discriminate|reflexivity].
Defined.

(** Staging again over a slot that is already pending erases that slot first;
    when the second update then fails, the slot stays pending and the selector
    boots the erased slot. *)
Definition set_fail_write (f : mock_flash) : mock_flash :=
  {| mf_slots := mf_slots f; mf_fail_write := true; mf_corrupt_after_write := mf_corrupt_after_write f |}.

Lemma fw_failed_restage_leaves_erased_slot_pending :
  exists w', josh_fw_stage_update (Some (test_manifest 9)) (Some test_image) (Some test_board)
      (Some mock_backend) (Some test_state_staged) false (set_fail_write test_flash_staged)
    = Some (JOSH_FW_UPDATE_WRITE_FAILED, w', Some test_state_staged) /\
    fst (josh_fw_select_boot_slot (Some test_state_staged) 3) = 1 /\
    mock_contents w' 1 = replicate 64 0xff.
Proof. eexists. split; [vm_compute; reflexivity|]. split; vm_compute; reflexivity. Qed.
