(* ===== verification/Fat32.v ===== *)
(** * The read-only FAT32 file system (boot/core/fat32.c, boot/core/fat32.h)

    [josh_fat32_mount] checks a boot sector and fills the file system record,
    [josh_fat32_open_path] resolves a path of 8.3 names through the directory
    chains, and [josh_fat32_read_file] copies a range of a file into a buffer.

    A path pointer is the list of characters from the pointer on, including the
    terminating zero; characters are bytes, the comparisons of the code give
    the same answer for [char] signed or not.  A function with an out-parameter
    returns its pointee with the status; [josh_fat32_read_file] returns the
    buffer on every path, since a failed read leaves the bytes copied so far.
    [Stuck] is an access outside a buffer or an exhausted loop bound. *)
From S2P Require Import Prelude Runtime32 Block Partition.

Inductive josh_fat32_status_t :=
| JOSH_FAT32_OK
| JOSH_FAT32_IO_ERROR
| JOSH_FAT32_NOT_FAT32
| JOSH_FAT32_CORRUPT
| JOSH_FAT32_UNSUPPORTED
| JOSH_FAT32_NOT_FOUND
| JOSH_FAT32_NOT_DIRECTORY
| JOSH_FAT32_BAD_PATH
| JOSH_FAT32_BUFFER_TOO_SMALL.

#[export] Instance fat32_status_eq_dec : EqDecision josh_fat32_status_t.
Proof. solve_decision. Defined.

Record josh_fat32_t := {
  fs_device : josh_block_device_t;
  fs_partition_lba : Z;
  fs_partition_sectors : Z;
  fs_fat_lba : Z;
  fs_data_lba : Z;
  fs_sectors_per_fat : Z;
  fs_cluster_count : Z;
  fs_root_cluster : Z;
  fs_sectors_per_cluster : Z;
  fs_fat_count : Z
}.

Record josh_fat32_file_t := {
  ff_first_cluster : Z;
  ff_size : Z;
  ff_attributes : Z
}.

Definition FAT32_MIN_CLUSTERS : Z := 65525.
Definition FAT32_EOC_MIN : Z := 0x0FFFFFF8.
Definition FAT32_BAD_CLUSTER : Z := 0x0FFFFFF7.
Definition FAT32_CLUSTER_MASK : Z := 0x0FFFFFFF.
Definition FAT_ATTR_DIRECTORY : Z := 0x10.
Definition FAT_ATTR_VOLUME : Z := 0x08.
Definition FAT_ATTR_LFN : Z := 0x0F.

Definition read_le16 (buf : list Z) (off : Z) : option Z := rd16 buf off.
Definition read_le32 (buf : list Z) (off : Z) : option Z := rd32 buf off.

Definition power_of_two_u8 (value : Z) : bool :=
  negb (value =? 0) && (Z.land value (u8 (value - 1)) =? 0).

(** ** Clusters *)
Definition cluster_valid (fs : josh_fat32_t) (cluster : Z) : bool :=
  (cluster >=? 2) && (cluster <? u32 (fs_cluster_count fs + 2)).

Definition cluster_lba (fs : josh_fat32_t) (cluster : Z) : res josh_fat32_status_t Z :=
  if negb (cluster_valid fs cluster) then Err JOSH_FAT32_CORRUPT
  else
    let relative :=
      u64 (fs_data_lba fs + u64 (u32 (cluster - 2) * fs_sectors_per_cluster fs)) in
    if (relative >=? fs_partition_sectors fs)
       || (fs_sectors_per_cluster fs >? u64 (fs_partition_sectors fs - relative))
    then Err JOSH_FAT32_CORRUPT
    else Ok (u64 (fs_partition_lba fs + relative)).

Definition next_cluster (fs : josh_fat32_t) (cluster : Z) : res josh_fat32_status_t Z :=
  if negb (cluster_valid fs cluster) then Err JOSH_FAT32_CORRUPT
  else
    let fat_offset := u64 (cluster * 4) in
    let sector_index := fat_offset / JOSH_BLOCK_SECTOR_SIZE in
    let byte_offset := u32 (fat_offset mod JOSH_BLOCK_SECTOR_SIZE) in
    if (sector_index >=? fs_sectors_per_fat fs) || (byte_offset >? JOSH_BLOCK_SECTOR_SIZE - 4)
    then Err JOSH_FAT32_CORRUPT
    else
      let lba := u64 (u64 (fs_partition_lba fs + fs_fat_lba fs) + sector_index) in
      match josh_block_read (Some (fs_device fs)) lba 1 uninit with
      | None => Err JOSH_FAT32_IO_ERROR
      | Some sector =>
          load entry := read_le32 sector byte_offset in
          let value := Z.land entry FAT32_CLUSTER_MASK in
          if (value =? FAT32_BAD_CLUSTER) || (value =? 0) || (value =? 1)
          then Err JOSH_FAT32_CORRUPT
          else Ok value
      end.

(** ** Short names *)
Fixpoint punctuation_loop (allowed : list Z) (c : Z) : bool :=
  match allowed with
  | [] => false
  | a :: rest => if a =? c then true else punctuation_loop rest c
  end.

Definition short_name_punctuation_allowed (c : Z) : bool :=
  punctuation_loop (chars "_-$~!#%&()@^`{}") c.

(** [Some out] when the function returns 1. *)
Definition ascii_upper (c : Z) : option Z :=
  let c := if (c >=? 97) && (c <=? 122) then c - 97 + 65 else c in
  if negb (((c >=? 65) && (c <=? 90)) || ((c >=? 48) && (c <=? 57))
           || short_name_punctuation_allowed c)
  then None
  else Some c.

(** The search for the only dot: [inr dot], or [inl tt] for a second one. *)
Fixpoint dot_loop (segment : list Z) (length : Z) (n : nat) (i dot : Z) {struct n}
    : option (unit + Z) :=
  match n with
  | O => Some (inr dot)
  | S n' =>
      let? c := get8 segment i in
      if c =? 46 then
        if negb (dot =? length) then Some (inl tt) else dot_loop segment length n' (i + 1) i
      else dot_loop segment length n' (i + 1) dot
  end.

(** [for (i = 0; i < n; ++i) if (!ascii_upper(segment[from + i], &out[to + i]))]:
    [Some None] when a character is refused. *)
Fixpoint upper_loop (segment out : list Z) (from to : Z) (n : nat) (i : Z) {struct n}
    : option (option (list Z)) :=
  match n with
  | O => Some (Some out)
  | S n' =>
      let? c := get8 segment (from + i) in
      match ascii_upper c with
      | None => Some None
      | Some u =>
          if (to + i <? 0) || (to + i >=? zlen out) then None
          else upper_loop segment (<[Z.to_nat (to + i) := u]> out) from to n' (i + 1)
      end
  end.

Definition short_name_from_segment (segment : option (list Z)) (length : Z)
    : res josh_fat32_status_t (list Z) :=
  match segment with
  | None => Err JOSH_FAT32_BAD_PATH
  | Some seg =>
      if (length =? 0) || (length >? 12) then Err JOSH_FAT32_BAD_PATH
      else
        let out := replicate 11 32 in
        load found := dot_loop seg length (Z.to_nat length) 0 length in
        match found with
        | inl _ => Err JOSH_FAT32_BAD_PATH
        | inr dot =>
            let base_len := dot in
            let ext_len := if dot =? length then 0 else length - dot - 1 in
            if (base_len =? 0) || (base_len >? 8) || (ext_len >? 3)
            then Err JOSH_FAT32_BAD_PATH
            else
              load base := upper_loop seg out 0 0 (Z.to_nat base_len) 0 in
              match base with
              | None => Err JOSH_FAT32_BAD_PATH
              | Some out =>
                  load ext := upper_loop seg out (dot + 1) 8 (Z.to_nat ext_len) 0 in
                  match ext with
                  | None => Err JOSH_FAT32_BAD_PATH
                  | Some out => Ok out
                  end
              end
        end
  end.

(** ** Directories *)

(** One directory entry: [None] continues the scan, [Some r] returns [r]. *)
Definition directory_entry (entry short_name : list Z)
    : option (option (res josh_fat32_status_t josh_fat32_file_t)) :=
  let? e0 := get8 entry 0 in
  if e0 =? 0x00 then Some (Some (Err JOSH_FAT32_NOT_FOUND))
  else if e0 =? 0xE5 then Some None
  else
    let? attributes := get8 entry 11 in
    if (attributes =? FAT_ATTR_LFN) || negb (Z.land attributes FAT_ATTR_VOLUME =? 0)
    then Some None
    else
      let? diff := memcmp entry short_name 11 in
      if negb (diff =? 0) then Some None
      else
        let? high := read_le16 entry 20 in
        let? low := read_le16 entry 26 in
        let? size := read_le32 entry 28 in
        let first_cluster := Z.lor (u32 (Z.shiftl high 16)) low in
        if (first_cluster <? 2) && negb (size =? 0)
        then Some (Some (Err JOSH_FAT32_CORRUPT))
        else Some (Some (Ok {| ff_first_cluster := first_cluster; ff_size := size;
                               ff_attributes := attributes |})).

(** The entries of one sector, from [offset] on. *)
Fixpoint entry_loop (sector short_name : list Z) (n : nat) (offset : Z) {struct n}
    : option (option (res josh_fat32_status_t josh_fat32_file_t)) :=
  match n with
  | O => Some None
  | S n' =>
      let? r := directory_entry (drop (Z.to_nat offset) sector) short_name in
      match r with
      | Some r => Some (Some r)
      | None => entry_loop sector short_name n' (offset + 32)
      end
  end.

(** The sectors of one cluster. *)
Fixpoint sector_loop (fs : josh_fat32_t) (base_lba : Z) (short_name : list Z) (n : nat)
    (sector_index : Z) {struct n} : option (option (res josh_fat32_status_t josh_fat32_file_t)) :=
  match n with
  | O => Some None
  | S n' =>
      match josh_block_read (Some (fs_device fs)) (u64 (base_lba + sector_index)) 1 uninit with
      | None => Some (Some (Err JOSH_FAT32_IO_ERROR))
      | Some sector =>
          let? r := entry_loop sector short_name 16 0 in
          match r with
          | Some r => Some (Some r)
          | None => sector_loop fs base_lba short_name n' (sector_index + 1)
          end
      end
  end.

(** The clusters of the chain, at most [n] of them. *)
Fixpoint directory_loop (fs : josh_fat32_t) (short_name : list Z) (n : nat) (cluster : Z) {struct n}
    : res josh_fat32_status_t josh_fat32_file_t :=
  match n with
  | O => Err JOSH_FAT32_CORRUPT
  | S n' =>
      let* base_lba := cluster_lba fs cluster in
      load r := sector_loop fs base_lba short_name (Z.to_nat (fs_sectors_per_cluster fs)) 0 in
      match r with
      | Some r => r
      | None =>
          let* next := next_cluster fs cluster in
          if next >=? FAT32_EOC_MIN then Err JOSH_FAT32_NOT_FOUND
          else directory_loop fs short_name n' next
      end
  end.

Definition find_in_directory (fs : josh_fat32_t) (directory_cluster : Z) (short_name : list Z)
    : res josh_fat32_status_t josh_fat32_file_t :=
  directory_loop fs short_name (Z.to_nat (fs_cluster_count fs + 1)) directory_cluster.

(** ** Mounting *)
Record bpb := {
  bpb_bytes_per_sector : Z;
  bpb_sectors_per_cluster : Z;
  bpb_reserved : Z;
  bpb_fat_count : Z;
  bpb_root_entries : Z;
  bpb_total16 : Z;
  bpb_fat16 : Z;
  bpb_total32 : Z;
  bpb_fat32 : Z;
  bpb_root_cluster : Z
}.

Definition read_bpb (boot : list Z) : option bpb :=
  let? bytes_per_sector := read_le16 boot 11 in
  let? sectors_per_cluster := get8 boot 13 in
  let? reserved := read_le16 boot 14 in
  let? fat_count := get8 boot 16 in
  let? root_entries := read_le16 boot 17 in
  let? total16 := read_le16 boot 19 in
  let? fat16 := read_le16 boot 22 in
  let? total32 := read_le32 boot 32 in
  let? fat32 := read_le32 boot 36 in
  let? root_cluster := read_le32 boot 44 in
  Some {| bpb_bytes_per_sector := bytes_per_sector;
          bpb_sectors_per_cluster := sectors_per_cluster; bpb_reserved := reserved;
          bpb_fat_count := fat_count; bpb_root_entries := root_entries; bpb_total16 := total16;
          bpb_fat16 := fat16; bpb_total32 := total32; bpb_fat32 := fat32;
          bpb_root_cluster := root_cluster |}.

Definition josh_fat32_mount (device : option josh_block_device_t)
    (partition : option josh_partition_t) (fs : option unit) : res josh_fat32_status_t josh_fat32_t :=
  match device, partition, fs with
  | Some d, Some p, Some _ =>
      if pt_sector_count p =? 0 then Err JOSH_FAT32_NOT_FAT32
      else if (pt_first_lba p >=? bd_sector_count d)
              || (pt_sector_count p >? u64 (bd_sector_count d - pt_first_lba p))
      then Err JOSH_FAT32_CORRUPT
      else
        match josh_block_read (Some d) (pt_first_lba p) 1 uninit with
        | None => Err JOSH_FAT32_IO_ERROR
        | Some boot =>
            load s0 := get8 boot 510 in
            load s1 := get8 boot 511 in
            if negb (s0 =? 0x55) || negb (s1 =? 0xAA) then Err JOSH_FAT32_NOT_FAT32
            else
              load b := read_bpb boot in
              if negb (bpb_bytes_per_sector b =? JOSH_BLOCK_SECTOR_SIZE)
              then Err JOSH_FAT32_UNSUPPORTED
              else if negb (power_of_two_u8 (bpb_sectors_per_cluster b))
                      || (bpb_sectors_per_cluster b >? 128)
              then Err JOSH_FAT32_CORRUPT
              else if (bpb_reserved b =? 0) || (bpb_fat_count b =? 0) || (bpb_fat_count b >? 2)
                      || negb (bpb_root_entries b =? 0) || negb (bpb_fat16 b =? 0)
                      || (bpb_fat32 b =? 0)
              then Err JOSH_FAT32_NOT_FAT32
              else
                let total := if negb (bpb_total16 b =? 0) then bpb_total16 b else bpb_total32 b in
                if (total =? 0) || (total >? pt_sector_count p) then Err JOSH_FAT32_CORRUPT
                else
                  let fat_area := u64 (bpb_fat_count b * bpb_fat32 b) in
                  if u64 (bpb_reserved b + fat_area) >=? total then Err JOSH_FAT32_CORRUPT
                  else
                    let data_sectors := u32 (u64 (u32 (total - bpb_reserved b) - fat_area)) in
                    let clusters := data_sectors / bpb_sectors_per_cluster b in
                    if clusters <? FAT32_MIN_CLUSTERS then Err JOSH_FAT32_NOT_FAT32
                    else if (bpb_root_cluster b <? 2) || (bpb_root_cluster b >=? u32 (clusters + 2))
                    then Err JOSH_FAT32_CORRUPT
                    else
                      Ok {| fs_device := d;
                            fs_partition_lba := pt_first_lba p;
                            fs_partition_sectors := total;
                            fs_fat_lba := bpb_reserved b;
                            fs_data_lba := u32 (u64 (bpb_reserved b + fat_area));
                            fs_sectors_per_fat := bpb_fat32 b;
                            fs_cluster_count := clusters;
                            fs_root_cluster := bpb_root_cluster b;
                            fs_sectors_per_cluster := bpb_sectors_per_cluster b;
                            fs_fat_count := bpb_fat_count b |}
        end
  | _, _, _ => Err JOSH_FAT32_NOT_FAT32
  end.

(** ** Paths *)

(** [while (path[0] is a slash) ++path]. *)
Fixpoint skip_slashes (path : list Z) : option (list Z) :=
  match path with
  | [] => None
  | c :: rest => if c =? 47 then skip_slashes rest else Some path
  end.

(** [while (path[0] is neither zero nor a slash) ++path]: the length of the
    segment and the pointer after it. *)
Fixpoint skip_segment (path : list Z) : option (Z * list Z) :=
  match path with
  | [] => None
  | c :: rest =>
      if negb (c =? 0) && negb (c =? 47)
      then let? (n, after) := skip_segment rest in Some (n + 1, after)
      else Some (0, path)
  end.

Fixpoint path_loop (fs : josh_fat32_t) (fuel : nat) (path : list Z) (directory : Z) {struct fuel}
    : res josh_fat32_status_t josh_fat32_file_t :=
  match fuel with
  | O => Stuck
  | S fuel' =>
      let segment := path in
      load (length, path) := skip_segment path in
      let* short_name := short_name_from_segment (Some segment) length in
      let* found := find_in_directory fs directory short_name in
      load path := skip_slashes path in
      load c := get8 path 0 in
      if c =? 0 then Ok found
      else if Z.land (ff_attributes found) FAT_ATTR_DIRECTORY =? 0
      then Err JOSH_FAT32_NOT_DIRECTORY
      else if negb (cluster_valid fs (ff_first_cluster found)) then Err JOSH_FAT32_CORRUPT
      else path_loop fs fuel' path (ff_first_cluster found)
  end.

Definition josh_fat32_open_path (fs : option josh_fat32_t) (path : option (list Z))
    (file : option unit) : res josh_fat32_status_t josh_fat32_file_t :=
  match fs, path, file with
  | Some fs, Some path, Some _ =>
      load path := skip_slashes path in
      load c := get8 path 0 in
      if c =? 0
      then Ok {| ff_first_cluster := fs_root_cluster fs; ff_size := 0;
                 ff_attributes := FAT_ATTR_DIRECTORY |}
      else path_loop fs (length path) path (fs_root_cluster fs)
  | _, _, _ => Err JOSH_FAT32_BAD_PATH
  end.

(** ** Reading *)

(** [memcpy(out, sector + byte_offset, take)], with [out] at [pos] of [buffer]. *)
Definition copy_out (buffer : list Z) (pos : Z) (sector : list Z) (byte_offset n : Z)
    : option (list Z) :=
  if (pos <? 0) || (byte_offset <? 0) then None
  else
    let? tail := memcpy (drop (Z.to_nat pos) buffer) (drop (Z.to_nat byte_offset) sector) (Z.to_nat n) in
    Some (take (Z.to_nat pos) buffer ++ tail).

Fixpoint skip_loop (fs : josh_fat32_t) (n : nat) (cluster : Z) {struct n} : res josh_fat32_status_t Z :=
  match n with
  | O => Ok cluster
  | S n' =>
      match next_cluster fs cluster with
      | Ok next => if next >=? FAT32_EOC_MIN then Err JOSH_FAT32_CORRUPT else skip_loop fs n' next
      | Err _ => Err JOSH_FAT32_CORRUPT
      | Stuck => Stuck
      end
  end.

(** The buffer, the position of [out] in it, and the bytes still to copy. *)
Record cursor := { cur_buffer : list Z; cur_pos : Z; cur_remaining : Z }.

(** The sectors of one cluster; an error carries the buffer as it is left. *)
Fixpoint copy_loop (fs : josh_fat32_t) (base_lba : Z) (n : nat) (s byte_offset : Z) (cur : cursor)
    {struct n} : res (josh_fat32_status_t * list Z) cursor :=
  match n with
  | O => Ok cur
  | S n' =>
      if negb (cur_remaining cur >? 0) then Ok cur
      else
        match josh_block_read (Some (fs_device fs)) (u64 (base_lba + s)) 1 uninit with
        | None => Err (JOSH_FAT32_IO_ERROR, cur_buffer cur)
        | Some sector =>
            let take := u32 (JOSH_BLOCK_SECTOR_SIZE - byte_offset) in
            let take := if take >? cur_remaining cur then cur_remaining cur else take in
            load buffer := copy_out (cur_buffer cur) (cur_pos cur) sector byte_offset take in
            copy_loop fs base_lba n' (s + 1) 0
              {| cur_buffer := buffer; cur_pos := cur_pos cur + take;
                 cur_remaining := u32 (cur_remaining cur - take) |}
        end
  end.

(** Attach the buffer to a failure of a function that does not touch it. *)
Definition failing_with {A : Type} (buffer : list Z) (m : res josh_fat32_status_t A)
    : res (josh_fat32_status_t * list Z) A :=
  match m with Ok a => Ok a | Err e => Err (e, buffer) | Stuck => Stuck end.

Fixpoint read_loop (fs : josh_fat32_t) (fuel : nat) (visited cluster offset_in_cluster : Z)
    (cur : cursor) {struct fuel} : res (josh_fat32_status_t * list Z) (list Z) :=
  if negb (cur_remaining cur >? 0) then Ok (cur_buffer cur)
  else
    match fuel with
    | O => Stuck
    | S fuel' =>
        if visited >? fs_cluster_count fs then Err (JOSH_FAT32_CORRUPT, cur_buffer cur)
        else
          let visited := u32 (visited + 1) in
          let* base_lba := failing_with (cur_buffer cur) (cluster_lba fs cluster) in
          let first_sector := offset_in_cluster / JOSH_BLOCK_SECTOR_SIZE in
          let byte_offset := offset_in_cluster mod JOSH_BLOCK_SECTOR_SIZE in
          let* cur :=
            copy_loop fs base_lba (Z.to_nat (fs_sectors_per_cluster fs - first_sector))
              first_sector byte_offset cur in
          if cur_remaining cur =? 0 then Ok (cur_buffer cur)
          else
            let* next := failing_with (cur_buffer cur) (next_cluster fs cluster) in
            if next >=? FAT32_EOC_MIN then Err (JOSH_FAT32_CORRUPT, cur_buffer cur)
            else read_loop fs fuel' visited next 0 cur
    end.

(** Returns the status, the buffer and the pointee of [bytes_read], which may
    be null like the other pointers. *)
Definition josh_fat32_read_file (fs : option josh_fat32_t) (file : option josh_fat32_file_t)
    (offset : Z) (buffer : option (list Z)) (length : Z) (bytes_read : option Z)
    : option (josh_fat32_status_t * option (list Z) * option Z) :=
  let zero := option_map (fun _ => 0) bytes_read in
  match fs, file with
  | Some fs, Some file =>
      match buffer with
      | None =>
          if negb (length =? 0) then Some (JOSH_FAT32_BAD_PATH, None, zero)
          else if negb (Z.land (ff_attributes file) FAT_ATTR_DIRECTORY =? 0)
          then Some (JOSH_FAT32_NOT_DIRECTORY, None, zero)
          else if offset >? ff_size file then Some (JOSH_FAT32_BAD_PATH, None, zero)
          else Some (JOSH_FAT32_OK, None, zero)
      | Some buf =>
          if negb (Z.land (ff_attributes file) FAT_ATTR_DIRECTORY =? 0)
          then Some (JOSH_FAT32_NOT_DIRECTORY, buffer, zero)
          else if offset >? ff_size file then Some (JOSH_FAT32_BAD_PATH, buffer, zero)
          else
            let available := u32 (ff_size file - offset) in
            let length := if length >? available then available else length in
            if length =? 0 then Some (JOSH_FAT32_OK, buffer, zero)
            else if negb (cluster_valid fs (ff_first_cluster file))
            then Some (JOSH_FAT32_CORRUPT, buffer, zero)
            else
              let cluster_bytes := u32 (fs_sectors_per_cluster fs * JOSH_BLOCK_SECTOR_SIZE) in
              if cluster_bytes =? 0 then None
              else
              let skip_clusters := offset / cluster_bytes in
              let offset_in_cluster := offset mod cluster_bytes in
              match
                let* cluster :=
                  failing_with buf (skip_loop fs (Z.to_nat skip_clusters) (ff_first_cluster file)) in
                read_loop fs (Z.to_nat (fs_cluster_count fs + 2)) skip_clusters cluster offset_in_cluster
                  {| cur_buffer := buf; cur_pos := 0; cur_remaining := length |}
              with
              | Ok buf => Some (JOSH_FAT32_OK, Some buf, option_map (fun _ => length) bytes_read)
              | Err (e, buf) => Some (e, Some buf, zero)
              | Stuck => None
              end
      end
  | _, _ => Some (JOSH_FAT32_BAD_PATH, buffer, zero)
  end.

(** The switch of [josh_fat32_status_string], on the integer value. *)
Definition josh_fat32_status_string (status : Z) : string :=
  match status with
  | 0 => "ok"
  | 1 => "I/O error"
  | 2 => "not FAT32"
  | 3 => "corrupt FAT32"
  | 4 => "unsupported FAT32 feature"
  | 5 => "path not found"
  | 6 => "not a directory"
  | 7 => "invalid path"
  | 8 => "buffer too small"
  | _ => "unknown FAT32 error"
  end.

(** ** 8.3 names *)
Definition pad (n : nat) (l : list Z) : list Z := l ++ replicate (n - length l) 32.

(** The characters of a name and how an entry spells them: letters in capitals, the others as they are. *)
Definition capitals : list Z := chars "ABCDEFGHIJKLMNOPQRSTUVWXYZ".
Definition as_they_are : list Z := capitals ++ chars "0123456789_-$~!#%&()@^`{}".
Definition spelling : list (Z * Z) :=
  zip (chars "abcdefghijklmnopqrstuvwxyz") capitals ++ zip as_they_are as_they_are.
Definition short_char (c : Z) : option Z := snd <$> List.find (fun p => fst p =? c) spelling.

Lemma ascii_upper_spelling c : ascii_upper c = short_char c.
Proof.
  assert (Hall : forallb (fun x => bool_decide (ascii_upper x = short_char x)) (seqZ 0 128) = true) by (vm_compute; reflexivity).
  assert (Hin : forallb (fun p => (0 <=? fst p) && (fst p <? 128)) spelling = true) by (vm_compute; reflexivity).
  assert (Hpunct : forallb (fun x => (0 <=? x) && (x <? 128)) (chars "_-$~!#%&()@^`{}") = true) by (vm_compute; reflexivity).
  rewrite forallb_forall in Hall, Hin, Hpunct. destruct (decide (0 <= c < 128)) as [Hc|Hc].
  - assert (H : In c (seqZ 0 128)) by (apply list_elem_of_In, elem_of_seqZ; lia). by apply Hall, bool_decide_eq_true in H.
  - assert (Hno : forall l, punctuation_loop l c = true -> In c l).
    { induction l as [|a l IH]; cbn; [done|]. destruct (a =? c) eqn:E; [left; lia|auto]. }
    transitivity (@None Z).
    + unfold ascii_upper. replace ((c >=? 97) && (c <=? 122)) with false by lia. unfold short_name_punctuation_allowed.
      destruct (punctuation_loop _ c) eqn:E; [apply Hno, Hpunct in E; lia|].
      by replace ((c >=? 65) && (c <=? 90) || (c >=? 48) && (c <=? 57) || false) with false by lia.
    + unfold short_char. destruct (List.find _ spelling) as [p|] eqn:E; [|done].
      apply find_some in E as [Hp%Hin Hpc]. lia.
Qed.

(** The eleven bytes of the name [base.ext] in a directory entry. *)
Definition name83 (base ext : list Z) : option (list Z) :=
  let? b := mapM short_char base in
  let? e := mapM short_char ext in
  if (1 <=? zlen base) && (zlen base <=? 8) && (zlen ext <=? 3) then Some (pad 8 b ++ pad 3 e) else None.

Lemma name83_code base ext : name83 base ext =
  let? b := mapM ascii_upper base in
  let? e := mapM ascii_upper ext in
  if (1 <=? zlen base) && (zlen base <=? 8) && (zlen ext <=? 3) then Some (pad 8 b ++ pad 3 e) else None.
Proof. unfold name83. rewrite !(mapM_ext ascii_upper short_char) by apply ascii_upper_spelling. done. Qed.

Lemma get8_middle pre x post : get8 (pre ++ x :: post) (zlen pre) = Some x.
Proof.
  unfold get8. assert (0 <= zlen pre) by word. replace (zlen pre <? 0) with false by lia. unfold zlen. rewrite Nat2Z.id.
  by apply list_lookup_middle.
Qed.

Lemma zlen_snoc (l : list Z) x : zlen (l ++ [x]) = zlen l + 1.
Proof. unfold zlen. rewrite length_app. cbn. lia. Qed.

Lemma dot_loop_none len dot pre l post :
  46 ∉ l -> dot_loop (pre ++ l ++ post) len (length l) (zlen pre) dot = Some (inr dot).
Proof.
  revert pre dot. induction l as [|x l IH]; intros pre dot Hl; [done|]. cbn [length dot_loop app].
  rewrite get8_middle. assert (x <> 46) by set_solver. replace (x =? 46) with false by lia.
  rewrite <- zlen_snoc with (x := x). rewrite (cons_middle x pre), app_assoc. apply IH. set_solver.
Qed.
Lemma dot_loop_one len pre a b post :
  46 ∉ a -> 46 ∉ b ->
  dot_loop (pre ++ (a ++ 46 :: b) ++ post) len (length (a ++ 46 :: b)) (zlen pre) len
  = Some (inr (zlen pre + zlen a)).
Proof.
  intros Ha Hb. revert pre. induction a as [|x a IH]; intros pre; cbn [length dot_loop app].
  - rewrite get8_middle, !Z.eqb_refl. cbn [negb]. rewrite <- zlen_snoc with (x := 46).
    rewrite (cons_middle 46 pre), app_assoc, dot_loop_none by done.
    change (zlen (@nil Z)) with 0. by rewrite Z.add_0_r.
  - rewrite get8_middle. assert (x <> 46) by set_solver. replace (x =? 46) with false by lia.
    rewrite <- zlen_snoc with (x := x). rewrite (cons_middle x pre), app_assoc.
    rewrite IH by set_solver. rewrite zlen_snoc. unfold zlen. cbn [length].
    by replace (Z.of_nat (length pre) + 1 + Z.of_nat (length a))
      with (Z.of_nat (length pre) + Z.of_nat (S (length a))) by lia.
Qed.

Lemma dot_loop_after len dot pre a b post :
  dot <> len ->
  dot_loop (pre ++ (a ++ 46 :: b) ++ post) len (length (a ++ 46 :: b)) (zlen pre) dot = Some (inl tt) \/ 46 ∈ a.
Proof.
  intros Hd. destruct (decide (46 ∈ a)) as [?|Ha]; [by right|left].
  revert pre. induction a as [|x a IH]; intros pre; cbn [length dot_loop app]; rewrite get8_middle.
  - rewrite Z.eqb_refl. by replace (dot =? len) with false by lia.
  - assert (x <> 46) by set_solver. replace (x =? 46) with false by lia.
    rewrite <- zlen_snoc with (x := x). rewrite (cons_middle x pre), app_assoc. apply IH. set_solver.
Qed.

Lemma dot_loop_two len pre a b c post :
  46 ∉ a -> 46 ∉ b -> zlen pre + zlen a < len ->
  dot_loop (pre ++ (a ++ 46 :: b ++ 46 :: c) ++ post) len (length (a ++ 46 :: b ++ 46 :: c)) (zlen pre) len
  = Some (inl tt).
Proof.
  intros Ha Hb. revert pre. induction a as [|x a IH]; intros pre Hl; cbn [length dot_loop app].
  - rewrite get8_middle, !Z.eqb_refl. cbn [negb]. rewrite <- zlen_snoc with (x := 46).
    rewrite (cons_middle 46 pre), app_assoc. 
    destruct (dot_loop_after len (zlen pre) (pre ++ [46]) b c post) as [?|?]; [|done..].
    unfold zlen in *. cbn in Hl. lia.
  - rewrite get8_middle. assert (x <> 46) by set_solver. replace (x =? 46) with false by lia.
    rewrite <- zlen_snoc with (x := x). rewrite (cons_middle x pre), app_assoc.
    apply IH; [set_solver|]. rewrite zlen_snoc. unfold zlen in *. cbn in Hl. lia.
Qed.

(** The case conversion of a run of characters into a run of the output. *)
Lemma upper_loop_spec seg from to i pre r post o1 o2 o3 :
  seg = pre ++ r ++ post -> zlen pre = from + i -> zlen o1 = to + i -> length o2 = length r ->
  0 <= to + i ->
  upper_loop seg (o1 ++ o2 ++ o3) from to (length r) i =
  match mapM ascii_upper r with Some u => Some (Some (o1 ++ u ++ o3)) | None => Some None end.
Proof.
  revert i pre o1 o2. induction r as [|x r IH]; intros i pre o1 o2 -> Hp Ho Hl Hti.
  { destruct o2; [|done]. done. }
  destruct o2 as [|y o2]; [done|]. cbn [length upper_loop]. rewrite <- Hp. cbn [app]. rewrite get8_middle.
  cbn [mapM]. destruct (ascii_upper x) as [u|]; [|done].
  replace ((to + i <? 0) || (to + i >=? zlen (o1 ++ y :: o2 ++ o3))) with false.
  2: { symmetry. apply orb_false_iff. split; [lia|]. rewrite Z.geb_leb. apply Z.leb_gt.
       unfold zlen in *. rewrite length_app. cbn. lia. }
  replace (Z.to_nat (to + i)) with (length o1 + 0)%nat by (unfold zlen in Ho; lia).
  rewrite insert_app_r. cbn [insert list_insert].
  specialize (IH (i + 1) (pre ++ [x]) (o1 ++ [u]) o2).
  rewrite !zlen_snoc, <- !app_assoc in IH. cbn [app] in IH.
  rewrite IH by (done || (cbn in Hl; lia)). cbn. destruct (mapM ascii_upper r) as [us|]; cbn; [|done].
  by rewrite <- app_assoc.
Qed.

Definition name_result (o : option (list Z)) : res josh_fat32_status_t (list Z) :=
  match o with Some out => Ok out | None => Err JOSH_FAT32_BAD_PATH end.

(** The part of the function after the search for the dot, for a name
    [base ++ mid ++ ext] whose middle is empty or the dot. *)
Lemma name_parts seg base mid ext rest :
  seg = base ++ mid ++ ext ++ rest -> zlen mid = 1 \/ ext = [] ->
  (1 <=? zlen base) && (zlen base <=? 8) && (zlen ext <=? 3) = true ->
  (load b := upper_loop seg (replicate 11 32) 0 0 (Z.to_nat (zlen base)) 0 in
   match b with
   | None => Err JOSH_FAT32_BAD_PATH
   | Some out =>
       load e := upper_loop seg out (zlen base + 1) 8 (Z.to_nat (zlen ext)) 0 in
       match e with None => Err JOSH_FAT32_BAD_PATH | Some out => Ok out end
   end) = name_result (name83 base ext).
Proof.
  intros Hseg Hmid Hlen. rewrite name83_code. rewrite Hlen.
  assert (Hb : (1 <= length base <= 8)%nat) by (unfold zlen in *; lia).
  assert (He : (length ext <= 3)%nat) by (unfold zlen in *; lia). unfold zlen at 1 3. rewrite !Nat2Z.id.
  replace (replicate 11 32) with ([] ++ replicate (length base) 32 ++ replicate (11 - length base) 32)
    by (cbn [app]; rewrite <- replicate_add; f_equal; lia).
  rewrite (upper_loop_spec seg 0 0 0 [] base (mid ++ ext ++ rest)); [|done|done|done|by rewrite length_replicate|lia].
  destruct (mapM ascii_upper base) as [ub|] eqn:Eb; cbn [need res_bind]; [|done].
  apply length_mapM in Eb as Hlub. cbn [app].
  assert (Hsplit : ub ++ replicate (11 - length base) 32 =
    pad 8 ub ++ replicate (length ext) 32 ++ replicate (3 - length ext) 32).
  { unfold pad. rewrite <- app_assoc, <- !replicate_add. do 2 f_equal. lia. }
  assert (Hpad : zlen (pad 8 ub) = 8) by (unfold pad, zlen; rewrite length_app, length_replicate; lia).
  assert (Hres : upper_loop seg (ub ++ replicate (11 - length base) 32) (zlen base + 1) 8 (length ext) 0 =
    match mapM ascii_upper ext with
    | Some u => Some (Some (pad 8 ub ++ u ++ replicate (3 - length ext) 32)) | None => Some None end).
  { rewrite Hsplit. destruct Hmid as [Hmid| ->]; [|done].
    apply (upper_loop_spec seg (zlen base + 1) 8 0 (base ++ mid) ext rest).
    - by rewrite <- app_assoc.
    - unfold zlen in *. rewrite length_app. lia.
    - lia.
    - by rewrite length_replicate.
    - lia. }
  rewrite Hres. destruct (mapM ascii_upper ext) as [ue|] eqn:Ee; cbn [need res_bind]; [|done].
  apply length_mapM in Ee. unfold pad at 3. by rewrite Ee.
Qed.

Lemma upper_dot : ascii_upper 46 = None.
Proof. reflexivity. Qed.

Lemma name83_bad base ext :
  (1 <=? zlen base) && (zlen base <=? 8) && (zlen ext <=? 3) = false -> name83 base ext = None.
Proof.
  intros H. rewrite name83_code. rewrite H. destruct (mapM ascii_upper base); [|done].
  by destruct (mapM ascii_upper ext).
Qed.

(** A name without a dot, with one dot, with more. *)
Lemma short_name_plain name rest :
  46 ∉ name -> short_name_from_segment (Some (name ++ rest)) (zlen name) = name_result (name83 name []).
Proof.
  intros Hd. unfold short_name_from_segment. assert (Hz0 : 0 <= zlen name) by word.
  destruct (((1 <=? zlen name) && (zlen name <=? 8) && (zlen (@nil Z) <=? 3))%Z) eqn:Eg.
  - change (zlen (@nil Z)) with 0 in Eg. replace ((zlen name =? 0) || (zlen name >? 12)) with false by lia.
    pose proof (dot_loop_none (zlen name) (zlen name) [] name rest Hd) as Hdot.
    unfold zlen at 2. rewrite Nat2Z.id. change (zlen (@nil Z)) with 0 in Hdot. cbn [app] in Hdot.
    rewrite Hdot. cbn [need res_bind]. rewrite Z.eqb_refl.
    replace ((zlen name =? 0) || (zlen name >? 8) || (0 >? 3)) with false by lia.
    apply (name_parts _ name [] [] rest); [done|by right|]. change (zlen (@nil Z)) with 0. lia.
  - rewrite name83_bad by done. change (zlen (@nil Z)) with 0 in Eg. destruct ((zlen name =? 0) || _) eqn:E; [done|].
    pose proof (dot_loop_none (zlen name) (zlen name) [] name rest Hd) as Hdot.
    unfold zlen at 2. rewrite Nat2Z.id. change (zlen (@nil Z)) with 0 in Hdot. cbn [app] in Hdot.
    rewrite Hdot. cbn [need res_bind]. rewrite Z.eqb_refl.
    by replace ((zlen name =? 0) || (zlen name >? 8) || (0 >? 3)) with true by lia.
Qed.

Lemma short_name_dotted base ext rest :
  46 ∉ base -> 46 ∉ ext ->
  short_name_from_segment (Some ((base ++ 46 :: ext) ++ rest)) (zlen (base ++ 46 :: ext)) =
  name_result (name83 base ext).
Proof.
  intros Hb He. unfold short_name_from_segment.
  assert (Hz : zlen (base ++ 46 :: ext) = zlen base + zlen ext + 1)
    by (unfold zlen; rewrite length_app; cbn; lia).
  assert (0 <= zlen base /\ 0 <= zlen ext) as [Hb0 He0] by word.
  pose proof (dot_loop_one (zlen (base ++ 46 :: ext)) [] base ext rest Hb He) as Hdot.
  change (zlen (@nil Z)) with 0 in Hdot. cbn [app] in Hdot. rewrite Z.add_0_l in Hdot.
  replace (Z.to_nat (zlen (base ++ 46 :: ext))) with (length (base ++ 46 :: ext)) by (unfold zlen; lia).
  rewrite Hdot, Hz. cbn [need res_bind].
  replace (zlen base =? zlen base + zlen ext + 1) with false by lia.
  replace (zlen base + zlen ext + 1 - zlen base - 1) with (zlen ext) by lia.
  destruct ((1 <=? zlen base) && (zlen base <=? 8) && (zlen ext <=? 3)) eqn:Eg.
  - replace ((zlen base + zlen ext + 1 =? 0) || (zlen base + zlen ext + 1 >? 12)) with false by lia.
    replace ((zlen base =? 0) || (zlen base >? 8) || (zlen ext >? 3)) with false by lia.
    apply (name_parts _ base [46] ext rest); [by rewrite <- app_assoc|by left|done].
  - rewrite name83_bad by done. destruct ((_ =? 0) || (_ >? 12)); [done|].
    by replace ((zlen base =? 0) || (zlen base >? 8) || (zlen ext >? 3)) with true by lia.
Qed.

Lemma short_name_two_dots a b c rest :
  46 ∉ a -> 46 ∉ b ->
  short_name_from_segment (Some ((a ++ 46 :: b ++ 46 :: c) ++ rest)) (zlen (a ++ 46 :: b ++ 46 :: c)) =
  Err JOSH_FAT32_BAD_PATH.
Proof.
  intros Ha Hb. unfold short_name_from_segment. destruct (_ || _); [done|].
  pose proof (dot_loop_two (zlen (a ++ 46 :: b ++ 46 :: c)) [] a b c rest Ha Hb) as Hdot.
  change (zlen (@nil Z)) with 0 in Hdot. cbn [app] in Hdot.
  replace (Z.to_nat (zlen (a ++ 46 :: b ++ 46 :: c))) with (length (a ++ 46 :: b ++ 46 :: c)) by (unfold zlen; lia).
  rewrite Hdot; [done|]. unfold zlen. rewrite length_app. cbn. lia.
Qed.

(** A path component and the directory name it stands for. *)
Definition names83 (name out : list Z) : Prop :=
  (46 ∉ name /\ name83 name [] = Some out) \/
  (exists base ext, name = base ++ 46 :: ext /\ 46 ∉ base /\ 46 ∉ ext /\ name83 base ext = Some out).

Lemma short_name_iff name rest out :
  short_name_from_segment (Some (name ++ rest)) (zlen name) = Ok out <-> names83 name out.
Proof.
  unfold names83. split.
  - intros H. destruct (decide (46 ∈ name)) as [Hd|Hd].
    2: { left. rewrite short_name_plain in H by done. split; [done|].
         by destruct (name83 name []); simplify_eq/=. }
    right. apply list_elem_of_split_l in Hd as (a & t & -> & Ha).
    destruct (decide (46 ∈ t)) as [Ht|Ht].
    + apply list_elem_of_split_l in Ht as (b & c & -> & Hb). by rewrite short_name_two_dots in H.
    + rewrite short_name_dotted in H by done. exists a, t. split_and!; try done.
      by destruct (name83 a t); simplify_eq/=.
  - intros [[Hd Hn]|(base & ext & -> & Hb & He & Hn)].
    + by rewrite short_name_plain, Hn.
    + by rewrite short_name_dotted, Hn.
Qed.

Lemma short_name_not_stuck name rest : short_name_from_segment (Some (name ++ rest)) (zlen name) <> Stuck.
Proof.
  destruct (decide (46 ∈ name)) as [Hd|Hd].
  2: { rewrite short_name_plain by done. by destruct (name83 name []). }
  apply list_elem_of_split_l in Hd as (a & t & -> & Ha). destruct (decide (46 ∈ t)) as [Ht|Ht].
  - apply list_elem_of_split_l in Ht as (b & c & -> & Hb). by rewrite short_name_two_dots.
  - rewrite short_name_dotted by done. by destruct (name83 a t).
Qed.

Lemma name83_length base ext out : name83 base ext = Some out -> zlen out = 11.
Proof.
  rewrite name83_code. destruct (mapM ascii_upper base) as [b|] eqn:Eb; [|done].
  destruct (mapM ascii_upper ext) as [e|] eqn:Ee; [|done]. destruct (_ && _) eqn:E; [|done].
  intros [= <-]. apply length_mapM in Eb, Ee. unfold pad, zlen in *.
  rewrite !length_app, !length_replicate. lia.
Qed.

Lemma names83_length name out : names83 name out -> zlen out = 11.
Proof. intros [[_ H]|(?&?&_&_&_&H)]; by eapply name83_length. Qed.

(** ** Paths

    The components of a path: the maximal runs of characters other than a slash
    before the terminating zero. *)
Definition flush (acc : list Z) : list (list Z) := match acc with [] => [] | _ => [acc] end.

Fixpoint components (acc path : list Z) : list (list Z) :=
  match path with
  | [] => flush acc
  | c :: rest =>
      if c =? 0 then flush acc
      else if c =? 47 then flush acc ++ components [] rest
      else components (acc ++ [c]) rest
  end.

Lemma components_run acc seg rest :
  Forall (fun c => c <> 0 /\ c <> 47) seg -> components acc (seg ++ rest) = components (acc ++ seg) rest.
Proof.
  intros H. revert acc. induction H as [|c seg [Hc0 Hc] _ IH]; intros acc; [by rewrite app_nil_r|].
  cbn. replace (c =? 0) with false by lia. replace (c =? 47) with false by lia.
  rewrite IH, <- app_assoc. done.
Qed.

Lemma skip_slashes_spec path :
  0 ∈ path -> exists c rest, skip_slashes path = Some (c :: rest) /\ c <> 47 /\ 0 ∈ c :: rest /\
    components [] path = components [] (c :: rest) /\ (length (c :: rest) <= length path)%nat.
Proof.
  induction path as [|c path IH]; intros H0; [set_solver|]. cbn [skip_slashes].
  destruct (c =? 47) eqn:E.
  - destruct IH as (c' & rest & -> & Hc & Hin & Hcomp & Hl); [set_solver by lia|].
    exists c', rest. split_and!; try done; [|cbn in *; lia].
    rewrite <- Hcomp. cbn [components]. rewrite E. by replace (c =? 0) with false by lia.
  - exists c, path. split_and!; try done. lia.
Qed.

Lemma skip_segment_spec path :
  0 ∈ path -> exists seg c rest, path = seg ++ c :: rest /\
    Forall (fun c => c <> 0 /\ c <> 47) seg /\ (c = 0 \/ c = 47) /\
    (c = 47 -> 0 ∈ rest) /\ skip_segment path = Some (zlen seg, c :: rest).
Proof.
  induction path as [|c path IH]; intros H0; [set_solver|]. cbn [skip_segment].
  destruct (negb (c =? 0) && negb (c =? 47)) eqn:E.
  - destruct IH as (seg & c' & rest & -> & Hf & Hc & Hin & ->); [set_solver by lia|].
    exists (c :: seg), c', rest. split_and!; try done; [constructor; [lia|done]|].
    do 2 f_equal. unfold zlen. cbn. lia.
  - exists [], c, path. split_and!; try done; [lia|]. intros ->. set_solver.
Qed.

(** ** Mounted file systems *)

(** What a mounted record satisfies: the reserved area, the FATs and the data
    clusters lie one after the other inside the partition, and the partition
    inside the device. *)
Record fs_ok (fs : josh_fat32_t) : Prop := {
  ok_device : JoshBlockDevice (fs_device fs);
  ok_partition : 0 <= fs_partition_lba fs /\
    fs_partition_lba fs + fs_partition_sectors fs <= bd_sector_count (fs_device fs);
  ok_total : in_u32 (fs_partition_sectors fs);
  ok_spc : exists k, 0 <= k <= 7 /\ fs_sectors_per_cluster fs = 2 ^ k;
  ok_fat : 1 <= fs_fat_lba fs /\ 1 <= fs_fat_count fs <= 2 /\ 1 <= fs_sectors_per_fat fs /\
    fs_data_lba fs = fs_fat_lba fs + fs_fat_count fs * fs_sectors_per_fat fs;
  ok_clusters : FAT32_MIN_CLUSTERS <= fs_cluster_count fs /\
    fs_data_lba fs + fs_cluster_count fs * fs_sectors_per_cluster fs <= fs_partition_sectors fs;
  ok_root : 2 <= fs_root_cluster fs < fs_cluster_count fs + 2
}.

Lemma power_of_two_u8_inv v :
  in_u8 v -> power_of_two_u8 v = true -> v <= 128 -> exists k, 0 <= k <= 7 /\ v = 2 ^ k.
Proof.
  intros Hv Hp Hle. unfold power_of_two_u8, in_u8 in *. apply andb_true_iff in Hp as [H0 Hl].
  assert (Hin : In v (map Z.of_nat (seq 1 128))).
  { apply in_map_iff. exists (Z.to_nat v). split; [lia|]. apply in_seq. lia. }
  revert H0 Hl. revert Hin. clear. intros Hin H0 Hl.
  assert (Hf : forallb (fun v => negb (Z.land v (u8 (v - 1)) =? 0) ||
                 existsb (fun k => v =? 2 ^ k) [0;1;2;3;4;5;6;7]) (map Z.of_nat (seq 1 128)) = true)
    by (vm_compute; reflexivity).
  rewrite forallb_forall in Hf. specialize (Hf v Hin). rewrite Hl in Hf. cbn [negb orb] in Hf.
  apply existsb_exists in Hf as (k & Hk & Hvk). exists k. split; [|lia].
  cbn in Hk. intuition lia.
Qed.

Lemma read_bpb_ok boot : good_sector boot -> exists b, read_bpb boot = Some b /\
  in_u8 (bpb_sectors_per_cluster b) /\ in_u16 (bpb_reserved b) /\ in_u8 (bpb_fat_count b) /\
  in_u16 (bpb_total16 b) /\ in_u32 (bpb_total32 b) /\ in_u32 (bpb_fat32 b) /\
  in_u32 (bpb_root_cluster b).
Proof.
  intros [Hl Hb]. unfold read_bpb, read_le16, read_le32.
  destruct (sector_get8 boot (conj Hl Hb) 13) as (b13 & -> & ?); [lia|].
  destruct (sector_get8 boot (conj Hl Hb) 16) as (b16 & -> & ?); [lia|].
  repeat match goal with
  | |- context [rd16 boot ?o] => destruct (rd16_ok boot o) as (? & -> & ?); [done|lia..|]
  | |- context [rd32 boot ?o] => destruct (rd32_ok boot o) as (? & -> & ?); [done|lia..|]
  end.
  eexists. split; [reflexivity|]. cbn. split_and!; done || word.
Qed.

Lemma fat_area_bound c n : 0 <= c <= 2 -> in_u32 n -> 0 <= c * n <= 2 * n.
Proof. unfold in_u32. intros. nia. Qed.

Lemma mount_ok_fs_ok d p fs :
  JoshBlockDevice d -> in_u64 (pt_first_lba p) -> in_u64 (pt_sector_count p) ->
  josh_fat32_mount (Some d) (Some p) (Some tt) = Ok fs ->
  fs_ok fs /\ fs_device fs = d /\ fs_partition_lba fs = pt_first_lba p /\
  fs_partition_sectors fs <= pt_sector_count p.
Proof.
  intros Hd Hf Hc H. unfold josh_fat32_mount in H. pose proof device_size_u64 as Hds.
  destruct (pt_sector_count p =? 0) eqn:E0; [done|].
  destruct ((pt_first_lba p >=? _) || _) eqn:E1; [done|]. rewrite u64_id in E1 by word.
  destruct (josh_block_read _ _ _ _) as [boot|] eqn:Er; [|done].
  apply josh_block_read_full in Er as Hg; [|done|lia]. change (512 * 1) with 512 in Hg.
  destruct (sector_get8 boot Hg 510) as (s0 & Hs0 & _); [lia|].
  destruct (sector_get8 boot Hg 511) as (s1 & Hs1 & _); [lia|].
  destruct (read_bpb_ok boot Hg) as (b & Hb & Hspc & Hres & Hfc & Ht16 & Ht32 & Hf32 & Hrc).
  rewrite Hs0, Hs1, Hb in H. cbn [need res_bind] in H.
  destruct (negb (s0 =? 85) || _); [done|]. destruct (negb (_ =? JOSH_BLOCK_SECTOR_SIZE)); [done|].
  destruct (negb (power_of_two_u8 _) || _) eqn:E2; [done|].
  destruct (_ || (bpb_fat32 b =? 0)) eqn:E3; [done|].
  assert (Htot : in_u32 (if negb (bpb_total16 b =? 0) then bpb_total16 b else bpb_total32 b))
    by (clear - Ht16 Ht32; destruct (negb _); word).
  generalize dependent (if negb (bpb_total16 b =? 0) then bpb_total16 b else bpb_total32 b).
  intros total H Htot.
  destruct ((total =? 0) || _) eqn:E4; [done|].
  apply orb_false_iff in E2 as [Hpow%negb_false_iff Hle].
  destruct (power_of_two_u8_inv (bpb_sectors_per_cluster b)) as (k & Hk & Hspck); [done|done|lia|].
  pose proof (fat_area_bound (bpb_fat_count b) (bpb_fat32 b) ltac:(word) Hf32) as Hfa.
  rewrite (u64_id (bpb_fat_count b * bpb_fat32 b)) in H by word.
  rewrite (u64_id (bpb_reserved b + _)) in H by word.
  destruct (_ >=? total) eqn:E5; [done|].
  rewrite (u32_id (total - _)), (u64_id (total - _ - _)), (u32_id (total - _ - _)) in H by word.
  set (spc := bpb_sectors_per_cluster b) in *.
  set (data := total - bpb_reserved b - bpb_fat_count b * bpb_fat32 b) in *.
  assert (Hspc1 : 1 <= spc) by (rewrite Hspck; pose proof (Z.pow_pos_nonneg 2 k); lia).
  pose proof (Z.mul_div_le data spc ltac:(lia)) as Hdiv.
  assert (Hcl : 0 <= data / spc <= data).
  { split; [apply Z.div_pos; lia|]. apply Z.div_le_upper_bound; nia. }
  destruct (data / spc <? FAT32_MIN_CLUSTERS) eqn:E6; [done|].
  assert (1 <= bpb_fat_count b * bpb_fat32 b) by (unfold in_u32 in *; nia).
  rewrite (u32_id (data / spc + 2)), (u32_id (bpb_reserved b + _)) in H by word.
  destruct ((_ <? 2) || _) eqn:E7; [done|]. injection H as <-. cbn. split_and!; try done; [|lia].
  split; cbn; try done; [word|by exists k|word|unfold FAT32_MIN_CLUSTERS in *; lia|lia].
Qed.

Lemma mount_never_stuck d p : JoshBlockDevice d -> josh_fat32_mount (Some d) (Some p) (Some tt) <> Stuck.
Proof.
  intros Hd. unfold josh_fat32_mount. destruct (_ =? 0); [done|]. destruct (_ || _); [done|].
  destruct (josh_block_read _ _ _ _) as [boot|] eqn:Er; [|done].
  apply josh_block_read_full in Er as Hg; [|done|lia]. change (512 * 1) with 512 in Hg.
  destruct (sector_get8 boot Hg 510) as (s0 & -> & _); [lia|].
  destruct (sector_get8 boot Hg 511) as (s1 & -> & _); [lia|].
  destruct (read_bpb_ok boot Hg) as (b & -> & _). cbn [need res_bind].
  repeat match goal with |- context [if ?b then Err _ else _] => destruct b; [done|] end. done.
Qed.

(** ** Writing a range of a buffer

    [filled buf buf' pos m f]: [buf'] is [buf] with the [m] bytes from [pos] on
    replaced by [f 0], [f 1], ... *)
Definition filled (buf buf' : list Z) (pos m : Z) (f : Z -> option Z) : Prop :=
  zlen buf' = zlen buf /\
  (forall i, 0 <= i < m -> exists b, f i = Some b /\ get8 buf' (pos + i) = Some b) /\
  (forall j, j < pos \/ pos + m <= j -> get8 buf' j = get8 buf j).

Lemma filled_refl buf pos f : filled buf buf pos 0 f.
Proof. split_and!; [done|lia|done]. Qed.

Lemma filled_trans b0 b1 b2 pos m n f g :
  0 <= m -> 0 <= n -> (forall i, 0 <= i < n -> g i = f (m + i)) ->
  filled b0 b1 pos m f -> filled b1 b2 (pos + m) n g -> filled b0 b2 pos (m + n) f.
Proof.
  intros Hm Hn Hg (Hl1 & Hf1 & Ho1) (Hl2 & Hf2 & Ho2). split_and!; [congruence|..].
  - intros i Hi. destruct (Z.lt_ge_cases i m) as [Him|Him].
    + destruct (Hf1 i ltac:(lia)) as (b & Hb & Hb1). exists b. split; [done|]. rewrite Ho2 by lia. done.
    + destruct (Hf2 (i - m) ltac:(lia)) as (b & Hb & Hb2). rewrite Hg in Hb by lia.
      replace (m + (i - m)) with i in Hb by lia. exists b. split; [done|].
      replace (pos + m + (i - m)) with (pos + i) in Hb2 by lia. done.
  - intros j Hj. rewrite Ho2, Ho1 by lia. done.
Qed.

Lemma get8_take l n j : 0 <= n -> get8 (take (Z.to_nat n) l) j = if j <? n then get8 l j else None.
Proof.
  intros Hn. unfold get8. destruct (j <? 0) eqn:E0; [by destruct (j <? n)|].
  destruct (j <? n) eqn:E1; [apply lookup_take_lt; lia|apply lookup_take_ge; lia].
Qed.

Lemma get8_drop_add l n j : 0 <= n -> 0 <= j -> get8 (drop (Z.to_nat n) l) j = get8 l (n + j).
Proof.
  intros Hn Hj. unfold get8. replace (j <? 0) with false by lia. replace (n + j <? 0) with false by lia.
  rewrite lookup_drop. f_equal. lia.
Qed.

Lemma zlen_take (l : list Z) n : 0 <= n <= zlen l -> zlen (take (Z.to_nat n) l) = n.
Proof. intros. unfold zlen in *. rewrite length_take. lia. Qed.

Lemma copy_out_filled buf pos sector bo n :
  0 <= pos -> 0 <= bo -> 0 <= n -> pos + n <= zlen buf -> bo + n <= zlen sector ->
  exists buf', copy_out buf pos sector bo n = Some buf' /\
    filled buf buf' pos n (fun i => get8 sector (bo + i)).
Proof.
  intros Hp Hb Hn Hpl Hbl. unfold copy_out.
  replace ((pos <? 0) || (bo <? 0)) with false by lia.
  rewrite memcpy_take_drop by (rewrite length_drop; word).
  eexists. split; [reflexivity|]. rewrite drop_drop.
  replace (Z.to_nat pos + Z.to_nat n)%nat with (Z.to_nat (pos + n)) by lia.
  assert (Hz1 : zlen (take (Z.to_nat pos) buf) = pos) by (apply zlen_take; lia).
  assert (Hz2 : zlen (take (Z.to_nat n) (drop (Z.to_nat bo) sector)) = n)
    by (apply zlen_take; unfold zlen in *; rewrite length_drop; lia).
  split_and!.
  - unfold zlen in *. rewrite !length_app, length_drop. lia.
  - intros i Hi. destruct (get8_Some sector (bo + i)) as [b Hg]; [lia|]. exists b. split; [done|].
    rewrite get8_app, Hz1. replace (pos + i <? pos) with false by lia.
    rewrite get8_app, Hz2. replace (pos + i - pos <? n) with true by lia.
    rewrite get8_take by lia. replace (pos + i - pos <? n) with true by lia.
    rewrite get8_drop_add by lia. by replace (bo + (pos + i - pos)) with (bo + i) by lia.
  - intros j Hj. rewrite get8_app, Hz1. destruct (j <? pos) eqn:E1.
    + rewrite get8_take, E1 by lia. done.
    + rewrite get8_app, Hz2. replace (j - pos <? n) with false by lia.
      rewrite get8_drop_add by lia. f_equal. lia.
Qed.

(** ** Directory entries *)
Lemma directory_entry_total e name :
  bytes e -> 32 <= zlen e -> zlen name = 11 -> exists r, directory_entry e name = Some r.
Proof.
  intros Hb Hl Hn. unfold directory_entry, read_le16, read_le32.
  destruct (get8_Some e 0) as [x0 ->]; [lia|]. destruct (get8_Some e 11) as [x11 ->]; [lia|].
  destruct (memcmp_defined e name 11) as [d ->]; [unfold zlen in *; lia..|].
  destruct (rd16_ok e 20) as (? & -> & _); [done|lia..|].
  destruct (rd16_ok e 26) as (? & -> & _); [done|lia..|].
  destruct (rd32_ok e 28) as (? & -> & _); [done|lia..|].
  repeat match goal with |- context [if ?b then _ else _] => destruct b; [by eexists|] end. by eexists.
Qed.

Lemma memcmp_take e name n k :
  (n <= k)%nat -> memcmp (take k e) name n = memcmp e name n.
Proof.
  revert e name k. induction n as [|n IH]; intros e name k Hk; [done|].
  destruct k as [|k]; [lia|]. destruct e as [|x e]; [done|]. cbn. destruct name as [|y name]; [done|].
  destruct (negb _); [done|]. apply IH. lia.
Qed.

Lemma directory_entry_take e name : 32 <= zlen e -> directory_entry (take 32 e) name = directory_entry e name.
Proof.
  intros Hl. unfold directory_entry, read_le16, read_le32, rd16, rd32.
  assert (Hg : forall i, i < 32 -> get8 (take 32 e) i = get8 e i).
  { intros i Hi. change 32%nat with (Z.to_nat 32). rewrite get8_take by lia.
    by replace (i <? 32) with true by lia. }
  rewrite !Hg by lia. rewrite memcmp_take by lia. done.
Qed.

(** ** What an entry of 32 bytes means

    [entry_field e i n]: the little-endian number in the [n] bytes from byte [i] on. *)
Definition entry_field (e : list Z) (i n : nat) : Z := le_value (take n (drop i e)).

Definition entry_file (e : list Z) : josh_fat32_file_t :=
  {| ff_first_cluster := entry_field e 26 2 + 2 ^ 16 * entry_field e 20 2;
     ff_size := entry_field e 28 4;
     ff_attributes := entry_field e 11 1 |}.

(** An entry for the file or directory [name]: in use, no part of a long name, no volume label. *)
Record names_file (name e : list Z) : Prop := {
  nf_in_use : entry_field e 0 1 <> 0xE5;
  nf_not_long : entry_field e 11 1 <> 0x0F;
  nf_not_volume : Z.testbit (entry_field e 11 1) 3 = false;
  nf_name : take 11 e = name
}.

(** What a search does at an entry: stop at the end mark, pass over an entry of something else, or stop
    with the file, which is corrupt when it has bytes and no cluster. *)
Inductive entry_verdict (name e : list Z) : option (res josh_fat32_status_t josh_fat32_file_t) -> Prop :=
| verdict_end : entry_field e 0 1 = 0 -> entry_verdict name e (Some (Err JOSH_FAT32_NOT_FOUND))
| verdict_other : entry_field e 0 1 <> 0 -> ~ names_file name e -> entry_verdict name e None
| verdict_file : entry_field e 0 1 <> 0 -> names_file name e ->
    2 <= ff_first_cluster (entry_file e) \/ ff_size (entry_file e) = 0 ->
    entry_verdict name e (Some (Ok (entry_file e)))
| verdict_corrupt : entry_field e 0 1 <> 0 -> names_file name e ->
    ff_first_cluster (entry_file e) < 2 -> ff_size (entry_file e) <> 0 ->
    entry_verdict name e (Some (Err JOSH_FAT32_CORRUPT)).

Lemma entry_verdict_fun name e r r' : entry_verdict name e r -> entry_verdict name e r' -> r = r'.
Proof. intros H H'. destruct H, H'; try done; lia. Qed.

Lemma entry_byte e i x : get8 e (Z.of_nat i) = Some x -> entry_field e i 1 = x.
Proof.
  unfold get8. rewrite (proj2 (Z.ltb_ge _ _)), Nat2Z.id by lia. intros H%drop_S. unfold entry_field. rewrite H.
  cbn. change (take 0 (drop (S i) e)) with (@nil Z). cbn. lia.
Qed.

Lemma entry_le16 e i x : bytes e -> rd16 e (Z.of_nat i) = Some x -> entry_field e i 2 = x /\ 0 <= x < 2 ^ 16.
Proof.
  intros Hb H. pose proof (rd16_range _ _ _ Hb H) as Hr. destruct (rd16_inv _ _ _ H) as [_ Hl]. unfold entry_field.
  rewrite (rd16_slice _ _ (take 2 (drop i e))) in H; [injection H as ->; split; [done|exact Hr]|done|].
  rewrite slice_Some by lia. by rewrite Nat2Z.id.
Qed.

Lemma entry_le32 e i x : bytes e -> rd32 e (Z.of_nat i) = Some x -> entry_field e i 4 = x.
Proof.
  intros Hb H. destruct (rd32_inv _ _ _ H) as [_ Hl]. unfold entry_field.
  rewrite (rd32_slice _ _ (take 4 (drop i e))) in H; [by injection H as ->|done|].
  rewrite slice_Some by lia. by rewrite Nat2Z.id.
Qed.

(** The code decides as the layout says. *)
Lemma directory_entry_verdict e name r :
  bytes e -> zlen e = 32 -> zlen name = 11 -> directory_entry e name = Some r -> entry_verdict name e r.
Proof.
  intros Hb Hl Hn H. unfold directory_entry, read_le16, read_le32 in H.
  destruct (get8 e 0) as [x0|] eqn:E0; [|done]. apply (entry_byte e 0) in E0.
  destruct (x0 =? 0x00) eqn:Ez; [injection H as <-; apply verdict_end; lia|].
  destruct (x0 =? 0xE5) eqn:Ed; [injection H as <-; apply verdict_other; [lia|intros []; lia]|].
  destruct (get8 e 11) as [x|] eqn:E11; [|done]. apply (entry_byte e 11) in E11.
  change FAT_ATTR_VOLUME with (Z.shiftl 1 3) in H. rewrite bit_set_iff in H by lia. unfold FAT_ATTR_LFN in H.
  destruct (x =? 0x0F) eqn:Elfn; [injection H as <-; apply verdict_other; [lia|intros []; lia]|].
  destruct (Z.testbit x 3) eqn:Evol; cbn [orb] in H; [injection H as <-; apply verdict_other; [lia|intros []; congruence]|].
  destruct (memcmp e name 11) as [diff|] eqn:Em; [|done].
  assert (Hcmp : (diff =? 0) = bool_decide (take 11 e = name)).
  { apply (memcmp_eqb _ _ 11); [rewrite length_take; unfold zlen in Hl; lia|unfold zlen in Hn; lia|]. by rewrite memcmp_take. }
  rewrite Hcmp in H. destruct (bool_decide (take 11 e = name)) eqn:Ename; cbn [negb] in H.
  2: { injection H as <-. apply bool_decide_eq_false in Ename. apply verdict_other; [lia|by intros []]. }
  apply bool_decide_eq_true in Ename.
  destruct (rd16 e 20) as [high|] eqn:Eh; [|done]. destruct (rd16 e 26) as [low|] eqn:Elo; [|done].
  destruct (rd32 e 28) as [size|] eqn:Es; [|done]. apply (entry_le16 e 20) in Eh as [Eh Hh]; [|done].
  apply (entry_le16 e 26) in Elo as [Elo Hlo]; [|done]. apply (entry_le32 e 28) in Es; [|done].
  assert (Hf : names_file name e) by (split; [lia|lia|by rewrite E11|done]).
  rewrite u32_id in H by (rewrite Z.shiftl_mul_pow2 by lia; unfold in_u32; lia). rewrite Z.lor_comm, lor_shiftl_add in H by lia.
  assert (Hfile : entry_file e = {| ff_first_cluster := low + 2 ^ 16 * high; ff_size := size; ff_attributes := x |})
    by (unfold entry_file; by rewrite Eh, Elo, Es, E11).
  destruct ((_ <? 2) && negb (size =? 0)) eqn:Ec; injection H as <-.
  - apply verdict_corrupt; [lia|done|rewrite Hfile; cbn; lia..].
  - rewrite <- Hfile. apply verdict_file; [lia|done|rewrite Hfile; cbn; lia].
Qed.

(** The verdict on an entry that can be read. *)
Definition verdict (name : list Z) (e : option (list Z))
    (r : option (res josh_fat32_status_t josh_fat32_file_t)) : Prop :=
  exists bytes32, e = Some bytes32 /\ entry_verdict name bytes32 r.

(** The first of the entries [a], ..., [b - 1] that ends the scan decides it. *)
Definition scanned (name : list Z) (entry : Z -> option (list Z)) (a b : Z)
    (r : option (res josh_fat32_status_t josh_fat32_file_t)) : Prop :=
  match r with
  | None => forall j, a <= j < b -> verdict name (entry j) None
  | Some r => exists k, a <= k < b /\ verdict name (entry k) (Some r) /\
      forall j, a <= j < k -> verdict name (entry j) None
  end.

Lemma scanned_cons name entry a b r :
  verdict name (entry a) None -> scanned name entry (a + 1) b r -> scanned name entry a b r.
Proof.
  intros Ha. assert (Hj : forall j k, (forall j, a + 1 <= j < k -> verdict name (entry j) None) ->
    a <= j < k -> verdict name (entry j) None).
  { intros j k H Hj. destruct (decide (j = a)) as [->|]; [done|apply H; lia]. }
  destruct r as [r|]; cbn.
  - intros (k & Hk & Hv & H). exists k. split; [lia|]. split; [done|]. intros j. by apply Hj.
  - intros H j. by apply Hj.
Qed.

Lemma scanned_app name entry a b c r :
  a <= b <= c -> scanned name entry a b None -> scanned name entry b c r -> scanned name entry a c r.
Proof.
  intros Hab H1 H2. destruct r as [r|]; cbn in *.
  - destruct H2 as (k & Hk & Hv & H). exists k. split; [lia|]. split; [done|].
    intros j Hj. destruct (Z.lt_ge_cases j b); [apply H1; lia|apply H; lia].
  - intros j Hj. destruct (Z.lt_ge_cases j b); [apply H1; lia|apply H2; lia].
Qed.

Lemma scanned_mono name entry a b c r :
  b <= c -> scanned name entry a b (Some r) -> scanned name entry a c (Some r).
Proof. intros Hbc (k & Hk & Hv & H). exists k. split; [lia|done]. Qed.

Lemma scanned_ext name entry entry' a b d r :
  (forall j, a <= j < b -> entry' (j + d) = entry j) ->
  scanned name entry a b r -> scanned name entry' (a + d) (b + d) r.
Proof.
  intros He. destruct r as [r|]; cbn.
  - intros (k & Hk & Hv & H). exists (k + d). split; [lia|]. rewrite He by lia. split; [done|].
    intros j Hj. specialize (H (j - d) ltac:(lia)). rewrite <- He in H by lia.
    by replace (j - d + d) with j in H by lia.
  - intros H j Hj. specialize (H (j - d) ltac:(lia)). rewrite <- He in H by lia.
    by replace (j - d + d) with j in H by lia.
Qed.

Lemma entry_loop_spec sector name n i :
  good_sector sector -> zlen name = 11 -> 0 <= i -> i + Z.of_nat n = 16 ->
  exists r, entry_loop sector name n (32 * i) = Some r /\
    scanned name (fun k => slice sector (32 * k) 32) i 16 r.
Proof.
  intros [Hl Hb] Hn. revert i. induction n as [|n IH]; intros i Hi H16; cbn [entry_loop].
  { exists None. split; [done|]. intros j Hj. lia. }
  assert (Hsl : slice sector (32 * i) 32 = Some (take 32 (drop (Z.to_nat (32 * i)) sector)))
    by (rewrite slice_Some by lia; done).
  assert (Hz : 32 <= zlen (drop (Z.to_nat (32 * i)) sector)) by (unfold zlen in *; rewrite length_drop; lia).
  destruct (directory_entry_total (drop (Z.to_nat (32 * i)) sector) name) as [r Hr]; [auto with josh|done..|].
  assert (Hv : verdict name (slice sector (32 * i) 32) r)
    by (eexists; split; [exact Hsl|]; apply directory_entry_verdict;
        [eauto with josh|unfold zlen; rewrite length_take; unfold zlen in Hz; lia|done|by rewrite directory_entry_take]).
  rewrite Hr. destruct r as [r|].
  - exists (Some r). split; [done|]. exists i. split; [lia|]. split; [done|]. intros j Hj. lia.
  - destruct (IH (i + 1)) as (r & Hr' & Hs); [lia..|].
    replace (32 * i + 32) with (32 * (i + 1)) by lia. exists r. split; [done|]. by apply scanned_cons.
Qed.

(** ** Clusters of a mounted file system *)
Section Mounted.
Context (fs : josh_fat32_t) (Hok : fs_ok fs).

Local Instance mounted_device : JoshBlockDevice (fs_device fs) := ok_device fs Hok.

Definition cluster_base (c : Z) : Z :=
  fs_partition_lba fs + fs_data_lba fs + (c - 2) * fs_sectors_per_cluster fs.

Definition cluster_size : Z := fs_sectors_per_cluster fs * 512.

Lemma spc_range : 1 <= fs_sectors_per_cluster fs <= 128.
Proof.
  destruct (ok_spc fs Hok) as (k & Hk & ->).
  assert (Hin : In k [0;1;2;3;4;5;6;7]) by (cbn; lia).
  cbn in Hin. intuition (subst; lia).
Qed.

Lemma fs_bounds :
  2 <= fs_data_lba fs /\ fs_cluster_count fs + 2 < 2 ^ 32 /\
  fs_partition_lba fs + fs_partition_sectors fs < 2 ^ 64 /\ 0 <= fs_cluster_count fs.
Proof.
  pose proof spc_range. destruct Hok as [Hd [? ?] ? _ (? & ? & ? & ?) [? ?] _].
  pose proof device_size_u64 (d := fs_device fs). unfold FAT32_MIN_CLUSTERS, in_u32, in_u64 in *.
  assert (2 <= fs_data_lba fs) by nia.
  assert (fs_cluster_count fs <= fs_cluster_count fs * fs_sectors_per_cluster fs) by nia.
  lia.
Qed.

Lemma cluster_valid_iff c : cluster_valid fs c = true <-> 2 <= c < fs_cluster_count fs + 2.
Proof. pose proof fs_bounds. unfold cluster_valid. rewrite u32_id by word. lia. Qed.

Lemma cluster_base_range c :
  2 <= c < fs_cluster_count fs + 2 ->
  fs_partition_lba fs <= cluster_base c /\
  cluster_base c + fs_sectors_per_cluster fs <= fs_partition_lba fs + fs_partition_sectors fs.
Proof.
  intros Hc. pose proof spc_range. pose proof fs_bounds. destruct (ok_clusters fs Hok) as [_ Hcl].
  unfold cluster_base. nia.
Qed.

Lemma cluster_lba_ok c :
  2 <= c < fs_cluster_count fs + 2 -> cluster_lba fs c = Ok (cluster_base c).
Proof.
  intros Hc. pose proof (cluster_base_range c Hc) as Hb. pose proof spc_range. pose proof fs_bounds.
  pose proof (ok_partition fs Hok). unfold cluster_lba. rewrite (proj2 (cluster_valid_iff c) Hc). cbn [negb].
  unfold cluster_base in *. set (x := (c - 2) * fs_sectors_per_cluster fs) in *.
  assert (0 <= x) by (unfold x; nia).
  rewrite (u32_id (c - 2)) by word. fold x. rewrite (u64_id x) by word. rewrite (u64_id (_ + x)) by word.
  rewrite u64_id by word.
  replace ((fs_data_lba fs + x >=? _) || _) with false by lia. rewrite u64_id by word. f_equal. lia.
Qed.

Lemma cluster_lba_err c :
  ~ (2 <= c < fs_cluster_count fs + 2) -> cluster_lba fs c = Err JOSH_FAT32_CORRUPT.
Proof.
  intros Hc. unfold cluster_lba. destruct (cluster_valid fs c) eqn:E; [|done].
  by apply cluster_valid_iff in E.
Qed.

Lemma next_cluster_range c v : next_cluster fs c = Ok v -> 2 <= v < 2 ^ 28.
Proof.
  unfold next_cluster. intros H. steps H. injection H as <-.
  assert (0 <= Z.land z FAT32_CLUSTER_MASK < 2 ^ 28).
  { change FAT32_CLUSTER_MASK with (Z.ones 28). rewrite Z.land_ones by lia. apply Z.mod_pos_bound. lia. }
  lia.
Qed.

Lemma next_cluster_not_stuck c : next_cluster fs c <> Stuck.
Proof.
  unfold next_cluster. destruct (negb _); [done|].
  set (bo := u32 (u64 (c * 4) mod JOSH_BLOCK_SECTOR_SIZE)).
  assert (0 <= bo) by (unfold bo; pose proof (u32_range (u64 (c * 4) mod JOSH_BLOCK_SECTOR_SIZE)); word).
  destruct (_ || _) eqn:E; [done|]. destruct (josh_block_read _ _ _ _) as [sec|] eqn:Er; [|done].
  apply (josh_block_read_full (fs_device fs)) in Er as Hg; [|lia]. change (512 * 1) with 512 in Hg.
  destruct (sector_rd32 sec Hg bo) as (v & Hv & _); [unfold JOSH_BLOCK_SECTOR_SIZE in *; lia|].
  unfold read_le32. rewrite Hv. cbn [need res_bind]. case_match; done.
Qed.
Lemma next_cluster_err c e : next_cluster fs c = Err e -> e <> JOSH_FAT32_OK.
Proof. unfold next_cluster. intros H. steps H; by injection H as <-. Qed.

(** ** The contents of a file

    [fat_value c] is the entry of cluster [c] in the first FAT, 28 bits of the four
    bytes that start at byte [4 * c] of it; [follows c] is the cluster after [c]
    in its chain, if there is one.  [file_byte first q] is byte [q] of the chain
    of clusters that starts at [first]: the cluster reached by following the FAT
    [q / cluster_size] times, then the sector and the byte inside it. *)
Definition fat_value (c : Z) : option Z :=
  let? sector := read_sector (fs_device fs) (fs_partition_lba fs + fs_fat_lba fs + c / 128) in
  Some (le_value (take 4 (drop (Z.to_nat (4 * (c mod 128))) sector)) mod 2 ^ 28).

Definition follows (c : Z) : option Z :=
  if c / 128 <? fs_sectors_per_fat fs then
    let? v := fat_value c in
    if (2 <=? v) && (v <? 0x0FFFFFF7) then Some v else None
  else None.

Definition cluster_byte (c o : Z) : option Z :=
  let? sector := read_sector (fs_device fs) (cluster_base c + o / 512) in
  get8 sector (o mod 512).

Fixpoint nth_cluster (n : nat) (c : Z) : option Z :=
  if (2 <=? c) && (c <? fs_cluster_count fs + 2) then
    match n with
    | O => Some c
    | S n' => let? v := follows c in nth_cluster n' v
    end
  else None.

(** The FAT lookup of the code finds the cluster that follows. *)
Lemma next_cluster_follows c :
  2 <= c < fs_cluster_count fs + 2 ->
  match next_cluster fs c with Ok v => if v <? FAT32_EOC_MIN then Some v else None | _ => None end = follows c.
Proof.
  intros Hc. pose proof fs_bounds as (Hd & Hcc & Hp & Hcc0). destruct (ok_partition fs Hok) as [Hp0 _].
  destruct (ok_fat fs Hok) as (Hf & Hfc & Hspf & Hdl). destruct (ok_clusters fs Hok) as [Hmin Hcl]. pose proof spc_range.
  unfold next_cluster, follows, fat_value. rewrite (proj2 (cluster_valid_iff c) Hc). cbn [negb].
  unfold JOSH_BLOCK_SECTOR_SIZE, FAT32_EOC_MIN, FAT32_BAD_CLUSTER.
  rewrite (u64_id (c * 4)) by word. assert (Hdiv : c * 4 / 512 = c / 128) by zdm. assert (Hmod : c * 4 mod 512 = 4 * (c mod 128)) by zdm.
  rewrite Hdiv, Hmod. pose proof (Z.mod_pos_bound c 128 ltac:(lia)) as Hm. assert (0 <= c / 128) by (apply Z.div_pos; lia).
  rewrite (u32_id (4 * (c mod 128))) by word. rewrite Z.geb_leb, Z.ltb_antisym.
  destruct (fs_sectors_per_fat fs <=? c / 128) eqn:Es; cbn [orb negb]; [done|].
  rewrite Z.gtb_ltb, (proj2 (Z.ltb_ge _ _)) by lia.
  assert (Hin : fs_fat_lba fs + c / 128 < fs_partition_sectors fs) by (unfold FAT32_MIN_CLUSTERS in *; nia).
  rewrite (u64_id (fs_partition_lba fs + fs_fat_lba fs)) by word. rewrite (u64_id (_ + c / 128)) by word.
  fold (read_sector (fs_device fs) (fs_partition_lba fs + fs_fat_lba fs + c / 128)).
  destruct (read_sector _ _) as [sec|] eqn:Er; [|done]. apply (read_sector_full (fs_device fs)) in Er as [Hl Hb].
  unfold read_le32. rewrite (rd32_slice _ _ (take 4 (drop (Z.to_nat (4 * (c mod 128))) sec))); [|done|rewrite slice_Some by lia; done].
  cbn [need res_bind]. change FAT32_CLUSTER_MASK with (Z.ones 28). rewrite Z.land_ones by lia. set (v := le_value _ mod 2 ^ 28).
  assert (Hv : 0 <= v < 2 ^ 28) by (apply Z.mod_pos_bound; lia). clearbody v.
  destruct ((v =? 0x0FFFFFF7) || (v =? 0) || (v =? 1)) eqn:Ev; cbn match.
  - by replace ((2 <=? v) && (v <? 0x0FFFFFF7)) with false by lia.
  - destruct (v <? 0x0FFFFFF8) eqn:Ee.
    + by replace ((2 <=? v) && (v <? 0x0FFFFFF7)) with true by lia.
    + by replace ((2 <=? v) && (v <? 0x0FFFFFF7)) with false by lia.
Qed.

Lemma nth_cluster_unfold n c :
  nth_cluster n c =
  if negb (cluster_valid fs c) then None
  else
    match n with
    | O => Some c
    | S n' =>
        match next_cluster fs c with
        | Ok v => if v <? FAT32_EOC_MIN then nth_cluster n' v else None
        | _ => None
        end
    end.
Proof.
  assert (Hv : cluster_valid fs c = (2 <=? c) && (c <? fs_cluster_count fs + 2))
    by (unfold cluster_valid; rewrite u32_id, Z.geb_leb by (pose proof fs_bounds; word); done).
  rewrite Hv. destruct n as [|n]; cbn [nth_cluster]; destruct ((2 <=? c) && _) eqn:E; try done. cbn [negb].
  rewrite <- next_cluster_follows by lia. destruct (next_cluster fs c) as [v| |]; try done. by destruct (v <? FAT32_EOC_MIN).
Qed.

Definition file_byte (first q : Z) : option Z :=
  let? c := nth_cluster (Z.to_nat (q / cluster_size)) first in
  cluster_byte c (q mod cluster_size).

Lemma sector_byte c s bo sector i :
  read_sector (fs_device fs) (cluster_base c + s) = Some sector -> 0 <= s -> 0 <= bo + i < 512 ->
  cluster_byte c (s * 512 + bo + i) = get8 sector (bo + i).
Proof.
  intros Hr Hs Hi. unfold cluster_byte.
  replace ((s * 512 + bo + i) / 512) with s by zdm.
  replace ((s * 512 + bo + i) mod 512) with (bo + i) by zdm. by rewrite Hr.
Qed.

Lemma sector_byte_none c s bo :
  read_sector (fs_device fs) (cluster_base c + s) = None -> 0 <= s -> 0 <= bo < 512 ->
  cluster_byte c (s * 512 + bo + 0) = None.
Proof.
  intros Hr Hs Hi. unfold cluster_byte. replace ((s * 512 + bo + 0) / 512) with s by zdm. by rewrite Hr.
Qed.

Lemma filled_ext b b' pos m f g :
  (forall i, 0 <= i < m -> f i = g i) -> filled b b' pos m f -> filled b b' pos m g.
Proof.
  intros Hfg (Hl & Hf & Ho). split_and!; [done| |done]. intros i Hi. rewrite <- Hfg by lia. by apply Hf.
Qed.

(** What copying the bytes [f 0], ..., [f (m - 1)] to the cursor comes to:
    all of them, or those before the first one that cannot be read. *)
Definition copied (cur : cursor) (m : Z) (f : Z -> option Z)
    (r : res (josh_fat32_status_t * list Z) cursor) : Prop :=
  match r with
  | Ok cur' => filled (cur_buffer cur) (cur_buffer cur') (cur_pos cur) m f /\
      cur_pos cur' = cur_pos cur + m /\ cur_remaining cur' = cur_remaining cur - m
  | Err (e, buf') => e = JOSH_FAT32_IO_ERROR /\ exists m', 0 <= m' < m /\ f m' = None /\
      filled (cur_buffer cur) buf' (cur_pos cur) m' f
  | Stuck => False
  end.

Definition cursor_ok (cur : cursor) : Prop :=
  0 <= cur_pos cur /\ in_u32 (cur_remaining cur) /\
  cur_pos cur + cur_remaining cur <= zlen (cur_buffer cur).

Lemma copied_step cur cur1 m n f g r :
  0 <= m -> 0 <= n -> (forall i, 0 <= i < n -> g i = f (m + i)) ->
  copied cur m f (Ok cur1) -> copied cur1 n g r -> copied cur (m + n) f r.
Proof.
  intros Hm Hn Hg (Hf & Hp & Hr) H. destruct r as [cur2|[e buf2]|]; cbn in *; [| |done].
  - destruct H as (Hf2 & Hp2 & Hr2). rewrite Hp in *. split_and!; [|lia..].
    by eapply filled_trans.
  - destruct H as (He & m' & Hm' & Hnone & Hf2). rewrite Hp in *. split; [done|]. exists (m + m').
    split_and!; [lia..|rewrite <- Hg by lia; done|]. eapply filled_trans; [..|exact Hf|exact Hf2]; [lia..|].
    intros i Hi. apply Hg. lia.
Qed.

Lemma copy_loop_spec c n s bo cur :
  2 <= c < fs_cluster_count fs + 2 -> 0 <= s -> s + Z.of_nat n = fs_sectors_per_cluster fs ->
  0 <= bo < 512 -> (n = 0%nat -> bo = 0) -> cursor_ok cur ->
  copied cur (Z.min (cur_remaining cur) (Z.of_nat n * 512 - bo)) (fun i => cluster_byte c (s * 512 + bo + i))
    (copy_loop fs (cluster_base c) n s bo cur).
Proof.
  intros Hc. revert s bo cur. induction n as [|n IH]; intros s bo cur Hs Hn Hbo Hbo0 (Hp & Hr & Hl).
  { cbn. rewrite Hbo0 by done. replace (Z.min _ _) with 0 by word. split_and!; [apply filled_refl|lia..]. }
  cbn [copy_loop]. destruct (cur_remaining cur >? 0) eqn:Er; cbn [negb].
  2: { replace (Z.min _ _) with 0 by word. cbn. split_and!; [apply filled_refl|lia..]. }
  pose proof (cluster_base_range c Hc). pose proof (ok_partition fs Hok). pose proof fs_bounds.
  rewrite (u64_id (cluster_base c + s)) by word. fold (read_sector (fs_device fs) (cluster_base c + s)).
  destruct (read_sector _ _) as [sec|] eqn:Ers.
  2: { cbn. split; [done|]. exists 0. split_and!; [lia|lia|by apply sector_byte_none|apply filled_refl]. }
  apply (read_sector_full (fs_device fs)) in Ers as Hg. destruct Hg as [Hsl Hsb].
  unfold JOSH_BLOCK_SECTOR_SIZE. rewrite (u32_id (512 - bo)) by word.
  assert (Hmin : (if 512 - bo >? cur_remaining cur then cur_remaining cur else 512 - bo)
                 = Z.min (cur_remaining cur) (512 - bo)) by (destruct (512 - bo >? _) eqn:?; lia).
  rewrite Hmin. remember (Z.min (cur_remaining cur) (512 - bo)) as t eqn:Ht. destruct (copy_out_filled (cur_buffer cur) (cur_pos cur) sec bo t) as (buf' & -> & Hf); [word..|].
  cbn [need res_bind]. rewrite (u32_id (cur_remaining cur - t)) by word.
  set (cur1 := {| cur_buffer := buf'; cur_pos := cur_pos cur + t; cur_remaining := cur_remaining cur - t |}).
  assert (Hc1 : copied cur t (fun i => cluster_byte c (s * 512 + bo + i)) (Ok cur1)).
  { cbn. split_and!; [|lia..]. eapply filled_ext; [|exact Hf]. intros i Hi. cbn.
    symmetry. apply sector_byte; [done|lia..]. }
  assert (Hck1 : cursor_ok cur1) by (destruct Hf as (Hlb & _); unfold cursor_ok; cbn; word).
  specialize (IH (s + 1) 0 cur1 ltac:(lia) ltac:(lia) ltac:(lia) ltac:(done) Hck1).
  replace (Z.min (cur_remaining cur) (Z.of_nat (S n) * 512 - bo))
    with (t + Z.min (cur_remaining cur1) (Z.of_nat n * 512 - 0)) by (cbn [cur1 cur_remaining]; lia).
  eapply copied_step; [lia|cbn [cur1 cur_remaining]; lia| |exact Hc1|exact IH].
  intros i Hi. cbn. f_equal. cbn [cur1 cur_remaining] in Hi. lia.
Qed.
Lemma cluster_size_pos : 512 <= cluster_size <= 65536.
Proof. pose proof spc_range. unfold cluster_size. lia. Qed.

Lemma file_byte_here c q :
  2 <= c < fs_cluster_count fs + 2 -> 0 <= q < cluster_size -> file_byte c q = cluster_byte c q.
Proof.
  intros Hc Hq. unfold file_byte. rewrite Z.div_small, Z.mod_small by lia.
  change (Z.to_nat 0) with 0%nat. rewrite nth_cluster_unfold. by rewrite (proj2 (cluster_valid_iff c) Hc).
Qed.

Lemma file_byte_invalid c q : ~ (2 <= c < fs_cluster_count fs + 2) -> file_byte c q = None.
Proof.
  intros Hc. unfold file_byte. destruct (cluster_valid fs c) eqn:E; [by apply cluster_valid_iff in E|].
  by rewrite nth_cluster_unfold, E.
Qed.

Lemma file_byte_next c q :
  2 <= c < fs_cluster_count fs + 2 -> cluster_size <= q ->
  file_byte c q =
  match next_cluster fs c with
  | Ok v => if v <? FAT32_EOC_MIN then file_byte v (q - cluster_size) else None
  | _ => None
  end.
Proof.
  intros Hc Hq. pose proof cluster_size_pos. unfold file_byte.
  replace (q / cluster_size) with ((q - cluster_size) / cluster_size + 1)
    by (rewrite <- Z.div_add by lia; f_equal; lia).
  assert (0 <= (q - cluster_size) / cluster_size) by (apply Z.div_pos; lia).
  rewrite Z2Nat.inj_add, Nat.add_1_r by lia. rewrite (nth_cluster_unfold (S _)).
  rewrite (proj2 (cluster_valid_iff c) Hc). cbn [negb].
  replace (q mod cluster_size) with ((q - cluster_size) mod cluster_size)
    by (rewrite <- (Z.mod_add (q - cluster_size) 1) by lia; f_equal; lia).
  destruct (next_cluster fs c) as [v|e|]; try done. by destruct (v <? FAT32_EOC_MIN).
Qed.

(** What a read of the bytes [f 0], ..., [f (m - 1)] comes to, when it gives up
    at byte [k] for [limit k]. *)
Definition read_result (cur : cursor) (f : Z -> option Z) (limit : Z -> Prop)
    (r : res (josh_fat32_status_t * list Z) (list Z)) : Prop :=
  match r with
  | Ok buf' => filled (cur_buffer cur) buf' (cur_pos cur) (cur_remaining cur) f
  | Err (e, buf') => e <> JOSH_FAT32_OK /\ exists m', 0 <= m' < cur_remaining cur /\ (f m' = None \/ limit m') /\
      filled (cur_buffer cur) buf' (cur_pos cur) m' f
  | Stuck => False
  end.

Lemma read_result_step cur cur1 m f g (lim lim' : Z -> Prop) r :
  0 <= m -> 0 <= cur_remaining cur1 -> (forall i, 0 <= i -> g i = f (m + i)) ->
  (forall i, 0 <= i -> lim' i -> lim (m + i)) ->
  copied cur m f (Ok cur1) -> read_result cur1 g lim' r -> read_result cur f lim r.
Proof.
  intros Hm Hr Hg Hlim (Hf & Hp & Hrem) H. destruct r as [buf2|[e buf2]|]; cbn in *; [| |done].
  - rewrite Hp in H. replace (cur_remaining cur) with (m + cur_remaining cur1) by lia.
    eapply filled_trans; [lia..| |exact Hf|exact H]. intros i Hi. apply Hg. lia.
  - destruct H as (He & m' & Hm' & Hn & Hf2). rewrite Hp in Hf2. split; [done|].
    exists (m + m'). split; [lia|]. split.
    + destruct Hn as [Hn|Hn]; [left; rewrite <- Hg by lia; done|right; apply Hlim; [lia|done]].
    + eapply filled_trans; [lia..| |exact Hf|exact Hf2]. intros i Hi. apply Hg. lia.
Qed.

Lemma read_result_copied cur m f lim e buf' :
  m <= cur_remaining cur -> copied cur m f (Err (e, buf')) -> read_result cur f lim (Err (e, buf')).
Proof.
  intros Hm (-> & m' & Hm' & Hn & Hf). split; [done|]. exists m'. split; [lia|]. split; [by left|done].
Qed.

Lemma read_result_at cur m f lim e cur1 :
  e <> JOSH_FAT32_OK -> 0 <= m < cur_remaining cur -> copied cur m f (Ok cur1) -> f m = None ->
  read_result cur f lim (Err (e, cur_buffer cur1)).
Proof. intros He Hm (Hf & _) Hn. split; [done|]. exists m. split; [lia|]. split; [by left|done]. Qed.

Lemma copied_zero cur f : copied cur 0 f (Ok cur).
Proof. cbn. split_and!; [apply filled_refl|lia..]. Qed.

Lemma first_copy c o cur :
  2 <= c < fs_cluster_count fs + 2 -> 0 <= o < cluster_size -> cursor_ok cur ->
  copied cur (Z.min (cur_remaining cur) (cluster_size - o)) (fun i => file_byte c (o + i))
    (copy_loop fs (cluster_base c) (Z.to_nat (fs_sectors_per_cluster fs - o / 512)) (o / 512) (o mod 512) cur).
Proof.
  intros Hc Ho Hcur. pose proof spc_range. unfold cluster_size in *.
  assert (Hdiv : 0 <= o / 512 < fs_sectors_per_cluster fs) by zdm.
  pose proof (copy_loop_spec c (Z.to_nat (fs_sectors_per_cluster fs - o / 512)) (o / 512) (o mod 512) cur
    Hc ltac:(lia) ltac:(lia) ltac:(zdm) ltac:(lia) Hcur) as H1.
  rewrite Z2Nat.id in H1 by lia.
  replace ((fs_sectors_per_cluster fs - o / 512) * 512 - o mod 512)
    with (fs_sectors_per_cluster fs * 512 - o) in H1 by zdm.
  set (m := Z.min _ _) in *. assert (Hm : m <= fs_sectors_per_cluster fs * 512 - o) by lia.
  assert (Hext : forall i, 0 <= i < m -> cluster_byte c (o / 512 * 512 + o mod 512 + i) = file_byte c (o + i)).
  { intros i Hi. rewrite file_byte_here by (try done; unfold cluster_size; lia). f_equal. zdm. }
  destruct (copy_loop _ _ _ _ _ _) as [cur'|[e buf']|]; cbn in *; [| |done].
  - destruct H1 as (Hf & Hp & Hr). split_and!; [|exact Hp|exact Hr].
    eapply filled_ext; [exact Hext|exact Hf].
  - destruct H1 as (He & m' & Hm' & Hn & Hf). split; [done|]. exists m'. rewrite <- Hext by lia. split_and!; try lia; try done.
    eapply filled_ext; [|exact Hf]. intros i Hi. apply Hext. lia.
Qed.
Lemma read_loop_spec fuel visited c o cur :
  (1 <= fuel)%nat -> 0 <= visited -> fs_cluster_count fs + 2 <= visited + Z.of_nat fuel ->
  0 <= o < cluster_size -> cursor_ok cur ->
  read_result cur (fun i => file_byte c (o + i))
    (fun i => fs_cluster_count fs < visited + (o + i) / cluster_size)
    (read_loop fs fuel visited c o cur).
Proof.
  revert visited c o cur. induction fuel as [|fuel IH]; intros visited c o cur Hf Hv Hcc Ho Hcur; [lia|].
  pose proof fs_bounds as (_ & Hb & _ & Hcc0). pose proof cluster_size_pos as Hcs.
  destruct Hcur as (Hp & Hr & Hl). cbn [read_loop].
  destruct (cur_remaining cur >? 0) eqn:Er; cbn [negb].
  2: { cbn. replace (cur_remaining cur) with 0 by word. apply filled_refl. }
  destruct (visited >? fs_cluster_count fs) eqn:Ev.
  { split; [done|]. exists 0. split; [lia|]. split; [|apply filled_refl]. right. rewrite Z.div_small; lia. }
  rewrite (u32_id (visited + 1)) by word.
  destruct (decide (2 <= c < fs_cluster_count fs + 2)) as [Hc|Hc].
  2: { rewrite (cluster_lba_err c Hc). cbn [failing_with res_bind].
       apply (read_result_at cur 0 _ _ _ cur); [done|lia|apply copied_zero|by apply file_byte_invalid]. }
  rewrite (cluster_lba_ok c Hc). cbn [failing_with res_bind]. unfold JOSH_BLOCK_SECTOR_SIZE.
  pose proof (first_copy c o cur Hc Ho (conj Hp (conj Hr Hl))) as H1.
  set (m := Z.min (cur_remaining cur) (cluster_size - o)) in *.
  destruct (copy_loop _ _ _ _ _ _) as [cur1|[e buf1]|]; cbn [res_bind]; [| |done].
  2: { eapply read_result_copied; [|exact H1]. lia. }
  pose proof H1 as (Hf1 & Hp1 & Hr1).
  destruct (cur_remaining cur1 =? 0) eqn:Er1.
  { cbn. replace (cur_remaining cur) with m by lia. exact Hf1. }
  assert (Hm : m = cluster_size - o) by lia. assert (Hr1' : 0 < cur_remaining cur1) by lia.
  clearbody m. subst m.
  assert (Hnext : forall i, 0 <= i -> file_byte c (o + (cluster_size - o + i)) =
    match next_cluster fs c with
    | Ok v => if v <? FAT32_EOC_MIN then file_byte v i else None | _ => None end).
  { intros i Hi. rewrite file_byte_next by (done || lia).
    by replace (o + (cluster_size - o + i) - cluster_size) with i by lia. }
  assert (Hm0 : o + (cluster_size - o) = o + (cluster_size - o + 0)) by lia.
  destruct (next_cluster fs c) as [v|e|] eqn:En; cbn [failing_with res_bind].
  - rewrite Z.geb_leb. destruct (v <? FAT32_EOC_MIN) eqn:Eeoc.
    + replace (FAT32_EOC_MIN <=? v) with false by lia.
      eapply read_result_step; [..|exact H1|]; [lia|lia| | |apply (IH (visited + 1) v 0 cur1)]; [..|lia|lia|lia|lia|].
      * intros i Hi. cbn. symmetry. by apply Hnext.
      * intros i Hi Hlim. cbn in Hlim |- *. rewrite Z.add_0_l in Hlim.
        replace (o + (cluster_size - o + i)) with (i + 1 * cluster_size) by lia. rewrite Z.div_add by lia. lia.
      * destruct Hf1 as (Hl1 & _). unfold cursor_ok. word.
    + replace (FAT32_EOC_MIN <=? v) with true by lia.
      eapply read_result_at; [..|exact H1|]; [done|lia|]. cbn. rewrite Hm0. by apply Hnext.
  - apply next_cluster_err in En as He. eapply read_result_at; [..|exact H1|]; [done|lia|]. cbn. rewrite Hm0. by apply Hnext.
  - by apply next_cluster_not_stuck in En.
Qed.

(** Skipping over whole clusters. *)
Lemma skip_loop_spec n c :
  match skip_loop fs n c with
  | Ok c' => forall q, 0 <= q -> file_byte c (Z.of_nat n * cluster_size + q) = file_byte c' q
  | Err _ => forall q, 0 <= q -> file_byte c (Z.of_nat n * cluster_size + q) = None
  | Stuck => False
  end.
Proof.
  pose proof cluster_size_pos. revert c. induction n as [|n IH]; intros c; cbn [skip_loop].
  { intros q Hq. f_equal. }
  assert (Hval : forall q, 0 <= q -> cluster_valid fs c = true ->
    file_byte c (Z.of_nat (S n) * cluster_size + q) =
    match next_cluster fs c with
    | Ok v => if v <? FAT32_EOC_MIN then file_byte v (Z.of_nat n * cluster_size + q) else None
    | _ => None end).
  { intros q Hq Hv%cluster_valid_iff. rewrite file_byte_next by nia.
    by replace (Z.of_nat (S n) * cluster_size + q - cluster_size) with (Z.of_nat n * cluster_size + q) by lia. }
  assert (Hinv : cluster_valid fs c = false -> next_cluster fs c = Err JOSH_FAT32_CORRUPT)
    by (intros Hc; unfold next_cluster; by rewrite Hc).
  assert (Hnone : cluster_valid fs c = false -> forall q, file_byte c q = None).
  { intros Hc q. apply file_byte_invalid. intros Hc'%cluster_valid_iff. congruence. }
  destruct (cluster_valid fs c) eqn:Ec; [|rewrite (Hinv eq_refl); intros q _; by apply Hnone].
  destruct (next_cluster fs c) as [v|e|] eqn:En.
  - rewrite Z.geb_leb. destruct (v <? FAT32_EOC_MIN) eqn:Ev.
    + replace (FAT32_EOC_MIN <=? v) with false by lia. specialize (IH v).
      destruct (skip_loop fs n v) as [c'|e|]; [..|done]; intros q Hq; rewrite Hval by done; by apply IH.
    + replace (FAT32_EOC_MIN <=? v) with true by lia. intros q Hq. by rewrite Hval.
  - intros q Hq. by rewrite Hval.
  - by apply next_cluster_not_stuck in En.
Qed.
Lemma skip_loop_err n c e : skip_loop fs n c = Err e -> e = JOSH_FAT32_CORRUPT.
Proof.
  revert c. induction n as [|n IH]; intros c H; [done|]. cbn [skip_loop] in H.
  destruct (next_cluster fs c) as [v|e'|]; [|by injection H as <-|done].
  destruct (_ >=? _); [by injection H as <-|by apply IH in H].
Qed.

(** The whole read, of [n] bytes from [offset] on. *)
Lemma read_bytes_spec first offset buf n :
  0 <= offset -> in_u32 n -> n <= zlen buf -> 0 < n ->
  let cur := {| cur_buffer := buf; cur_pos := 0; cur_remaining := n |} in
  read_result cur (fun i => file_byte first (offset + i))
    (fun i => fs_cluster_count fs < (offset + i) / cluster_size)
    (let* cluster := failing_with buf (skip_loop fs (Z.to_nat (offset / cluster_size)) first) in
     read_loop fs (Z.to_nat (fs_cluster_count fs + 2)) (offset / cluster_size) cluster
       (offset mod cluster_size) cur).
Proof.
  intros Ho Hn Hl Hn0 cur. pose proof cluster_size_pos. pose proof fs_bounds as (_ & _ & _ & Hcc).
  assert (0 <= offset / cluster_size) by (apply Z.div_pos; lia).
  pose proof (Z.mod_pos_bound offset cluster_size ltac:(lia)) as Hm.
  pose proof (Z_div_mod_eq_full offset cluster_size) as Hdm.
  pose proof (skip_loop_spec (Z.to_nat (offset / cluster_size)) first) as Hs.
  destruct (skip_loop _ _ _) as [c|e|] eqn:Es; cbn [failing_with res_bind]; [..|done].
  - rewrite Z2Nat.id in Hs by lia.
    pose proof (read_loop_spec (Z.to_nat (fs_cluster_count fs + 2)) (offset / cluster_size) c
      (offset mod cluster_size) cur ltac:(lia) ltac:(lia) ltac:(lia) Hm) as Hr.
    assert (Hck : cursor_ok cur) by (unfold cursor_ok; cbn; word). specialize (Hr Hck).
    assert (Heq : forall i, 0 <= i -> file_byte c (offset mod cluster_size + i) = file_byte first (offset + i)).
    { intros i Hi. rewrite <- Hs by lia. f_equal. lia. }
    assert (Hq : forall i, offset / cluster_size + (offset mod cluster_size + i) / cluster_size
                 = (offset + i) / cluster_size).
    { intros i. replace (offset + i) with (offset mod cluster_size + i + offset / cluster_size * cluster_size) by lia.
      rewrite Z.div_add by lia. lia. }
    eapply (read_result_step cur cur 0); [lia|cbn; lia| | |apply copied_zero|exact Hr].
    + intros i Hi. cbn beta. rewrite Heq by lia. f_equal.
    + intros i Hi. cbn beta. rewrite Hq. done.
  - apply skip_loop_err in Es as ->. rewrite Z2Nat.id in Hs by lia.
    apply (read_result_at cur 0 _ _ _ cur); [done|cbn; lia|apply copied_zero|].
    rewrite <- (Hs (offset mod cluster_size)) by lia. f_equal. lia.
Qed.
(** ** Directories as sequences of entries *)
Definition entries_per_cluster : Z := 16 * fs_sectors_per_cluster fs.

Definition cluster_entry (c k : Z) : option (list Z) :=
  let? sector := read_sector (fs_device fs) (cluster_base c + k / 16) in
  slice sector (32 * (k mod 16)) 32.

(** Entry [k] of the directory whose chain starts at [first]. *)
Definition dir_entry (first k : Z) : option (list Z) :=
  let? c := nth_cluster (Z.to_nat (k / entries_per_cluster)) first in
  cluster_entry c (k mod entries_per_cluster).

(** The scan of part of a directory, which may also fail to read a sector. *)
Definition scan_outcome (name : list Z) (entry : Z -> option (list Z)) (a b : Z)
    (r : option (res josh_fat32_status_t josh_fat32_file_t)) : Prop :=
  r = Some (Err JOSH_FAT32_IO_ERROR) \/ scanned name entry a b r.

Lemma sector_loop_spec c name n s :
  2 <= c < fs_cluster_count fs + 2 -> zlen name = 11 -> 0 <= s ->
  s + Z.of_nat n = fs_sectors_per_cluster fs ->
  exists r, sector_loop fs (cluster_base c) name n s = Some r /\
    scan_outcome name (cluster_entry c) (16 * s) entries_per_cluster r.
Proof.
  intros Hc Hn. revert s. induction n as [|n IH]; intros s Hs Hsn; cbn [sector_loop].
  { exists None. split; [done|]. right. intros j Hj. unfold entries_per_cluster in *. lia. }
  pose proof (cluster_base_range c Hc). pose proof (ok_partition fs Hok). pose proof fs_bounds.
  rewrite (u64_id (cluster_base c + s)) by word. fold (read_sector (fs_device fs) (cluster_base c + s)).
  destruct (read_sector _ _) as [sec|] eqn:Er; [|eexists; split; [done|by left]].
  apply (read_sector_full (fs_device fs)) in Er as Hg.
  destruct (entry_loop_spec sec name 16 0 Hg Hn ltac:(lia) ltac:(lia)) as (r & Hr & Hsc).
  change (32 * 0) with 0 in Hr. rewrite Hr.
  apply (scanned_ext name _ (cluster_entry c) 0 16 (16 * s)) in Hsc.
  2: { intros j Hj. unfold cluster_entry. replace ((j + 16 * s) / 16) with s by zdm.
       replace ((j + 16 * s) mod 16) with j by zdm. by rewrite Er. }
  rewrite Z.add_0_l in Hsc. destruct r as [r|].
  - eexists. split; [done|]. right. eapply scanned_mono; [|exact Hsc]. unfold entries_per_cluster. lia.
  - destruct (IH (s + 1)) as (r & Hr' & [Hio|Hsc']); [lia..| |]; exists r; (split; [done|]); [by left|right].
    eapply scanned_app; [|exact Hsc|]; [unfold entries_per_cluster; lia|].
    by replace (16 + 16 * s) with (16 * (s + 1)) by lia.
Qed.
Lemma epc_pos : 16 <= entries_per_cluster.
Proof. pose proof spc_range. unfold entries_per_cluster. lia. Qed.

Lemma dir_entry_here c k :
  2 <= c < fs_cluster_count fs + 2 -> 0 <= k < entries_per_cluster -> dir_entry c k = cluster_entry c k.
Proof.
  intros Hc Hk. unfold dir_entry. rewrite Z.div_small, Z.mod_small by lia.
  change (Z.to_nat 0) with 0%nat. rewrite nth_cluster_unfold. by rewrite (proj2 (cluster_valid_iff c) Hc).
Qed.

Lemma dir_entry_next c k :
  2 <= c < fs_cluster_count fs + 2 -> 0 <= k ->
  dir_entry c (k + entries_per_cluster) =
  match next_cluster fs c with
  | Ok v => if v <? FAT32_EOC_MIN then dir_entry v k else None
  | _ => None
  end.
Proof.
  intros Hc Hk. pose proof epc_pos. unfold dir_entry.
  assert (0 <= k / entries_per_cluster) by (apply Z.div_pos; lia).
  replace (k + entries_per_cluster) with (k + 1 * entries_per_cluster) by lia.
  rewrite Z.div_add, Z.mod_add, Z2Nat.inj_add, Nat.add_1_r by lia. rewrite (nth_cluster_unfold (S _)).
  rewrite (proj2 (cluster_valid_iff c) Hc). cbn [negb].
  destruct (next_cluster fs c) as [v|e|]; try done. by destruct (v <? FAT32_EOC_MIN).
Qed.

(** The result of a search: the first entry that ends the scan decides it; a
    search that runs to the end of the chain has skipped every entry. *)
Definition dir_outcome (first : Z) (name : list Z)
    (r : res josh_fat32_status_t josh_fat32_file_t) : Prop :=
  match r with
  | Ok f => exists b, scanned name (dir_entry first) 0 b (Some (Ok f))
  | Err JOSH_FAT32_NOT_FOUND =>
      (exists b, scanned name (dir_entry first) 0 b (Some (Err JOSH_FAT32_NOT_FOUND))) \/
      (exists b, 0 < b /\ scanned name (dir_entry first) 0 b None /\ dir_entry first b = None)
  | Err e => e <> JOSH_FAT32_OK
  | Stuck => False
  end.

Lemma dir_outcome_found c name b r :
  scanned name (dir_entry c) 0 b (Some r) -> dir_outcome c name r.
Proof.
  intros H. destruct r as [f|[]|]; cbn; try done; [by exists b| |by left; exists b|].
  - destruct H as (k & _ & (e & _ & He) & _). inversion He.
  - destruct H as (k & _ & (e & _ & He) & _). inversion He.
Qed.

Lemma dir_outcome_next c v name r :
  2 <= c < fs_cluster_count fs + 2 -> next_cluster fs c = Ok v -> v < FAT32_EOC_MIN ->
  scanned name (dir_entry c) 0 entries_per_cluster None ->
  dir_outcome v name r -> dir_outcome c name r.
Proof.
  intros Hc Hn Hv H0. pose proof epc_pos.
  assert (Hsh : forall k, 0 <= k -> dir_entry c (k + entries_per_cluster) = dir_entry v k).
  { intros k Hk. rewrite dir_entry_next, Hn by done. by replace (v <? FAT32_EOC_MIN) with true by lia. }
  assert (Hlift : forall b r, 0 <= b -> scanned name (dir_entry v) 0 b r ->
    scanned name (dir_entry c) 0 (b + entries_per_cluster) r).
  { intros b r' Hb Hs. eapply scanned_app; [|exact H0|]; [lia|].
    apply (scanned_ext name (dir_entry v) (dir_entry c) 0 b entries_per_cluster) in Hs;
      [by rewrite Z.add_0_l in Hs|]. intros j Hj. apply Hsh. lia. }
  assert (Hsome : forall b r', scanned name (dir_entry v) 0 b (Some r') -> 0 <= b)
    by (intros b r' (k & Hk & _); lia).
  destruct r as [f|[]|]; cbn [dir_outcome]; try done.
  - intros (b & Hb). eexists. apply Hlift; [by eapply Hsome|exact Hb].
  - intros [(b & Hb)|(b & Hb & Hs & Hnone)].
    + left. eexists. apply Hlift; [by eapply Hsome|exact Hb].
    + right. exists (b + entries_per_cluster). split; [lia|]. split; [apply Hlift; [lia|done]|].
      by rewrite Hsh by lia.
Qed.

Lemma directory_loop_spec name n c :
  zlen name = 11 -> dir_outcome c name (directory_loop fs name n c).
Proof.
  intros Hn. revert c. induction n as [|n IH]; intros c; cbn [directory_loop]; [done|].
  destruct (decide (2 <= c < fs_cluster_count fs + 2)) as [Hc|Hc]; [|by rewrite cluster_lba_err].
  rewrite cluster_lba_ok by done. cbn [res_bind]. pose proof spc_range. pose proof epc_pos.
  destruct (sector_loop_spec c name (Z.to_nat (fs_sectors_per_cluster fs)) 0 Hc Hn ltac:(lia) ltac:(lia))
    as (r & -> & Hr). cbn [need res_bind]. rewrite Z.mul_0_r in Hr.
  destruct Hr as [->|Hr]; [done|].
  assert (Hr' : scanned name (dir_entry c) 0 entries_per_cluster r).
  { rewrite <- (Z.add_0_r 0), <- (Z.add_0_r entries_per_cluster).
    eapply scanned_ext; [|exact Hr]. intros j Hj. rewrite Z.add_0_r. by apply dir_entry_here. }
  destruct r as [r|]; [by eapply dir_outcome_found|].
  destruct (next_cluster fs c) as [v|e|] eqn:En; cbn [res_bind].
  - rewrite Z.geb_leb. destruct (FAT32_EOC_MIN <=? v) eqn:Ev.
    + right. exists entries_per_cluster. split; [lia|]. split; [done|].
      rewrite <- (Z.add_0_l entries_per_cluster), dir_entry_next, En by (done || lia).
      by replace (v <? FAT32_EOC_MIN) with false by lia.
    + eapply dir_outcome_next; [done..|lia|done|]. apply IH.
  - apply next_cluster_err in En as He. destruct e; cbn; try done.
    exfalso. clear -En. unfold next_cluster in En. steps En.
  - by apply next_cluster_not_stuck in En.
Qed.
End Mounted.

(** ** Path resolution *)

(** The first entry of directory [dir] that ends the search for [name] is [f]. *)
Definition found_in (fs : josh_fat32_t) (dir : Z) (name : list Z) (f : josh_fat32_file_t) : Prop :=
  exists b, scanned name (dir_entry fs dir) 0 b (Some (Ok f)).

Inductive resolves (fs : josh_fat32_t) : Z -> list (list Z) -> josh_fat32_file_t -> Prop :=
| resolves_last dir name out f :
    names83 name out -> found_in fs dir out f -> resolves fs dir [name] f
| resolves_step dir name out d next rest f :
    names83 name out -> found_in fs dir out d ->
    Z.testbit (ff_attributes d) 4 = true -> 2 <= ff_first_cluster d < fs_cluster_count fs + 2 ->
    resolves fs (ff_first_cluster d) (next :: rest) f -> resolves fs dir (name :: next :: rest) f.

Lemma components_cons_seg seg c rest :
  Forall (fun c => c <> 0 /\ c <> 47) seg -> seg <> [] -> c = 0 \/ c = 47 ->
  components [] (seg ++ c :: rest) = seg :: components [] (c :: rest).
Proof.
  intros Hf Hne Hc. rewrite components_run by done. cbn [app].
  assert (Hfl : flush seg = [seg]) by (destruct seg; done).
  destruct Hc as [-> | ->]; cbn; by rewrite Hfl.
Qed.

Lemma components_start c rest : c <> 0 -> c <> 47 -> exists name more, components [] (c :: rest) = name :: more.
Proof.
  intros H0 H47. cbn. replace (c =? 0) with false by lia. replace (c =? 47) with false by lia.
  assert (H : forall p acc, acc <> [] -> exists name more, components acc p = name :: more).
  { induction p as [|x p IH]; intros acc Ha; cbn; [by destruct acc; eauto|].
    destruct (x =? 0); [by destruct acc; eauto|]. destruct (x =? 47); [|by apply IH; destruct acc].
    destruct acc; [done|]. by eauto. }
  by apply H.
Qed.

Lemma path_loop_spec fs fuel c path dir :
  fs_ok fs -> (length (c :: path) <= fuel)%nat -> 0 ∈ c :: path -> c <> 0 -> c <> 47 ->
  path_loop fs fuel (c :: path) dir <> Stuck /\
  forall f, path_loop fs fuel (c :: path) dir = Ok f -> resolves fs dir (components [] (c :: path)) f.
Proof.
  intros Hok. revert c path dir. induction fuel as [|fuel IH]; intros c path dir Hl H0 Hc0 Hc47; [cbn in Hl; lia|].
  cbn [path_loop]. destruct (skip_segment_spec (c :: path) H0) as (seg & c' & rest & Hp & Hf & Hc' & Hin & Hsk).
  rewrite Hsk. cbn [need res_bind]. rewrite Hp in *.
  destruct (short_name_from_segment _ _) as [out|e|] eqn:Es; cbn [res_bind]; [| done |by apply short_name_not_stuck in Es].
  apply short_name_iff in Es. pose proof (names83_length _ _ Es) as Hlen.
  assert (Hne : seg <> []) by (intros ->; destruct Es as [[_ Hn]|(a & b & Hab & _)]; [done|by destruct a]).
  pose proof (directory_loop_spec fs Hok out (Z.to_nat (fs_cluster_count fs + 1)) dir Hlen) as Hd.
  fold (find_in_directory fs dir out) in Hd.
  destruct (find_in_directory fs dir out) as [d|e|]; cbn [res_bind]; [|done|done].
  assert (H0' : 0 ∈ c' :: rest) by (destruct Hc' as [->| ->]; [set_solver|right; by apply Hin]).
  destruct (skip_slashes_spec _ H0') as (c2 & rest2 & -> & Hc2 & Hin2 & Hcomp & Hl2). cbn [need res_bind].
  change (get8 (c2 :: rest2) 0) with (Some c2). cbn [need res_bind].
  assert (Hcs : components [] (seg ++ c' :: rest) = seg :: components [] (c2 :: rest2))
    by (rewrite <- Hcomp; by apply components_cons_seg).
  destruct (c2 =? 0) eqn:Ec2.
  { split; [done|]. intros f [= <-]. rewrite Hcs. assert (c2 = 0) as -> by lia. by apply resolves_last with out. }
  destruct (Z.land _ _ =? 0) eqn:Ea; [done|]. destruct (cluster_valid fs _) eqn:Ev; cbn [negb]; [|done].
  destruct (IH c2 rest2 (ff_first_cluster d)) as [Hns Hres]; [|done|lia|done|].
  { rewrite length_app in Hl. destruct seg; [done|]. cbn in *. lia. }
  split; [done|]. intros f Hf'. rewrite Hcs. specialize (Hres f Hf').
  destruct (components_start c2 rest2) as (nm & more & Hnm); [lia|done|]. rewrite Hnm in *.
  eapply resolves_step; [done|exact Hd| |by apply (cluster_valid_iff fs Hok)|done].
  rewrite <- bit_set_iff by lia. change (Z.shiftl 1 4) with FAT_ATTR_DIRECTORY. by rewrite Ea.
Qed.

(** ** Isolation: only the sectors of the partition matter *)
Section Confined.
Context (fs : josh_fat32_t) (d' : josh_block_device_t) (Hok : fs_ok fs).
Context (Hagree : forall lba, fs_partition_lba fs <= lba < fs_partition_lba fs + fs_partition_sectors fs ->
  read_sector d' lba = read_sector (fs_device fs) lba).

(** The same mount, over another device. *)
Definition on_device : josh_fat32_t :=
  {| fs_device := d'; fs_partition_lba := fs_partition_lba fs;
     fs_partition_sectors := fs_partition_sectors fs; fs_fat_lba := fs_fat_lba fs;
     fs_data_lba := fs_data_lba fs; fs_sectors_per_fat := fs_sectors_per_fat fs;
     fs_cluster_count := fs_cluster_count fs; fs_root_cluster := fs_root_cluster fs;
     fs_sectors_per_cluster := fs_sectors_per_cluster fs; fs_fat_count := fs_fat_count fs |}.

Lemma confined_next c : next_cluster on_device c = next_cluster fs c.
Proof.
  unfold next_cluster. change (cluster_valid on_device c) with (cluster_valid fs c).
  cbn [on_device fs_device fs_sectors_per_fat fs_partition_lba fs_fat_lba].
  destruct (cluster_valid fs c) eqn:Ec; cbn [negb]; [|done]. apply (cluster_valid_iff fs Hok) in Ec.
  pose proof (fs_bounds fs Hok) as (_ & Hcc & Hp & _). destruct (ok_partition fs Hok) as [Hp0 _].
  destruct (ok_fat fs Hok) as (Hf & Hfc & Hspf & Hdl). destruct (ok_clusters fs Hok) as [Hmin Hcl].
  pose proof (spc_range fs Hok). unfold JOSH_BLOCK_SECTOR_SIZE.
  destruct ((_ >=? fs_sectors_per_fat fs) || _) eqn:E; [done|].
  rewrite (u64_id (c * 4)) in * by word. set (idx := c * 4 / 512) in *.
  assert (0 <= idx) by (apply Z.div_pos; lia).
  assert (fs_fat_lba fs + idx < fs_partition_sectors fs) by (unfold FAT32_MIN_CLUSTERS in *; nia).
  rewrite (u64_id (fs_partition_lba fs + fs_fat_lba fs)) by word.
  rewrite (u64_id (_ + idx)) by word.
  fold (read_sector d' (fs_partition_lba fs + fs_fat_lba fs + idx)).
  fold (read_sector (fs_device fs) (fs_partition_lba fs + fs_fat_lba fs + idx)).
  by rewrite Hagree by lia.
Qed.

Lemma confined_sector c s :
  2 <= c < fs_cluster_count fs + 2 -> 0 <= s < fs_sectors_per_cluster fs ->
  josh_block_read (Some d') (u64 (cluster_base fs c + s)) 1 uninit =
  josh_block_read (Some (fs_device fs)) (u64 (cluster_base fs c + s)) 1 uninit.
Proof.
  intros Hc Hs. pose proof (cluster_base_range fs Hok c Hc). pose proof (fs_bounds fs Hok).
  destruct (ok_partition fs Hok). rewrite u64_id by word. apply Hagree. lia.
Qed.

Lemma confined_sectors c name n s :
  2 <= c < fs_cluster_count fs + 2 -> 0 <= s -> s + Z.of_nat n = fs_sectors_per_cluster fs ->
  sector_loop on_device (cluster_base fs c) name n s = sector_loop fs (cluster_base fs c) name n s.
Proof.
  intros Hc. revert s. induction n as [|n IH]; intros s Hs Hn; cbn [sector_loop]; [done|].
  cbn [on_device fs_device]. rewrite confined_sector by (done || lia).
  destruct (josh_block_read _ _ _ _); [|done]. destruct (entry_loop _ _ _ _) as [[r|]|]; try done.
  apply IH; lia.
Qed.

Lemma confined_directory name n c : directory_loop on_device name n c = directory_loop fs name n c.
Proof.
  revert c. induction n as [|n IH]; intros c; cbn [directory_loop]; [done|].
  change (cluster_lba on_device c) with (cluster_lba fs c). pose proof (spc_range fs Hok).
  destruct (decide (2 <= c < fs_cluster_count fs + 2)) as [Hc|Hc]; [|by rewrite (cluster_lba_err fs Hok)].
  rewrite (cluster_lba_ok fs Hok) by done. cbn [res_bind on_device fs_sectors_per_cluster].
  fold on_device. rewrite confined_sectors by (done || lia). rewrite confined_next.
  destruct (sector_loop _ _ _ _ _) as [[r|]|]; cbn [need res_bind]; try done.
  destruct (next_cluster fs c) as [v| |]; cbn [res_bind]; try done. by destruct (_ >=? _).
Qed.

Lemma confined_path fuel path dir : path_loop on_device fuel path dir = path_loop fs fuel path dir.
Proof.
  revert path dir. induction fuel as [|fuel IH]; intros path dir; cbn [path_loop]; [done|].
  destruct (skip_segment path) as [[n p]|]; cbn [need res_bind]; [|done].
  destruct (short_name_from_segment _ _) as [out| |]; cbn [res_bind]; try done.
  unfold find_in_directory. change (fs_cluster_count on_device) with (fs_cluster_count fs).
  rewrite confined_directory. destruct (directory_loop _ _ _ _) as [d| |]; cbn [res_bind]; try done.
  destruct (skip_slashes p) as [q|]; cbn [need res_bind]; [|done].
  destruct (get8 q 0); cbn [need res_bind]; [|done]. destruct (_ =? 0); [done|]. destruct (_ =? 0); [done|].
  change (cluster_valid on_device) with (cluster_valid fs). destruct (negb _); [done|]. apply IH.
Qed.

Lemma confined_skip n c : skip_loop on_device n c = skip_loop fs n c.
Proof.
  revert c. induction n as [|n IH]; intros c; cbn [skip_loop]; [done|]. rewrite confined_next.
  destruct (next_cluster fs c) as [v| |]; try done. by destruct (_ >=? _).
Qed.

Lemma confined_copy c n s bo cur :
  2 <= c < fs_cluster_count fs + 2 -> 0 <= s -> s + Z.of_nat n = fs_sectors_per_cluster fs ->
  copy_loop on_device (cluster_base fs c) n s bo cur = copy_loop fs (cluster_base fs c) n s bo cur.
Proof.
  intros Hc. revert s bo cur. induction n as [|n IH]; intros s bo cur Hs Hn; cbn [copy_loop]; [done|].
  cbn [on_device fs_device]. rewrite confined_sector by (done || lia).
  destruct (negb _); [done|]. destruct (josh_block_read _ _ _ _); [|done].
  destruct (copy_out _ _ _ _ _); cbn [need res_bind]; [|done]. apply IH; lia.
Qed.

Lemma confined_read fuel visited c o cur :
  0 <= o < cluster_size fs -> read_loop on_device fuel visited c o cur = read_loop fs fuel visited c o cur.
Proof.
  revert visited c o cur. induction fuel as [|fuel IH]; intros visited c o cur Ho; cbn [read_loop]; [done|].
  destruct (negb _); [done|]. change (fs_cluster_count on_device) with (fs_cluster_count fs).
  destruct (_ >? fs_cluster_count fs); [done|]. change (cluster_lba on_device c) with (cluster_lba fs c).
  pose proof (spc_range fs Hok). unfold cluster_size in *.
  destruct (decide (2 <= c < fs_cluster_count fs + 2)) as [Hc|Hc]; [|by rewrite (cluster_lba_err fs Hok)].
  rewrite (cluster_lba_ok fs Hok) by done. cbn [failing_with res_bind].
  change (fs_sectors_per_cluster on_device) with (fs_sectors_per_cluster fs). unfold JOSH_BLOCK_SECTOR_SIZE.
  assert (0 <= o / 512 < fs_sectors_per_cluster fs) by zdm. rewrite confined_copy by (done || lia).
  destruct (copy_loop _ _ _ _ _ _) as [cur1|[]|]; cbn [res_bind]; try done.
  destruct (_ =? 0); [done|]. rewrite confined_next.
  destruct (next_cluster fs c) as [v| |]; cbn [failing_with res_bind]; try done.
  destruct (_ >=? _); [done|]. apply IH. lia.
Qed.
End Confined.

(** ** An example volume

    A partition at sector 63 with one 512-sector FAT; the root directory is
    cluster 2 and holds KERNEL.ELF, 600 bytes in the clusters 3 and 5. *)
Definition example_boot_sector : list Z :=
  put 510 [0x55; 0xAA] (put 44 (le_bytes 4 2) (put 36 (le_bytes 4 512) (put 32 (le_bytes 4 70000)
    (put 11 (le_bytes 2 512 ++ [1] ++ le_bytes 2 32 ++ [1]) zero_sector)))).
Definition example_fat_sector : list Z :=
  put 8 (le_bytes 4 0x0FFFFFFF ++ le_bytes 4 5 ++ le_bytes 4 0 ++ le_bytes 4 0x0FFFFFFF) zero_sector.
Definition example_root_sector : list Z :=
  put 0 (chars "VOLUME     " ++ [8]) (put 32 (chars "KERNEL  ELF" ++ [0x20] ++ replicate 8 0 ++
    le_bytes 2 0 ++ replicate 4 0 ++ le_bytes 2 3 ++ le_bytes 4 600) zero_sector).
Definition example_volume : josh_block_device_t :=
  sparse_device 80000
    [(63, example_boot_sector); (95, example_fat_sector); (607, example_root_sector);
     (608, replicate 512 7); (610, replicate 512 9)].
Definition example_partition : josh_partition_t :=
  {| pt_scheme := JOSH_PARTITION_SCHEME_MBR; pt_first_lba := 63; pt_sector_count := 70000;
     pt_mbr_type := 0x0c; pt_gpt_type_guid := []; pt_gpt_unique_guid := [] |}.
Definition example_fs : josh_fat32_t :=
  {| fs_device := example_volume; fs_partition_lba := 63; fs_partition_sectors := 70000;
     fs_fat_lba := 32; fs_data_lba := 544; fs_sectors_per_fat := 512; fs_cluster_count := 69456;
     fs_root_cluster := 2; fs_sectors_per_cluster := 1; fs_fat_count := 1 |}.
Definition example_path : list Z := chars "/kernel.elf" ++ [0].
Definition example_file : josh_fat32_file_t :=
  {| ff_first_cluster := 3; ff_size := 600; ff_attributes := 0x20 |}.

Lemma example_volume_ok : JoshBlockDevice example_volume.
Proof. apply sparse_device_ok; vm_compute; reflexivity. Qed.

Lemma example_mount :
  josh_fat32_mount (Some example_volume) (Some example_partition) (Some tt) = Ok example_fs.
Proof. vm_compute. reflexivity. Qed.

Lemma example_fs_ok : fs_ok example_fs.
Proof.
  split.
  - exact example_volume_ok.
  - vm_compute. split; discriminate.
  - vm_compute. split; [discriminate|reflexivity].
  - exists 0. split; [lia|reflexivity].
  - vm_compute. split_and!; (reflexivity || discriminate).
  - vm_compute. split; discriminate.
  - vm_compute. split; [discriminate|reflexivity].
Qed.

(** ** Properties *)

(** On a mounted file system the valid clusters are exactly 2 up to the
    cluster count plus one, each is a run of sectors inside the data area of the
    partition, and different clusters never share a sector; any other cluster
    number is reported as corrupt. *)
Theorem fat_clusters_disjoint fs c c' :
  fs_ok fs -> c <> c' ->
  (cluster_valid fs c = false -> cluster_lba fs c = Err JOSH_FAT32_CORRUPT) /\
  (cluster_valid fs c = true -> cluster_valid fs c' = true ->
   exists lba lba', cluster_lba fs c = Ok lba /\ cluster_lba fs c' = Ok lba' /\
     fs_partition_lba fs + fs_data_lba fs <= lba /\
     lba + fs_sectors_per_cluster fs <= fs_partition_lba fs + fs_partition_sectors fs /\
     (lba + fs_sectors_per_cluster fs <= lba' \/ lba' + fs_sectors_per_cluster fs <= lba)).
Proof.
  intros Hok Hne. pose proof (spc_range fs Hok). split.
  - intros Hc. apply (cluster_lba_err fs Hok). intros Hc'%(cluster_valid_iff fs Hok). congruence.
  - intros Hc%(cluster_valid_iff fs Hok) Hc'%(cluster_valid_iff fs Hok).
    exists (cluster_base fs c), (cluster_base fs c').
    split; [by apply (cluster_lba_ok fs Hok)|]. split; [by apply (cluster_lba_ok fs Hok)|].
    pose proof (cluster_base_range fs Hok c Hc). unfold cluster_base in *. split; [nia|]. split; [lia|nia].
Qed.

Lemma fat_clusters_disjoint_witness :
  exists lba lba', cluster_lba example_fs 3 = Ok lba /\ cluster_lba example_fs 5 = Ok lba' /\
    63 + 544 <= lba /\ lba + 1 <= 63 + 70000 /\ (lba + 1 <= lba' \/ lba' + 1 <= lba).
Proof.
  apply (fat_clusters_disjoint example_fs 3 5).
  - exact example_fs_ok.
  - discriminate.
  - vm_compute. reflexivity.
  - vm_compute. reflexivity.
Defined.

Lemma read_file_run fs file offset buf length old :
  fs_ok fs -> in_u32 (ff_size file) -> Z.land (ff_attributes file) FAT_ATTR_DIRECTORY = 0 ->
  0 <= offset <= ff_size file -> in_u32 length -> length <= zlen buf ->
  let n := Z.min length (ff_size file - offset) in
  let f i := file_byte fs (ff_first_cluster file) (offset + i) in
  exists st buf' r,
    josh_fat32_read_file (Some fs) (Some file) offset (Some buf) length (Some old) = Some (st, Some buf', Some r) /\
    (st = JOSH_FAT32_OK -> r = n /\ filled buf buf' 0 n f) /\
    (st <> JOSH_FAT32_OK -> r = 0 /\ exists m, 0 <= m < n /\ filled buf buf' 0 m f /\
       (f m = None \/ fs_cluster_count fs < (offset + m) / cluster_size fs)).
Proof.
  intros Hok Hsz Hattr Ho Hlen Hbuf n f. unfold josh_fat32_read_file. rewrite Hattr. cbn [Z.eqb negb].
  replace (offset >? ff_size file) with false by lia. rewrite (u32_id (ff_size file - offset)) by word.
  assert (Hn : (if length >? ff_size file - offset then ff_size file - offset else length) = n)
    by (unfold n; destruct (length >? _) eqn:?; lia).
  rewrite Hn. assert (Hn0 : 0 <= n <= length) by word. assert (Hnu : in_u32 n) by word.
  clearbody n. destruct (n =? 0) eqn:E0.
  { exists JOSH_FAT32_OK, buf, 0. split; [done|]. split; [|done]. intros _.
    assert (n = 0) as -> by lia. split; [done|apply filled_refl]. }
  destruct (cluster_valid fs _) eqn:Ec; cbn [negb].
  2: { exists JOSH_FAT32_CORRUPT, buf, 0. split; [done|]. split; [done|]. intros _. split; [done|].
       exists 0. split; [lia|]. split; [apply filled_refl|]. left. apply (file_byte_invalid fs Hok).
       intros Hc%(cluster_valid_iff fs Hok). congruence. }
  pose proof (cluster_size_pos fs Hok) as Hcs. unfold JOSH_BLOCK_SECTOR_SIZE. fold (cluster_size fs).
  rewrite (u32_id (cluster_size fs)) by word. replace (cluster_size fs =? 0) with false by lia.
  pose proof (read_bytes_spec fs Hok (ff_first_cluster file) offset buf n ltac:(lia) Hnu ltac:(lia) ltac:(lia)) as H.
  cbn zeta in H. destruct (res_bind _ _) as [buf'|[e buf']|]; cbn in H; [| |done].
  - exists JOSH_FAT32_OK, buf', n. split; [done|]. split; [done|by intros []].
  - destruct H as (He & m & Hm & Hwhy & Hf). exists e, buf', 0. split; [done|]. split; [by intros ->|].
    intros _. split; [done|]. exists m. split; [lia|]. split; [done|]. exact Hwhy.
Qed.

(** C11: [josh_fat32_read_file] on a mounted file system, with a buffer of at least [length] bytes,
    always returns and never writes outside the [length] bytes of its buffer. A directory is
    refused as such and an offset behind the end of the file as a bad path, with the buffer
    untouched and [bytes_read] zero. From any offset up to the end of a regular file it transfers
    [n] bytes, the length clipped to the end of the file. On success the buffer holds exactly the
    bytes [offset], ..., [offset + n - 1] of the cluster chain the FAT describes, everything after
    them is untouched and [bytes_read] is [n]. On failure [bytes_read] is zero, the bytes before
    the failure are right, and the byte it failed at is unreadable (an I/O error or a broken chain)
    or lies beyond as many clusters as the volume has. *)
Theorem fat_read_file_spec fs file offset buf length old :
  fs_ok fs -> in_u32 (ff_size file) -> in_u32 offset -> in_u32 length -> length <= zlen buf ->
  let read := josh_fat32_read_file (Some fs) (Some file) offset (Some buf) length (Some old) in
  let n := Z.min length (ff_size file - offset) in
  let f i := file_byte fs (ff_first_cluster file) (offset + i) in
  (Z.testbit (ff_attributes file) 4 = true -> read = Some (JOSH_FAT32_NOT_DIRECTORY, Some buf, Some 0)) /\
  (Z.testbit (ff_attributes file) 4 = false -> ff_size file < offset ->
     read = Some (JOSH_FAT32_BAD_PATH, Some buf, Some 0)) /\
  (Z.testbit (ff_attributes file) 4 = false -> offset <= ff_size file ->
     exists st buf' r, read = Some (st, Some buf', Some r) /\
       (st = JOSH_FAT32_OK -> r = n /\ filled buf buf' 0 n f) /\
       (st <> JOSH_FAT32_OK -> r = 0 /\ exists m, 0 <= m < n /\ filled buf buf' 0 m f /\
          (f m = None \/ fs_cluster_count fs < (offset + m) / cluster_size fs))).
Proof.
  intros Hok Hsz Ho Hlen Hbuf read n f.
  assert (Hdir : negb (Z.land (ff_attributes file) FAT_ATTR_DIRECTORY =? 0) = Z.testbit (ff_attributes file) 4)
    by (change FAT_ATTR_DIRECTORY with (Z.shiftl 1 4); by apply bit_set_iff).
  split_and!.
  - intros Hd. unfold read, josh_fat32_read_file. by rewrite Hdir, Hd.
  - intros Hd Hbig. unfold read, josh_fat32_read_file. rewrite Hdir, Hd. by replace (offset >? ff_size file) with true by lia.
  - intros Hd Hle. apply read_file_run; try done; unfold in_u32 in *; [|lia]. rewrite Hd in Hdir.
    apply negb_false_iff in Hdir. lia.
Qed.

(** A read inside the file and one from behind its end. *)
Lemma fat_read_file_spec_witness :
  (exists st buf' r,
     josh_fat32_read_file (Some example_fs) (Some example_file) 500 (Some (replicate 64 0)) 20 (Some 1)
       = Some (st, Some buf', Some r) /\
     (st = JOSH_FAT32_OK ->
        r = 20 /\ filled (replicate 64 0) buf' 0 20 (fun i => file_byte example_fs 3 (500 + i)))) /\
  josh_fat32_read_file (Some example_fs) (Some example_file) 601 (Some (replicate 64 0)) 20 (Some 1)
    = Some (JOSH_FAT32_BAD_PATH, Some (replicate 64 0), Some 0).
Proof.
  split.
  - destruct (fat_read_file_spec example_fs example_file 500 (replicate 64 0) 20 1 example_fs_ok) as (_ & _ & H);
      [vm_compute; split; (discriminate || reflexivity)..|vm_compute; discriminate|].
    destruct H as (st & buf' & r & H & Hgood & _); [reflexivity|vm_compute; discriminate|]. exists st, buf', r. split; [exact H|exact Hgood].
  - destruct (fat_read_file_spec example_fs example_file 601 (replicate 64 0) 20 1 example_fs_ok) as (_ & H & _);
      [vm_compute; split; (discriminate || reflexivity)..|vm_compute; discriminate|].
    apply H; vm_compute; reflexivity.
Defined.

(** The same read evaluated: twelve bytes of cluster 3 and eight of cluster 5. *)
Lemma example_read :
  josh_fat32_read_file (Some example_fs) (Some example_file) 500 (Some (replicate 22 0)) 20 (Some 1) =
  Some (JOSH_FAT32_OK, Some (replicate 12 7 ++ replicate 8 9 ++ [0; 0]), Some 20).
Proof. vm_compute. reflexivity. Qed.

(** A path component is accepted exactly when it is a legal 8.3 name (one to
    eight characters, optionally a dot and at most three more, letters, digits
    and the allowed punctuation), and the name searched for is its upper-case
    form padded with spaces; the function never reads past the component. *)
Theorem fat_short_name_iff name rest out :
  short_name_from_segment (Some (name ++ rest)) (zlen name) <> Stuck /\
  (short_name_from_segment (Some (name ++ rest)) (zlen name) = Ok out <-> names83 name out).
Proof. split; [apply short_name_not_stuck|apply short_name_iff]. Qed.

(** ** The size field of an opened file *)
Lemma entry_file_size e name f : bytes e -> entry_verdict name e (Some (Ok f)) -> in_u32 (ff_size f).
Proof.
  intros Hb H. inversion H; subst. cbn. unfold entry_field.
  assert (Hb4 : bytes (take 4 (drop 28 e))) by auto with josh. pose proof (le_value_range _ Hb4) as Hr.
  assert (Hz : zlen (take 4 (drop 28 e)) <= 4) by (unfold zlen; rewrite length_take; lia).
  assert (2 ^ (8 * zlen (take 4 (drop 28 e))) <= 2 ^ 32) by (apply Z.pow_le_mono_r; lia). unfold in_u32. lia.
Qed.

Lemma dir_entry_bytes fs dir k e : fs_ok fs -> dir_entry fs dir k = Some e -> bytes e.
Proof.
  intros Hok H. pose proof (ok_device _ Hok) as Hd. unfold dir_entry, cluster_entry in H.
  destruct (nth_cluster _ _ _) as [c|]; [|done].
  destruct (read_sector (fs_device fs) _) as [sector|] eqn:Er; [|done].
  destruct (read_sector_full _ _ _ Er) as [_ Hb]. exact (slice_bytes _ _ _ _ Hb H).
Qed.

Lemma resolves_size fs dir names f : fs_ok fs -> resolves fs dir names f -> in_u32 (ff_size f).
Proof.
  intros Hok H. induction H as [dir name out f _ (b & k & _ & Hv & _)|]; [|done].
  destruct Hv as (e & He & Hd). apply dir_entry_bytes in He; [|done]. by eapply entry_file_size.
Qed.


Lemma open_path_run fs path :
  fs_ok fs -> 0 ∈ path ->
  josh_fat32_open_path (Some fs) (Some path) (Some tt) <> Stuck /\
  forall f, josh_fat32_open_path (Some fs) (Some path) (Some tt) = Ok f ->
    (components [] path = [] /\
     f = {| ff_first_cluster := fs_root_cluster fs; ff_size := 0; ff_attributes := FAT_ATTR_DIRECTORY |}) \/
    resolves fs (fs_root_cluster fs) (components [] path) f.
Proof.
  intros Hok H0. unfold josh_fat32_open_path.
  destruct (skip_slashes_spec path H0) as (c & rest & -> & Hc & Hin & Hcomp & _). cbn [need res_bind].
  change (get8 (c :: rest) 0) with (Some c). cbn [need res_bind]. rewrite Hcomp.
  destruct (c =? 0) eqn:Ec.
  - split; [done|]. intros f [= <-]. left. split; [|done]. cbn [components]. by rewrite Ec.
  - destruct (path_loop_spec fs (length (c :: rest)) c rest (fs_root_cluster fs)) as [Hns Hres];
      [done|lia|done|lia|done|]. split; [done|]. intros f Hf. right. by apply Hres.
Qed.

(** Mounting reads nothing but the first sector of the partition. *)
Lemma mount_same d d' p fs :
  bd_sector_count d' = bd_sector_count d -> read_sector d' (pt_first_lba p) = read_sector d (pt_first_lba p) ->
  josh_fat32_mount (Some d) (Some p) (Some tt) = Ok fs ->
  josh_fat32_mount (Some d') (Some p) (Some tt) = Ok (on_device fs d').
Proof.
  intros Hn Hr H. unfold josh_fat32_mount in *. fold (read_sector d (pt_first_lba p)) in H. fold (read_sector d' (pt_first_lba p)).
  rewrite Hn, Hr. destruct (_ =? 0); [done|]. destruct (_ || _); [done|].
  destruct (read_sector d (pt_first_lba p)) as [boot|]; [|done].
  repeat match type of H with
  | context [need ?o] => destruct o; cbn [need res_bind] in *; [|done]
  | (if ?c then _ else _) = _ => destruct c; [done|]
  end.
  cbv zeta in *. repeat (destruct (_ : bool); [done|]).
  repeat match type of H with (if ?c then _ else _) = _ => destruct c; [done|] end.
  by injection H as <-.
Qed.

Lemma confined_to_partition fs d' path file offset buf length old :
  fs_ok fs -> 0 <= offset ->
  (forall lba, fs_partition_lba fs <= lba < fs_partition_lba fs + fs_partition_sectors fs ->
     read_sector d' lba = read_sector (fs_device fs) lba) ->
  josh_fat32_open_path (Some (on_device fs d')) path (Some tt) =
    josh_fat32_open_path (Some fs) path (Some tt) /\
  josh_fat32_read_file (Some (on_device fs d')) (Some file) offset (Some buf) length (Some old) =
    josh_fat32_read_file (Some fs) (Some file) offset (Some buf) length (Some old).
Proof.
  intros Hok Ho Hag. pose proof (cluster_size_pos fs Hok) as Hcs. split.
  - unfold josh_fat32_open_path. destruct path as [p|]; [|done].
    destruct (skip_slashes p) as [q|]; cbn [need res_bind]; [|done].
    destruct (get8 q 0); cbn [need res_bind]; [|done]. destruct (_ =? 0); [done|]. by apply confined_path.
  - unfold josh_fat32_read_file. change (cluster_valid (on_device fs d')) with (cluster_valid fs).
    change (fs_sectors_per_cluster (on_device fs d')) with (fs_sectors_per_cluster fs).
    change (fs_cluster_count (on_device fs d')) with (fs_cluster_count fs).
    unfold JOSH_BLOCK_SECTOR_SIZE. fold (cluster_size fs). rewrite (u32_id (cluster_size fs)) by word.
    rewrite (confined_skip fs d') by done.
    destruct (skip_loop fs _ _) as [c| |]; cbn [failing_with res_bind]; try done.
    rewrite (confined_read fs d') by (done || apply Z.mod_pos_bound; lia). done.
Qed.

(** C28: Isolation: opening a path and reading a file depend on no sector outside
    the partition.  Two devices that agree on the sectors of the partition give
    the same result, error paths included. *)
Theorem fat_confined_to_partition fs d' path file offset buf length old :
  fs_ok fs -> 0 <= offset ->
  (forall lba, fs_partition_lba fs <= lba < fs_partition_lba fs + fs_partition_sectors fs ->
     read_sector d' lba = read_sector (fs_device fs) lba) ->
  josh_fat32_open_path (Some (on_device fs d')) path (Some tt) =
    josh_fat32_open_path (Some fs) path (Some tt) /\
  josh_fat32_read_file (Some (on_device fs d')) (Some file) offset (Some buf) length (Some old) =
    josh_fat32_read_file (Some fs) (Some file) offset (Some buf) length (Some old).
Proof. apply confined_to_partition. Qed.

(** The example volume with something else in sector 0. *)
Definition example_content : list (Z * list Z) :=
  [(63, example_boot_sector); (95, example_fat_sector); (607, example_root_sector);
   (608, replicate 512 7); (610, replicate 512 9)].
Definition example_volume' : josh_block_device_t := sparse_device 80000 ((0, replicate 512 1) :: example_content).

Lemma example_volumes_agree lba :
  63 <= lba < 70063 -> read_sector example_volume' lba = read_sector example_volume lba.
Proof.
  intros Hl. unfold example_volume', example_volume, sparse_device.
  rewrite !disk_read_sector by word. change (sparse ((0, replicate 512 1) :: example_content) lba)
    with (if lba =? 0 then replicate 512 1 else sparse example_content lba).
  by replace (lba =? 0) with false by lia.
Qed.

Lemma fat_confined_to_partition_witness :
  josh_fat32_open_path (Some (on_device example_fs example_volume')) (Some example_path) (Some tt) =
    josh_fat32_open_path (Some example_fs) (Some example_path) (Some tt) /\
  josh_fat32_read_file (Some (on_device example_fs example_volume')) (Some example_file) 0 (Some [0]) 1 (Some 0) =
    josh_fat32_read_file (Some example_fs) (Some example_file) 0 (Some [0]) 1 (Some 0).
Proof.
  apply (fat_confined_to_partition example_fs example_volume' (Some example_path) example_file 0 [0] 1 0).
  - exact example_fs_ok.
  - lia.
  - exact example_volumes_agree.
Defined.
