(* ===== verification/Fat32Paths.v ===== *)
(** * Completeness of the FAT32 reader (boot/core/fat32.c)

    Fat32 shows that what the reader returns is right.  Here the converse: every
    file the directories contain is found, although the search visits at most
    one cluster more than the volume has, because a chain that long repeats
    itself and so do its entries; and mounting accepts exactly the boot sectors
    that describe a FAT32 layout inside the partition. *)
From S2P Require Import Prelude Block Partition Fat32.

Lemma verdict_fun name e r r' : verdict name e r -> verdict name e r' -> r = r'.
Proof. intros (x & -> & H) (y & [= <-] & H'). by eapply entry_verdict_fun. Qed.

(** Two scans that start together agree. *)
Lemma scanned_agree name entry a b b' x r :
  b <= b' -> scanned name entry a b (Some x) -> scanned name entry a b' r -> r = Some x.
Proof.
  intros Hb (k & Hk & Hv & Hbefore) H. destruct r as [y|]; cbn in H.
  - destruct H as (k' & Hk' & Hv' & Hbefore'). destruct (Z.lt_trichotomy k k') as [Hlt|[->|Hlt]].
    + by pose proof (verdict_fun _ _ _ _ Hv (Hbefore' k ltac:(lia))).
    + by rewrite (verdict_fun _ _ _ _ Hv Hv').
    + by pose proof (verdict_fun _ _ _ _ Hv' (Hbefore k' ltac:(lia))).
  - by pose proof (verdict_fun _ _ _ _ Hv (H k ltac:(lia))).
Qed.

Lemma scanned_skip name entry a a' b r :
  a <= a' -> scanned name entry a a' None -> scanned name entry a b r -> scanned name entry a' b r.
Proof.
  intros Ha H0 H. destruct r as [y|]; cbn in *; [|intros j Hj; apply H; lia].
  destruct H as (k & Hk & Hv & Hbefore). exists k. split; [|split; [done|intros j Hj; apply Hbefore; lia]].
  destruct (Z.lt_ge_cases k a'); [|lia]. by pose proof (verdict_fun _ _ _ _ Hv (H0 k ltac:(lia))).
Qed.

(** The first entry of a scan is there. *)
Lemma scanned_first name entry a b r : a < b -> scanned name entry a b r -> exists o, verdict name (entry a) o.
Proof.
  intros Hab H. destruct r as [y|]; cbn in H; [|exists None; apply H; lia].
  destruct H as (k & Hk & Hv & Hbefore). destruct (Z.eq_dec k a) as [->|]; [by eexists|]. exists None. apply Hbefore. lia.
Qed.

Section Search.
Context (fs : josh_fat32_t) (Hok : fs_ok fs).
Abbreviation epc := (entries_per_cluster fs).

Lemma sector_loop_scans c name n s r :
  2 <= c < fs_cluster_count fs + 2 -> zlen name = 11 -> 0 <= s -> s + Z.of_nat n = fs_sectors_per_cluster fs ->
  scanned name (cluster_entry fs c) (16 * s) epc r -> sector_loop fs (cluster_base fs c) name n s = Some r.
Proof.
  intros Hc Hn. revert s. induction n as [|n IH]; intros s Hs Hsn H; cbn [sector_loop].
  { destruct r as [y|]; [|done]. destruct H as (k & Hk & _). unfold entries_per_cluster in Hk. lia. }
  pose proof (cluster_base_range fs Hok c Hc). pose proof (ok_partition fs Hok). pose proof (fs_bounds fs Hok).
  pose proof (ok_device fs Hok) as Hd.
  rewrite (u64_id (cluster_base fs c + s)) by word. fold (read_sector (fs_device fs) (cluster_base fs c + s)).
  destruct (scanned_first name (cluster_entry fs c) (16 * s) epc r ltac:(unfold entries_per_cluster; lia) H) as (o & e & He & _).
  unfold cluster_entry in He. replace (16 * s / 16) with s in He by zdm.
  destruct (read_sector _ _) as [sec|] eqn:Er; [|done]. apply (read_sector_full (fs_device fs)) in Er as Hg.
  destruct (entry_loop_spec sec name 16 0 Hg Hn ltac:(lia) ltac:(lia)) as (r1 & Hr & Hsc).
  change (32 * 0) with 0 in Hr. rewrite Hr.
  apply (scanned_ext name _ (cluster_entry fs c) 0 16 (16 * s)) in Hsc.
  2: { intros j Hj. unfold cluster_entry. replace ((j + 16 * s) / 16) with s by zdm.
       replace ((j + 16 * s) mod 16) with j by zdm. by rewrite Er. }
  rewrite Z.add_0_l in Hsc. destruct r1 as [y|].
  - by rewrite (scanned_agree name (cluster_entry fs c) (16 * s) (16 + 16 * s) epc y r) by (done || (unfold entries_per_cluster; lia)).
  - apply IH; [lia..|]. replace (16 * (s + 1)) with (16 + 16 * s) by lia. eapply scanned_skip; [|exact Hsc|exact H]. lia.
Qed.

(** ** Chains *)
Lemma nth_cluster_valid n : forall c x, nth_cluster fs n c = Some x -> 2 <= x < fs_cluster_count fs + 2.
Proof.
  induction n as [|n IH]; intros c x H; rewrite (nth_cluster_unfold fs Hok) in H; destruct (cluster_valid fs c) eqn:E; try done; cbn [negb] in H.
  - injection H as <-. by apply (cluster_valid_iff fs Hok).
  - destruct (next_cluster fs c) as [v| |]; try done. destruct (v <? FAT32_EOC_MIN); [|done]. by apply IH in H.
Qed.

Lemma nth_cluster_add i : forall c x t, nth_cluster fs i c = Some x -> nth_cluster fs (i + t) c = nth_cluster fs t x.
Proof.
  induction i as [|i IH]; intros c x t H; rewrite (nth_cluster_unfold fs Hok) in H;
    destruct (cluster_valid fs c) eqn:E; try done; cbn [negb] in H; [by injection H as ->|].
  rewrite (nth_cluster_unfold fs Hok (S i + t)), E. cbn [negb Nat.add].
  destruct (next_cluster fs c) as [v| |]; try done. destruct (v <? FAT32_EOC_MIN); [|done]. by apply IH.
Qed.

Lemma nth_cluster_prefix i : forall c t, is_Some (nth_cluster fs (i + t) c) -> is_Some (nth_cluster fs i c).
Proof.
  induction i as [|i IH]; intros c t [x H]; rewrite (nth_cluster_unfold fs Hok) in H; rewrite (nth_cluster_unfold fs Hok); cbn [Nat.add] in *.
  - destruct t; cbn [nth_cluster] in H; destruct (cluster_valid fs c); try done; by eexists.
  - destruct (cluster_valid fs c); [|done]. cbn [negb] in *. destruct (next_cluster fs c) as [v| |]; try done.
    destruct (v <? FAT32_EOC_MIN); [|done]. apply (IH v t). by exists x.
Qed.

(** Entry [k] of a directory that comes back to the same cluster. *)
Lemma dir_entry_cycle c i j k x :
  nth_cluster fs i c = Some x -> nth_cluster fs j c = Some x -> (i < j)%nat -> Z.of_nat j * epc <= k ->
  dir_entry fs c (k - Z.of_nat (j - i) * epc) = dir_entry fs c k.
Proof.
  intros Hi Hj Hij Hk. pose proof (epc_pos fs Hok) as He. unfold dir_entry.
  replace (k - Z.of_nat (j - i) * epc) with (k + (- Z.of_nat (j - i)) * epc) by lia. rewrite Z.div_add, Z.mod_add by lia.
  assert (Hq : Z.of_nat j <= k / epc) by (apply Z.div_le_lower_bound; lia).
  set (t := (Z.to_nat (k / epc) - j)%nat).
  replace (Z.to_nat (k / epc + - Z.of_nat (j - i))) with (i + t)%nat by lia.
  replace (Z.to_nat (k / epc)) with (j + t)%nat by lia.
  by rewrite (nth_cluster_add i c x t Hi), (nth_cluster_add j c x t Hj).
Qed.

(** The first entry that ends a search lies in the first [cluster_count] clusters of the chain. *)
Lemma first_hit_early c name k x :
  0 <= k -> verdict name (dir_entry fs c k) (Some x) -> (forall j, 0 <= j < k -> verdict name (dir_entry fs c j) None) ->
  k / epc < fs_cluster_count fs.
Proof.
  intros Hk Hv Hbefore. pose proof (epc_pos fs Hok) as He. pose proof (fs_bounds fs Hok) as (_ & _ & _ & Hcc).
  set (K := Z.to_nat (k / epc)). assert (HK : Z.of_nat K = k / epc) by (unfold K; rewrite Z2Nat.id; [done|apply Z.div_pos; lia]).
  assert (Hs : is_Some (nth_cluster fs K c)).
  { destruct Hv as (e & Hde & _). unfold dir_entry in Hde. fold K in Hde. destruct (nth_cluster fs K c); [by eexists|done]. }
  set (f := fun i => default 0 (nth_cluster fs i c)).
  assert (Hf : forall i, (i <= K)%nat -> nth_cluster fs i c = Some (f i)).
  { intros i Hi. destruct (nth_cluster_prefix i c (K - i)) as [y Hy]; [by replace (i + (K - i))%nat with K by lia|].
    unfold f. by rewrite Hy. }
  assert (Hnd : NoDup (map f (seq 0 (S K)))).
  { apply (NoDup_fmap_2_strong f); [|apply NoDup_seq].
    assert (Hlt : forall i j, (i < j)%nat -> (j <= K)%nat -> f i <> f j).
    { intros i j Hij Hj E. pose proof (Z.mul_div_le k epc ltac:(lia)). pose proof (Hf i ltac:(lia)) as Hi'. pose proof (Hf j Hj) as Hj'. rewrite E in Hi'.
      pose proof (dir_entry_cycle c i j k (f j) Hi' Hj' Hij ltac:(nia)) as Hcy.
      specialize (Hbefore (k - Z.of_nat (j - i) * epc) ltac:(nia)). rewrite Hcy in Hbefore.
      by pose proof (verdict_fun _ _ _ _ Hv Hbefore). }
    intros i j Hi%elem_of_seq Hj%elem_of_seq E. destruct (Nat.lt_trichotomy i j) as [H|[H|H]]; [|done|].
    - by destruct (Hlt i j H ltac:(lia)).
    - by destruct (Hlt j i H ltac:(lia)). }
  assert (Hsub : incl (map f (seq 0 (S K))) (seqZ 2 (fs_cluster_count fs))).
  { intros y (i & <- & Hi%in_seq)%in_map_iff. apply list_elem_of_In, elem_of_seqZ.
    pose proof (nth_cluster_valid i c (f i) (Hf i ltac:(lia))). lia. }
  apply NoDup_ListNoDup in Hnd. pose proof (NoDup_incl_length Hnd Hsub) as Hlen.
  rewrite length_map, length_seq, length_seqZ in Hlen. lia.
Qed.
(** ** The search finds every entry *)
Lemma directory_loop_finds name f n : forall c k,
  zlen name = 11 -> 0 <= k -> k / epc < Z.of_nat n -> verdict name (dir_entry fs c k) (Some (Ok f)) ->
  (forall j, 0 <= j < k -> verdict name (dir_entry fs c j) None) -> directory_loop fs name n c = Ok f.
Proof.
  induction n as [|n IH]; intros c k Hn Hk Hlt Hv Hbefore; pose proof (epc_pos fs Hok) as He; pose proof (spc_range fs Hok) as Hspc.
  { assert (0 <= k / epc) by (apply Z.div_pos; lia). lia. }
  assert (Hc : 2 <= c < fs_cluster_count fs + 2).
  { destruct Hv as (e & Hde & _). unfold dir_entry in Hde. apply (cluster_valid_iff fs Hok).
    destruct (cluster_valid fs c) eqn:E; [done|]. by rewrite (nth_cluster_unfold fs Hok), E in Hde. }
  cbn [directory_loop]. rewrite (cluster_lba_ok fs Hok) by done. cbn [res_bind].
  destruct (Z.lt_ge_cases k epc) as [Hin|Hout].
  - rewrite (sector_loop_scans c name _ 0 (Some (Ok f))); try done; try lia. rewrite Z.mul_0_r. exists k. split; [lia|].
    rewrite <- (dir_entry_here fs Hok) by (done || lia). split; [done|].
    intros j Hj. rewrite <- (dir_entry_here fs Hok) by (done || lia). apply Hbefore. lia.
  - rewrite (sector_loop_scans c name _ 0 None); try done; try lia.
    2: { rewrite Z.mul_0_r. intros j Hj. rewrite <- (dir_entry_here fs Hok) by (done || lia). apply Hbefore. lia. }
    cbn [need res_bind]. assert (Hnext : forall j, 0 <= j -> dir_entry fs c (j + epc) =
      match next_cluster fs c with Ok v => if v <? FAT32_EOC_MIN then dir_entry fs v j else None | _ => None end)
      by (intros j Hj; by apply (dir_entry_next fs Hok)).
    replace k with (k - epc + epc) in Hv by lia. rewrite Hnext in Hv by lia.
    destruct (next_cluster fs c) as [v|e|]; [|by destruct Hv as (? & ? & _)..].
    destruct (v <? FAT32_EOC_MIN) eqn:Ev; [|by destruct Hv as (? & ? & _)].
    cbn [res_bind]. rewrite Z.geb_leb, (proj2 (Z.leb_gt _ _)) by lia. apply (IH v (k - epc)); try done; try lia.
    + replace (k - epc) with (k + (-1) * epc) by lia. rewrite Z.div_add by lia. lia.
    + intros j Hj. rewrite <- Hnext by lia. apply Hbefore. lia.
Qed.

Lemma find_in_directory_iff dir name f :
  zlen name = 11 -> find_in_directory fs dir name = Ok f <-> found_in fs dir name f.
Proof.
  intros Hn. split.
  - intros H. pose proof (directory_loop_spec fs Hok name (Z.to_nat (fs_cluster_count fs + 1)) dir Hn) as Hd.
    fold (find_in_directory fs dir name) in Hd. by rewrite H in Hd.
  - intros (b & k & Hk & Hv & Hbefore). pose proof (fs_bounds fs Hok) as (_ & _ & _ & Hcc).
    pose proof (first_hit_early dir name k (Ok f) ltac:(lia) Hv Hbefore).
    apply (directory_loop_finds name f _ dir k); try done; lia.
Qed.

(** ** Path resolution *)
Lemma names83_fun name out out' : names83 name out -> names83 name out' -> out = out'.
Proof. intros H%(short_name_iff name [])%eq_sym H'%(short_name_iff name []). congruence. Qed.

Lemma path_loop_resolves fuel c path dir f :
  (length (c :: path) <= fuel)%nat -> 0 ∈ c :: path -> c <> 0 -> c <> 47 ->
  resolves fs dir (components [] (c :: path)) f -> path_loop fs fuel (c :: path) dir = Ok f.
Proof.
  revert c path dir. induction fuel as [|fuel IH]; intros c path dir Hl H0 Hc0 Hc47 Hres; [cbn in Hl; lia|].
  cbn [path_loop]. destruct (skip_segment_spec (c :: path) H0) as (seg & c' & rest & Hp & Hf & Hc' & Hin & Hsk).
  rewrite Hsk. cbn [need res_bind]. rewrite Hp in *.
  assert (Hne : seg <> []) by (intros ->; injection Hp as -> _; naive_solver).
  assert (H0' : 0 ∈ c' :: rest) by (destruct Hc' as [->| ->]; [set_solver|right; by apply Hin]).
  destruct (skip_slashes_spec _ H0') as (c2 & rest2 & Hsl & Hc2 & Hin2 & Hcomp & Hl2).
  assert (Hcs : components [] (seg ++ c' :: rest) = seg :: components [] (c2 :: rest2))
    by (rewrite <- Hcomp; by apply components_cons_seg).
  rewrite Hcs in Hres.
  assert (Hhead : exists out d, names83 seg out /\ found_in fs dir out d /\
    ((components [] (c2 :: rest2) = [] /\ d = f) \/
     (Z.testbit (ff_attributes d) 4 = true /\ 2 <= ff_first_cluster d < fs_cluster_count fs + 2 /\
      resolves fs (ff_first_cluster d) (components [] (c2 :: rest2)) f))).
  { revert Hres. generalize (components [] (c2 :: rest2)). intros cs Hres.
    inversion Hres; subst; eexists _, _; split_and!; try done; auto. }
  destruct Hhead as (out & d & Hn & Hfo & Hcase). rewrite (proj2 (short_name_iff seg (c' :: rest) out) Hn). cbn [res_bind].
  rewrite (proj2 (find_in_directory_iff dir out d (names83_length _ _ Hn)) Hfo). cbn [res_bind]. rewrite Hsl. cbn [need res_bind].
  change (get8 (c2 :: rest2) 0) with (Some c2). cbn [need res_bind].
  destruct (c2 =? 0) eqn:Ec2.
  - destruct Hcase as [[_ ->]|(_ & _ & Hr)]; [done|]. assert (c2 = 0) as -> by lia. cbn in Hr. inversion Hr.
  - destruct (components_start c2 rest2) as (nm & more & Hnm); [lia|done|].
    destruct Hcase as [[E _]|(Ha & Hv & Hr)]; [by rewrite Hnm in E|].
    rewrite <- bit_set_iff in Ha by lia. change (Z.shiftl 1 4) with FAT_ATTR_DIRECTORY in Ha. apply negb_true_iff in Ha.
    rewrite Ha, (proj2 (cluster_valid_iff fs Hok _) Hv). cbn [negb]. apply IH; try done; [|lia].
    rewrite length_app in Hl. destruct seg; [done|]. cbn in *. lia.
Qed.
End Search.

(** ** Mounting *)
Definition bpb_total (b : bpb) : Z := if bpb_total16 b =? 0 then bpb_total32 b else bpb_total16 b.
Definition bpb_data_start (b : bpb) : Z := bpb_reserved b + bpb_fat_count b * bpb_fat32 b.
Definition bpb_clusters (b : bpb) : Z := (bpb_total b - bpb_data_start b) / bpb_sectors_per_cluster b.

Lemma bpb_total_range b : in_u16 (bpb_total16 b) -> in_u32 (bpb_total32 b) -> in_u32 (bpb_total b).
Proof. intros H16 H32. unfold bpb_total. destruct (bpb_total16 b =? 0); word. Qed.

(** A boot sector that describes a FAT32 layout in a partition of [sectors] sectors. *)
Definition describes_fat32 (b : bpb) (sectors : Z) : Prop :=
  bpb_bytes_per_sector b = 512 /\ (exists k, 0 <= k <= 7 /\ bpb_sectors_per_cluster b = 2 ^ k) /\
  1 <= bpb_reserved b /\ 1 <= bpb_fat_count b <= 2 /\ 1 <= bpb_fat32 b /\ bpb_root_entries b = 0 /\ bpb_fat16 b = 0 /\
  1 <= bpb_total b <= sectors /\ bpb_data_start b < bpb_total b /\
  FAT32_MIN_CLUSTERS <= bpb_clusters b /\ 2 <= bpb_root_cluster b < bpb_clusters b + 2.

Definition layout_of (d : josh_block_device_t) (p : josh_partition_t) (b : bpb) : josh_fat32_t :=
  {| fs_device := d; fs_partition_lba := pt_first_lba p; fs_partition_sectors := bpb_total b; fs_fat_lba := bpb_reserved b;
     fs_data_lba := bpb_data_start b; fs_sectors_per_fat := bpb_fat32 b; fs_cluster_count := bpb_clusters b;
     fs_root_cluster := bpb_root_cluster b; fs_sectors_per_cluster := bpb_sectors_per_cluster b; fs_fat_count := bpb_fat_count b |}.

Lemma power_of_two_u8_iff v : in_u8 v -> (power_of_two_u8 v && negb (v >? 128) = true <-> exists k, 0 <= k <= 7 /\ v = 2 ^ k).
Proof.
  intros Hv. split.
  - intros [Hp Hle]%andb_true_iff. apply power_of_two_u8_inv; [done|done|lia].
  - intros (k & Hk & ->). assert (Hin : In k [0;1;2;3;4;5;6;7]) by (cbn; lia). cbn in Hin.
    destruct Hin as [<-|[<-|[<-|[<-|[<-|[<-|[<-|[<-|[]]]]]]]]]; reflexivity.
Qed.

(** The tests on the parameter block, as one. *)
Definition bpb_tests (b : bpb) (sectors : Z) : bool :=
  (bpb_bytes_per_sector b =? 512) && (power_of_two_u8 (bpb_sectors_per_cluster b) && negb (bpb_sectors_per_cluster b >? 128)) &&
  negb ((bpb_reserved b =? 0) || (bpb_fat_count b =? 0) || (bpb_fat_count b >? 2) || negb (bpb_root_entries b =? 0)
        || negb (bpb_fat16 b =? 0) || (bpb_fat32 b =? 0)) &&
  negb ((bpb_total b =? 0) || (bpb_total b >? sectors)) && negb (bpb_data_start b >=? bpb_total b) &&
  negb (bpb_clusters b <? FAT32_MIN_CLUSTERS) && negb ((bpb_root_cluster b <? 2) || (bpb_root_cluster b >=? bpb_clusters b + 2)).

Lemma bpb_tests_iff b sectors :
  in_u8 (bpb_sectors_per_cluster b) -> in_u16 (bpb_reserved b) -> in_u8 (bpb_fat_count b) -> in_u32 (bpb_fat32 b) -> in_u32 (bpb_total b) ->
  bpb_tests b sectors = true <-> describes_fat32 b sectors.
Proof.
  intros Hs Hr Hf H32 Ht. unfold bpb_tests, describes_fat32. pose proof (power_of_two_u8_iff _ Hs) as Hpow.
  remember (power_of_two_u8 (bpb_sectors_per_cluster b) && _) as pow eqn:Ep. clear Ep.
  rewrite !andb_true_iff, Hpow, !negb_true_iff, !orb_false_iff, !negb_false_iff.
  unfold in_u8, in_u16, in_u32 in *. rewrite !Z.eqb_eq. split; intros; destruct_and!; split_and!; try done; lia.
Qed.

Lemma mount_run d p boot b :
  JoshBlockDevice d -> in_u64 (pt_first_lba p) -> in_u64 (pt_sector_count p) ->
  0 < pt_sector_count p -> pt_first_lba p + pt_sector_count p <= bd_sector_count d ->
  read_sector d (pt_first_lba p) = Some boot -> get8 boot 510 = Some 0x55 -> get8 boot 511 = Some 0xAA -> read_bpb boot = Some b ->
  if bpb_tests b (pt_sector_count p)
  then josh_fat32_mount (Some d) (Some p) (Some tt) = Ok (layout_of d p b)
  else exists e, josh_fat32_mount (Some d) (Some p) (Some tt) = Err e.
Proof.
  intros Hd Hf Hc Hc0 Hfc Hr E510 E511 Hb. pose proof (device_size_u64 (d := d)) as Hds. pose proof (read_good d _ _ Hr) as Hg.
  destruct (read_bpb_ok boot Hg) as (b' & Hb' & Hspc & Hres & Hfcn & Ht16 & Ht32 & Hf32 & Hrc). rewrite Hb in Hb'. injection Hb' as <-.
  unfold josh_fat32_mount. rewrite (proj2 (Z.eqb_neq (pt_sector_count p) 0)) by lia.
  rewrite (u64_id (bd_sector_count d - _)) by word.
  replace ((pt_first_lba p >=? bd_sector_count d) || _) with false by lia.
  fold (read_sector d (pt_first_lba p)). rewrite Hr, E510, E511, Hb. cbn [need res_bind Z.eqb Pos.eqb negb orb].
  unfold bpb_tests, JOSH_BLOCK_SECTOR_SIZE. destruct (bpb_bytes_per_sector b =? 512); cbn [negb andb]; [|by eexists].
  replace (negb (power_of_two_u8 (bpb_sectors_per_cluster b)) || (bpb_sectors_per_cluster b >? 128)) with
    (negb (power_of_two_u8 (bpb_sectors_per_cluster b) && negb (bpb_sectors_per_cluster b >? 128)))
    by (by rewrite negb_andb, negb_involutive).
  destruct (power_of_two_u8 (bpb_sectors_per_cluster b) && _) eqn:Epow; cbn [negb andb]; [|by eexists].
  apply (power_of_two_u8_iff _ Hspc) in Epow as (k & Hk & Hspck).
  destruct (_ || (bpb_fat32 b =? 0)) eqn:E3; cbn [negb andb]; [by eexists|].
  assert (Htt : (if negb (bpb_total16 b =? 0) then bpb_total16 b else bpb_total32 b) = bpb_total b)
    by (unfold bpb_total; by destruct (bpb_total16 b =? 0)).
  rewrite Htt. assert (Htot : in_u32 (bpb_total b)) by by apply bpb_total_range.
  destruct ((bpb_total b =? 0) || _) eqn:E4; cbn [negb andb]; [by eexists|].
  pose proof (fat_area_bound (bpb_fat_count b) (bpb_fat32 b) ltac:(word) Hf32) as Hfa.
  rewrite (u64_id (bpb_fat_count b * bpb_fat32 b)), (u64_id (bpb_reserved b + _)) by word. fold (bpb_data_start b).
  destruct (bpb_data_start b >=? bpb_total b) eqn:E5; cbn [negb andb]; [by eexists|].
  assert (Hds' : 0 <= bpb_data_start b) by (unfold bpb_data_start; word).
  assert (Hdata : u32 (u64 (u32 (bpb_total b - bpb_reserved b) - bpb_fat_count b * bpb_fat32 b)) = bpb_total b - bpb_data_start b).
  { unfold bpb_data_start in *. rewrite (u32_id (_ - bpb_reserved b)), (u64_id (_ - _ - _)), u32_id by word. lia. }
  rewrite Hdata. fold (bpb_clusters b). assert (Hcl : 0 <= bpb_clusters b <= bpb_total b - bpb_data_start b).
  { assert (1 <= bpb_sectors_per_cluster b) by (rewrite Hspck; pose proof (Z.pow_pos_nonneg 2 k); lia).
    unfold bpb_clusters. split; [apply Z.div_pos; lia|]. apply Z.div_le_upper_bound; nia. }
  destruct (bpb_clusters b <? FAT32_MIN_CLUSTERS) eqn:E6; cbn [negb andb]; [by eexists|].
  assert (2 <= bpb_data_start b) by (unfold bpb_data_start, in_u8, in_u16, in_u32 in *; nia).
  rewrite (u32_id (bpb_clusters b + 2)), (u32_id (bpb_data_start b)) by word.
  destruct ((bpb_root_cluster b <? 2) || _); cbn [negb andb]; [by eexists|done].
Qed.

(** C36: Mounting accepts exactly the FAT32 volumes. For a partition inside the device, mounting
    succeeds if and only if the first sector of the partition can be read, carries the boot signature
    and describes, in exact arithmetic, 512-byte sectors, clusters of 1 to 128 sectors (a power of
    two), reserved sectors, one or two FATs and data clusters that follow one another inside the
    partition, no FAT12/16 fields, at least 65525 clusters and a root cluster among them; the result
    is that layout, with no intermediate value wrapped around. *)
Theorem fat_mount_iff (d : josh_block_device_t) (p : josh_partition_t) (fs : josh_fat32_t) :
  JoshBlockDevice d -> in_u64 (pt_first_lba p) -> in_u64 (pt_sector_count p) ->
  josh_fat32_mount (Some d) (Some p) (Some tt) = Ok fs <->
  0 < pt_sector_count p /\ pt_first_lba p + pt_sector_count p <= bd_sector_count d /\
  exists boot b, read_sector d (pt_first_lba p) = Some boot /\ get8 boot 510 = Some 0x55 /\ get8 boot 511 = Some 0xAA /\
    read_bpb boot = Some b /\ describes_fat32 b (pt_sector_count p) /\ fs = layout_of d p b.
Proof.
  intros Hd Hf Hc. split.
  - intros H. pose proof H as Hm. unfold josh_fat32_mount in H. pose proof (device_size_u64 (d := d)) as Hds.
    destruct (pt_sector_count p =? 0) eqn:E0; [done|]. destruct ((pt_first_lba p >=? _) || _) eqn:E1; [done|].
    rewrite u64_id in E1 by word. fold (read_sector d (pt_first_lba p)) in H.
    destruct (read_sector d (pt_first_lba p)) as [boot|] eqn:Er; [|done]. pose proof (read_good d _ _ Er) as Hg.
    destruct (sector_get8 boot Hg 510) as (s0 & Hs0 & _); [lia|]. destruct (sector_get8 boot Hg 511) as (s1 & Hs1 & _); [lia|].
    rewrite Hs0, Hs1 in H. cbn [need res_bind] in H. destruct (negb (s0 =? 85) || _) eqn:Esig; [done|].
    assert (s0 = 0x55 /\ s1 = 0xAA) as [-> ->] by lia.
    destruct (read_bpb_ok boot Hg) as (b & Hb & Hspc & Hres & Hfc & Ht16 & Ht32 & Hf32 & Hrc).
    assert (Hc0 : 0 < pt_sector_count p) by (unfold in_u64 in *; lia).
    assert (Hfit : pt_first_lba p + pt_sector_count p <= bd_sector_count d) by lia.
    pose proof (mount_run d p boot b Hd Hf Hc Hc0 Hfit Er Hs0 Hs1 Hb) as Hrun. split; [done|]. split; [done|].
    destruct (bpb_tests b (pt_sector_count p)) eqn:Et; [|destruct Hrun as [e He]; congruence].
    exists boot, b. split_and!; try done; [|congruence].
    apply bpb_tests_iff; try done. by apply bpb_total_range.
  - intros (Hc0 & Hfit & boot & b & Er & Hs0 & Hs1 & Hb & Hdesc & ->).
    pose proof (mount_run d p boot b Hd Hf Hc Hc0 Hfit Er Hs0 Hs1 Hb) as Hrun.
    destruct (read_bpb_ok boot (read_good d _ _ Er)) as (b' & Hb' & Hspc & Hres & Hfc & Ht16 & Ht32 & Hf32 & Hrc).
    rewrite Hb in Hb'. injection Hb' as <-.
    rewrite (proj2 (bpb_tests_iff b (pt_sector_count p) Hspc Hres Hfc Hf32 (bpb_total_range b Ht16 Ht32)) Hdesc) in Hrun. done.
Qed.

Lemma fat_mount_iff_witness :
  exists boot b, read_sector example_volume (pt_first_lba example_partition) = Some boot /\ read_bpb boot = Some b /\
    describes_fat32 b (pt_sector_count example_partition) /\ example_fs = layout_of example_volume example_partition b.
Proof.
  destruct (proj1 (fat_mount_iff example_volume example_partition example_fs example_volume_ok
    ltac:(vm_compute; split; [discriminate|reflexivity]) ltac:(vm_compute; split; [discriminate|reflexivity])) example_mount)
    as (_ & _ & boot & b & Hr & _ & _ & Hb & Hd & He).
  exists boot, b. split; [exact Hr|]. split; [exact Hb|]. split; [exact Hd|exact He].
Defined.

(** What a path names: the root directory without components, else what they resolve to from there. *)
Definition path_names (fs : josh_fat32_t) (path : list Z) (f : josh_fat32_file_t) : Prop :=
  (components [] path = [] /\
   f = {| ff_first_cluster := fs_root_cluster fs; ff_size := 0; ff_attributes := FAT_ATTR_DIRECTORY |}) \/
  resolves fs (fs_root_cluster fs) (components [] path) f.

(** C24: Opening a zero-terminated path on a mounted file system always returns, and it returns the file
    if and only if the path names it: either the path has no components and the result is the root
    directory, or its components resolve one after the other. Every component is a legal 8.3
    name. The entries of a directory are the 32-byte records of the clusters its FAT chain
    runs through, read up to the end mark; the one taken is the first whose first byte is not
    the deleted mark 0xE5, whose attributes are neither those of a long name nor have the volume bit,
    and whose eleven bytes are the name in capitals, padded. The file has the cluster, size and
    attributes at their places in that entry, with a cluster unless it is empty. Every component
    but the last has the directory bit and a first cluster of the volume. The limit on the clusters
    visited never hides a file. *)
Theorem fat_open_path_iff (fs : josh_fat32_t) (path : list Z) :
  fs_ok fs -> 0 ∈ path ->
  josh_fat32_open_path (Some fs) (Some path) (Some tt) <> Stuck /\
  forall f, josh_fat32_open_path (Some fs) (Some path) (Some tt) = Ok f <-> path_names fs path f.
Proof.
  intros Hok H0. destruct (open_path_run fs path Hok H0) as [Hns Hsound]. split; [done|]. intros f. split; [apply Hsound|].
  intros H. unfold path_names in H. unfold josh_fat32_open_path.
  destruct (skip_slashes_spec path H0) as (c & rest & -> & Hc & Hin & Hcomp & _). cbn [need res_bind].
  change (get8 (c :: rest) 0) with (Some c). cbn [need res_bind]. rewrite Hcomp in H.
  destruct (c =? 0) eqn:Ec.
  - destruct H as [[_ ->]|H]; [done|]. cbn [components] in H. rewrite Ec in H. inversion H.
  - destruct H as [[H _]|H]; [destruct (components_start c rest) as (n & m & E); [lia|done|congruence]|].
    apply (path_loop_resolves fs Hok); try done; lia.
Qed.

Lemma fat_open_path_iff_witness :
  josh_fat32_open_path (Some example_fs) (Some example_path) (Some tt) = Ok example_file /\
  resolves example_fs 2 (components [] example_path) example_file.
Proof.
  assert (H0 : 0 ∈ example_path) by (apply list_elem_of_In; vm_compute; intuition congruence).
  assert (H : josh_fat32_open_path (Some example_fs) (Some example_path) (Some tt) = Ok example_file) by (vm_compute; reflexivity).
  split; [exact H|]. destruct (proj1 (proj2 (fat_open_path_iff example_fs example_path example_fs_ok H0) example_file) H) as [[E _]|Hr].
  - vm_compute in E. discriminate E.
  - exact Hr.
Defined.
