(* ===== verification/Config.v ===== *)
(** * The boot configuration parser (boot/core/config.c, boot/core/config.h)

    [josh_boot_config_parse] reads [key=value] lines into a record of fixed
    character arrays.  A span is a pointer and a length: the list of characters
    from the pointer on, and an integer.  The helpers are only called with
    non-null pointers, so their null checks are left out; the two pointers of
    the entry point are options.  Since the configuration is written while
    parsing, it is returned with every status; [None] is an access outside an
    array. *)
From S2P Require Import Prelude Runtime32.

Definition JOSH_BOOT_CONFIG_VERSION : Z := 1.
Definition JOSH_BOOT_CONFIG_MAX_BYTES : Z := 1024.
Definition JOSH_BOOT_CONFIG_ENTRY_ID_MAX : Z := 15.
Definition JOSH_BOOT_CONFIG_NAME_MAX : Z := 31.
Definition JOSH_BOOT_CONFIG_PATH_MAX : Z := 95.
Definition JOSH_BOOT_CONFIG_CMDLINE_MAX : Z := 127.
Definition JOSH_BOOT_CONFIG_FLAG_RECOVERY : Z := 1.
Definition JOSH_BOOT_CONFIG_FLAG_DEVELOPMENT : Z := 2.

Inductive josh_boot_config_status_t :=
| JOSH_CONFIG_OK
| JOSH_CONFIG_INVALID_ARGUMENT
| JOSH_CONFIG_TOO_LARGE
| JOSH_CONFIG_SYNTAX
| JOSH_CONFIG_UNKNOWN_KEY
| JOSH_CONFIG_DUPLICATE_KEY
| JOSH_CONFIG_MISSING_REQUIRED
| JOSH_CONFIG_UNSUPPORTED_VERSION
| JOSH_CONFIG_INVALID_VALUE
| JOSH_CONFIG_UNSUPPORTED_FEATURE.

Record josh_boot_config_t := {
  bc_version : Z;
  bc_timeout_seconds : Z;
  bc_flags : Z;
  bc_default_entry : list Z;
  bc_entry_id : list Z;
  bc_display_name : list Z;
  bc_kernel_path : list Z;
  bc_previous_kernel_path : list Z;
  bc_recovery_kernel_path : list Z;
  bc_command_line : list Z
}.

Definition FIELD_VERSION : Z := 1.
Definition FIELD_DEFAULT : Z := 2.
Definition FIELD_TIMEOUT : Z := 4.
Definition FIELD_ENTRY : Z := 8.
Definition FIELD_NAME : Z := 16.
Definition FIELD_KERNEL : Z := 32.
Definition FIELD_CMDLINE : Z := 64.
Definition FIELD_FLAGS : Z := 128.
Definition FIELD_PREVIOUS_KERNEL : Z := 256.
Definition FIELD_RECOVERY_KERNEL : Z := 512.
Definition REQUIRED_FIELDS : Z :=
  Z.lor (Z.lor (Z.lor (Z.lor (Z.lor FIELD_VERSION FIELD_DEFAULT) FIELD_TIMEOUT) FIELD_ENTRY)
    FIELD_NAME) FIELD_KERNEL.

(** The record after [zero_bytes]. *)
Definition zero_config : josh_boot_config_t :=
  {| bc_version := 0; bc_timeout_seconds := 0; bc_flags := 0;
     bc_default_entry := replicate 16 0; bc_entry_id := replicate 16 0;
     bc_display_name := replicate 32 0; bc_kernel_path := replicate 96 0;
     bc_previous_kernel_path := replicate 96 0; bc_recovery_kernel_path := replicate 96 0;
     bc_command_line := replicate 128 0 |}.

(** A string literal in memory. *)
Definition lit (s : string) : list Z := chars s ++ [0].
Arguments lit s%_string.

(** ** Spans *)
Fixpoint span_equal_loop (text : list Z) (length : Z) (literal : list Z) (i : Z) : option bool :=
  match literal with
  | [] => None
  | c :: rest =>
      if c =? 0 then Some (i =? length)
      else if i >=? length then Some false
      else
        let? t := get8 text i in
        if negb (t =? c) then Some false else span_equal_loop text length rest (i + 1)
  end.

Definition span_equal (text : list Z) (length : Z) (literal : list Z) : option bool :=
  span_equal_loop text length literal 0.

(** [Some (Some d)]: returned 1 with the destination [d]; [Some None]: returned 0. *)
Definition copy_value (destination : list Z) (capacity : Z) (value : list Z) (length : Z)
    : option (option (list Z)) :=
  if (capacity =? 0) || (length >=? capacity) then Some None
  else
    let? d := memcpy destination value (Z.to_nat length) in
    if length >=? zlen d then None else Some (Some (<[Z.to_nat length := 0]> d)).

(** [for (i = 0; i < n; ++i) if (!ok(value[i])) return 0; return 1;] *)
Fixpoint all_chars (ok : Z -> bool) (value : list Z) (n : nat) (i : Z) {struct n} : option bool :=
  match n with
  | O => Some true
  | S n' =>
      let? c := get8 value i in
      if ok c then all_chars ok value n' (i + 1) else Some false
  end.

Definition entry_id_char (c : Z) : bool :=
  ((c >=? 97) && (c <=? 122)) || ((c >=? 65) && (c <=? 90)) || ((c >=? 48) && (c <=? 57))
  || (c =? 45) || (c =? 95).

Definition entry_id_valid (value : list Z) (length : Z) : option bool :=
  if (length =? 0) || (length >? JOSH_BOOT_CONFIG_ENTRY_ID_MAX) then Some false
  else all_chars entry_id_char value (Z.to_nat length) 0.

Definition display_name_valid (value : list Z) (length : Z) : option bool :=
  if (length =? 0) || (length >? JOSH_BOOT_CONFIG_NAME_MAX) then Some false
  else all_chars (fun c => negb ((c <? 0x20) || (c >? 0x7e))) value (Z.to_nat length) 0.

Definition path_valid (value : list Z) (length : Z) : option bool :=
  if (length <? 2) || (length >? JOSH_BOOT_CONFIG_PATH_MAX) then Some false
  else
    let? c0 := get8 value 0 in
    if negb (c0 =? 47) then Some false
    else all_chars (fun c => negb ((c <? 0x21) || (c >? 0x7e) || (c =? 92))) value (Z.to_nat length) 0.

Definition command_line_valid (value : list Z) (length : Z) : option bool :=
  if length >? JOSH_BOOT_CONFIG_CMDLINE_MAX then Some false
  else all_chars (fun c => negb ((c <? 0x20) || (c >? 0x7e))) value (Z.to_nat length) 0.

(** [Some (Some v)]: returned 1 with [*out = v]. *)
Fixpoint parse_u32_loop (value : list Z) (n : nat) (i result : Z) {struct n} : option (option Z) :=
  match n with
  | O => Some (Some result)
  | S n' =>
      let? c := get8 value i in
      if (c <? 48) || (c >? 57) then Some None
      else
        let digit := c - 48 in
        if result >? (0xffffffff - digit) / 10 then Some None
        else parse_u32_loop value n' (i + 1) (u32 (u32 (result * 10) + digit))
  end.

Definition parse_u32 (value : list Z) (length : Z) : option (option Z) :=
  if length =? 0 then Some None else parse_u32_loop value (Z.to_nat length) 0 0.

(** [while (pos < pos + n && text[pos] != stop) ++pos;] *)
Fixpoint scan_to (text : list Z) (stop : Z) (n : nat) (pos : Z) {struct n} : option Z :=
  match n with
  | O => Some pos
  | S n' =>
      let? c := get8 text pos in
      if negb (c =? stop) then scan_to text stop n' (pos + 1) else Some pos
  end.

(** The loop over the comma-separated flags: the returned [int] and [*flags]. *)
Fixpoint flags_loop (value : list Z) (length : Z) (fuel : nat) (start flags : Z) {struct fuel}
    : option (bool * Z) :=
  if start <? length then
    match fuel with
    | O => None
    | S fuel' =>
        let? end_ := scan_to value 44 (Z.to_nat (length - start)) start in
        if end_ =? start then Some (false, flags)
        else
          let item := drop (Z.to_nat start) value in
          let? is_recovery := span_equal item (end_ - start) (lit "recovery") in
          let? is_development := span_equal item (end_ - start) (lit "development") in
          let bit := if is_recovery then JOSH_BOOT_CONFIG_FLAG_RECOVERY
                     else JOSH_BOOT_CONFIG_FLAG_DEVELOPMENT in
          if negb is_recovery && negb is_development then Some (false, flags)
          else if negb (Z.land flags bit =? 0) then Some (false, flags)
          else
            let flags := Z.lor flags bit in
            if end_ =? length then Some (true, flags)
            else
              let start := end_ + 1 in
              if start >=? length then Some (false, flags)
              else flags_loop value length fuel' start flags
    end
  else Some (true, flags).

Definition parse_flags (value : list Z) (length : Z) : option (bool * Z) :=
  if length =? 0 then Some (true, 0)
  else
    let? none := span_equal value length (lit "none") in
    if none then Some (true, 0) else flags_loop value length (Z.to_nat length) 0 0.

(** ** Fields *)
Definition fields : list (list Z * Z) :=
  [(lit "version", FIELD_VERSION);
   (lit "default", FIELD_DEFAULT);
   (lit "timeout", FIELD_TIMEOUT);
   (lit "entry", FIELD_ENTRY);
   (lit "name", FIELD_NAME);
   (lit "kernel", FIELD_KERNEL);
   (lit "previous_kernel", FIELD_PREVIOUS_KERNEL);
   (lit "recovery_kernel", FIELD_RECOVERY_KERNEL);
   (lit "cmdline", FIELD_CMDLINE);
   (lit "flags", FIELD_FLAGS)].

Fixpoint field_loop (table : list (list Z * Z)) (key : list Z) (key_length : Z) : option Z :=
  match table with
  | [] => Some 0
  | (name, field) :: rest =>
      let? same := span_equal key key_length name in
      if same then Some field else field_loop rest key key_length
  end.

Definition field_from_key (key : list Z) (key_length : Z) : option Z :=
  field_loop fields key key_length.

Definition unsupported_key (key : list Z) (key_length : Z) : option bool :=
  let? m := span_equal key key_length (lit "module") in
  if m then Some true else span_equal key key_length (lit "initrd").

(** The record with one member replaced. *)
Definition with_version (c : josh_boot_config_t) (v : Z) : josh_boot_config_t :=
  {| bc_version := v; bc_timeout_seconds := bc_timeout_seconds c; bc_flags := bc_flags c;
     bc_default_entry := bc_default_entry c; bc_entry_id := bc_entry_id c;
     bc_display_name := bc_display_name c; bc_kernel_path := bc_kernel_path c;
     bc_previous_kernel_path := bc_previous_kernel_path c;
     bc_recovery_kernel_path := bc_recovery_kernel_path c; bc_command_line := bc_command_line c |}.
Definition with_timeout (c : josh_boot_config_t) (v : Z) : josh_boot_config_t :=
  {| bc_version := bc_version c; bc_timeout_seconds := v; bc_flags := bc_flags c;
     bc_default_entry := bc_default_entry c; bc_entry_id := bc_entry_id c;
     bc_display_name := bc_display_name c; bc_kernel_path := bc_kernel_path c;
     bc_previous_kernel_path := bc_previous_kernel_path c;
     bc_recovery_kernel_path := bc_recovery_kernel_path c; bc_command_line := bc_command_line c |}.
Definition with_flags (c : josh_boot_config_t) (v : Z) : josh_boot_config_t :=
  {| bc_version := bc_version c; bc_timeout_seconds := bc_timeout_seconds c; bc_flags := v;
     bc_default_entry := bc_default_entry c; bc_entry_id := bc_entry_id c;
     bc_display_name := bc_display_name c; bc_kernel_path := bc_kernel_path c;
     bc_previous_kernel_path := bc_previous_kernel_path c;
     bc_recovery_kernel_path := bc_recovery_kernel_path c; bc_command_line := bc_command_line c |}.
Definition with_default (c : josh_boot_config_t) (v : list Z) : josh_boot_config_t :=
  {| bc_version := bc_version c; bc_timeout_seconds := bc_timeout_seconds c; bc_flags := bc_flags c;
     bc_default_entry := v; bc_entry_id := bc_entry_id c;
     bc_display_name := bc_display_name c; bc_kernel_path := bc_kernel_path c;
     bc_previous_kernel_path := bc_previous_kernel_path c;
     bc_recovery_kernel_path := bc_recovery_kernel_path c; bc_command_line := bc_command_line c |}.
Definition with_entry (c : josh_boot_config_t) (v : list Z) : josh_boot_config_t :=
  {| bc_version := bc_version c; bc_timeout_seconds := bc_timeout_seconds c; bc_flags := bc_flags c;
     bc_default_entry := bc_default_entry c; bc_entry_id := v;
     bc_display_name := bc_display_name c; bc_kernel_path := bc_kernel_path c;
     bc_previous_kernel_path := bc_previous_kernel_path c;
     bc_recovery_kernel_path := bc_recovery_kernel_path c; bc_command_line := bc_command_line c |}.
Definition with_name (c : josh_boot_config_t) (v : list Z) : josh_boot_config_t :=
  {| bc_version := bc_version c; bc_timeout_seconds := bc_timeout_seconds c; bc_flags := bc_flags c;
     bc_default_entry := bc_default_entry c; bc_entry_id := bc_entry_id c;
     bc_display_name := v; bc_kernel_path := bc_kernel_path c;
     bc_previous_kernel_path := bc_previous_kernel_path c;
     bc_recovery_kernel_path := bc_recovery_kernel_path c; bc_command_line := bc_command_line c |}.
Definition with_kernel (c : josh_boot_config_t) (v : list Z) : josh_boot_config_t :=
  {| bc_version := bc_version c; bc_timeout_seconds := bc_timeout_seconds c; bc_flags := bc_flags c;
     bc_default_entry := bc_default_entry c; bc_entry_id := bc_entry_id c;
     bc_display_name := bc_display_name c; bc_kernel_path := v;
     bc_previous_kernel_path := bc_previous_kernel_path c;
     bc_recovery_kernel_path := bc_recovery_kernel_path c; bc_command_line := bc_command_line c |}.
Definition with_previous (c : josh_boot_config_t) (v : list Z) : josh_boot_config_t :=
  {| bc_version := bc_version c; bc_timeout_seconds := bc_timeout_seconds c; bc_flags := bc_flags c;
     bc_default_entry := bc_default_entry c; bc_entry_id := bc_entry_id c;
     bc_display_name := bc_display_name c; bc_kernel_path := bc_kernel_path c;
     bc_previous_kernel_path := v;
     bc_recovery_kernel_path := bc_recovery_kernel_path c; bc_command_line := bc_command_line c |}.
Definition with_recovery (c : josh_boot_config_t) (v : list Z) : josh_boot_config_t :=
  {| bc_version := bc_version c; bc_timeout_seconds := bc_timeout_seconds c; bc_flags := bc_flags c;
     bc_default_entry := bc_default_entry c; bc_entry_id := bc_entry_id c;
     bc_display_name := bc_display_name c; bc_kernel_path := bc_kernel_path c;
     bc_previous_kernel_path := bc_previous_kernel_path c;
     bc_recovery_kernel_path := v; bc_command_line := bc_command_line c |}.
Definition with_cmdline (c : josh_boot_config_t) (v : list Z) : josh_boot_config_t :=
  {| bc_version := bc_version c; bc_timeout_seconds := bc_timeout_seconds c; bc_flags := bc_flags c;
     bc_default_entry := bc_default_entry c; bc_entry_id := bc_entry_id c;
     bc_display_name := bc_display_name c; bc_kernel_path := bc_kernel_path c;
     bc_previous_kernel_path := bc_previous_kernel_path c;
     bc_recovery_kernel_path := bc_recovery_kernel_path c; bc_command_line := v |}.

Definition set_version (config : josh_boot_config_t) (value : list Z) (value_length : Z)
    : option (josh_boot_config_status_t * josh_boot_config_t) :=
  let? parsed := parse_u32 value value_length in
  match parsed with
  | None => Some (JOSH_CONFIG_INVALID_VALUE, config)
  | Some version =>
      if negb (version =? JOSH_BOOT_CONFIG_VERSION)
      then Some (JOSH_CONFIG_UNSUPPORTED_VERSION, config)
      else Some (JOSH_CONFIG_OK, with_version config version)
  end.

Definition set_timeout (config : josh_boot_config_t) (value : list Z) (value_length : Z)
    : option (josh_boot_config_status_t * josh_boot_config_t) :=
  let? parsed := parse_u32 value value_length in
  match parsed with
  | None => Some (JOSH_CONFIG_INVALID_VALUE, config)
  | Some timeout =>
      if timeout >? 30 then Some (JOSH_CONFIG_INVALID_VALUE, config)
      else Some (JOSH_CONFIG_OK, with_timeout config timeout)
  end.

(** The common shape [if (!valid || !copy_value(...)) return INVALID_VALUE;]
    of the character-array members: the new array when both succeed. *)
Definition checked_copy (valid : option bool) (destination : list Z) (capacity : Z)
    (value : list Z) (value_length : Z) : option (option (list Z)) :=
  let? ok := valid in
  if negb ok then Some None else copy_value destination capacity value value_length.

Definition set_text (config : josh_boot_config_t) (update : josh_boot_config_t -> list Z -> josh_boot_config_t)
    (copied : option (option (list Z))) : option (josh_boot_config_status_t * josh_boot_config_t) :=
  let? r := copied in
  match r with
  | None => Some (JOSH_CONFIG_INVALID_VALUE, config)
  | Some d => Some (JOSH_CONFIG_OK, update config d)
  end.

Definition set_entry_value (destination : list Z) (capacity : Z) (value : list Z) (value_length : Z)
    : option (option (list Z)) :=
  checked_copy (entry_id_valid value value_length) destination capacity value value_length.

Definition set_name (config : josh_boot_config_t) (value : list Z) (value_length : Z)
    : option (josh_boot_config_status_t * josh_boot_config_t) :=
  set_text config with_name
    (checked_copy (display_name_valid value value_length)
       (bc_display_name config) (JOSH_BOOT_CONFIG_NAME_MAX + 1) value value_length).

Definition set_path (config : josh_boot_config_t) (field : Z) (value : list Z) (value_length : Z)
    : option (josh_boot_config_status_t * josh_boot_config_t) :=
  let capacity := JOSH_BOOT_CONFIG_PATH_MAX + 1 in
  if field =? FIELD_PREVIOUS_KERNEL then
    set_text config with_previous
      (checked_copy (path_valid value value_length) (bc_previous_kernel_path config) capacity value value_length)
  else if field =? FIELD_RECOVERY_KERNEL then
    set_text config with_recovery
      (checked_copy (path_valid value value_length) (bc_recovery_kernel_path config) capacity value value_length)
  else
    set_text config with_kernel
      (checked_copy (path_valid value value_length) (bc_kernel_path config) capacity value value_length).

Definition apply_field (config : josh_boot_config_t) (field : Z) (value : list Z) (value_length : Z)
    : option (josh_boot_config_status_t * josh_boot_config_t) :=
  if field =? FIELD_VERSION then set_version config value value_length
  else if field =? FIELD_TIMEOUT then set_timeout config value value_length
  else if field =? FIELD_DEFAULT then
    set_text config with_default
      (set_entry_value (bc_default_entry config) (JOSH_BOOT_CONFIG_ENTRY_ID_MAX + 1) value value_length)
  else if field =? FIELD_ENTRY then
    set_text config with_entry
      (set_entry_value (bc_entry_id config) (JOSH_BOOT_CONFIG_ENTRY_ID_MAX + 1) value value_length)
  else if field =? FIELD_NAME then set_name config value value_length
  else if (field =? FIELD_KERNEL) || (field =? FIELD_PREVIOUS_KERNEL) || (field =? FIELD_RECOVERY_KERNEL)
  then set_path config field value value_length
  else if field =? FIELD_CMDLINE then
    set_text config with_cmdline
      (checked_copy (command_line_valid value value_length)
         (bc_command_line config) (JOSH_BOOT_CONFIG_CMDLINE_MAX + 1) value value_length)
  else if field =? FIELD_FLAGS then
    let? (ok, flags) := parse_flags value value_length in
    Some (if ok then JOSH_CONFIG_OK else JOSH_CONFIG_INVALID_VALUE, with_flags config flags)
  else Some (JOSH_CONFIG_UNKNOWN_KEY, config).

(** Returns the status, the configuration and [*seen]. *)
Definition set_field (config : josh_boot_config_t) (seen : Z) (key : list Z) (key_length : Z)
    (value : list Z) (value_length : Z)
    : option (josh_boot_config_status_t * josh_boot_config_t * Z) :=
  let? field := field_from_key key key_length in
  if field =? 0 then
    let? unsupported := unsupported_key key key_length in
    Some (if unsupported then JOSH_CONFIG_UNSUPPORTED_FEATURE else JOSH_CONFIG_UNKNOWN_KEY, config, seen)
  else if negb (Z.land seen field =? 0) then Some (JOSH_CONFIG_DUPLICATE_KEY, config, seen)
  else
    let? (status, config) := apply_field config field value value_length in
    Some (status, config, Z.lor seen field).

(** ** Lines *)
Fixpoint line_loop (text : list Z) (length : Z) (fuel : nat) (position : Z)
    (config : josh_boot_config_t) (seen : Z) {struct fuel}
    : option (josh_boot_config_status_t * josh_boot_config_t * Z) :=
  if position <? length then
    match fuel with
    | O => None
    | S fuel' =>
        let line_start := position in
        let? position := scan_to text 10 (Z.to_nat (length - position)) position in
        let line_end := position in
        let? position :=
          (if position <? length then
             let? c := get8 text position in Some (if c =? 10 then position + 1 else position)
           else Some position) in
        let? line_end :=
          (if line_end >? line_start then
             let? c := get8 text (line_end - 1) in Some (if c =? 13 then line_end - 1 else line_end)
           else Some line_end) in
        if line_end =? line_start then line_loop text length fuel' position config seen
        else
          let? c := get8 text line_start in
          if c =? 35 then line_loop text length fuel' position config seen
          else
            let? equals := scan_to text 61 (Z.to_nat (line_end - line_start)) line_start in
            if (equals =? line_start) || (equals =? line_end)
            then Some (JOSH_CONFIG_SYNTAX, config, seen)
            else
              let? (status, config, seen) :=
                set_field config seen (drop (Z.to_nat line_start) text) (equals - line_start)
                  (drop (Z.to_nat (equals + 1)) text) (line_end - equals - 1) in
              match status with
              | JOSH_CONFIG_OK => line_loop text length fuel' position config seen
              | _ => Some (status, config, seen)
              end
    end
  else Some (JOSH_CONFIG_OK, config, seen).

(** [while (text[n]) ++n;] *)
Fixpoint text_length (text : list Z) : option Z :=
  match text with
  | [] => None
  | c :: rest => if c =? 0 then Some 0 else let? n := text_length rest in Some (n + 1)
  end.

Definition josh_boot_config_parse (text : option (list Z)) (length : Z)
    (config : option josh_boot_config_t)
    : option (josh_boot_config_status_t * option josh_boot_config_t) :=
  match text, config with
  | Some text, Some _ =>
      if (length =? 0) || (length >? JOSH_BOOT_CONFIG_MAX_BYTES)
      then Some (JOSH_CONFIG_TOO_LARGE, config)
      else
        let? (status, config, seen) := line_loop text length (Z.to_nat length) 0 zero_config 0 in
        match status with
        | JOSH_CONFIG_OK =>
            if negb (Z.land seen REQUIRED_FIELDS =? REQUIRED_FIELDS)
            then Some (JOSH_CONFIG_MISSING_REQUIRED, Some config)
            else
              let? default_length := text_length (bc_default_entry config) in
              let? entry_length := text_length (bc_entry_id config) in
              if negb (default_length =? entry_length) then Some (JOSH_CONFIG_INVALID_VALUE, Some config)
              else
                let? same := span_equal (bc_default_entry config) default_length (bc_entry_id config) in
                if negb same then Some (JOSH_CONFIG_INVALID_VALUE, Some config)
                else Some (JOSH_CONFIG_OK, Some config)
        | _ => Some (status, Some config)
        end
  | _, _ => Some (JOSH_CONFIG_INVALID_ARGUMENT, config)
  end.

(** The switch of [josh_boot_config_status_string], on the integer value. *)
Definition josh_boot_config_status_string (status : Z) : string :=
  match status with
  | 0 => "ok"
  | 1 => "invalid argument"
  | 2 => "config too large"
  | 3 => "syntax error"
  | 4 => "unknown key"
  | 5 => "duplicate key"
  | 6 => "missing required field"
  | 7 => "unsupported version"
  | 8 => "invalid value"
  | 9 => "unsupported feature"
  | _ => "unknown config error"
  end.

(** ** Spans as lists

    A span is read only inside its length, so every helper sees exactly the
    list of its characters. *)
Lemma get8_at pre x post : get8 (pre ++ x :: post) (zlen pre) = Some x.
Proof.
  unfold get8. assert (0 <= zlen pre) by word. replace (zlen pre <? 0) with false by lia.
  unfold zlen. rewrite Nat2Z.id. by apply list_lookup_middle.
Qed.

Lemma get8_span v rest i : i < zlen v -> get8 (v ++ rest) i = get8 v i.
Proof.
  intros Hi. unfold get8. destruct (i <? 0) eqn:E; [done|]. apply lookup_app_l. unfold zlen in Hi. lia.
Qed.

Lemma zlen_app (l k : list Z) : zlen (l ++ k) = zlen l + zlen k.
Proof. unfold zlen. rewrite length_app. lia. Qed.

Lemma zlen_cons (x : Z) l : zlen (x :: l) = 1 + zlen l.
Proof. unfold zlen. cbn [length]. lia. Qed.

Lemma zlen_nonneg (l : list Z) : 0 <= zlen l.
Proof. word. Qed.

Lemma app_shift (pre : list Z) x l : pre ++ x :: l = (pre ++ [x]) ++ l.
Proof. by rewrite <- app_assoc. Qed.

Lemma span_equal_ext v rest len lit i :
  len <= zlen v -> 0 <= i -> span_equal_loop (v ++ rest) len lit i = span_equal_loop v len lit i.
Proof.
  intros Hl. revert i. induction lit as [|c lit IH]; intros i Hi; [done|]. cbn [span_equal_loop].
  destruct (c =? 0); [done|]. destruct (i >=? len) eqn:E; [done|]. rewrite get8_span by lia.
  destruct (get8 v i); [|done]. destruct (negb _); [done|]. apply IH. lia.
Qed.

Lemma span_equal_spec pre v l junk :
  0 ∉ l -> span_equal_loop (pre ++ v) (zlen pre + zlen v) (l ++ 0 :: junk) (zlen pre) = Some (bool_decide (v = l)).
Proof.
  revert pre v. induction l as [|c l IH]; intros pre v H0; cbn [span_equal_loop app].
  - change (0 =? 0) with true. cbn match. f_equal. pose proof (zlen_nonneg v). destruct v as [|x v].
    + change (zlen (@nil Z)) with 0. rewrite Z.add_0_r, Z.eqb_refl. done.
    + rewrite zlen_cons in *. pose proof (zlen_nonneg v).
      replace (zlen pre =? _) with false by lia. done.
  - assert (c <> 0) by set_solver. replace (c =? 0) with false by lia. destruct v as [|x v].
    + change (zlen (@nil Z)) with 0. replace (zlen pre >=? zlen pre + 0) with true by lia. done.
    + rewrite zlen_cons. pose proof (zlen_nonneg v). replace (zlen pre >=? _) with false by lia.
      rewrite get8_at. destruct (x =? c) eqn:Ex; cbn [negb].
      * assert (x = c) as -> by lia. rewrite app_shift.
        replace (zlen pre + (1 + zlen v)) with (zlen (pre ++ [c]) + zlen v) by (rewrite zlen_app, zlen_cons; change (zlen (@nil Z)) with 0; lia).
        replace (zlen pre + 1) with (zlen (pre ++ [c])) by (rewrite zlen_app; done).
        rewrite IH by set_solver. f_equal. apply bool_decide_ext. split; [by intros -> |by intros [= ->]].
      * f_equal. symmetry. apply bool_decide_eq_false. intros [= -> ->]. lia.
Qed.

Lemma span_equal_lit v s : 0 ∉ chars s -> span_equal v (zlen v) (lit s) = Some (bool_decide (v = chars s)).
Proof. intros H0. apply (span_equal_spec [] v (chars s) [] H0). Qed.

Lemma all_chars_spec ok pre v rest :
  all_chars ok (pre ++ v ++ rest) (length v) (zlen pre) = Some (forallb ok v).
Proof.
  revert pre. induction v as [|x v IH]; intros pre; [done|]. cbn [length all_chars app forallb].
  rewrite get8_at. destruct (ok x); [|done]. rewrite app_shift.
  replace (zlen pre + 1) with (zlen (pre ++ [x])) by (rewrite zlen_app; done). by rewrite IH.
Qed.

Lemma all_chars_all ok v rest : all_chars ok (v ++ rest) (Z.to_nat (zlen v)) 0 = Some (forallb ok v).
Proof. unfold zlen. rewrite Nat2Z.id. apply (all_chars_spec ok []). Qed.

Lemma scan_to_none stop pre v rest :
  stop ∉ v -> scan_to (pre ++ v ++ rest) stop (length v) (zlen pre) = Some (zlen pre + zlen v).
Proof.
  revert pre. induction v as [|x v IH]; intros pre Hs; cbn [length scan_to app].
  { change (zlen (@nil Z)) with 0. by rewrite Z.add_0_r. }
  rewrite get8_at. assert (x <> stop) by set_solver. replace (x =? stop) with false by lia. cbn [negb].
  rewrite app_shift. replace (zlen pre + 1) with (zlen (pre ++ [x])) by (rewrite zlen_app; done).
  rewrite IH by set_solver. rewrite zlen_app, !zlen_cons. change (zlen (@nil Z)) with 0. f_equal. lia.
Qed.

Lemma scan_to_first stop pre a b rest :
  stop ∉ a ->
  scan_to (pre ++ (a ++ stop :: b) ++ rest) stop (length (a ++ stop :: b)) (zlen pre) = Some (zlen pre + zlen a).
Proof.
  revert pre. induction a as [|x a IH]; intros pre Hs; cbn [length scan_to app]; rewrite get8_at.
  { rewrite Z.eqb_refl. change (zlen (@nil Z)) with 0. by rewrite Z.add_0_r. }
  assert (x <> stop) by set_solver. replace (x =? stop) with false by lia. cbn [negb].
  rewrite app_shift. replace (zlen pre + 1) with (zlen (pre ++ [x])) by (rewrite zlen_app; done).
  rewrite IH by set_solver. rewrite zlen_app, !zlen_cons. change (zlen (@nil Z)) with 0. f_equal. lia.
Qed.

Lemma scan_to_ext v rest stop n i :
  i + Z.of_nat n <= zlen v -> scan_to (v ++ rest) stop n i = scan_to v stop n i.
Proof.
  revert i. induction n as [|n IH]; intros i Hi; [done|]. cbn [scan_to]. rewrite get8_span by lia.
  destruct (get8 v i); [|done]. destruct (negb _); [|done]. apply IH. lia.
Qed.

Lemma scan_to_total v stop n i :
  0 <= i -> i + Z.of_nat n <= zlen v -> exists e, scan_to v stop n i = Some e /\ i <= e <= i + Z.of_nat n.
Proof.
  revert i. induction n as [|n IH]; intros i Hi Hl; cbn [scan_to]; [exists i; split; [done|lia]|].
  destruct (get8_Some v i) as [c ->]; [lia|]. destruct (negb _); [|exists i; split; [done|lia]].
  destruct (IH (i + 1)) as (e & He & Hr); [lia..|]. exists e. split; [done|lia].
Qed.

(** ** Decimal numbers *)
Definition is_digit (c : Z) : bool := (48 <=? c) && (c <=? 57).
Definition decimal_from (r : Z) (v : list Z) : Z := foldl (fun a c => a * 10 + (c - 48)) r v.
Definition decimal (v : list Z) : Z := decimal_from 0 v.

Lemma decimal_ge r v : 0 <= r -> forallb is_digit v = true -> r <= decimal_from r v.
Proof.
  revert r. induction v as [|c v IH]; intros r Hr Hv; [done|]. cbn in Hv. apply andb_true_iff in Hv as [Hc Hv].
  unfold is_digit in Hc. cbn. specialize (IH (r * 10 + (c - 48)) ltac:(lia) Hv). unfold decimal_from in IH. lia.
Qed.

Lemma parse_u32_loop_spec pre v rest r :
  in_u32 r ->
  parse_u32_loop (pre ++ v ++ rest) (length v) (zlen pre) r =
  Some (if forallb is_digit v && (decimal_from r v <? 2 ^ 32) then Some (decimal_from r v) else None).
Proof.
  revert pre r. induction v as [|c v IH]; intros pre r Hr; cbn [length parse_u32_loop app].
  { change (decimal_from r []) with r. cbn [forallb andb].
    rewrite (proj2 (Z.ltb_lt r (2 ^ 32))) by word. done. }
  rewrite get8_at. unfold in_u32 in Hr. cbn [forallb]. unfold is_digit at 1.
  destruct ((c <? 48) || (c >? 57)) eqn:Ec.
  { replace ((48 <=? c) && (c <=? 57)) with false by lia. done. }
  replace ((48 <=? c) && (c <=? 57)) with true by lia. cbn [andb].
  change (decimal_from r (c :: v)) with (decimal_from (r * 10 + (c - 48)) v).
  destruct (r >? (4294967295 - (c - 48)) / 10) eqn:Eo.
  - assert (2 ^ 32 <= r * 10 + (c - 48)) by zdm.
    destruct (forallb is_digit v) eqn:Ev; cbn [andb]; [|done].
    pose proof (decimal_ge (r * 10 + (c - 48)) v ltac:(lia) Ev).
    by replace (_ <? 2 ^ 32) with false by lia.
  - assert (r * 10 + (c - 48) < 2 ^ 32) by zdm.
    rewrite (u32_id (r * 10)) by word. rewrite u32_id by word. rewrite app_shift.
    replace (zlen pre + 1) with (zlen (pre ++ [c])) by (rewrite zlen_app; done). apply IH. word.
Qed.

Lemma parse_u32_spec v rest :
  parse_u32 (v ++ rest) (zlen v) =
  Some (if negb (zlen v =? 0) && forallb is_digit v && (decimal v <? 2 ^ 32) then Some (decimal v) else None).
Proof.
  unfold parse_u32. destruct (zlen v =? 0) eqn:E; [done|]. unfold zlen. rewrite Nat2Z.id.
  apply (parse_u32_loop_spec [] v rest 0). word.
Qed.

(** ** Flags *)
Lemma span_equal_total v len l junk i :
  0 ∉ l -> 0 <= i -> len <= zlen v -> exists b, span_equal_loop v len (l ++ 0 :: junk) i = Some b.
Proof.
  intros H0. revert i. induction l as [|c l IH]; intros i Hi Hl; cbn [span_equal_loop app]; [by eexists|].
  assert (c <> 0) by set_solver. replace (c =? 0) with false by lia.
  destruct (i >=? len) eqn:E; [by eexists|]. destruct (get8_Some v i) as [t ->]; [lia|].
  destruct (negb _); [by eexists|]. apply IH; [set_solver|lia..].
Qed.

Lemma chars_no_zero (s : string) : forallb (fun c => negb (c =? 0)) (chars s) = true -> 0 ∉ chars s.
Proof.
  intros H Hin. rewrite forallb_forall in H. apply list_elem_of_In, H in Hin. done.
Qed.

Ltac no_zero := apply chars_no_zero; reflexivity.

Definition flags_ok (f : Z) : Prop := 0 <= f <= 3.

Lemma flags_or f b : flags_ok f -> b = 1 \/ b = 2 -> flags_ok (Z.lor f b).
Proof.
  unfold flags_ok. intros Hf Hb. assert (f = 0 \/ f = 1 \/ f = 2 \/ f = 3) as [->|[->|[->| ->]]] by lia;
    destruct Hb as [->| ->]; vm_compute; split; discriminate.
Qed.

Lemma flags_loop_spec v rest fuel start f :
  0 <= start <= zlen v -> zlen v - start <= Z.of_nat fuel -> flags_ok f ->
  flags_loop (v ++ rest) (zlen v) fuel start f = flags_loop v (zlen v) fuel start f /\
  exists b f', flags_loop v (zlen v) fuel start f = Some (b, f') /\ flags_ok f'.
Proof.
  revert start f. induction fuel as [|fuel IH]; intros start f Hs Hf Hok; cbn [flags_loop].
  { replace (start <? zlen v) with false by lia. split; [done|by eexists _, _]. }
  destruct (start <? zlen v) eqn:E; [|split; [done|by eexists _, _]].
  rewrite scan_to_ext by lia.
  destruct (scan_to_total v 44 (Z.to_nat (zlen v - start)) start) as (e & -> & He); [lia..|].
  destruct (e =? start) eqn:Ee; [split; [done|by eexists _, _]|].
  assert (Hd : drop (Z.to_nat start) (v ++ rest) = drop (Z.to_nat start) v ++ rest)
    by (apply drop_app_le; unfold zlen in *; lia).
  assert (Hz : zlen (drop (Z.to_nat start) v) = zlen v - start) by (unfold zlen in *; rewrite length_drop; lia).
  rewrite Hd. unfold span_equal. rewrite !span_equal_ext by lia.
  destruct (span_equal_total (drop (Z.to_nat start) v) (e - start) (chars "recovery") [] 0) as [r Hr];
    [no_zero|lia..|].
  destruct (span_equal_total (drop (Z.to_nat start) v) (e - start) (chars "development") [] 0) as [d Hdv];
    [no_zero|lia..|].
  unfold lit. rewrite Hr, Hdv.
  destruct (negb r && negb d); [split; [done|by eexists _, _]|].
  destruct (negb (Z.land _ _ =? 0)); [split; [done|by eexists _, _]|].
  set (f' := Z.lor f _). assert (Hf' : flags_ok f') by (apply flags_or; [done|]; destruct r; [by left|by right]).
  clearbody f'. destruct (e =? zlen v) eqn:Ev; [split; [done|by eexists _, _]|].
  destruct (e + 1 >=? zlen v) eqn:E1; [split; [done|by eexists _, _]|].
  apply IH; [lia|lia|done].
Qed.

Lemma parse_flags_spec v rest :
  parse_flags (v ++ rest) (zlen v) = parse_flags v (zlen v) /\
  exists b f, parse_flags v (zlen v) = Some (b, f) /\ flags_ok f.
Proof.
  assert (Hf0 : flags_ok 0) by (unfold flags_ok; lia).
  unfold parse_flags. destruct (zlen v =? 0); [split; [done|by eexists _, _]|].
  pose proof (zlen_nonneg v). unfold span_equal. rewrite span_equal_ext by lia.
  destruct (span_equal_total v (zlen v) (chars "none") [] 0) as [b Hb]; [no_zero|lia..|].
  unfold lit. rewrite Hb. destruct b; [split; [done|by eexists _, _]|]. apply flags_loop_spec; [lia|lia|done].
Qed.

(** ** Copying into the character arrays *)
Lemma copy_value_spec d cap v rest :
  zlen d = cap -> 0 < cap ->
  copy_value d cap (v ++ rest) (zlen v) =
  Some (if zlen v <? cap then Some (v ++ 0 :: drop (S (length v)) d) else None).
Proof.
  intros Hd Hc. unfold copy_value. pose proof (zlen_nonneg v).
  destruct (zlen v <? cap) eqn:E.
  2: { replace ((cap =? 0) || (zlen v >=? cap)) with true by lia. done. }
  replace ((cap =? 0) || (zlen v >=? cap)) with false by lia.
  unfold zlen at 1. rewrite Nat2Z.id, memcpy_take_drop by (rewrite ?length_app; unfold zlen in *; lia).
  rewrite take_app_length, zlen_app.
  assert (Hdl : zlen (drop (length v) d) = cap - zlen v) by (unfold zlen in *; rewrite length_drop; lia).
  replace (zlen v >=? zlen v + zlen (drop (length v) d)) with false by lia. do 2 f_equal.
  unfold zlen. rewrite Nat2Z.id. replace (length v) with (length v + 0)%nat at 1 by lia.
  rewrite insert_app_r. f_equal.
  destruct (drop (length v) d) as [|x l] eqn:Edr; [unfold zlen in Hdl; cbn in Hdl; unfold zlen in E; lia|].
  cbn. f_equal. change (S (length v)) with (1 + length v)%nat. rewrite Nat.add_comm, <- drop_drop, Edr. done.
Qed.

(** The arrays keep their size. *)
Definition arrays_ok (c : josh_boot_config_t) : Prop :=
  zlen (bc_default_entry c) = 16 /\ zlen (bc_entry_id c) = 16 /\ zlen (bc_display_name c) = 32 /\
  zlen (bc_kernel_path c) = 96 /\ zlen (bc_previous_kernel_path c) = 96 /\
  zlen (bc_recovery_kernel_path c) = 96 /\ zlen (bc_command_line c) = 128.

Lemma zlen_stored (d : list Z) v :
  zlen v < zlen d -> zlen (v ++ 0 :: drop (S (length v)) d) = zlen d.
Proof. intros H. unfold zlen in *. rewrite length_app. cbn [length]. rewrite length_drop. lia. Qed.

(** The predicates on exact values. *)
Definition id_chars : list Z := chars "abcdefghijklmnopqrstuvwxyzABCDEFGHIJKLMNOPQRSTUVWXYZ0123456789-_".
Definition id_char (c : Z) : bool := existsb (Z.eqb c) id_chars.

Lemma entry_id_char_spec c : entry_id_char c = id_char c.
Proof.
  assert (Hall : forallb (fun x => Bool.eqb (entry_id_char x) (id_char x)) (seqZ 0 123) = true)
    by (vm_compute; reflexivity).
  assert (Hin : forallb (fun x => (0 <=? x) && (x <? 123)) id_chars = true) by (vm_compute; reflexivity).
  rewrite forallb_forall in Hall, Hin. destruct (decide (0 <= c < 123)) as [Hc|Hc].
  - assert (H : In c (seqZ 0 123)) by (apply list_elem_of_In, elem_of_seqZ; lia).
    by apply Hall, Bool.eqb_prop in H.
  - assert (entry_id_char c = false) as -> by (unfold entry_id_char; lia). symmetry.
    destruct (id_char c) eqn:E; [|done]. apply existsb_exists in E as (x & Hx & Hcx). apply Hin in Hx. lia.
Qed.

Definition entry_id_ok (v : list Z) : bool :=
  negb (zlen v =? 0) && (zlen v <=? 15) && forallb id_char v.
Definition printable (c : Z) : bool := (0x20 <=? c) && (c <=? 0x7e).
Definition name_ok (v : list Z) : bool := negb (zlen v =? 0) && (zlen v <=? 31) && forallb printable v.
Definition path_char (c : Z) : bool := (0x21 <=? c) && (c <=? 0x7e) && negb (c =? 92).
Definition path_ok (v : list Z) : bool :=
  (2 <=? zlen v) && (zlen v <=? 95) && match v with c :: _ => c =? 47 | [] => false end && forallb path_char v.
Definition cmdline_ok (v : list Z) : bool := (zlen v <=? 127) && forallb printable v.

Lemma forallb_ext' (f g : Z -> bool) l : (forall x, f x = g x) -> forallb f l = forallb g l.
Proof. intros H. induction l; cbn; [done|]. by rewrite H, IHl. Qed.

Lemma entry_id_valid_spec v rest : entry_id_valid (v ++ rest) (zlen v) = Some (entry_id_ok v).
Proof.
  unfold entry_id_valid, entry_id_ok, JOSH_BOOT_CONFIG_ENTRY_ID_MAX. rewrite all_chars_all.
  rewrite (forallb_ext' _ id_char) by apply entry_id_char_spec.
  destruct (zlen v =? 0), (zlen v >? 15) eqn:E; cbn [orb negb andb]; try done.
  - by replace (zlen v <=? 15) with false by lia.
  - by replace (zlen v <=? 15) with true by lia.
Qed.

Lemma display_name_valid_spec v rest : display_name_valid (v ++ rest) (zlen v) = Some (name_ok v).
Proof.
  unfold display_name_valid, name_ok, JOSH_BOOT_CONFIG_NAME_MAX. rewrite all_chars_all.
  rewrite (forallb_ext' _ printable) by (intros; unfold printable; lia).
  destruct (zlen v =? 0), (zlen v >? 31) eqn:E; cbn [orb negb andb]; try done.
  - by replace (zlen v <=? 31) with false by lia.
  - by replace (zlen v <=? 31) with true by lia.
Qed.

Lemma command_line_valid_spec v rest : command_line_valid (v ++ rest) (zlen v) = Some (cmdline_ok v).
Proof.
  unfold command_line_valid, cmdline_ok, JOSH_BOOT_CONFIG_CMDLINE_MAX. rewrite all_chars_all.
  rewrite (forallb_ext' _ printable) by (intros; unfold printable; lia).
  destruct (zlen v >? 127) eqn:E.
  - by replace (zlen v <=? 127) with false by lia.
  - by replace (zlen v <=? 127) with true by lia.
Qed.

Lemma path_valid_spec v rest : path_valid (v ++ rest) (zlen v) = Some (path_ok v).
Proof.
  unfold path_valid, path_ok, JOSH_BOOT_CONFIG_PATH_MAX. rewrite all_chars_all.
  rewrite (forallb_ext' _ path_char) by (intros; unfold path_char; lia).
  destruct ((zlen v <? 2) || (zlen v >? 95)) eqn:E.
  { by replace ((2 <=? zlen v) && (zlen v <=? 95)) with false by lia. }
  replace ((2 <=? zlen v) && (zlen v <=? 95)) with true by lia. cbn [andb].
  destruct v as [|c v]; [done|]. cbn [app]. change (get8 (c :: v ++ rest) 0) with (Some c).
  cbn beta iota. by destruct (c =? 47).
Qed.

(** ** The reference parser

    The same language on lists: the text is split into lines, a line into key
    and value, and each setting is applied to the configuration. *)
Definition store (d v : list Z) : list Z := v ++ 0 :: drop (S (length v)) d.

Definition text_ref (c : josh_boot_config_t) (update : josh_boot_config_t -> list Z -> josh_boot_config_t)
    (d v : list Z) (ok : bool) : josh_boot_config_status_t * josh_boot_config_t :=
  if ok then (JOSH_CONFIG_OK, update c (store d v)) else (JOSH_CONFIG_INVALID_VALUE, c).

Definition number (v : list Z) : option Z :=
  if negb (zlen v =? 0) && forallb is_digit v && (decimal v <? 2 ^ 32) then Some (decimal v) else None.

(** Nothing or none, or a list of different flags between commas: recovery is 1, development 2. *)
Fixpoint split_commas (acc text : list Z) : list (list Z) :=
  match text with
  | [] => [acc]
  | c :: rest => if c =? 44 then acc :: split_commas [] rest else split_commas (acc ++ [c]) rest
  end.

Fixpoint items_ref (f : Z) (items : list (list Z)) : bool * Z :=
  match items with
  | [] => (true, f)
  | item :: rest =>
      if bool_decide (item = chars "recovery") && negb (Z.odd f) then items_ref (f + 1) rest
      else if bool_decide (item = chars "development") && (f <? 2) then items_ref (f + 2) rest
      else (false, f)
  end.

Definition flags_ref (v : list Z) : bool * Z :=
  if bool_decide (v = []) || bool_decide (v = chars "none") then (true, 0) else items_ref 0 (split_commas [] v).

Lemma split_commas_run acc a rest : 44 ∉ a -> split_commas acc (a ++ rest) = split_commas (acc ++ a) rest.
Proof.
  revert acc. induction a as [|x a IH]; intros acc Ha; cbn; [by rewrite app_nil_r|].
  assert (x <> 44) by set_solver. replace (x =? 44) with false by lia.
  rewrite IH by set_solver. by rewrite <- app_assoc.
Qed.

Lemma span_equal_key k rest s :
  0 ∉ chars s -> span_equal (k ++ rest) (zlen k) (lit s) = Some (bool_decide (k = chars s)).
Proof.
  intros H0. unfold span_equal. rewrite span_equal_ext by lia. by apply span_equal_lit.
Qed.

(** One item: the code's bits and the reference agree. *)
Lemma item_step f a rest : flags_ok f ->
  let r := bool_decide (a = chars "recovery") in
  let d := bool_decide (a = chars "development") in
  let bit := if r then JOSH_BOOT_CONFIG_FLAG_RECOVERY else JOSH_BOOT_CONFIG_FLAG_DEVELOPMENT in
  items_ref f (a :: rest) =
    if negb r && negb d then (false, f)
    else if negb (Z.land f bit =? 0) then (false, f) else items_ref (Z.lor f bit) rest.
Proof.
  intros Hf r d bit. cbn [items_ref]. fold r d. unfold flags_ok in Hf.
  assert (Hrd : r = true -> d = false).
  { unfold r, d. intros ->%bool_decide_eq_true. reflexivity. }
  assert (f = 0 \/ f = 1 \/ f = 2 \/ f = 3) as [->|[->|[->| ->]]] by lia; unfold bit; destruct r; try rewrite (Hrd eq_refl);
    try destruct d; reflexivity.
Qed.

Lemma flags_loop_ref fuel : forall pre t f,
  t <> [] -> (length t <= fuel)%nat -> flags_ok f ->
  flags_loop (pre ++ t) (zlen (pre ++ t)) fuel (zlen pre) f = Some (items_ref f (split_commas [] t)).
Proof.
  induction fuel as [|fuel IH]; intros pre t f Hne Hl Hf; [by destruct t; cbn in Hl; [|lia]|].
  cbn [flags_loop]. rewrite zlen_app. assert (Ht : 0 < zlen t) by (destruct t; [done|rewrite zlen_cons; pose proof (zlen_nonneg t); lia]).
  rewrite (proj2 (Z.ltb_lt _ _)) by lia.
  replace (Z.to_nat (zlen pre + zlen t - zlen pre)) with (length t) by (unfold zlen; lia).
  replace (Z.to_nat (zlen pre)) with (length pre) by (unfold zlen; lia). rewrite drop_app_length.
  destruct (decide (44 ∈ t)) as [(a & b & -> & Ha)%list_elem_of_split_l|Hno].
  - pose proof (scan_to_first 44 pre a b [] Ha) as Hscan. rewrite app_nil_r in Hscan. rewrite Hscan.
    rewrite split_commas_run by done. cbn [app split_commas]. change (44 =? 44) with true. cbv iota.
    destruct (zlen pre + zlen a =? zlen pre) eqn:Ea.
    { assert (a = []) as -> by (destruct a; [done|rewrite zlen_cons in Ea; pose proof (zlen_nonneg a); lia]). reflexivity. }
    replace (zlen pre + zlen a - zlen pre) with (zlen a) by lia. rewrite !span_equal_key by no_zero.
    rewrite item_step by done. cbv zeta. set (bit := if bool_decide (a = chars "recovery") then _ else _).
    destruct (negb _ && negb _); [done|]. destruct (negb (Z.land f bit =? 0)); [done|].
    assert (Hf' : flags_ok (Z.lor f bit)) by (apply flags_or; [done|]; unfold bit; destruct (bool_decide _); [by left|by right]).
    clearbody bit. rewrite zlen_app, zlen_cons in *. pose proof (zlen_nonneg b).
    replace (zlen pre + zlen a =? _) with false by lia.
    destruct b as [|x b]; [replace (_ >=? _) with true by (change (zlen (@nil Z)) with 0; lia); reflexivity|].
    rewrite (zlen_cons x b) in *. pose proof (zlen_nonneg b). replace (_ >=? _) with false by lia.
    specialize (IH (pre ++ a ++ [44]) (x :: b) (Z.lor f bit) ltac:(done)). rewrite !zlen_app, (zlen_cons x b) in IH.
    change (zlen [44]) with 1 in IH. rewrite <- IH; [|rewrite length_app in Hl; cbn in *; lia|done].
    f_equal; [by rewrite <- !app_assoc|lia|lia].
  - pose proof (scan_to_none 44 pre t [] Hno) as Hscan. rewrite app_nil_r in Hscan. rewrite Hscan.
    replace (zlen pre + zlen t =? zlen pre) with false by lia. replace (zlen pre + zlen t - zlen pre) with (zlen t) by lia.
    rewrite !span_equal_lit by no_zero. rewrite Z.eqb_refl.
    pose proof (split_commas_run [] t [] Hno) as Hs. rewrite app_nil_r in Hs. rewrite Hs. cbn [app split_commas].
    rewrite item_step by done. cbv zeta. destruct (negb _ && negb _); [done|]. by destruct (negb (Z.land f _ =? 0)).
Qed.

Lemma parse_flags_ref v rest : parse_flags (v ++ rest) (zlen v) = Some (flags_ref v).
Proof.
  rewrite (proj1 (parse_flags_spec v rest)). unfold parse_flags, flags_ref. destruct v as [|x v]; [done|].
  rewrite (bool_decide_eq_false_2 (x :: v = [])) by done. cbn [orb]. rewrite span_equal_lit by no_zero.
  replace (zlen (x :: v) =? 0) with false by (rewrite zlen_cons; pose proof (zlen_nonneg v); lia).
  destruct (bool_decide (x :: v = chars "none")); [done|].
  apply (flags_loop_ref _ []); [done|unfold zlen; lia|unfold flags_ok; lia].
Qed.

Definition apply_ref (c : josh_boot_config_t) (field : Z) (v : list Z)
    : josh_boot_config_status_t * josh_boot_config_t :=
  if field =? FIELD_VERSION then
    match number v with
    | None => (JOSH_CONFIG_INVALID_VALUE, c)
    | Some n => if n =? 1 then (JOSH_CONFIG_OK, with_version c n) else (JOSH_CONFIG_UNSUPPORTED_VERSION, c)
    end
  else if field =? FIELD_TIMEOUT then
    match number v with
    | None => (JOSH_CONFIG_INVALID_VALUE, c)
    | Some n => if n <=? 30 then (JOSH_CONFIG_OK, with_timeout c n) else (JOSH_CONFIG_INVALID_VALUE, c)
    end
  else if field =? FIELD_DEFAULT then text_ref c with_default (bc_default_entry c) v (entry_id_ok v)
  else if field =? FIELD_ENTRY then text_ref c with_entry (bc_entry_id c) v (entry_id_ok v)
  else if field =? FIELD_NAME then text_ref c with_name (bc_display_name c) v (name_ok v)
  else if field =? FIELD_KERNEL then text_ref c with_kernel (bc_kernel_path c) v (path_ok v)
  else if field =? FIELD_PREVIOUS_KERNEL then
    text_ref c with_previous (bc_previous_kernel_path c) v (path_ok v)
  else if field =? FIELD_RECOVERY_KERNEL then
    text_ref c with_recovery (bc_recovery_kernel_path c) v (path_ok v)
  else if field =? FIELD_CMDLINE then text_ref c with_cmdline (bc_command_line c) v (cmdline_ok v)
  else if field =? FIELD_FLAGS then
    let '(ok, f) := flags_ref v in
    (if ok then JOSH_CONFIG_OK else JOSH_CONFIG_INVALID_VALUE, with_flags c f)
  else (JOSH_CONFIG_UNKNOWN_KEY, c).

Lemma checked_copy_spec d cap v rest valid ok c upd :
  zlen d = cap -> 0 < cap -> valid = Some ok -> (ok = true -> zlen v < cap) ->
  set_text c upd (checked_copy valid d cap (v ++ rest) (zlen v)) = Some (text_ref c upd d v ok).
Proof.
  intros Hd Hc -> Hok. unfold checked_copy, set_text, text_ref. destruct ok; cbn [negb]; [|done].
  rewrite copy_value_spec by done. specialize (Hok eq_refl). by replace (zlen v <? cap) with true by lia.
Qed.

Lemma entry_id_ok_len v : entry_id_ok v = true -> zlen v < 16.
Proof. unfold entry_id_ok. rewrite !andb_true_iff. lia. Qed.
Lemma name_ok_len v : name_ok v = true -> zlen v < 32.
Proof. unfold name_ok. rewrite !andb_true_iff. lia. Qed.
Lemma path_ok_len v : path_ok v = true -> zlen v < 96.
Proof. unfold path_ok. rewrite !andb_true_iff. lia. Qed.
Lemma cmdline_ok_len v : cmdline_ok v = true -> zlen v < 128.
Proof. unfold cmdline_ok. rewrite !andb_true_iff. lia. Qed.

(** One case of a character-array member. *)
Ltac copy_case :=
  apply checked_copy_spec;
  [assumption|reflexivity
  |first [apply entry_id_valid_spec|apply display_name_valid_spec|apply path_valid_spec|apply command_line_valid_spec]
  |first [apply entry_id_ok_len|apply name_ok_len|apply path_ok_len|apply cmdline_ok_len]].

Lemma apply_field_spec c field v rest :
  arrays_ok c -> apply_field c field (v ++ rest) (zlen v) = Some (apply_ref c field v).
Proof.
  intros (H1 & H2 & H3 & H4 & H5 & H6 & H7).
  unfold apply_field, apply_ref, set_version, set_timeout, set_entry_value, set_name, set_path.
  destruct (field =? FIELD_VERSION).
  { rewrite parse_u32_spec. fold (number v). destruct (number v) as [n|]; [|done].
    unfold JOSH_BOOT_CONFIG_VERSION. by destruct (n =? 1). }
  destruct (field =? FIELD_TIMEOUT).
  { rewrite parse_u32_spec. fold (number v). destruct (number v) as [n|]; [|done].
    rewrite Z.gtb_ltb, Z.leb_antisym. by destruct (30 <? n). }
  destruct (field =? FIELD_DEFAULT); [copy_case|].
  destruct (field =? FIELD_ENTRY); [copy_case|].
  destruct (field =? FIELD_NAME); [copy_case|].
  destruct (field =? FIELD_KERNEL) eqn:Ek.
  { assert (field = FIELD_KERNEL) as -> by lia. copy_case. }
  destruct (field =? FIELD_PREVIOUS_KERNEL) eqn:Ep; [copy_case|].
  destruct (field =? FIELD_RECOVERY_KERNEL) eqn:Er; cbn [orb]; [copy_case|].
  destruct (field =? FIELD_CMDLINE); [copy_case|].
  destruct (field =? FIELD_FLAGS); [|done].
  rewrite parse_flags_ref. by destruct (flags_ref v).
Qed.

Lemma arrays_ok_text c upd d v ok st c' :
  text_ref c upd d v ok = (st, c') -> arrays_ok c -> (arrays_ok (upd c (store d v)) \/ ok = false) -> arrays_ok c'.
Proof. unfold text_ref. destruct ok; intros [= <- <-] Hc [H|H]; done. Qed.

Lemma apply_ref_arrays c field v st c' : arrays_ok c -> apply_ref c field v = (st, c') -> arrays_ok c'.
Proof.
  intros Hc H. pose proof Hc as (H1 & H2 & H3 & H4 & H5 & H6 & H7). unfold apply_ref in H.
  repeat match type of H with
  | (if field =? _ then text_ref _ _ _ _ ?ok else _) = _ =>
      destruct (field =? _); [
        apply (arrays_ok_text _ _ _ _ _ _ _ H Hc); destruct ok eqn:Eok; [left|by right];
        unfold arrays_ok; cbn; unfold store; rewrite zlen_stored;
        [done|first [apply entry_id_ok_len in Eok|apply name_ok_len in Eok|apply path_ok_len in Eok
                    |apply cmdline_ok_len in Eok]; lia]|]
  | (if field =? _ then _ else _) = _ => destruct (field =? _)
  end; repeat case_match; by simplify_eq.
Qed.

Definition field_names : list (list Z * Z) :=
  [(chars "version", FIELD_VERSION); (chars "default", FIELD_DEFAULT); (chars "timeout", FIELD_TIMEOUT);
   (chars "entry", FIELD_ENTRY); (chars "name", FIELD_NAME); (chars "kernel", FIELD_KERNEL);
   (chars "previous_kernel", FIELD_PREVIOUS_KERNEL); (chars "recovery_kernel", FIELD_RECOVERY_KERNEL);
   (chars "cmdline", FIELD_CMDLINE); (chars "flags", FIELD_FLAGS)].

Fixpoint lookup_name (table : list (list Z * Z)) (k : list Z) : Z :=
  match table with
  | [] => 0
  | (name, field) :: rest => if bool_decide (k = name) then field else lookup_name rest k
  end.

Definition field_of (k : list Z) : Z := lookup_name field_names k.

Lemma field_from_key_spec k rest : field_from_key (k ++ rest) (zlen k) = Some (field_of k).
Proof.
  unfold field_from_key, field_of, fields, field_names. cbn [field_loop lookup_name].
  rewrite !span_equal_key by no_zero.
  repeat match goal with
  | |- context [bool_decide (k = chars ?s)] => destruct (bool_decide (k = chars s)); [reflexivity|]
  end. done.
Qed.

Definition unsupported_ref (k : list Z) : bool :=
  bool_decide (k = chars "module") || bool_decide (k = chars "initrd").

Lemma unsupported_key_spec k rest : unsupported_key (k ++ rest) (zlen k) = Some (unsupported_ref k).
Proof.
  unfold unsupported_key, unsupported_ref. rewrite !span_equal_key by no_zero.
  by destruct (bool_decide (k = chars "module")).
Qed.

Definition set_ref (c : josh_boot_config_t) (seen : Z) (k v : list Z)
    : josh_boot_config_status_t * josh_boot_config_t * Z :=
  let field := field_of k in
  if field =? 0 then
    (if unsupported_ref k then JOSH_CONFIG_UNSUPPORTED_FEATURE else JOSH_CONFIG_UNKNOWN_KEY, c, seen)
  else if negb (Z.land seen field =? 0) then (JOSH_CONFIG_DUPLICATE_KEY, c, seen)
  else (apply_ref c field v, Z.lor seen field).

Lemma set_field_spec c seen k krest v vrest :
  arrays_ok c ->
  set_field c seen (k ++ krest) (zlen k) (v ++ vrest) (zlen v) = Some (set_ref c seen k v).
Proof.
  intros Hc. unfold set_field, set_ref. rewrite field_from_key_spec.
  destruct (field_of k =? 0); [by rewrite unsupported_key_spec|]. destruct (negb _); [done|].
  rewrite apply_field_spec by done. by destruct (apply_ref c (field_of k) v).
Qed.

(** Lines: the text between newlines, without a final carriage return. *)
Fixpoint split_lines (acc text : list Z) : list (list Z) :=
  match text with
  | [] => match acc with [] => [] | _ => [acc] end
  | c :: rest => if c =? 10 then acc :: split_lines [] rest else split_lines (acc ++ [c]) rest
  end.

Definition strip_cr (line : list Z) : list Z :=
  if bool_decide (last line = Some 13) then take (length line - 1) line else line.

(** The text before and after the first equals sign. *)
Fixpoint split_equals (line : list Z) : option (list Z * list Z) :=
  match line with
  | [] => None
  | c :: rest =>
      if c =? 61 then Some ([], rest)
      else match split_equals rest with Some (k, v) => Some (c :: k, v) | None => None end
  end.

Definition line_ref (c : josh_boot_config_t) (seen : Z) (line : list Z)
    : josh_boot_config_status_t * josh_boot_config_t * Z :=
  match strip_cr line with
  | [] => (JOSH_CONFIG_OK, c, seen)
  | ch :: l =>
      if ch =? 35 then (JOSH_CONFIG_OK, c, seen)
      else
        match split_equals (ch :: l) with
        | None | Some ([], _) => (JOSH_CONFIG_SYNTAX, c, seen)
        | Some (k, v) => set_ref c seen k v
        end
  end.

Fixpoint lines_ref (c : josh_boot_config_t) (seen : Z) (lines : list (list Z))
    : josh_boot_config_status_t * josh_boot_config_t * Z :=
  match lines with
  | [] => (JOSH_CONFIG_OK, c, seen)
  | line :: rest =>
      match line_ref c seen line with
      | (JOSH_CONFIG_OK, c', seen') => lines_ref c' seen' rest
      | r => r
      end
  end.

Definition config_ref (text : list Z) : josh_boot_config_status_t * josh_boot_config_t :=
  let '(status, c, seen) := lines_ref zero_config 0 (split_lines [] text) in
  match status with
  | JOSH_CONFIG_OK =>
      if negb (Z.land seen REQUIRED_FIELDS =? REQUIRED_FIELDS) then (JOSH_CONFIG_MISSING_REQUIRED, c)
      else if bool_decide (c_str (bc_default_entry c) = c_str (bc_entry_id c)) then (JOSH_CONFIG_OK, c)
      else (JOSH_CONFIG_INVALID_VALUE, c)
  | e => (e, c)
  end.

Lemma split_lines_run acc a rest :
  10 ∉ a -> split_lines acc (a ++ rest) = split_lines (acc ++ a) rest.
Proof.
  revert acc. induction a as [|x a IH]; intros acc Ha; cbn; [by rewrite app_nil_r|].
  assert (x <> 10) by set_solver. replace (x =? 10) with false by lia.
  rewrite IH by set_solver. by rewrite <- app_assoc.
Qed.

Lemma split_equals_none l : 61 ∉ l -> split_equals l = None.
Proof.
  induction l as [|x l IH]; intros H; cbn; [done|]. assert (x <> 61) by set_solver.
  replace (x =? 61) with false by lia. by rewrite IH by set_solver.
Qed.

Lemma split_equals_some k v : 61 ∉ k -> split_equals (k ++ 61 :: v) = Some (k, v).
Proof.
  induction k as [|x k IH]; intros H; cbn; [done|]. assert (x <> 61) by set_solver.
  replace (x =? 61) with false by lia. by rewrite IH by set_solver.
Qed.

Lemma set_ref_arrays c seen k v st c' seen' :
  arrays_ok c -> set_ref c seen k v = (st, c', seen') -> arrays_ok c'.
Proof.
  intros Hc H. unfold set_ref in H. destruct (field_of k =? 0); [by simplify_eq|].
  destruct (negb _); [by simplify_eq|]. destruct (apply_ref c (field_of k) v) as [st1 c1] eqn:E.
  injection H as <- <- <-. by eapply apply_ref_arrays.
Qed.

Lemma line_ref_arrays c seen l st c' seen' :
  arrays_ok c -> line_ref c seen l = (st, c', seen') -> arrays_ok c'.
Proof.
  intros Hc H. unfold line_ref in H.
  repeat (case_match; try (by simplify_eq)); by eapply set_ref_arrays.
Qed.

(** ** The parser implements the reference *)

(** The part of the loop body after the line has been delimited. *)
Definition line_body (text : list Z) (line_start line_end : Z) (config : josh_boot_config_t) (seen : Z)
    : option (josh_boot_config_status_t * josh_boot_config_t * Z) :=
  if line_end =? line_start then Some (JOSH_CONFIG_OK, config, seen)
  else
    let? c := get8 text line_start in
    if c =? 35 then Some (JOSH_CONFIG_OK, config, seen)
    else
      let? equals := scan_to text 61 (Z.to_nat (line_end - line_start)) line_start in
      if (equals =? line_start) || (equals =? line_end) then Some (JOSH_CONFIG_SYNTAX, config, seen)
      else set_field config seen (drop (Z.to_nat line_start) text) (equals - line_start)
             (drop (Z.to_nat (equals + 1)) text) (line_end - equals - 1).

Lemma drop_at (pre l : list Z) n : n = zlen pre -> drop (Z.to_nat n) (pre ++ l) = l.
Proof. intros ->. unfold zlen. by rewrite Nat2Z.id, drop_app_length. Qed.

Lemma line_body_spec pre l rest c seen line :
  arrays_ok c -> strip_cr line = l ->
  line_body (pre ++ l ++ rest) (zlen pre) (zlen pre + zlen l) c seen = Some (line_ref c seen line).
Proof.
  intros Hc Hl. unfold line_body, line_ref. rewrite Hl. destruct l as [|ch l].
  { change (zlen (@nil Z)) with 0. by rewrite Z.add_0_r, Z.eqb_refl. }
  pose proof (zlen_nonneg l). rewrite zlen_cons. replace (zlen pre + (1 + zlen l) =? zlen pre) with false by lia.
  cbn [app]. rewrite get8_at. destruct (ch =? 35); [done|].
  replace (Z.to_nat (zlen pre + (1 + zlen l) - zlen pre)) with (length (ch :: l)) by (unfold zlen in *; cbn; lia).
  change (pre ++ ch :: l ++ rest) with (pre ++ (ch :: l) ++ rest).
  destruct (decide (61 ∈ ch :: l)) as [Hin|Hin].
  2: { rewrite scan_to_none, split_equals_none by done. rewrite zlen_cons, Z.eqb_refl, orb_true_r. done. }
  apply list_elem_of_split_l in Hin as (k & v & Hkv & Hk). rewrite Hkv.
  rewrite scan_to_first, split_equals_some by done.
  assert (Hz : 1 + zlen l = zlen k + 1 + zlen v) by (rewrite <- zlen_cons with (x := ch), Hkv, zlen_app, zlen_cons; lia).
  rewrite Hz. pose proof (zlen_nonneg k). pose proof (zlen_nonneg v). destruct k as [|k0 k].
  { change (zlen (@nil Z)) with 0. by rewrite Z.add_0_r, Z.eqb_refl. }
  rewrite zlen_cons in *. pose proof (zlen_nonneg k).
  replace ((zlen pre + (1 + zlen k) =? zlen pre) || (zlen pre + (1 + zlen k) =? zlen pre + (1 + zlen k + 1 + zlen v)))
    with false by lia.
  rewrite drop_at by done. rewrite <- app_assoc.
  replace (pre ++ (k0 :: k) ++ (61 :: v) ++ rest) with ((pre ++ (k0 :: k) ++ [61]) ++ v ++ rest)
    by (rewrite <- !app_assoc; done).
  rewrite drop_at by (rewrite !zlen_app, !zlen_cons; change (zlen (@nil Z)) with 0; lia).
  replace (zlen pre + (1 + zlen k) - zlen pre) with (zlen (k0 :: k)) by (rewrite zlen_cons; lia).
  replace (zlen pre + (1 + zlen k + 1 + zlen v) - (zlen pre + (1 + zlen k)) - 1) with (zlen v) by lia.
  by apply set_field_spec.
Qed.

(** The delimiting of a line. *)
Lemma strip_cr_spec line : exists cr, line = strip_cr line ++ cr /\
  (cr = [] /\ last line <> Some 13 \/ cr = [13]).
Proof.
  unfold strip_cr. destruct (bool_decide _) eqn:E.
  - apply bool_decide_eq_true in E. apply last_Some in E as [l ->]. exists [13].
    rewrite length_app. cbn [length]. replace (length l + 1 - 1)%nat with (length l) by lia.
    rewrite take_app_length. split; [done|by right].
  - apply bool_decide_eq_false in E. exists []. rewrite app_nil_r. split; [done|by left].
Qed.

Lemma get8_last pre line rest :
  line <> [] -> get8 (pre ++ line ++ rest) (zlen pre + zlen line - 1) = last line.
Proof.
  intros Hne. destruct line as [|x l _] using rev_ind; [done|]. rewrite last_snoc.
  rewrite <- app_assoc, app_assoc. cbn [app].
  replace (zlen pre + zlen (l ++ [x]) - 1) with (zlen (pre ++ l))
    by (rewrite !zlen_app, zlen_cons; change (zlen (@nil Z)) with 0; lia).
  apply get8_at.
Qed.

Lemma line_end_spec pre line rest :
  (if zlen pre + zlen line >? zlen pre then
     let? c := get8 (pre ++ line ++ rest) (zlen pre + zlen line - 1) in
     Some (if c =? 13 then zlen pre + zlen line - 1 else zlen pre + zlen line)
   else Some (zlen pre + zlen line)) = Some (zlen pre + zlen (strip_cr line)).
Proof.
  destruct (strip_cr_spec line) as (cr & Heq & Hcr).
  assert (Hz : zlen line = zlen (strip_cr line) + zlen cr) by (rewrite Heq at 1; apply zlen_app).
  destruct line as [|x line].
  { change (zlen (@nil Z)) with 0 in *. replace (zlen pre + 0 >? zlen pre) with false by lia.
    reflexivity. }
  pose proof (zlen_nonneg line) as Hnn. assert (Hpos : 0 < zlen (x :: line)) by (rewrite zlen_cons; lia).
  replace (_ >? zlen pre) with true by lia. rewrite get8_last by done.
  destruct Hcr as [[-> Hne]| ->].
  - change (zlen (@nil Z)) with 0 in Hz. destruct (last (x :: line)) as [c|] eqn:El.
    + replace (c =? 13) with false by (apply not_eq_sym in Hne; destruct (Z.eqb_spec c 13); congruence).
      f_equal. lia.
    + by apply last_None in El.
  - rewrite Heq, last_snoc. change (13 =? 13) with true. cbn match. f_equal. rewrite <- Heq.
    change (zlen [13]) with 1 in Hz. lia.
Qed.

(** After one line: go on, or stop with its status. *)
Definition continue_with (r : option (josh_boot_config_status_t * josh_boot_config_t * Z))
    (k : josh_boot_config_t -> Z -> option (josh_boot_config_status_t * josh_boot_config_t * Z))
    : option (josh_boot_config_status_t * josh_boot_config_t * Z) :=
  match r with
  | Some (JOSH_CONFIG_OK, c, seen) => k c seen
  | r => r
  end.

Lemma line_loop_unfold text len fuel p c seen e p' le :
  (p <? len) = true -> scan_to text 10 (Z.to_nat (len - p)) p = Some e ->
  (if e <? len then let? ch := get8 text e in Some (if ch =? 10 then e + 1 else e) else Some e) = Some p' ->
  (if e >? p then let? ch := get8 text (e - 1) in Some (if ch =? 13 then e - 1 else e) else Some e) = Some le ->
  line_loop text len (S fuel) p c seen =
  continue_with (line_body text p le c seen) (line_loop text len fuel p').
Proof.
  intros H1 H2 H3 H4. cbn [line_loop]. rewrite H1, H2, H3, H4. unfold line_body, continue_with.
  destruct (le =? p); [done|]. destruct (get8 text p) as [ch|]; [|done]. destruct (ch =? 35); [done|].
  destruct (scan_to text 61 _ p) as [eq|]; [|done]. destruct (_ || _); [done|].
  destruct (set_field _ _ _ _ _ _) as [[[[] c'] seen']|]; done.
Qed.

Lemma lines_ref_continue c seen line rest :
  continue_with (Some (line_ref c seen line)) (fun c' seen' => Some (lines_ref c' seen' rest)) =
  Some (lines_ref c seen (line :: rest)).
Proof. cbn [lines_ref]. by destruct (line_ref c seen line) as [[[] c'] seen']. Qed.

Lemma continue_lines c seen line rest k :
  arrays_ok c -> (forall c' seen', arrays_ok c' -> k c' seen' = Some (lines_ref c' seen' rest)) ->
  continue_with (Some (line_ref c seen line)) k = Some (lines_ref c seen (line :: rest)).
Proof.
  intros Hc Hk. rewrite <- lines_ref_continue. cbn [continue_with].
  destruct (line_ref c seen line) as [[st c'] seen'] eqn:El. destruct st; try done.
  apply Hk. by eapply line_ref_arrays.
Qed.

(** One round of the loop on a line that a newline ends. *)
Lemma line_loop_newline fuel pre line t junk c seen :
  10 ∉ line -> arrays_ok c ->
  (forall c' seen', arrays_ok c' ->
    line_loop ((pre ++ line ++ [10]) ++ t ++ junk) (zlen (pre ++ line ++ [10]) + zlen t) fuel (zlen (pre ++ line ++ [10])) c' seen' =
    Some (lines_ref c' seen' (split_lines [] t))) ->
  line_loop (pre ++ (line ++ 10 :: t) ++ junk) (zlen pre + zlen (line ++ 10 :: t)) (S fuel) (zlen pre) c seen =
  Some (lines_ref c seen (split_lines [] (line ++ 10 :: t))).
Proof.
  intros Hl Hc Hk. assert (Hz : zlen (line ++ 10 :: t) = zlen line + 1 + zlen t) by (rewrite zlen_app, zlen_cons; lia).
  pose proof (zlen_nonneg line). pose proof (zlen_nonneg t).
  erewrite line_loop_unfold; [|lia| | |].
  2: { replace (Z.to_nat _) with (length (line ++ 10 :: t)) by (unfold zlen; lia). by apply scan_to_first. }
  2: { replace (zlen pre + zlen line <? zlen pre + zlen (line ++ 10 :: t)) with true by lia.
       replace (get8 _ _) with (Some 10); [reflexivity|]. symmetry.
       rewrite <- app_assoc, app_assoc, <- zlen_app. apply get8_at. }
  2: { rewrite <- app_assoc. apply line_end_spec. }
  destruct (strip_cr_spec line) as (cr & Hcr & _).
  replace (line_body _ _ _ _ _) with (Some (line_ref c seen line)).
  2: { symmetry. rewrite Hcr at 1. rewrite <- !app_assoc. by apply line_body_spec. }
  assert (Hsp : split_lines [] (line ++ 10 :: t) = line :: split_lines [] t) by (rewrite split_lines_run by done; done).
  rewrite Hsp. apply continue_lines; [done|]. intros c' seen' Hc'. rewrite <- (Hk c' seen' Hc').
  replace (pre ++ (line ++ 10 :: t) ++ junk) with ((pre ++ line ++ [10]) ++ t ++ junk) by (rewrite <- !app_assoc; done).
  assert (Hz2 : zlen (pre ++ line ++ [10]) = zlen pre + zlen line + 1) by (rewrite !zlen_app; change (zlen [10]) with 1; lia).
  rewrite Hz, Hz2. change (10 =? 10) with true. cbn match. f_equal. lia.
Qed.

(** The last round, on a line that the end of the text ends. *)
Lemma line_loop_last fuel pre line junk c seen :
  10 ∉ line -> line <> [] -> arrays_ok c ->
  line_loop (pre ++ line ++ junk) (zlen pre + zlen line) (S fuel) (zlen pre) c seen =
  Some (lines_ref c seen (split_lines [] line)).
Proof.
  intros Hl Hne Hc.
  assert (Hpos : 0 < zlen line) by (destruct line as [|x l]; [done|rewrite zlen_cons; pose proof (zlen_nonneg l); lia]).
  assert (Hsp : split_lines [] line = line :: split_lines [] []).
  { rewrite <- (app_nil_r line) at 1. rewrite split_lines_run by done. cbn. by destruct line. }
  erewrite line_loop_unfold; [|lia| | |].
  2: { replace (Z.to_nat _) with (length line) by (unfold zlen; lia). by apply scan_to_none. }
  2: { replace (zlen pre + zlen line <? zlen pre + zlen line) with false by lia. reflexivity. }
  2: { apply line_end_spec. }
  destruct (strip_cr_spec line) as (cr & Hcr & _).
  replace (line_body _ _ _ _ _) with (Some (line_ref c seen line)).
  2: { symmetry. rewrite Hcr at 1. rewrite <- !app_assoc. by apply line_body_spec. }
  rewrite Hsp. apply continue_lines; [done|]. intros c' seen' Hc'.
  destruct fuel; cbn [line_loop]; by replace (zlen pre + zlen line <? zlen pre + zlen line) with false by lia.
Qed.

Lemma line_loop_spec fuel pre t junk c seen :
  (length t <= fuel)%nat -> arrays_ok c ->
  line_loop (pre ++ t ++ junk) (zlen pre + zlen t) fuel (zlen pre) c seen =
  Some (lines_ref c seen (split_lines [] t)).
Proof.
  revert pre t c seen. induction fuel as [|fuel IH]; intros pre t c seen Hf Hc; (destruct (decide (t = [])) as [->|Hne];
    [cbn [line_loop]; change (zlen (@nil Z)) with 0; by replace (zlen pre <? zlen pre + 0) with false by lia|]).
  { destruct t; [done|cbn in Hf; lia]. }
  destruct (decide (10 ∈ t)) as [Hin|Hin]; [|by apply line_loop_last].
  apply list_elem_of_split_l in Hin as (line & t' & -> & Hl). apply line_loop_newline; [done..|].
  intros c' seen' Hc'. apply IH; [|done]. rewrite length_app in Hf. cbn in Hf. lia.
Qed.

(** The two identifiers compared at the end stay zero-terminated. *)
Definition terminated (c : josh_boot_config_t) : Prop := 0 ∈ bc_default_entry c /\ 0 ∈ bc_entry_id c.

Lemma c_str_split l : 0 ∈ l -> exists junk, l = c_str l ++ 0 :: junk.
Proof.
  induction l as [|x l IH]; intros H; [set_solver|]. cbn. destruct (x =? 0) eqn:E.
  - exists l. assert (x = 0) as -> by lia. done.
  - destruct IH as [junk Hj]; [set_solver by lia|]. exists junk. cbn. by rewrite <- Hj.
Qed.

Lemma c_str_no_zero l : 0 ∉ c_str l.
Proof. induction l as [|x l IH]; cbn; [set_solver|]. destruct (x =? 0) eqn:E; [set_solver|set_solver by lia]. Qed.

Lemma text_length_spec l : 0 ∈ l -> text_length l = Some (zlen (c_str l)).
Proof.
  induction l as [|x l IH]; intros H; [set_solver|]. cbn. destruct (x =? 0) eqn:E; [done|].
  rewrite IH by set_solver by lia. rewrite zlen_cons. f_equal. lia.
Qed.

Lemma store_zero d v : 0 ∈ store d v.
Proof. unfold store. set_solver. Qed.

Lemma apply_ref_terminated c field v st c' : terminated c -> apply_ref c field v = (st, c') -> terminated c'.
Proof.
  intros [H1 H2] H. unfold apply_ref, text_ref in H.
  repeat case_match; simplify_eq; split; cbn; try done; apply store_zero.
Qed.

Lemma lines_ref_good lines c seen st c' seen' :
  arrays_ok c -> terminated c -> lines_ref c seen lines = (st, c', seen') -> arrays_ok c' /\ terminated c'.
Proof.
  revert c seen. induction lines as [|l lines IH]; intros c seen Hc Ht H; cbn [lines_ref] in H; [by simplify_eq|].
  destruct (line_ref c seen l) as [[st1 c1] seen1] eqn:El.
  assert (Hc1 : arrays_ok c1) by by eapply line_ref_arrays.
  assert (Ht1 : terminated c1).
  { unfold line_ref in El. destruct (strip_cr l) as [|ch r]; [by simplify_eq|].
    destruct (ch =? 35); [by simplify_eq|]. destruct (split_equals _) as [[[|k0 k] v]|]; [by simplify_eq| |by simplify_eq].
    unfold set_ref in El. destruct (field_of _ =? 0); [by simplify_eq|]. destruct (negb _); [by simplify_eq|].
    destruct (apply_ref c (field_of (k0 :: k)) v) as [st2 c2] eqn:Ea. injection El as <- <- <-. by eapply apply_ref_terminated. }
  destruct st1; try (by injection H as <- <- <-). by eapply IH.
Qed.

Lemma zero_config_good : arrays_ok zero_config /\ terminated zero_config.
Proof. split; [by vm_compute|]. split; cbn; set_solver. Qed.

Lemma parse_config_ref text len c0 :
  0 < len <= JOSH_BOOT_CONFIG_MAX_BYTES -> len <= zlen text ->
  exists st c, config_ref (take (Z.to_nat len) text) = (st, c) /\
    josh_boot_config_parse (Some text) len (Some c0) = Some (st, Some c).
Proof.
  intros Hl Hlen. unfold josh_boot_config_parse, config_ref.
  replace ((len =? 0) || (len >? JOSH_BOOT_CONFIG_MAX_BYTES)) with false by lia.
  set (t := take (Z.to_nat len) text).
  assert (Hz : zlen t = len) by (unfold t, zlen in *; rewrite length_take; lia).
  assert (Htext : text = [] ++ t ++ drop (Z.to_nat len) text) by (cbn [app]; unfold t; by rewrite take_drop).
  destruct zero_config_good as [Hc0 Ht0].
  pose proof (line_loop_spec (Z.to_nat len) [] t (drop (Z.to_nat len) text) zero_config 0
    ltac:(unfold zlen in Hz; lia) Hc0) as Hloop.
  rewrite <- Htext, Hz in Hloop. change (zlen (@nil Z)) with 0 in Hloop. rewrite Z.add_0_l in Hloop.
  rewrite Hloop. destruct (lines_ref zero_config 0 (split_lines [] t)) as [[st c] seen] eqn:El.
  destruct (lines_ref_good _ _ _ _ _ _ Hc0 Ht0 El) as [Hc [Hd He]].
  destruct st; try (by eexists _, _). destruct (negb _); [by eexists _, _|].
  rewrite !text_length_spec by done.
  destruct (c_str_split _ Hd) as [jd Hjd], (c_str_split _ He) as [je Hje].
  assert (Hse : span_equal (bc_default_entry c) (zlen (c_str (bc_default_entry c))) (bc_entry_id c) =
    Some (bool_decide (c_str (bc_default_entry c) = c_str (bc_entry_id c)))).
  { unfold span_equal. rewrite Hjd at 1. rewrite span_equal_ext by lia. rewrite Hje at 1.
    apply (span_equal_spec [] (c_str (bc_default_entry c))), c_str_no_zero. }
  rewrite Hse. destruct (zlen (c_str (bc_default_entry c)) =? _) eqn:Ez; cbn [negb].
  - destruct (bool_decide _); by eexists _, _.
  - rewrite (bool_decide_eq_false_2 (_ = _)) by (intros Heq; rewrite Heq in Ez; lia). by eexists _, _.
Qed.

(** ** Well-formed configurations *)

(** The character array of [n] bytes that holds the text [v]. *)
Definition text_array (n : nat) (v : list Z) : list Z := v ++ replicate (n - length v) 0.

Lemma store_zeros n v :
  (length v < n)%nat -> store (replicate n 0) v = text_array n v.
Proof.
  intros H. unfold store, text_array. rewrite drop_replicate.
  replace (n - length v)%nat with (S (n - S (length v)))%nat by lia. done.
Qed.

(** A member is present: its bit is set in [seen]. *)
Definition has (seen field : Z) : bool := negb (Z.land seen field =? 0).

Definition all_fields : list Z := [1; 2; 4; 8; 16; 32; 64; 128; 256; 512].

Lemma in_fields f : existsb (Z.eqb f) all_fields = true -> f ∈ all_fields.
Proof. intros (x & Hx & Hfx)%existsb_exists. apply list_elem_of_In. by replace f with x by lia. Qed.

Ltac known_field := apply in_fields; reflexivity.

Lemma field_of_cases k : field_of k = 0 \/ field_of k ∈ all_fields.
Proof.
  unfold field_of, field_names. cbn [lookup_name].
  repeat match goal with
  | |- context [if ?b then _ else _] =>
      destruct b; [right; known_field|]
  end. by left.
Qed.

Lemma has_lor seen f g :
  f ∈ all_fields -> g ∈ all_fields -> has (Z.lor seen f) g = (f =? g) || has seen g.
Proof.
  intros Hf Hg. unfold has. rewrite Z.land_lor_distr_l. destruct (f =? g) eqn:E; cbn [orb].
  - assert (f = g) as <- by lia. rewrite Z.land_diag. apply negb_true_iff, Z.eqb_neq.
    intros [_ H0]%Z.lor_eq_0_iff. subst f. set_solver.
  - assert (Hl : forallb (fun f => forallb (fun g => (f =? g) || (Z.land f g =? 0)) all_fields) all_fields = true)
      by (vm_compute; reflexivity).
    rewrite forallb_forall in Hl. apply list_elem_of_In, Hl in Hf. rewrite forallb_forall in Hf.
    apply list_elem_of_In, Hf in Hg. rewrite E in Hg. cbn [orb] in Hg.
    assert (Z.land f g = 0) as -> by lia. by rewrite Z.lor_0_r.
Qed.

(** A text member: valid once set, zero before. *)
Definition text_inv (n : nat) (ok : list Z -> bool) (seen field : Z) (arr : list Z) : Prop :=
  if has seen field then exists v, ok v = true /\ arr = text_array n v else arr = replicate n 0.

Record parse_inv (c : josh_boot_config_t) (seen : Z) : Prop := {
  pi_version : if has seen FIELD_VERSION then bc_version c = 1 else bc_version c = 0;
  pi_timeout : if has seen FIELD_TIMEOUT then 0 <= bc_timeout_seconds c <= 30 else bc_timeout_seconds c = 0;
  pi_flags : if has seen FIELD_FLAGS then flags_ok (bc_flags c) else bc_flags c = 0;
  pi_default : text_inv 16 entry_id_ok seen FIELD_DEFAULT (bc_default_entry c);
  pi_entry : text_inv 16 entry_id_ok seen FIELD_ENTRY (bc_entry_id c);
  pi_name : text_inv 32 name_ok seen FIELD_NAME (bc_display_name c);
  pi_kernel : text_inv 96 path_ok seen FIELD_KERNEL (bc_kernel_path c);
  pi_previous : text_inv 96 path_ok seen FIELD_PREVIOUS_KERNEL (bc_previous_kernel_path c);
  pi_recovery : text_inv 96 path_ok seen FIELD_RECOVERY_KERNEL (bc_recovery_kernel_path c);
  pi_cmdline : text_inv 128 cmdline_ok seen FIELD_CMDLINE (bc_command_line c)
}.

Lemma number_range v n : number v = Some n -> 0 <= n < 2 ^ 32.
Proof.
  unfold number. destruct (_ && _) eqn:E; [|done]. intros [= <-].
  apply andb_true_iff in E as [[_ Hd]%andb_true_iff Hlt].
  pose proof (decimal_ge 0 v ltac:(lia) Hd). unfold decimal in *. lia.
Qed.

(** Setting one text member, and leaving it alone. *)
Lemma text_inv_set n ok seen f arr v :
  f ∈ all_fields -> has seen f = false -> text_inv n ok seen f arr -> ok v = true -> (length v < n)%nat ->
  text_inv n ok (Z.lor seen f) f (store arr v).
Proof.
  intros Hf Hh Hi Hv Hl. unfold text_inv in *. rewrite has_lor, Z.eqb_refl by done. cbn [orb].
  rewrite Hh in Hi. subst arr. exists v. split; [done|]. by apply store_zeros.
Qed.

Lemma text_inv_other n ok seen f g arr :
  f ∈ all_fields -> g ∈ all_fields -> (f =? g) = false ->
  text_inv n ok seen g arr -> text_inv n ok (Z.lor seen f) g arr.
Proof. intros Hf Hg Hne. unfold text_inv. by rewrite has_lor, Hne by done. Qed.

(** One member changes, the nine others keep their invariant. *)
Ltac keep_others :=
  match goal with
  | |- text_inv _ _ (Z.lor _ _) _ _ => apply text_inv_other; [known_field|known_field|reflexivity|assumption]
  | |- if has (Z.lor _ _) _ then _ else _ => rewrite has_lor by known_field; cbn; first [assumption|lia]
  end.

Lemma field_cases f : f ∈ all_fields ->
  f = FIELD_VERSION \/ f = FIELD_TIMEOUT \/ f = FIELD_DEFAULT \/ f = FIELD_ENTRY \/ f = FIELD_NAME \/
  f = FIELD_KERNEL \/ f = FIELD_PREVIOUS_KERNEL \/ f = FIELD_RECOVERY_KERNEL \/ f = FIELD_CMDLINE \/
  f = FIELD_FLAGS.
Proof. unfold all_fields. rewrite !elem_of_cons, elem_of_nil. naive_solver. Qed.

(** [apply_ref] at each field. *)
Lemma apply_ref_version c v : apply_ref c FIELD_VERSION v =
  match number v with
  | None => (JOSH_CONFIG_INVALID_VALUE, c)
  | Some n => if n =? 1 then (JOSH_CONFIG_OK, with_version c n) else (JOSH_CONFIG_UNSUPPORTED_VERSION, c)
  end.
Proof. reflexivity. Qed.
Lemma apply_ref_timeout c v : apply_ref c FIELD_TIMEOUT v =
  match number v with
  | None => (JOSH_CONFIG_INVALID_VALUE, c)
  | Some n => if n <=? 30 then (JOSH_CONFIG_OK, with_timeout c n) else (JOSH_CONFIG_INVALID_VALUE, c)
  end.
Proof. reflexivity. Qed.
Lemma apply_ref_default c v :
  apply_ref c FIELD_DEFAULT v = text_ref c with_default (bc_default_entry c) v (entry_id_ok v).
Proof. reflexivity. Qed.
Lemma apply_ref_entry c v :
  apply_ref c FIELD_ENTRY v = text_ref c with_entry (bc_entry_id c) v (entry_id_ok v).
Proof. reflexivity. Qed.
Lemma apply_ref_name c v :
  apply_ref c FIELD_NAME v = text_ref c with_name (bc_display_name c) v (name_ok v).
Proof. reflexivity. Qed.
Lemma apply_ref_kernel c v :
  apply_ref c FIELD_KERNEL v = text_ref c with_kernel (bc_kernel_path c) v (path_ok v).
Proof. reflexivity. Qed.
Lemma apply_ref_previous c v :
  apply_ref c FIELD_PREVIOUS_KERNEL v = text_ref c with_previous (bc_previous_kernel_path c) v (path_ok v).
Proof. reflexivity. Qed.
Lemma apply_ref_recovery c v :
  apply_ref c FIELD_RECOVERY_KERNEL v = text_ref c with_recovery (bc_recovery_kernel_path c) v (path_ok v).
Proof. reflexivity. Qed.
Lemma apply_ref_cmdline c v :
  apply_ref c FIELD_CMDLINE v = text_ref c with_cmdline (bc_command_line c) v (cmdline_ok v).
Proof. reflexivity. Qed.
Lemma apply_ref_flags c v : apply_ref c FIELD_FLAGS v =
  let '(ok, f) := flags_ref v in
  (if ok then JOSH_CONFIG_OK else JOSH_CONFIG_INVALID_VALUE, with_flags c f).
Proof. reflexivity. Qed.
Create Rewrite HintDb apply_ref.
#[export] Hint Rewrite apply_ref_version apply_ref_timeout apply_ref_default apply_ref_entry
  apply_ref_name apply_ref_kernel apply_ref_previous apply_ref_recovery apply_ref_cmdline
  apply_ref_flags : apply_ref.
#[global] Opaque apply_ref.

Lemma text_ref_ok c upd d v ok c' :
  text_ref c upd d v ok = (JOSH_CONFIG_OK, c') -> ok = true /\ c' = upd c (store d v).
Proof. unfold text_ref. destruct ok; [|done]. by intros [= <-]. Qed.

Lemma flags_ref_ok v : flags_ok (flags_ref v).2.
Proof.
  destruct (parse_flags_spec v []) as (_ & b & f & H & Hf). pose proof (parse_flags_ref v []) as Hr.
  rewrite app_nil_r, H in Hr. by injection Hr as <-.
Qed.

Lemma apply_ref_inv c seen f v c' :
  parse_inv c seen -> f ∈ all_fields -> has seen f = false ->
  apply_ref c f v = (JOSH_CONFIG_OK, c') -> parse_inv c' (Z.lor seen f).
Proof.
  intros [? ? ? ? ? ? ? ? ? ?] Hf Hh H.
  assert (Hlen : forall n, zlen v < Z.of_nat n -> (length v < n)%nat) by (unfold zlen; lia).
  destruct (field_cases f Hf) as [->|[->|[->|[->|[->|[->|[->|[->|[->| ->]]]]]]]]];
    autorewrite with apply_ref in H;
    try (apply text_ref_ok in H as [Hok ->]; split;
         cbn [with_version with_timeout with_flags with_default with_entry with_name with_kernel
              with_previous with_recovery with_cmdline bc_version bc_timeout_seconds bc_flags
              bc_default_entry bc_entry_id bc_display_name bc_kernel_path bc_previous_kernel_path
              bc_recovery_kernel_path bc_command_line];
         first [keep_others | apply text_inv_set; [done..|]; apply Hlen;
                by first [apply entry_id_ok_len|apply name_ok_len|apply path_ok_len|apply cmdline_ok_len]]).
  - destruct (number v) as [n|]; [|done]. destruct (n =? 1) eqn:En; [|done]. injection H as <-.
    split; cbn; keep_others.
  - destruct (number v) as [n|] eqn:En; [|done]. apply number_range in En.
    destruct (n <=? 30) eqn:E30; [|done]. injection H as <-.
    split; cbn; keep_others.
  - pose proof (flags_ref_ok v) as Hfl. destruct (flags_ref v) as [ok fl]. destruct ok; [|done]. injection H as <-.
    split; cbn; keep_others.
Qed.

Lemma set_ref_inv c seen k v c' seen' :
  parse_inv c seen -> set_ref c seen k v = (JOSH_CONFIG_OK, c', seen') -> parse_inv c' seen'.
Proof.
  intros Hi H. unfold set_ref in H. destruct (field_of k =? 0) eqn:E0; [by destruct (unsupported_ref k)|].
  fold (has seen (field_of k)) in H. destruct (has seen (field_of k)) eqn:Eh; [done|].
  destruct (apply_ref c (field_of k) v) as [st c1] eqn:Ea. injection H as -> <- <-.
  destruct (field_of_cases k) as [?|Hin]; [lia|]. by eapply apply_ref_inv.
Qed.

Lemma lines_ref_inv lines c seen c' seen' :
  parse_inv c seen -> lines_ref c seen lines = (JOSH_CONFIG_OK, c', seen') -> parse_inv c' seen'.
Proof.
  revert c seen. induction lines as [|l lines IH]; intros c seen Hi H; cbn [lines_ref] in H; [by simplify_eq|].
  destruct (line_ref c seen l) as [[st1 c1] seen1] eqn:El.
  destruct st1; try done. eapply IH; [|exact H]. unfold line_ref in El.
  destruct (strip_cr l) as [|ch r]; [by simplify_eq|]. destruct (ch =? 35); [by simplify_eq|].
  destruct (split_equals _) as [[[|k0 k] v]|]; [done| |done]. by eapply set_ref_inv.
Qed.

Lemma zero_config_inv : parse_inv zero_config 0.
Proof. split; reflexivity. Qed.

(** What a successfully parsed configuration is. *)
Definition config_ok (c : josh_boot_config_t) : Prop :=
  bc_version c = 1 /\ 0 <= bc_timeout_seconds c <= 30 /\ flags_ok (bc_flags c) /\
  exists id name kernel previous recovery cmdline,
    bc_default_entry c = text_array 16 id /\ bc_entry_id c = text_array 16 id /\
    bc_display_name c = text_array 32 name /\ bc_kernel_path c = text_array 96 kernel /\
    bc_previous_kernel_path c = text_array 96 previous /\
    bc_recovery_kernel_path c = text_array 96 recovery /\
    bc_command_line c = text_array 128 cmdline /\
    entry_id_ok id = true /\ name_ok name = true /\ path_ok kernel = true /\
    (previous = [] \/ path_ok previous = true) /\ (recovery = [] \/ path_ok recovery = true) /\
    cmdline_ok cmdline = true.

Lemma c_str_text_array n v : 0 ∉ v -> (length v < n)%nat -> c_str (text_array n v) = v.
Proof.
  unfold text_array. intros H0 Hl. replace (n - length v)%nat with (S (n - S (length v))) by lia. cbn [replicate].
  generalize (replicate (n - S (length v)) 0). intros junk. clear Hl. induction v as [|x v IH]; [done|].
  cbn. assert (x <> 0) by set_solver. replace (x =? 0) with false by lia. by rewrite IH by set_solver.
Qed.

Lemma forallb_no (ok : Z -> bool) x v : ok x = false -> forallb ok v = true -> x ∉ v.
Proof. intros Hx Hv Hin. rewrite forallb_forall in Hv. apply list_elem_of_In, Hv in Hin. congruence. Qed.

Lemma entry_id_ok_no x v : id_char x = false -> entry_id_ok v = true -> x ∉ v.
Proof. unfold entry_id_ok. rewrite !andb_true_iff. intros Hx [_ Hv]. by eapply forallb_no. Qed.
Lemma name_ok_no x v : printable x = false -> name_ok v = true -> x ∉ v.
Proof. unfold name_ok. rewrite !andb_true_iff. intros Hx [_ Hv]. by eapply forallb_no. Qed.
Lemma path_ok_no x v : path_char x = false -> path_ok v = true -> x ∉ v.
Proof. unfold path_ok. rewrite !andb_true_iff. intros Hx [_ Hv]. by eapply forallb_no. Qed.
Lemma cmdline_ok_no x v : printable x = false -> cmdline_ok v = true -> x ∉ v.
Proof. unfold cmdline_ok. rewrite !andb_true_iff. intros Hx [_ Hv]. by eapply forallb_no. Qed.

Lemma required_has seen f :
  f ∈ all_fields -> Z.land REQUIRED_FIELDS f <> 0 -> Z.land seen REQUIRED_FIELDS = REQUIRED_FIELDS ->
  has seen f = true.
Proof.
  intros Hf Hr Hs. unfold has. apply negb_true_iff, Z.eqb_neq. intros H0. apply Hr.
  rewrite <- Hs, <- Z.land_assoc, (Z.land_comm REQUIRED_FIELDS f), Z.land_assoc, H0. apply Z.land_0_l.
Qed.

Lemma optional_text n ok seen f arr :
  text_inv n ok seen f arr -> exists v, arr = text_array n v /\ (v = [] \/ ok v = true).
Proof.
  unfold text_inv. destruct (has seen f).
  - intros (v & Hv & ->). exists v. split; [done|by right].
  - intros ->. exists []. unfold text_array. cbn. rewrite Nat.sub_0_r. split; [done|by left].
Qed.

Lemma parsed_config_ok text c : config_ref text = (JOSH_CONFIG_OK, c) -> config_ok c.
Proof.
  unfold config_ref. destruct (lines_ref zero_config 0 (split_lines [] text)) as [[st c1] seen] eqn:El.
  destruct st; try done. destruct (negb _) eqn:Er; [done|]. destruct (bool_decide _) eqn:Eb; [|done].
  intros [= <-]. apply bool_decide_eq_true in Eb.
  destruct (lines_ref_inv _ _ _ _ _ zero_config_inv El) as [Hv Ht Hf Hd He Hn Hk Hp Hr Hc].
  assert (Hreq : Z.land seen REQUIRED_FIELDS = REQUIRED_FIELDS) by lia.
  unfold text_inv in Hd, He, Hn, Hk.
  assert (Hhas : forall f, existsb (Z.eqb f) all_fields && negb (Z.land REQUIRED_FIELDS f =? 0) = true ->
    has seen f = true) by (intros f [Hf1 Hf2]%andb_true_iff; apply required_has; [by apply in_fields|lia|done]).
  rewrite (Hhas FIELD_VERSION eq_refl) in Hv. rewrite (Hhas FIELD_TIMEOUT eq_refl) in Ht.
  rewrite (Hhas FIELD_DEFAULT eq_refl) in Hd. rewrite (Hhas FIELD_ENTRY eq_refl) in He.
  rewrite (Hhas FIELD_NAME eq_refl) in Hn. rewrite (Hhas FIELD_KERNEL eq_refl) in Hk.
  destruct Hd as (id & Hid & Hd), He as (id' & Hid' & He), Hn as (nm & Hnm & Hn), Hk as (k & Hkk & Hk).
  destruct (optional_text _ _ _ _ _ Hp) as (p & Hp1 & Hp2), (optional_text _ _ _ _ _ Hr) as (r & Hr1 & Hr2),
    (optional_text _ _ _ _ _ Hc) as (cl & Hc1 & Hc2).
  rewrite Hd, He in Eb. pose proof (entry_id_ok_len _ Hid). pose proof (entry_id_ok_len _ Hid').
  rewrite !c_str_text_array in Eb by (first [by eapply entry_id_ok_no|unfold zlen in *; lia]). subst id'.
  split_and!; try done; [lia..| |].
  - destruct (has seen FIELD_FLAGS); [done|]. rewrite Hf. unfold flags_ok. lia.
  - exists id, nm, k, p, r, cl. split_and!; try done. destruct Hc2 as [->|?]; done.
Qed.

(** ** Writing a configuration *)
Definition digits (n : Z) : list Z := if n <? 10 then [48 + n] else [48 + n / 10; 48 + n mod 10].

Definition flag_text (f : Z) : list Z :=
  if f =? 0 then chars "none" else if f =? 1 then chars "recovery"
  else if f =? 2 then chars "development" else chars "recovery,development".

Definition optional (k v : list Z) : list (list Z * list Z) := match v with [] => [] | _ => [(k, v)] end.

Definition settings (c : josh_boot_config_t) : list (list Z * list Z) :=
  [(chars "version", digits (bc_version c));
   (chars "default", c_str (bc_default_entry c));
   (chars "timeout", digits (bc_timeout_seconds c));
   (chars "entry", c_str (bc_entry_id c));
   (chars "name", c_str (bc_display_name c));
   (chars "kernel", c_str (bc_kernel_path c))] ++
  optional (chars "previous_kernel") (c_str (bc_previous_kernel_path c)) ++
  optional (chars "recovery_kernel") (c_str (bc_recovery_kernel_path c)) ++
  [(chars "cmdline", c_str (bc_command_line c)); (chars "flags", flag_text (bc_flags c))].

Definition setting_line (kv : list Z * list Z) : list Z := kv.1 ++ 61 :: kv.2.

Definition render (c : josh_boot_config_t) : list Z :=
  concat (map (fun kv => setting_line kv ++ [10]) (settings c)).

(** A setting that survives being written on a line. *)
Definition key_clean (k : list Z) : bool :=
  match k with [] => false | ch :: _ => negb (ch =? 35) end
  && forallb (fun c => negb (c =? 61) && negb (c =? 10)) k.

Definition clean (kv : list Z * list Z) : Prop :=
  key_clean kv.1 = true /\ 10 ∉ kv.2 /\ 13 ∉ kv.2.

Lemma setting_line_ref c seen k v : clean (k, v) -> line_ref c seen (setting_line (k, v)) = set_ref c seen k v.
Proof.
  intros (Hk & H10 & H13). cbn [fst snd] in *. unfold line_ref, setting_line. cbn [fst snd].
  assert (Hs : strip_cr (k ++ 61 :: v) = k ++ 61 :: v).
  { unfold strip_cr. rewrite bool_decide_eq_false_2; [done|]. intros (l & Hl)%last_Some.
    destruct v as [|x v _] using rev_ind.
    - apply (f_equal last) in Hl. by rewrite !last_snoc in Hl.
    - rewrite app_comm_cons, app_assoc in Hl. apply app_inj_tail in Hl as [_ ->]. set_solver. }
  rewrite Hs. unfold key_clean in Hk. apply andb_true_iff in Hk as [Hne Hall].
  assert (H61 : 61 ∉ k) by (eapply forallb_no; [|exact Hall]; done).
  destruct k as [|ch k]; [done|]. cbn [app]. apply negb_true_iff in Hne. rewrite Hne.
  change (ch :: k ++ 61 :: v) with ((ch :: k) ++ 61 :: v). by rewrite split_equals_some.
Qed.

Lemma split_rendered kvs :
  Forall clean kvs -> split_lines [] (concat (map (fun kv => setting_line kv ++ [10]) kvs)) = map setting_line kvs.
Proof.
  induction 1 as [|[k v] kvs (Hk & H10 & _) _ IH]; [done|]. cbn [map concat]. rewrite <- app_assoc.
  rewrite split_lines_run; [cbn; by rewrite IH|]. unfold setting_line. cbn [fst snd] in *.
  unfold key_clean in Hk. apply andb_true_iff in Hk as [_ Hall].
  assert (10 ∉ k) by (eapply forallb_no; [|exact Hall]; done). set_solver.
Qed.

Lemma set_ref_ok c seen k v c' f :
  field_of k = f -> (f =? 0) || has seen f = false -> apply_ref c f v = (JOSH_CONFIG_OK, c') ->
  set_ref c seen k v = (JOSH_CONFIG_OK, c', Z.lor seen f).
Proof.
  intros Hf Hh Ha. unfold set_ref. rewrite Hf. apply orb_false_iff in Hh as [-> Hh].
  fold (has seen f). by rewrite Hh, Ha.
Qed.

Lemma lines_step c seen k v rest c' f :
  clean (k, v) -> field_of k = f -> (f =? 0) || has seen f = false ->
  apply_ref c f v = (JOSH_CONFIG_OK, c') ->
  lines_ref c seen (map setting_line ((k, v) :: rest)) =
  lines_ref c' (Z.lor seen f) (map setting_line rest).
Proof.
  intros Hc Hf Hh Ha. cbn [map lines_ref]. rewrite setting_line_ref by done. by erewrite set_ref_ok.
Qed.

Lemma digits_ok n : 0 <= n <= 30 -> number (digits n) = Some n /\ 10 ∉ digits n /\ 13 ∉ digits n /\ zlen (digits n) <= 2.
Proof.
  intros Hn. assert (Hin : In n (map Z.of_nat (seq 0 31))).
  { apply in_map_iff. exists (Z.to_nat n). split; [lia|]. apply in_seq. lia. }
  assert (Hall : forallb (fun n => bool_decide (number (digits n) = Some n) && forallb is_digit (digits n)
    && (zlen (digits n) <=? 2)) (map Z.of_nat (seq 0 31)) = true) by (vm_compute; reflexivity).
  rewrite forallb_forall in Hall. apply Hall in Hin. apply andb_true_iff in Hin as [[H1 H2]%andb_true_iff H3].
  split_and!; [by apply bool_decide_eq_true in H1|by eapply forallb_no; [|exact H2]..|lia].
Qed.

Lemma flag_text_ok f : flags_ok f ->
  flags_ref (flag_text f) = (true, f) /\ 10 ∉ flag_text f /\ 13 ∉ flag_text f /\ zlen (flag_text f) <= 20.
Proof.
  unfold flags_ok. intros Hf. assert (f = 0 \/ f = 1 \/ f = 2 \/ f = 3) as Hc by lia.
  assert (Hno : forall l, forallb (fun c => negb (c =? 10) && negb (c =? 13)) l = true -> 10 ∉ l /\ 13 ∉ l)
    by (intros l Hl; split; (eapply forallb_no; [|exact Hl]; done)).
  destruct Hc as [->|[->|[->| ->]]]; (split; [vm_compute; reflexivity|]);
    (split; [apply Hno; reflexivity|split; [apply Hno; reflexivity|vm_compute; discriminate]]).
Qed.

Lemma zlen_rendered kvs :
  zlen (concat (map (fun kv => setting_line kv ++ [10]) kvs)) =
  foldr (fun kv n => zlen (kv : list Z * list Z).1 + zlen kv.2 + 2 + n) 0 kvs.
Proof.
  induction kvs as [|[k v] kvs IH]; [done|]. cbn [map concat foldr]. rewrite zlen_app, IH. unfold setting_line.
  cbn [fst snd]. rewrite !zlen_app, zlen_cons. change (zlen [10]) with 1. lia.
Qed.

Lemma config_eta c :
  c = {| bc_version := bc_version c; bc_timeout_seconds := bc_timeout_seconds c; bc_flags := bc_flags c;
         bc_default_entry := bc_default_entry c; bc_entry_id := bc_entry_id c;
         bc_display_name := bc_display_name c; bc_kernel_path := bc_kernel_path c;
         bc_previous_kernel_path := bc_previous_kernel_path c;
         bc_recovery_kernel_path := bc_recovery_kernel_path c; bc_command_line := bc_command_line c |}.
Proof. by destruct c. Qed.

(** The texts of a well-formed configuration. *)
Section Render.
Context (c : josh_boot_config_t) (id name kernel previous recovery cmdline : list Z).
Context (Hver : bc_version c = 1) (Htime : 0 <= bc_timeout_seconds c <= 30) (Hfl : flags_ok (bc_flags c)).
Context (Hd : bc_default_entry c = text_array 16 id) (He : bc_entry_id c = text_array 16 id)
  (Hn : bc_display_name c = text_array 32 name) (Hk : bc_kernel_path c = text_array 96 kernel)
  (Hp : bc_previous_kernel_path c = text_array 96 previous)
  (Hr : bc_recovery_kernel_path c = text_array 96 recovery)
  (Hc : bc_command_line c = text_array 128 cmdline).
Context (Hid : entry_id_ok id = true) (Hname : name_ok name = true) (Hkernel : path_ok kernel = true)
  (Hprev : previous = [] \/ path_ok previous = true) (Hrec : recovery = [] \/ path_ok recovery = true)
  (Hcmd : cmdline_ok cmdline = true).

Lemma optional_path_facts p : p = [] \/ path_ok p = true -> 0 ∉ p /\ 10 ∉ p /\ 13 ∉ p /\ zlen p < 96.
Proof.
  intros [->|Hpo]; [repeat split; set_solver|].
  split_and!; [by eapply path_ok_no..|by apply path_ok_len].
Qed.

Lemma settings_eq : settings c =
  [(chars "version", [49]); (chars "default", id); (chars "timeout", digits (bc_timeout_seconds c));
   (chars "entry", id); (chars "name", name); (chars "kernel", kernel)] ++
  optional (chars "previous_kernel") previous ++ optional (chars "recovery_kernel") recovery ++
  [(chars "cmdline", cmdline); (chars "flags", flag_text (bc_flags c))].
Proof.
  pose proof (entry_id_ok_len _ Hid). pose proof (name_ok_len _ Hname). pose proof (path_ok_len _ Hkernel).
  pose proof (cmdline_ok_len _ Hcmd).
  destruct (optional_path_facts _ Hprev) as (Hp0 & _ & _ & Hpl), (optional_path_facts _ Hrec) as (Hr0 & _ & _ & Hrl).
  unfold settings. rewrite Hd, He, Hn, Hk, Hp, Hr, Hc, Hver. unfold zlen in *.
  rewrite !c_str_text_array; try done; try lia;
    [by eapply cmdline_ok_no|by eapply path_ok_no|by eapply name_ok_no|by eapply entry_id_ok_no].
Qed.

Lemma settings_clean : Forall clean (settings c).
Proof.
  rewrite settings_eq. destruct (optional_path_facts _ Hprev) as (_ & Hp10 & Hp13 & _).
  destruct (optional_path_facts _ Hrec) as (_ & Hr10 & Hr13 & _).
  destruct (digits_ok _ Htime) as (_ & Hd10 & Hd13 & _), (flag_text_ok _ Hfl) as (_ & Hf10 & Hf13 & _).
  assert (Hopt : forall k v, key_clean k = true -> 10 ∉ v -> 13 ∉ v -> Forall clean (optional k v)).
  { intros k v Hkc H10 H13. unfold optional. destruct v; [constructor|]. repeat constructor; done. }
  apply Forall_app; split; [|apply Forall_app; split; [by apply Hopt|apply Forall_app; split; [by apply Hopt|]]].
  - assert (H49 : 10 ∉ [49] /\ 13 ∉ [49]) by set_solver.
    repeat (apply Forall_cons; split); [..|constructor]; (split; [reflexivity|cbn [snd]]); try done;
      split; first [by eapply entry_id_ok_no|by eapply name_ok_no|by eapply path_ok_no].
  - repeat (apply Forall_cons; split); [..|constructor]; (split; [reflexivity|cbn [snd]]); try done.
    split; by eapply cmdline_ok_no.
Qed.

Lemma render_length : 0 < zlen (render c) <= JOSH_BOOT_CONFIG_MAX_BYTES.
Proof.
  unfold render. rewrite zlen_rendered, settings_eq.
  pose proof (entry_id_ok_len _ Hid). pose proof (name_ok_len _ Hname). pose proof (path_ok_len _ Hkernel).
  pose proof (cmdline_ok_len _ Hcmd).
  destruct (optional_path_facts _ Hprev) as (_ & _ & _ & Hpl), (optional_path_facts _ Hrec) as (_ & _ & _ & Hrl).
  destruct (digits_ok _ Htime) as (_ & _ & _ & Hdl), (flag_text_ok _ Hfl) as (_ & _ & _ & Hfl').
  pose proof (zlen_nonneg id). pose proof (zlen_nonneg name). pose proof (zlen_nonneg kernel).
  pose proof (zlen_nonneg previous). pose proof (zlen_nonneg recovery). pose proof (zlen_nonneg cmdline).
  pose proof (zlen_nonneg (digits (bc_timeout_seconds c))). pose proof (zlen_nonneg (flag_text (bc_flags c))).
  assert (Hopt : forall k v n, foldr (fun kv n => zlen (kv : list Z * list Z).1 + zlen kv.2 + 2 + n) n (optional k v)
    = if decide (v = []) then n else zlen k + zlen v + 2 + n) by (intros k v n; by destruct v).
  rewrite !foldr_app, !Hopt. cbn [foldr fst snd]. unfold JOSH_BOOT_CONFIG_MAX_BYTES.
  change (zlen (chars "version")) with 7. change (zlen (chars "default")) with 7.
  change (zlen (chars "timeout")) with 7. change (zlen (chars "entry")) with 5.
  change (zlen (chars "name")) with 4. change (zlen (chars "kernel")) with 6.
  change (zlen (chars "previous_kernel")) with 15. change (zlen (chars "recovery_kernel")) with 15.
  change (zlen (chars "cmdline")) with 7. change (zlen (chars "flags")) with 5. change (zlen [49]) with 1.
  destruct (decide (previous = [])), (decide (recovery = [])); lia.
Qed.
Ltac project :=
  cbn [with_version with_timeout with_flags with_default with_entry with_name with_kernel with_previous
       with_recovery with_cmdline zero_config bc_version bc_timeout_seconds bc_flags bc_default_entry
       bc_entry_id bc_display_name bc_kernel_path bc_previous_kernel_path bc_recovery_kernel_path
       bc_command_line].

(** One setting of a rendered text. *)
Ltac text_setting H f tac :=
  erewrite (lines_step _ _ _ _ _ _ f);
  [|exact (Forall_inv H)|vm_compute; reflexivity|vm_compute; reflexivity
   |autorewrite with apply_ref; unfold text_ref; tac; reflexivity];
  apply Forall_inv_tail in H.

Definition after_required : josh_boot_config_t :=
  {| bc_version := 1; bc_timeout_seconds := bc_timeout_seconds c; bc_flags := 0;
     bc_default_entry := text_array 16 id; bc_entry_id := text_array 16 id;
     bc_display_name := text_array 32 name; bc_kernel_path := text_array 96 kernel;
     bc_previous_kernel_path := replicate 96 0; bc_recovery_kernel_path := replicate 96 0;
     bc_command_line := replicate 128 0 |}.

Lemma number_one : number [49] = Some 1.
Proof. reflexivity. Qed.

Lemma required_lines rest :
  Forall clean (settings c) ->
  lines_ref zero_config 0 (map setting_line
    ([(chars "version", [49]); (chars "default", id); (chars "timeout", digits (bc_timeout_seconds c));
      (chars "entry", id); (chars "name", name); (chars "kernel", kernel)] ++ rest)) =
  lines_ref after_required REQUIRED_FIELDS (map setting_line rest).
Proof.
  intros Hcl. rewrite settings_eq in Hcl. apply Forall_app in Hcl as [Hcl _]. cbn [app].
  destruct (digits_ok _ Htime) as (Hnum & _).
  assert (H30 : (bc_timeout_seconds c <=? 30) = true) by lia.
  text_setting Hcl FIELD_VERSION ltac:(rewrite number_one). text_setting Hcl FIELD_DEFAULT ltac:(rewrite Hid).
  text_setting Hcl FIELD_TIMEOUT ltac:(rewrite Hnum, H30). text_setting Hcl FIELD_ENTRY ltac:(rewrite Hid).
  text_setting Hcl FIELD_NAME ltac:(rewrite Hname). text_setting Hcl FIELD_KERNEL ltac:(rewrite Hkernel).
  pose proof (entry_id_ok_len _ Hid). pose proof (name_ok_len _ Hname). pose proof (path_ok_len _ Hkernel).
  project. unfold after_required. rewrite !store_zeros by (unfold zlen in *; lia). reflexivity.
Qed.
Lemma config_eq :
  c = {| bc_version := 1; bc_timeout_seconds := bc_timeout_seconds c; bc_flags := bc_flags c;
     bc_default_entry := text_array 16 id; bc_entry_id := text_array 16 id;
     bc_display_name := text_array 32 name; bc_kernel_path := text_array 96 kernel;
     bc_previous_kernel_path := text_array 96 previous; bc_recovery_kernel_path := text_array 96 recovery;
     bc_command_line := text_array 128 cmdline |}.
Proof. rewrite (config_eta c) at 1. by rewrite Hver, Hd, He, Hn, Hk, Hp, Hr, Hc. Qed.

(** An optional path. *)
Lemma optional_line c0 seen k v rest f upd d :
  Forall clean (optional k v ++ rest) -> v = [] \/ path_ok v = true -> zlen v < 96 ->
  field_of k = f -> (f =? 0) || has seen f = false ->
  (forall v, apply_ref c0 f v = text_ref c0 upd d v (path_ok v)) -> d = replicate 96 0 ->
  upd c0 (replicate 96 0) = c0 ->
  exists seen', lines_ref c0 seen (map setting_line (optional k v ++ rest)) =
    lines_ref (upd c0 (text_array 96 v)) seen' (map setting_line rest) /\
    (seen' = seen \/ seen' = Z.lor seen f).
Proof.
  intros Hcl Hv Hl Hf Hh Ha Hd0 Hid0. destruct v as [|x v]; cbn [optional app] in *.
  - exists seen. change (text_array 96 []) with (replicate 96 0). rewrite Hid0. split; [done|by left].
  - exists (Z.lor seen f). split; [|by right]. destruct Hv as [?|Hv]; [done|].
    rewrite (lines_step _ _ _ _ _ (upd c0 (store d (x :: v))) f);
      [|exact (Forall_inv Hcl)|done|done|by rewrite Ha; unfold text_ref; rewrite Hv].
    rewrite Hd0, store_zeros by (unfold zlen in Hl; lia). done.
Qed.

Lemma render_lines : exists seen,
  lines_ref zero_config 0 (map setting_line (settings c)) = (JOSH_CONFIG_OK, c, seen) /\
  Z.land seen REQUIRED_FIELDS = REQUIRED_FIELDS.
Proof.
  pose proof settings_clean as Hcl. rewrite settings_eq. rewrite required_lines by done.
  rewrite settings_eq in Hcl. apply Forall_app in Hcl as [_ Hcl].
  destruct (flag_text_ok _ Hfl) as (Hflag & _). pose proof (cmdline_ok_len _ Hcmd) as Hcl128.
  destruct (optional_path_facts _ Hprev) as (_ & _ & _ & Hp96), (optional_path_facts _ Hrec) as (_ & _ & _ & Hr96).
  destruct (optional_line after_required REQUIRED_FIELDS _ previous _ FIELD_PREVIOUS_KERNEL with_previous
    (replicate 96 0) Hcl Hprev Hp96) as (s1 & -> & Hs1); try reflexivity.
  apply Forall_app in Hcl as [_ Hcl].
  destruct (optional_line (with_previous after_required (text_array 96 previous)) s1 _ recovery _
    FIELD_RECOVERY_KERNEL with_recovery (replicate 96 0) Hcl Hrec Hr96) as (s2 & -> & Hs2); try reflexivity.
  { by destruct Hs1 as [->| ->]. }
  apply Forall_app in Hcl as [_ Hcl].
  assert (Hs : s2 ∈ [REQUIRED_FIELDS; Z.lor REQUIRED_FIELDS FIELD_PREVIOUS_KERNEL;
    Z.lor REQUIRED_FIELDS FIELD_RECOVERY_KERNEL;
    Z.lor (Z.lor REQUIRED_FIELDS FIELD_PREVIOUS_KERNEL) FIELD_RECOVERY_KERNEL])
    by (destruct Hs2 as [->| ->], Hs1 as [->| ->]; set_solver).
  assert (Hfree : has s2 FIELD_CMDLINE = false /\ has (Z.lor s2 FIELD_CMDLINE) FIELD_FLAGS = false /\
    Z.land (Z.lor (Z.lor s2 FIELD_CMDLINE) FIELD_FLAGS) REQUIRED_FIELDS = REQUIRED_FIELDS).
  { rewrite !elem_of_cons, elem_of_nil in Hs. by destruct Hs as [->|[->|[->|[->|[]]]]]. }
  destruct Hfree as (Hh1 & Hh2 & Hreq). exists (Z.lor (Z.lor s2 FIELD_CMDLINE) FIELD_FLAGS).
  split; [|done].
  erewrite (lines_step _ _ _ _ _ _ FIELD_CMDLINE);
    [|exact (Forall_inv Hcl)|reflexivity|by rewrite Hh1|autorewrite with apply_ref; unfold text_ref; rewrite Hcmd; reflexivity].
  apply Forall_inv_tail in Hcl.
  erewrite (lines_step _ _ _ _ _ _ FIELD_FLAGS);
    [|exact (Forall_inv Hcl)|reflexivity|by rewrite Hh2|autorewrite with apply_ref; rewrite Hflag; reflexivity].
  cbn [map lines_ref]. do 2 f_equal. etransitivity; [|symmetry; exact config_eq].
  unfold after_required. project.
  rewrite store_zeros by (unfold zlen in *; lia). reflexivity.
Qed.
End Render.

Lemma render_parses c c0 :
  config_ok c -> josh_boot_config_parse (Some (render c)) (zlen (render c)) (Some c0) = Some (JOSH_CONFIG_OK, Some c).
Proof.
  intros (Hver & Htime & Hfl & id & nm & k & p & r & cl & Hd & He & Hn & Hk & Hp & Hr & Hc & Hid & Hnm & Hkk & Hpp & Hrr & Hcl).
  pose proof (render_length c id nm k p r cl Hver Htime Hfl Hd He Hn Hk Hp Hr Hc Hid Hnm Hkk Hpp Hrr Hcl) as Hlen.
  pose proof (settings_clean c id nm k p r cl Hver Htime Hfl Hd He Hn Hk Hp Hr Hc Hid Hnm Hkk Hpp Hrr Hcl) as Hclean.
  destruct (render_lines c id nm k p r cl Hver Htime Hfl Hd He Hn Hk Hp Hr Hc Hid Hnm Hkk Hpp Hrr Hcl) as (seen & Hl & Hreq).
  destruct (parse_config_ref (render c) (zlen (render c)) c0 Hlen ltac:(lia)) as (st & c' & Href & ->).
  unfold zlen in Href. rewrite Nat2Z.id, firstn_all in Href. unfold config_ref in Href. unfold render in Href.
  rewrite split_rendered, Hl, Hreq, Z.eqb_refl in Href by done. cbn [negb] in Href.
  rewrite Hd, He, bool_decide_eq_true_2 in Href by done. by injection Href as <- <-.
Qed.

(** ** An example *)
Definition example_config : josh_boot_config_t :=
  {| bc_version := 1; bc_timeout_seconds := 5; bc_flags := 2;
     bc_default_entry := text_array 16 (chars "joshos"); bc_entry_id := text_array 16 (chars "joshos");
     bc_display_name := text_array 32 (chars "JoshOS"); bc_kernel_path := text_array 96 (chars "/boot/kernel.elf");
     bc_previous_kernel_path := text_array 96 (chars "/boot/old.elf");
     bc_recovery_kernel_path := text_array 96 []; bc_command_line := text_array 128 (chars "quiet debug") |}.

Definition newline : list Z := [10].
Definition example_text : list Z :=
  chars "# boot" ++ newline ++ chars "timeout=5" ++ newline ++ chars "version=1" ++ [13; 10] ++
  chars "default=joshos" ++ newline ++ newline ++ chars "entry=joshos" ++ newline ++
  chars "name=JoshOS" ++ newline ++ chars "kernel=/boot/kernel.elf" ++ newline ++
  chars "previous_kernel=/boot/old.elf" ++ newline ++ chars "cmdline=quiet debug" ++ newline ++
  chars "flags=development".

Lemma example_config_ok : config_ok example_config.
Proof.
  split; [reflexivity|]. split; [vm_compute; split; discriminate|].
  split; [vm_compute; split; discriminate|].
  exists (chars "joshos"), (chars "JoshOS"), (chars "/boot/kernel.elf"), (chars "/boot/old.elf"), [], (chars "quiet debug").
  split_and!; try reflexivity; [by right|by left].
Qed.

Lemma example_parse :
  josh_boot_config_parse (Some example_text) (zlen example_text) (Some zero_config) =
  Some (JOSH_CONFIG_OK, Some example_config).
Proof. vm_compute. reflexivity. Qed.

(** ** Properties *)

(** The whole function on a text: the length is checked first, and then nothing is stored. *)
Definition parse_ref (text : list Z) (c0 : josh_boot_config_t) : josh_boot_config_status_t * josh_boot_config_t :=
  if (1 <=? zlen text) && (zlen text <=? 1024) then config_ref text else (JOSH_CONFIG_TOO_LARGE, c0).

(** C13: The parser implements the reference grammar.  For every text, of any length, it returns, without
    reading outside the text or writing outside the arrays, the status and the configuration of
    [parse_ref]: an empty text and one of more than 1024 bytes are refused as too large and the
    configuration is left alone; any other text is split at newlines, carriage returns
    stripped, empty and comment lines skipped, each other line split at its first equals sign
    and applied in order (numbers, flags and the permitted characters by definitions of the
    reference's own), stopping at the first error, then the required keys and the two entry
    identifiers are checked. *)
Theorem config_parse_refines_reference text len c0 :
  0 <= len <= zlen text ->
  josh_boot_config_parse (Some text) len (Some c0) =
    let '(st, c) := parse_ref (take (Z.to_nat len) text) c0 in Some (st, Some c).
Proof.
  intros Hlen. unfold parse_ref. assert (Hz : zlen (take (Z.to_nat len) text) = len) by (unfold zlen in *; rewrite length_take; lia).
  rewrite Hz. destruct ((1 <=? len) && (len <=? 1024)) eqn:E.
  - destruct (parse_config_ref text len c0) as (st & c & -> & H); [unfold JOSH_BOOT_CONFIG_MAX_BYTES; lia|lia|done].
  - unfold josh_boot_config_parse, JOSH_BOOT_CONFIG_MAX_BYTES.
    by replace ((len =? 0) || (len >? 1024)) with true by lia.
Qed.

(** The whole example, a prefix that lacks the required keys, and the empty text. *)
Lemma config_parse_refines_reference_witness :
  josh_boot_config_parse (Some example_text) (zlen example_text) (Some zero_config) = Some (JOSH_CONFIG_OK, Some example_config) /\
  josh_boot_config_parse (Some example_text) 17 (Some zero_config) =
    Some (JOSH_CONFIG_MISSING_REQUIRED, Some (with_timeout zero_config 5)) /\
  josh_boot_config_parse (Some example_text) 0 (Some example_config) = Some (JOSH_CONFIG_TOO_LARGE, Some example_config).
Proof.
  split; [|split]; rewrite config_parse_refines_reference; try (vm_compute; reflexivity); vm_compute; split; discriminate.
Defined.

(** C39: A configuration that parses is well formed: version 1, a timeout of at
    most 30 seconds, known flags, equal and valid entry identifiers, a printable
    name, an absolute kernel path, absolute or absent fallback paths and a
    printable command line, every text zero-terminated inside its array. *)
Theorem config_parsed_is_valid text len c0 c :
  0 <= len <= zlen text ->
  josh_boot_config_parse (Some text) len (Some c0) = Some (JOSH_CONFIG_OK, Some c) -> config_ok c.
Proof.
  intros Hlen H. destruct (decide (0 < len <= JOSH_BOOT_CONFIG_MAX_BYTES)) as [Hl|Hl].
  - destruct (parse_config_ref text len c0 Hl ltac:(lia)) as (st & c' & Href & H'). rewrite H in H'.
    injection H' as <- <-. by eapply parsed_config_ok.
  - unfold josh_boot_config_parse in H.
    replace ((len =? 0) || (len >? JOSH_BOOT_CONFIG_MAX_BYTES)) with true in H by lia. done.
Qed.

Lemma config_parsed_is_valid_witness : config_ok example_config.
Proof.
  apply (config_parsed_is_valid example_text (zlen example_text) zero_config example_config).
  - vm_compute. split; discriminate.
  - exact example_parse.
Defined.

(** C29: Round trip: every well-formed configuration has a text, of at most 1024
    bytes, that parses back to exactly that configuration. *)
Theorem config_render_parse_roundtrip c c0 :
  config_ok c ->
  zlen (render c) <= JOSH_BOOT_CONFIG_MAX_BYTES /\
  josh_boot_config_parse (Some (render c)) (zlen (render c)) (Some c0) = Some (JOSH_CONFIG_OK, Some c).
Proof.
  intros Hc. split; [|by apply render_parses].
  destruct Hc as (Hver & Htime & Hfl & id & nm & k & p & r & cl & Hd & He & Hn & Hk & Hp & Hr & Hc & Hid & Hnm & Hkk & Hpp & Hrr & Hcl).
  by eapply (render_length c id nm k p r cl).
Qed.

Lemma config_render_parse_roundtrip_witness :
  zlen (render example_config) <= JOSH_BOOT_CONFIG_MAX_BYTES /\
  josh_boot_config_parse (Some (render example_config)) (zlen (render example_config)) (Some zero_config)
  = Some (JOSH_CONFIG_OK, Some example_config).
Proof.
  apply (config_render_parse_roundtrip example_config zero_config). exact example_config_ok.
Defined.
