(* ===== verification/Slots.v ===== *)
(** * Which kernels a boot tries, and in which order

    Both loaders count the attempt on the health record and then walk from the
    selected slot to the previous and the recovery kernel, recording each
    fallback.  This file has what the two walks share: the order of the slots as
    a function of the configuration, and what the two health operations they
    perform do to a valid record. *)
From S2P Require Import Prelude Config Health.

(** ** The order of the candidates *)
Definition present_path (path : list Z) : bool :=
  match get8 path 0 with Some c => negb (c =? 0) | None => false end.

(** The slots that are tried, in order, when the boot starts with [slot]. *)
Definition fallback_chain (config : josh_boot_config_t) (slot : Z) : list Z :=
  let recovery := if present_path (bc_recovery_kernel_path config) then [JOSH_BOOT_SLOT_RECOVERY] else [] in
  slot ::
    (if (slot =? JOSH_BOOT_SLOT_CURRENT) && present_path (bc_previous_kernel_path config)
     then JOSH_BOOT_SLOT_PREVIOUS :: recovery
     else if slot =? JOSH_BOOT_SLOT_RECOVERY then [] else recovery).

(** What the code needs of the three paths: they are strings inside their arrays. *)
Definition paths_ok (config : josh_boot_config_t) : Prop :=
  0 ∈ bc_kernel_path config /\ 0 ∈ bc_previous_kernel_path config /\ 0 ∈ bc_recovery_kernel_path config.

Lemma text_array_zero n v : (length v < n)%nat -> 0 ∈ text_array n v.
Proof.
  intros H. unfold text_array. apply elem_of_app. right. apply elem_of_replicate. split; [done|lia].
Qed.

Lemma config_ok_paths config : config_ok config -> paths_ok config.
Proof.
  intros (_ & _ & _ & id & name & k & p & r & c & _ & _ & _ & Hk & Hp & Hr & _ & _ & _ & Hk' & Hp' & Hr' & _).
  unfold paths_ok. rewrite Hk, Hp, Hr.
  assert (Hlen : forall v, v = [] \/ path_ok v = true -> (length v < 96)%nat).
  { intros v [->|Hv]; [cbn; lia|]. apply path_ok_len in Hv. unfold zlen in Hv. lia. }
  split_and!; apply text_array_zero, Hlen; auto.
Qed.

Lemma get8_present path : 0 ∈ path -> exists c, get8 path 0 = Some c /\ present_path path = negb (c =? 0).
Proof. intros H. unfold present_path. destruct path as [|c path]; [set_solver|]. by exists c. Qed.

(** One fallback of the record, as the loop performs it. *)
Definition fallback_step (r r' : josh_boot_health_record_t) : Prop :=
  exists slot, (slot = JOSH_BOOT_SLOT_PREVIOUS \/ slot = JOSH_BOOT_SLOT_RECOVERY) /\
    josh_boot_health_select_fallback (Some r) slot JOSH_BOOT_FAILURE_KERNEL_FILE = (1, Some r').

Lemma select_fallback_valid r slot :
  josh_boot_health_valid (Some r) = true -> slot = JOSH_BOOT_SLOT_PREVIOUS \/ slot = JOSH_BOOT_SLOT_RECOVERY ->
  exists r', josh_boot_health_select_fallback (Some r) slot JOSH_BOOT_FAILURE_KERNEL_FILE = (1, Some r') /\
    josh_boot_health_valid (Some r') = true /\ (record_ok r -> record_ok r') /\
    hr_generation r' = u64 (hr_generation r + 1).
Proof.
  intros Hv Hs. unfold josh_boot_health_select_fallback. rewrite Hv.
  assert (Hsv : slot_valid slot = true) by (destruct Hs as [->| ->]; reflexivity). rewrite Hsv.
  change (JOSH_BOOT_FAILURE_KERNEL_FILE >? JOSH_BOOT_FAILURE_DESKTOP) with false. cbn [negb orb].
  eexists. split; [reflexivity|]. apply valid_iff in Hv as [Hf _].
  assert (Hs2 : 0 <= slot <= 2) by (destruct Hs as [->| ->]; unfold JOSH_BOOT_SLOT_PREVIOUS, JOSH_BOOT_SLOT_RECOVERY; lia).
  split_and!; [|intros Hr|done].
  - apply seal_valid, with_fields_valid; try done; unfold JOSH_BOOT_FAILURE_KERNEL_FILE; try lia. by destruct Hf as (_ & _ & _ & _ & ? & _).
  - apply seal_ok. destruct Hr as (? & ? & ? & ? & ? & ? & ? & ? & ? & ? & ? & ? & ?).
    apply with_fields_ok; try done; auto with josh; unfold in_u32, JOSH_BOOT_FAILURE_KERNEL_FILE; lia.
Qed.

(** ** One boot as a step of the record

    The reference both loaders are compared with: count the attempt, then walk
    the slots until one has a usable kernel, noting each fallback in the record. *)
Definition fallback_record (h : josh_boot_health_record_t) (slot : Z) : josh_boot_health_record_t :=
  default h (snd (josh_boot_health_select_fallback (Some h) slot JOSH_BOOT_FAILURE_KERNEL_FILE)).

(** The slot that is booted, if any, and the record that is left. *)
Fixpoint settle (usable : Z -> bool) (h : josh_boot_health_record_t) (slots : list Z) {struct slots}
    : option Z * josh_boot_health_record_t :=
  match slots with
  | [] => (None, h)
  | slot :: rest =>
      if usable slot then (Some slot, h)
      else
        match rest with
        | [] => (None, h)
        | next :: _ => settle usable (fallback_record h next) rest
        end
  end.

Definition boot_step (usable : Z -> bool) (config : josh_boot_config_t) (r : josh_boot_health_record_t)
    : option Z * josh_boot_health_record_t :=
  let '(slot, h) := josh_boot_health_prepare_attempt (Some r) JOSH_BOOT_HEALTH_MAX_ATTEMPTS in
  settle usable (default r h) (fallback_chain config slot).

Lemma settle_ext usable usable' slots : (forall slot, usable slot = usable' slot) ->
  forall h, settle usable h slots = settle usable' h slots.
Proof.
  intros He. induction slots as [|slot [|next rest] IH]; intros h; [done|cbn; by rewrite He|].
  cbn [settle] in *. rewrite He. destruct (usable' slot); [done|]. apply IH.
Qed.

(** A slot that is not usable, with another one to try. *)
Lemma settle_fallback usable h slot next config h' ok :
  usable slot = false ->
  josh_boot_health_select_fallback (Some h) next JOSH_BOOT_FAILURE_KERNEL_FILE = (ok, Some h') ->
  settle usable h (slot :: fallback_chain config next) = settle usable h' (fallback_chain config next).
Proof.
  intros Hu Hf. unfold fallback_chain. remember (next :: _) as rest eqn:Er. cbn [settle]. rewrite Hu. subst rest.
  unfold fallback_record. by rewrite Hf.
Qed.

(** ** Counting the attempt *)
Lemma prepare_attempt_valid r :
  josh_boot_health_valid (Some r) = true -> record_ok r ->
  exists slot h, josh_boot_health_prepare_attempt (Some r) JOSH_BOOT_HEALTH_MAX_ATTEMPTS = (slot, Some h) /\
    josh_boot_health_valid (Some h) = true /\ record_ok h /\ 0 <= slot <= 2 /\
    (hr_generation h = hr_generation r -> h = r) /\
    (hr_generation h <> hr_generation r -> hr_generation h = u64 (hr_generation r + 1)).
Proof.
  intros Hv Hr. unfold josh_boot_health_prepare_attempt. rewrite Hv. cbn [negb].
  change (JOSH_BOOT_HEALTH_MAX_ATTEMPTS =? 0) with false. cbv iota.
  pose proof Hr as (Hr1 & Hr2 & Hr3 & Hgen & Hsel & Hlast & Hpend & Hatt & Hfail & Hr4 & Hupd & Hr5 & Hr6).
  pose proof Hv as Hv'. apply valid_iff in Hv' as [Hf _].
  pose proof Hf as (_ & _ & _ & Hf1 & Hf2 & Hf3 & Hf4).
  eexists _, _. split; [reflexivity|].
  assert (Hwrap : u64 (hr_generation r + 1) <> hr_generation r).
  { unfold u64, in_u64 in *. intros E. destruct (Z.eq_dec (hr_generation r) (2 ^ 64 - 1)) as [Hm|]; [by rewrite Hm in E|].
    rewrite Z.mod_small in E by lia. lia. }
  assert (Hcases : forall s l p a f, in_u32 s -> s <= 2 -> in_u32 l -> l <= 2 -> in_u32 p -> p <= 1 -> in_u32 a ->
    in_u32 f -> f <= 7 ->
    let h := seal (with_fields r (u64 (hr_generation r + 1)) s l p a f (hr_update_generation r)) in
    josh_boot_health_valid (Some h) = true /\ record_ok h /\ 0 <= hr_selected_slot h <= 2 /\
    (hr_generation h = hr_generation r -> h = r) /\
    (hr_generation h <> hr_generation r -> hr_generation h = u64 (hr_generation r + 1))).
  { intros s0 l p a f Hs Hs2 Hl Hl2 Hp Hp1 Ha Hff Hf7 h. split_and!.
    - by apply seal_valid, with_fields_valid.
    - apply seal_ok, with_fields_ok; auto with josh.
    - cbn. unfold in_u32 in Hs. lia.
    - cbn. lia.
    - by intros E%Hwrap.
    - done. }
  assert (H2 : in_u32 2) by (unfold in_u32; lia). assert (H0 : in_u32 0) by (unfold in_u32; lia).
  assert (H5 : in_u32 5) by (unfold in_u32; lia).
  destruct (hr_pending_good r =? 0); cbn [negb].
  - split_and!; try done; unfold in_u32 in Hsel; lia.
  - destruct (hr_attempt_count r >=? JOSH_BOOT_HEALTH_MAX_ATTEMPTS).
    + destruct (negb (hr_last_good_slot r =? hr_selected_slot r));
        apply Hcases; unfold JOSH_BOOT_SLOT_RECOVERY, JOSH_BOOT_FAILURE_KERNEL; done || lia.
    + apply Hcases; auto with josh.
Qed.

