(* ===== verification/Memory.v ===== *)
(** * Physical memory of the second stage (boot/stage2_pm.c)

    Stage 2 runs in protected mode without paging and works on absolute
    addresses.  Memory is a total function from physical addresses to bytes,
    and the byte loops of the file are written out one store at a time, so a
    copy between overlapping ranges behaves as the loop does.  [mem_slice] and
    [mem_put] pass a region of memory to and from the components whose buffers
    are lists. *)
From S2P Require Import Prelude.

Definition mem : Type := Z -> Z.

(** The value of a C character: its conversion to [unsigned char]. *)
Definition store8 (m : mem) (a v : Z) : mem := fun x => if x =? a then u8 v else m x.

(** Little-endian stores and loads of eight bytes. *)
Fixpoint store_bytes (m : mem) (a : Z) (l : list Z) : mem :=
  match l with
  | [] => m
  | b :: l' => store_bytes (store8 m a b) (a + 1) l'
  end.

Definition store64 (m : mem) (a v : Z) : mem := store_bytes m a (le_bytes 8 v).

Definition mem_slice (m : mem) (a n : Z) : list Z := map m (seqZ a n).

Definition load64 (m : mem) (a : Z) : Z := le_value (mem_slice m a 8).
Definition load32 (m : mem) (a : Z) : Z := le_value (mem_slice m a 4).
Definition load16 (m : mem) (a : Z) : Z := le_value (mem_slice m a 2).

(** Is address [x] among the [n] addresses from [a] on? *)
Definition inside (a n x : Z) : bool := (a <=? x) && (x <? a + n).

(** A region filled by another component. *)
Definition mem_put (m : mem) (a : Z) (l : list Z) : mem :=
  fun x => if inside a (zlen l) x then default 0 (get8 l (x - a)) else m x.

(** ** The byte loops *)
Fixpoint memzero (m : mem) (destination : Z) (length : nat) : mem :=
  match length with
  | O => m
  | S n => memzero (store8 m destination 0) (destination + 1) n
  end.

Fixpoint memcopy (m : mem) (destination source : Z) (length : nat) : mem :=
  match length with
  | O => m
  | S n => memcopy (store8 m destination (m source)) (destination + 1) (source + 1) n
  end.

Fixpoint bytes_equal (m : mem) (memory : Z) (text : list Z) : bool :=
  match text with
  | [] => true
  | t :: rest => if negb (m memory =? u8 t) then false else bytes_equal m (memory + 1) rest
  end.

(** Addresses are 32 bits wide: a range that runs past the end wraps around. *)
Fixpoint checksum_loop (m : mem) (memory : Z) (length : nat) (sum : Z) : Z :=
  match length with
  | O => sum
  | S n => checksum_loop m (u32 (memory + 1)) n (u8 (sum + m memory))
  end.

Definition checksum (m : mem) (memory length : Z) : Z :=
  checksum_loop m memory (Z.to_nat length) 0.

(** ** Case analysis on address ranges *)
Lemma inside_spec a n x : BoolSpec (a <= x < a + n) (x < a \/ a + n <= x) (inside a n x).
Proof.
  unfold inside. destruct (Z.leb_spec a x), (Z.ltb_spec x (a + n)); constructor; lia.
Qed.

(** Split every range test of the goal and drop the impossible cases. *)
Ltac ranges :=
  repeat match goal with
  | |- context [inside ?a ?n ?x] => destruct (inside_spec a n x)
  | |- context [?x =? ?y] => destruct (Z.eqb_spec x y)
  end; try lia.

(** ** Well-formed memory: every cell is a byte *)
Definition mem_ok (m : mem) : Prop := forall a, in_u8 (m a).

Lemma store8_ok m a v : mem_ok m -> mem_ok (store8 m a v).
Proof. intros H x. unfold store8. destruct (x =? a); auto with josh. Qed.

Lemma store_bytes_ok l : forall m a, mem_ok m -> mem_ok (store_bytes m a l).
Proof. induction l as [|b l IH]; intros m a H; cbn; [done|]. by apply IH, store8_ok. Qed.

Lemma store64_ok m a v : mem_ok m -> mem_ok (store64 m a v).
Proof. apply store_bytes_ok. Qed.

Lemma memzero_ok n : forall m d, mem_ok m -> mem_ok (memzero m d n).
Proof. induction n as [|n IH]; intros m d H; cbn; [done|]. by apply IH, store8_ok. Qed.

Lemma memcopy_ok n : forall m d s, mem_ok m -> mem_ok (memcopy m d s n).
Proof. induction n as [|n IH]; intros m d s H; cbn; [done|]. by apply IH, store8_ok. Qed.

Lemma mem_put_ok m a l : mem_ok m -> bytes l -> mem_ok (mem_put m a l).
Proof.
  intros Hm Hl x. unfold mem_put. destruct (inside _ _ _); [|done].
  destruct (get8 l (x - a)) eqn:E; cbn; [by eapply get8_byte|]. word.
Qed.
#[export] Hint Resolve store8_ok store_bytes_ok store64_ok memzero_ok memcopy_ok mem_put_ok : josh.

(** ** What the loops leave in memory *)
Lemma memzero_spec n : forall m d x,
  memzero m d n x = if inside d (Z.of_nat n) x then 0 else m x.
Proof.
  induction n as [|n IH]; intros m d x; cbn [memzero]; [ranges; done|].
  rewrite IH. unfold store8. ranges; done.
Qed.

Lemma memcopy_outside n : forall m d s x,
  x < d \/ d + Z.of_nat n <= x -> memcopy m d s n x = m x.
Proof.
  induction n as [|n IH]; intros m d s x Hx; cbn [memcopy]; [done|].
  rewrite IH by lia. unfold store8. ranges; done.
Qed.

(** A forward copy is exact unless the destination starts inside the source. *)
Lemma memcopy_spec n : forall m d s x,
  mem_ok m -> d <= s \/ s + Z.of_nat n <= d ->
  memcopy m d s n x = if inside d (Z.of_nat n) x then m (s + (x - d)) else m x.
Proof.
  induction n as [|n IH]; intros m d s x Hm Ho; cbn [memcopy]; [ranges; done|].
  rewrite IH by (auto with josh || lia). unfold store8. ranges; try done.
  - f_equal; lia.
  - rewrite u8_id by apply Hm. f_equal. lia.
Qed.

Lemma store_bytes_spec l : forall m a x, bytes l ->
  store_bytes m a l x = if inside a (zlen l) x then default 0 (get8 l (x - a)) else m x.
Proof.
  unfold zlen. induction l as [|b l IH]; intros m a x Hl; cbn [store_bytes length].
  - ranges; done.
  - inversion Hl as [|? ? Hb Hl']; subst. rewrite IH by done. unfold store8. ranges; try done.
    + f_equal. unfold get8. rewrite !(proj2 (Z.ltb_ge _ 0)) by lia.
      by replace (Z.to_nat (x - a)) with (S (Z.to_nat (x - (a + 1)))) by lia.
    + replace (x - a) with 0 by lia. cbn. by rewrite u8_id.
Qed.

(** ** Regions as lists *)
Lemma zlen_mem_slice m a n : 0 <= n -> zlen (mem_slice m a n) = n.
Proof. intros H. unfold mem_slice, zlen. rewrite length_map, length_seqZ. lia. Qed.

Lemma bytes_mem_slice m a n : mem_ok m -> bytes (mem_slice m a n).
Proof. intros H. unfold mem_slice. apply Forall_map, Forall_forall. intros x _. apply H. Qed.
#[export] Hint Resolve bytes_mem_slice : josh.

Lemma get8_mem_slice m a n i : 0 <= i < n -> get8 (mem_slice m a n) i = Some (m (a + i)).
Proof.
  intros Hi. unfold get8, mem_slice. replace (i <? 0) with false by lia.
  rewrite list_lookup_fmap, (lookup_seqZ_lt a n (Z.to_nat i)) by lia. cbn. do 2 f_equal. lia.
Qed.

Lemma mem_slice_ext m m' a n :
  (forall x, a <= x < a + n -> m x = m' x) -> mem_slice m a n = mem_slice m' a n.
Proof.
  intros H. unfold mem_slice. apply map_ext_in. intros x Hx%list_elem_of_In. apply elem_of_seqZ in Hx. apply H. lia.
Qed.

Lemma mem_put_outside m a l x : x < a \/ a + zlen l <= x -> mem_put m a l x = m x.
Proof. intros H. unfold mem_put. ranges; done. Qed.

Lemma lookup_get8 (l : list Z) (i : nat) : l !! i = get8 l (Z.of_nat i).
Proof. unfold get8. rewrite (proj2 (Z.ltb_ge _ 0)) by lia. by rewrite Nat2Z.id. Qed.

Lemma get8_mem_put m a l i : 0 <= i < zlen l -> get8 l i = Some (mem_put m a l (a + i)).
Proof.
  intros Hi. unfold mem_put. ranges. replace (a + i - a) with i by lia.
  destruct (get8_Some l i Hi) as [b Hb]. by rewrite Hb.
Qed.

Lemma mem_slice_put m a l n : n = zlen l -> mem_slice (mem_put m a l) a n = l.
Proof.
  intros ->. assert (Hn : 0 <= zlen l) by (unfold zlen; lia).
  pose proof (zlen_mem_slice (mem_put m a l) a (zlen l) Hn) as Hz.
  apply list_eq. intros i. destruct (decide (i < length l)%nat) as [Hi|Hi].
  - rewrite !lookup_get8, get8_mem_slice by (unfold zlen; lia). symmetry.
    apply get8_mem_put. unfold zlen. lia.
  - rewrite (lookup_ge_None_2 l), lookup_ge_None_2; [done| |lia]. unfold zlen in *. lia.
Qed.

(** The bytes [l] lie at [a]. *)
Definition holds (m : mem) (a : Z) (l : list Z) : Prop := forall i, 0 <= i < zlen l -> get8 l i = Some (m (a + i)).

Lemma holds_slice m a l : holds m a l <-> mem_slice m a (zlen l) = l.
Proof.
  split.
  - intros H. transitivity (mem_slice (mem_put m a l) a (zlen l)); [|by apply mem_slice_put]. apply mem_slice_ext. intros x Hx.
    unfold mem_put. ranges. rewrite (H (x - a)) by lia. cbn. f_equal. lia.
  - intros H i Hi. rewrite <- H at 1. by apply get8_mem_slice.
Qed.

Lemma holds_ext m m' a l : (forall x, a <= x < a + zlen l -> m' x = m x) -> holds m a l -> holds m' a l.
Proof. intros He H i Hi. rewrite He by lia. by apply H. Qed.

Lemma holds_app m a l k : holds m a (l ++ k) <-> holds m a l /\ holds m (a + zlen l) k.
Proof.
  assert (Hz : zlen (l ++ k) = zlen l + zlen k) by (unfold zlen; rewrite length_app; lia). unfold holds. rewrite Hz. split.
  - intros H. split; intros i Hi.
    + rewrite <- H by (unfold zlen in *; lia). rewrite get8_app. by rewrite (proj2 (Z.ltb_lt _ _)) by lia.
    + rewrite <- Z.add_assoc, <- H by (unfold zlen in *; lia). rewrite get8_app.
      rewrite (proj2 (Z.ltb_ge _ _)) by lia. f_equal. lia.
  - intros [H1 H2] i Hi. rewrite get8_app. destruct (Z.ltb_spec i (zlen l)); [apply H1; lia|].
    rewrite H2 by lia. do 2 f_equal. lia.
Qed.

Lemma holds_nil m a : holds m a [].
Proof. intros i Hi. change (zlen (@nil Z)) with 0 in Hi. lia. Qed.

Lemma holds_put m a l : holds (mem_put m a l) a l.
Proof. intros i. apply get8_mem_put. Qed.

Lemma holds_put_apart m b k a l : b + zlen k <= a \/ a + zlen l <= b -> holds m a l -> holds (mem_put m b k) a l.
Proof. intros Ho. apply holds_ext. intros x Hx. apply mem_put_outside. lia. Qed.

Lemma mem_put_ext m m' a l x : m x = m' x -> mem_put m a l x = mem_put m' a l x.
Proof. intros H. unfold mem_put. by destruct (inside _ _ _). Qed.

Lemma mem_put_app m a l k x : mem_put (mem_put m a l) (a + zlen l) k x = mem_put m a (l ++ k) x.
Proof.
  assert (Hz : zlen (l ++ k) = zlen l + zlen k) by (unfold zlen; rewrite length_app; lia).
  assert (0 <= zlen l /\ 0 <= zlen k) by (unfold zlen; lia). unfold mem_put. rewrite Hz.
  ranges; try done; rewrite get8_app.
  - rewrite (proj2 (Z.ltb_ge _ _)) by lia. do 2 f_equal. lia.
  - by rewrite (proj2 (Z.ltb_lt _ _)) by lia.
Qed.

Lemma store_bytes_put m a l x : bytes l -> store_bytes m a l x = mem_put m a l x.
Proof. intros Hl. by rewrite store_bytes_spec. Qed.

(** ** Eight-byte cells *)
Lemma store64_outside m a v x : x < a \/ a + 8 <= x -> store64 m a v x = m x.
Proof.
  intros H. unfold store64. rewrite store_bytes_spec by apply bytes_le_bytes.
  rewrite zlen_le_bytes. ranges; done.
Qed.

Lemma load64_ext m m' a : (forall x, a <= x < a + 8 -> m x = m' x) -> load64 m a = load64 m' a.
Proof. intros H. unfold load64. f_equal. by apply mem_slice_ext. Qed.

Lemma load64_store64 m a v b :
  b = a \/ b + 8 <= a \/ a + 8 <= b ->
  load64 (store64 m a v) b = if b =? a then u64 v else load64 m b.
Proof.
  intros Hb. destruct (Z.eqb_spec b a) as [->|Hne].
  - unfold load64. replace (mem_slice (store64 m a v) a 8) with (le_bytes 8 v).
    + by rewrite le_value_le_bytes.
    + rewrite <- (mem_slice_put m a (le_bytes 8 v) 8) at 1 by by rewrite zlen_le_bytes.
      apply mem_slice_ext. intros x Hx. unfold store64. by rewrite store_bytes_spec by apply bytes_le_bytes.
  - apply load64_ext. intros x Hx. apply store64_outside. lia.
Qed.

Lemma load64_memzero m d n a :
  d <= a -> a + 8 <= d + Z.of_nat n -> load64 (memzero m d n) a = 0.
Proof.
  intros H1 H2. unfold load64.
  replace (mem_slice (memzero m d n) a 8) with (mem_slice (fun _ => 0) a 8); [done|].
  apply mem_slice_ext. intros x Hx. rewrite memzero_spec. ranges; done.
Qed.
