(* ===== verification/Paging.v ===== *)
(** * The page tables of the second stage (boot/stage2_pm.c)

    [build_page_tables] writes eight pages of tables at fixed addresses.  The
    reference is the four-level walk the processor performs with the table at
    [cr3] as root; the theorem says what every 64-bit virtual address means
    under the tables the loader built. *)
From S2P Require Import Prelude Memory.

Definition KERNEL_VIRT_BASE : Z := 0xffffffff80000000.
Definition KERNEL_PHYS_BASE : Z := 0x00200000.
Definition KERNEL_PHYS_LIMIT : Z := 0x08000000.

Definition PML4_ADDR : Z := 0x00050000.
Definition PDPT_LOW_ADDR : Z := 0x00051000.
Definition PD_LOW0_ADDR : Z := 0x00052000.
Definition PDPT_HIGH_ADDR : Z := 0x00056000.
Definition PD_HIGH_ADDR : Z := 0x00057000.

Definition PAGE_PRESENT : Z := 0x001.
Definition PAGE_RW : Z := 0x002.
Definition PAGE_PS : Z := 0x080.

(** [for (i; i < 512; ++i) table[i] = entry(i)], [n] iterations from [i] on. *)
Fixpoint table_loop (m : mem) (table : Z) (entry : Z -> Z) (n : nat) (i : Z) {struct n} : mem :=
  match n with
  | O => m
  | S n' => table_loop (store64 m (table + 8 * i) (entry i)) table entry n' (i + 1)
  end.

Definition low_entry (gib i : Z) : Z :=
  let physical := u64 (u64 (u64 (gib * 512) + i) * 0x200000) in
  Z.lor (Z.lor (Z.lor physical PAGE_PRESENT) PAGE_RW) PAGE_PS.

Definition high_entry (i : Z) : Z :=
  Z.lor (Z.lor (Z.lor (u64 (KERNEL_PHYS_BASE + u64 (i * 0x200000))) PAGE_PRESENT) PAGE_RW) PAGE_PS.

Definition table_entry (address : Z) : Z := Z.lor (Z.lor address PAGE_PRESENT) PAGE_RW.

(** The loop over the four identity-mapped gigabytes. *)
Fixpoint gib_loop (m : mem) (n : nat) (gib : Z) {struct n} : mem :=
  match n with
  | O => m
  | S n' =>
      let pd_address := u32 (PD_LOW0_ADDR + u32 (gib * 0x1000)) in
      let m := store64 m (PDPT_LOW_ADDR + 8 * gib) (table_entry pd_address) in
      gib_loop (table_loop m pd_address (low_entry gib) 512 0) n' (gib + 1)
  end.

Definition build_page_tables (m : mem) : mem :=
  let m := memzero m PML4_ADDR (Z.to_nat 0x8000) in
  let m := store64 m (PML4_ADDR + 8 * 0) (table_entry PDPT_LOW_ADDR) in
  let m := gib_loop m 4 0 in
  let m := store64 m (PML4_ADDR + 8 * 511) (table_entry PDPT_HIGH_ADDR) in
  let m := store64 m (PDPT_HIGH_ADDR + 8 * 510) (table_entry PD_HIGH_ADDR) in
  table_loop m PD_HIGH_ADDR high_entry 512 0.

(** ** Reference: the processor's four-level walk *)
Definition canonical (v : Z) : bool := (v <? 2 ^ 47) || (2 ^ 64 - 2 ^ 47 <=? v).
Definition index (v level : Z) : Z := Z.land (Z.shiftr v level) 511.
Definition present (e : Z) : bool := Z.testbit e 0.
Definition large (e : Z) : bool := Z.testbit e 7.
(** Bits 12 to 51 of an entry. *)
Definition frame (e : Z) : Z := Z.land e 0x000ffffffffff000.

Definition translate (m : mem) (cr3 v : Z) : option Z :=
  if negb (canonical v) then None
  else
    let e4 := load64 m (frame cr3 + 8 * index v 39) in
    if negb (present e4) then None
    else
      let e3 := load64 m (frame e4 + 8 * index v 30) in
      if negb (present e3) then None
      else if large e3 then Some (Z.land e3 0x000fffffc0000000 + Z.land v 0x3fffffff)
      else
        let e2 := load64 m (frame e3 + 8 * index v 21) in
        if negb (present e2) then None
        else if large e2 then Some (Z.land e2 0x000fffffffe00000 + Z.land v 0x1fffff)
        else
          let e1 := load64 m (frame e2 + 8 * index v 12) in
          if negb (present e1) then None else Some (frame e1 + Z.land v 0xfff).

(** ** Bit fields *)
Lemma land_field e lo n :
  0 <= lo -> 0 <= n -> Z.land e (Z.shiftl (Z.ones n) lo) = 2 ^ lo * ((e / 2 ^ lo) mod 2 ^ n).
Proof.
  intros Hlo Hn. rewrite <- Z.land_ones, <- Z.shiftr_div_pow2 by done.
  rewrite Z.mul_comm, <- Z.shiftl_mul_pow2 by done. rewrite Z.shiftl_land. apply Z.bits_inj'. intros i Hi.
  rewrite !Z.land_spec. destruct (Z.lt_ge_cases i lo) as [H|H].
  - by rewrite !(Z.shiftl_spec_low _ lo i H), !andb_false_r.
  - rewrite (Z.shiftl_spec _ _ i Hi), (Z.shiftl_spec (Z.shiftr e lo) _ i Hi), Z.shiftr_spec by lia.
    by replace (i - lo + lo) with i by lia.
Qed.

Lemma index_spec v level : 0 <= level -> index v level = (v / 2 ^ level) mod 512.
Proof.
  intros H. unfold index. rewrite Z.shiftr_div_pow2 by done. exact (Z.land_ones _ 9 ltac:(lia)).
Qed.

Lemma index_range v level : 0 <= level -> 0 <= index v level < 512.
Proof. intros H. rewrite index_spec by done. apply Z.mod_pos_bound. lia. Qed.

Lemma frame_spec e : frame e = 2 ^ 12 * ((e / 2 ^ 12) mod 2 ^ 40).
Proof. exact (land_field e 12 40 ltac:(lia) ltac:(lia)). Qed.

(** An aligned large-page entry, with its flags as the code ors them in. *)
Lemma large_entry k :
  0 <= k < 2 ^ 31 ->
  let e := u64 (Z.lor (Z.lor (Z.lor (2 ^ 21 * k) PAGE_PRESENT) PAGE_RW) PAGE_PS) in
  present e = true /\ large e = true /\ Z.land e 0x000fffffffe00000 = 2 ^ 21 * k.
Proof.
  intros Hk. cbv zeta.
  assert (He : Z.lor (Z.lor (Z.lor (2 ^ 21 * k) PAGE_PRESENT) PAGE_RW) PAGE_PS = 131 + 2 ^ 21 * k).
  { rewrite <- !Z.lor_assoc. change (Z.lor PAGE_PRESENT (Z.lor PAGE_RW PAGE_PS)) with 131.
    rewrite Z.lor_comm, (Z.mul_comm (2 ^ 21)), <- (Z.shiftl_mul_pow2 k 21) by lia.
    rewrite lor_shiftl_add by lia. rewrite ?Z.shiftl_mul_pow2 by lia. lia. }
  rewrite He, u64_id by (unfold in_u64; lia). unfold present, large.
  split_and!.
  - by rewrite Z.testbit_odd, Z.shiftr_0_r, Z.odd_add, Z.odd_mul.
  - rewrite Z.testbit_odd, Z.shiftr_div_pow2 by lia.
    replace ((131 + 2 ^ 21 * k) / 2 ^ 7) with (1 + 2 * (2 ^ 13 * k)) by zdm.
    by rewrite Z.odd_add_mul_2.
  - rewrite (land_field _ 21 31 ltac:(lia) ltac:(lia)).
    replace ((131 + 2 ^ 21 * k) / 2 ^ 21) with k by zdm. by rewrite Z.mod_small.
Qed.

(** ** The tables in memory *)
Lemma table_loop_ok n : forall m t f i, mem_ok m -> mem_ok (table_loop m t f n i).
Proof. induction n as [|n IH]; intros m t f i H; cbn [table_loop]; [done|]. by apply IH, store64_ok. Qed.

Lemma gib_loop_ok n : forall m g, mem_ok m -> mem_ok (gib_loop m n g).
Proof.
  induction n as [|n IH]; intros m g H; cbn [gib_loop]; [done|].
  by apply IH, table_loop_ok, store64_ok.
Qed.

Lemma build_page_tables_ok m : mem_ok m -> mem_ok (build_page_tables m).
Proof. intros H. unfold build_page_tables. by apply table_loop_ok, store64_ok, store64_ok, gib_loop_ok, store64_ok, memzero_ok. Qed.

Lemma table_loop_outside n : forall m t f i x,
  x < t + 8 * i \/ t + 8 * (i + Z.of_nat n) <= x -> table_loop m t f n i x = m x.
Proof.
  induction n as [|n IH]; intros m t f i x Hx; cbn [table_loop]; [done|].
  rewrite IH by lia. apply store64_outside. lia.
Qed.

Lemma load64_table_loop n : forall m t f i b,
  (b - t) mod 8 = 0 ->
  load64 (table_loop m t f n i) b =
  if inside (t + 8 * i) (8 * Z.of_nat n) b then u64 (f ((b - t) / 8)) else load64 m b.
Proof.
  induction n as [|n IH]; intros m t f i b Hb; cbn [table_loop]; [ranges; done|].
  rewrite IH by done. rewrite load64_store64 by zdm. ranges; try done.
  - subst b. do 2 f_equal. zdm.
  - exfalso. zdm.
Qed.

Definition tables_start : Z := PML4_ADDR.
Definition tables_size : Z := 0x8000.

(** One gigabyte: the entry for its directory and the directory. *)
Definition gib_body (m : mem) (gib : Z) : mem :=
  table_loop (store64 m (PDPT_LOW_ADDR + 8 * gib) (table_entry (PD_LOW0_ADDR + 0x1000 * gib)))
    (PD_LOW0_ADDR + 0x1000 * gib) (low_entry gib) 512 0.

Lemma gib_loop_unroll m :
  gib_loop m 4 0 = gib_body (gib_body (gib_body (gib_body m 0) 1) 2) 3.
Proof. reflexivity. Qed.

Lemma gib_body_outside m g x :
  0 <= g < 4 -> x < PDPT_LOW_ADDR \/ PDPT_LOW_ADDR + 0x5000 <= x -> gib_body m g x = m x.
Proof.
  unfold gib_body, PDPT_LOW_ADDR, PD_LOW0_ADDR. intros Hg Hx.
  rewrite table_loop_outside by lia. apply store64_outside. lia.
Qed.

Lemma build_page_tables_outside m x :
  x < tables_start \/ tables_start + tables_size <= x -> build_page_tables m x = m x.
Proof.
  unfold tables_start, tables_size, build_page_tables, PML4_ADDR. intros Hx. rewrite gib_loop_unroll.
  rewrite table_loop_outside, !store64_outside by (unfold PDPT_HIGH_ADDR, PD_HIGH_ADDR; lia).
  rewrite !gib_body_outside, store64_outside by (unfold PDPT_LOW_ADDR; lia).
  rewrite memzero_spec. ranges; done.
Qed.

(** The cells of the tables, one level at a time. *)
Lemma load64_gib_body m g b :
  0 <= g < 4 -> b mod 8 = 0 ->
  load64 (gib_body m g) b =
  if inside (PD_LOW0_ADDR + 0x1000 * g) 0x1000 b
  then u64 (low_entry g ((b - (PD_LOW0_ADDR + 0x1000 * g)) / 8))
  else if b =? PDPT_LOW_ADDR + 8 * g then u64 (table_entry (PD_LOW0_ADDR + 0x1000 * g))
  else load64 m b.
Proof.
  unfold PDPT_LOW_ADDR, PD_LOW0_ADDR, gib_body. intros Hg Hb.
  rewrite load64_table_loop, load64_store64 by (unfold PD_LOW0_ADDR, PDPT_LOW_ADDR; zdm).
  unfold PD_LOW0_ADDR, PDPT_LOW_ADDR. ranges; done.
Qed.

Lemma load64_tables m b :
  b mod 8 = 0 -> PML4_ADDR <= b -> b + 8 <= PML4_ADDR + tables_size ->
  load64 (build_page_tables m) b =
  if inside PD_HIGH_ADDR 0x1000 b then u64 (high_entry ((b - PD_HIGH_ADDR) / 8))
  else if b =? PDPT_HIGH_ADDR + 8 * 510 then u64 (table_entry PD_HIGH_ADDR)
  else if b =? PML4_ADDR + 8 * 511 then u64 (table_entry PDPT_HIGH_ADDR)
  else if inside PD_LOW0_ADDR 0x4000 b
  then let g := (b - PD_LOW0_ADDR) / 0x1000 in u64 (low_entry g ((b - (PD_LOW0_ADDR + 0x1000 * g)) / 8))
  else if inside PDPT_LOW_ADDR 32 b
  then u64 (table_entry (PD_LOW0_ADDR + 0x1000 * ((b - PDPT_LOW_ADDR) / 8)))
  else if b =? PML4_ADDR then u64 (table_entry PDPT_LOW_ADDR)
  else 0.
Proof.
  intros Hb H1 H2. unfold build_page_tables. rewrite gib_loop_unroll.
  rewrite load64_table_loop, !load64_store64 by (unfold PD_HIGH_ADDR, PML4_ADDR, PDPT_HIGH_ADDR; zdm).
  rewrite !load64_gib_body, load64_store64 by (unfold PML4_ADDR; zdm || lia).
  rewrite load64_memzero by (unfold PML4_ADDR, tables_size in *; lia).
  unfold PML4_ADDR, PDPT_LOW_ADDR, PD_LOW0_ADDR, PDPT_HIGH_ADDR, PD_HIGH_ADDR, tables_size in *.
  ranges; cbv zeta; try done.
  all: first
    [ exfalso; zdm
    | replace ((b - 335872) / 4096) with 0 by zdm; done
    | replace ((b - 335872) / 4096) with 1 by zdm; done
    | replace ((b - 335872) / 4096) with 2 by zdm; done
    | replace ((b - 335872) / 4096) with 3 by zdm; done
    | subst b; reflexivity ].
Qed.

Lemma pml4_cell m i :
  0 <= i < 512 ->
  load64 (build_page_tables m) (PML4_ADDR + 8 * i) =
  if i =? 511 then 0x56003 else if i =? 0 then 0x51003 else 0.
Proof.
  intros Hi. rewrite load64_tables by (unfold PML4_ADDR, tables_size; zdm).
  unfold PML4_ADDR, PDPT_LOW_ADDR, PD_LOW0_ADDR, PDPT_HIGH_ADDR, PD_HIGH_ADDR. ranges; reflexivity.
Qed.

Lemma pdpt_low_cell m i :
  0 <= i < 512 ->
  load64 (build_page_tables m) (PDPT_LOW_ADDR + 8 * i) =
  if inside 0 4 i then u64 (table_entry (PD_LOW0_ADDR + 0x1000 * i)) else 0.
Proof.
  intros Hi. rewrite load64_tables by (unfold PML4_ADDR, PDPT_LOW_ADDR, tables_size; zdm).
  unfold PML4_ADDR, PDPT_LOW_ADDR, PD_LOW0_ADDR, PDPT_HIGH_ADDR, PD_HIGH_ADDR. ranges; try done.
  by replace ((331776 + 8 * i - 331776) / 8) with i by zdm.
Qed.

Lemma pd_low_cell m g i :
  0 <= g < 4 -> 0 <= i < 512 ->
  load64 (build_page_tables m) (PD_LOW0_ADDR + 0x1000 * g + 8 * i) = u64 (low_entry g i).
Proof.
  intros Hg Hi. rewrite load64_tables by (unfold PML4_ADDR, PD_LOW0_ADDR, tables_size; zdm).
  unfold PML4_ADDR, PDPT_LOW_ADDR, PD_LOW0_ADDR, PDPT_HIGH_ADDR, PD_HIGH_ADDR. ranges. cbv zeta.
  replace ((335872 + 4096 * g + 8 * i - 335872) / 4096) with g by zdm.
  by replace ((335872 + 4096 * g + 8 * i - (335872 + 4096 * g)) / 8) with i by zdm.
Qed.

Lemma pdpt_high_cell m i :
  0 <= i < 512 ->
  load64 (build_page_tables m) (PDPT_HIGH_ADDR + 8 * i) = if i =? 510 then 0x57003 else 0.
Proof.
  intros Hi. rewrite load64_tables by (unfold PML4_ADDR, PDPT_HIGH_ADDR, tables_size; zdm).
  unfold PML4_ADDR, PDPT_LOW_ADDR, PD_LOW0_ADDR, PDPT_HIGH_ADDR, PD_HIGH_ADDR. ranges; reflexivity.
Qed.

Lemma pd_high_cell m i :
  0 <= i < 512 ->
  load64 (build_page_tables m) (PD_HIGH_ADDR + 8 * i) = u64 (high_entry i).
Proof.
  intros Hi. rewrite load64_tables by (unfold PML4_ADDR, PD_HIGH_ADDR, tables_size; zdm).
  unfold PD_HIGH_ADDR. ranges. by replace ((356352 + 8 * i - 356352) / 8) with i by zdm.
Qed.

Lemma low_entry_spec g i :
  0 <= g < 4 -> 0 <= i < 512 ->
  low_entry g i = Z.lor (Z.lor (Z.lor (2 ^ 21 * (512 * g + i)) PAGE_PRESENT) PAGE_RW) PAGE_PS.
Proof.
  intros Hg Hi. unfold low_entry.
  rewrite (u64_id (g * 512)), (u64_id (_ + i)), u64_id by (unfold in_u64; lia).
  do 3 f_equal. lia.
Qed.

Lemma high_entry_spec i :
  0 <= i < 512 ->
  high_entry i = Z.lor (Z.lor (Z.lor (2 ^ 21 * (i + 1)) PAGE_PRESENT) PAGE_RW) PAGE_PS.
Proof.
  intros Hi. unfold high_entry, KERNEL_PHYS_BASE.
  rewrite (u64_id (i * _)), u64_id by (unfold in_u64; lia).
  do 3 f_equal. lia.
Qed.

Lemma directory_entry_bits g :
  0 <= g < 4 ->
  let e := u64 (table_entry (PD_LOW0_ADDR + 0x1000 * g)) in
  present e = true /\ large e = false /\ frame e = PD_LOW0_ADDR + 0x1000 * g.
Proof. intros Hg. assert (g = 0 \/ g = 1 \/ g = 2 \/ g = 3) by lia. destruct_or!; subst g; done. Qed.

(** The tables as a property of a memory, which is all the walk depends on. *)
Record holds_tables (t : mem) : Prop := {
  ht_pml4 i : 0 <= i < 512 -> load64 t (PML4_ADDR + 8 * i) =
    if i =? 511 then 0x56003 else if i =? 0 then 0x51003 else 0;
  ht_pdpt_low i : 0 <= i < 512 -> load64 t (PDPT_LOW_ADDR + 8 * i) =
    if inside 0 4 i then u64 (table_entry (PD_LOW0_ADDR + 0x1000 * i)) else 0;
  ht_pd_low g i : 0 <= g < 4 -> 0 <= i < 512 ->
    load64 t (PD_LOW0_ADDR + 0x1000 * g + 8 * i) = u64 (low_entry g i);
  ht_pdpt_high i : 0 <= i < 512 -> load64 t (PDPT_HIGH_ADDR + 8 * i) = if i =? 510 then 0x57003 else 0;
  ht_pd_high i : 0 <= i < 512 -> load64 t (PD_HIGH_ADDR + 8 * i) = u64 (high_entry i)
}.

Lemma build_holds_tables m : holds_tables (build_page_tables m).
Proof.
  split; intros; [by apply pml4_cell|by apply pdpt_low_cell|by apply pd_low_cell|
    by apply pdpt_high_cell|by apply pd_high_cell].
Qed.

(** The walk through the two halves of the tables. *)
Lemma translate_low t v :
  holds_tables t -> 0 <= v < 2 ^ 39 ->
  translate t PML4_ADDR v = if v <? 2 ^ 32 then Some v else None.
Proof.
  intros Ht Hv. unfold translate, canonical. replace (v <? 2 ^ 47) with true by lia. cbn [orb negb].
  change (frame PML4_ADDR) with PML4_ADDR.
  rewrite (ht_pml4 _ Ht) by (apply index_range; lia).
  replace (index v 39) with 0 by (rewrite index_spec by lia; zdm). cbn [Z.eqb].
  change (negb (present 0x51003)) with false. change (frame 0x51003) with PDPT_LOW_ADDR. cbv iota.
  set (g := v / 2 ^ 30). set (i := (v / 2 ^ 21) mod 512).
  assert (Hi : 0 <= i < 512) by (apply Z.mod_pos_bound; lia).
  assert (Hg : 0 <= g < 512) by (unfold g; zdm).
  replace (index v 30) with g by (rewrite index_spec by lia; unfold g; zdm).
  replace (index v 21) with i by (by rewrite index_spec by lia).
  rewrite (ht_pdpt_low _ Ht) by done. destruct (inside_spec 0 4 g) as [Hg4|Hg4].
  - replace (v <? 2 ^ 32) with true by (unfold g in *; zdm).
    destruct (directory_entry_bits g Hg4) as (Hp & Hl & Hf). rewrite Hp, Hl, Hf. cbn [negb].
    rewrite (ht_pd_low _ Ht), low_entry_spec by done.
    destruct (large_entry (512 * g + i)) as [Hlp [Hll Hlm]]; [lia|]; rewrite Hlp, Hll, Hlm. cbn [negb]. f_equal.
    change 0x1fffff with (Z.ones 21). rewrite (Z.land_ones v 21) by lia. unfold g, i. zdm.
  - replace (v <? 2 ^ 32) with false by (unfold g in *; zdm). done.
Qed.

Lemma translate_high t v :
  holds_tables t -> 2 ^ 64 - 2 ^ 39 <= v < 2 ^ 64 ->
  translate t PML4_ADDR v =
  if inside KERNEL_VIRT_BASE (2 ^ 30) v then Some (v - KERNEL_VIRT_BASE + KERNEL_PHYS_BASE) else None.
Proof.
  intros Ht Hv. unfold translate, canonical. replace (2 ^ 64 - 2 ^ 47 <=? v) with true by lia.
  rewrite orb_true_r. cbn [negb]. change (frame PML4_ADDR) with PML4_ADDR.
  rewrite (ht_pml4 _ Ht) by (apply index_range; lia).
  replace (index v 39) with 511 by (rewrite index_spec by lia; zdm). cbn [Z.eqb Pos.eqb].
  change (negb (present 0x56003)) with false. change (frame 0x56003) with PDPT_HIGH_ADDR. cbv iota.
  set (i := (v / 2 ^ 21) mod 512).
  assert (Hi : 0 <= i < 512) by (apply Z.mod_pos_bound; lia).
  rewrite (ht_pdpt_high _ Ht) by (apply index_range; lia).
  replace (index v 21) with i by (by rewrite index_spec by lia).
  unfold KERNEL_VIRT_BASE, KERNEL_PHYS_BASE. destruct (inside_spec 0xffffffff80000000 (2 ^ 30) v) as [Hin|Hout].
  - replace (index v 30) with 510 by (rewrite index_spec by lia; zdm). cbn [Z.eqb Pos.eqb].
    change (negb (present 0x57003)) with false. change (large 0x57003) with false.
    change (frame 0x57003) with PD_HIGH_ADDR. cbv iota.
    rewrite (ht_pd_high _ Ht), high_entry_spec by done.
    destruct (large_entry (i + 1)) as [Hlp [Hll Hlm]]; [lia|]; rewrite Hlp, Hll, Hlm. cbn [negb]. f_equal.
    change 0x1fffff with (Z.ones 21). rewrite (Z.land_ones v 21) by lia. unfold i. zdm.
  - replace (index v 30 =? 510) with false; [done|]. symmetry. apply Z.eqb_neq.
    rewrite index_spec by lia. zdm.
Qed.

Lemma translate_middle t v :
  holds_tables t -> 2 ^ 39 <= v < 2 ^ 64 - 2 ^ 39 -> translate t PML4_ADDR v = None.
Proof.
  intros Ht Hv. unfold translate. destruct (canonical v) eqn:Hc; [|done]. cbn [negb].
  change (frame PML4_ADDR) with PML4_ADDR. rewrite (ht_pml4 _ Ht) by (apply index_range; lia).
  unfold canonical in Hc. rewrite index_spec by lia.
  replace ((v / 2 ^ 39) mod 512 =? 511) with false by (symmetry; apply Z.eqb_neq; zdm).
  by replace ((v / 2 ^ 39) mod 512 =? 0) with false by (symmetry; apply Z.eqb_neq; zdm).
Qed.

(** What the tables mean, for every 64-bit virtual address. *)
Lemma translate_tables t v :
  holds_tables t -> in_u64 v ->
  translate t PML4_ADDR v =
  if v <? 2 ^ 32 then Some v
  else if inside KERNEL_VIRT_BASE (2 ^ 30) v then Some (v - KERNEL_VIRT_BASE + KERNEL_PHYS_BASE)
  else None.
Proof.
  intros Ht Hv. unfold in_u64 in Hv.
  assert (v < 2 ^ 39 \/ 2 ^ 39 <= v < 2 ^ 64 - 2 ^ 39 \/ 2 ^ 64 - 2 ^ 39 <= v) as [H|[H|H]] by lia.
  - rewrite translate_low by (done || lia). unfold KERNEL_VIRT_BASE. by ranges.
  - rewrite translate_middle by (done || lia). replace (v <? 2 ^ 32) with false by lia.
    unfold KERNEL_VIRT_BASE. by ranges.
  - rewrite translate_high by (done || lia). by replace (v <? 2 ^ 32) with false by lia.
Qed.

(** C26: The page tables the BIOS loader builds mean exactly this: the first four gibibytes are
    identity mapped, the gibibyte from the kernel's virtual base is mapped to physical memory from
    2 MiB on, and every other address faults; the tables lie in the eight pages at 0x50000 and no
    other byte of memory changes. *)
Theorem page_tables_translation (m : mem) (v : Z) :
  in_u64 v ->
  translate (build_page_tables m) PML4_ADDR v =
    (if v <? 2 ^ 32 then Some v
     else if inside KERNEL_VIRT_BASE (2 ^ 30) v then Some (v - KERNEL_VIRT_BASE + KERNEL_PHYS_BASE)
     else None) /\
  (forall x, x < 0x50000 \/ 0x58000 <= x -> build_page_tables m x = m x).
Proof.
  intros Hv. split; [apply translate_tables; [apply build_holds_tables|done]|]. intros x Hx. by apply build_page_tables_outside.
Qed.

Lemma page_tables_translation_witness :
  translate (build_page_tables (fun _ => 0xff)) PML4_ADDR 0xffffffff80201234 = Some 0x00401234 /\
  build_page_tables (fun _ => 0xff) 0x58000 = 0xff.
Proof.
  assert (Hv : in_u64 0xffffffff80201234) by (unfold in_u64; lia).
  destruct (page_tables_translation (fun _ => 0xff) 0xffffffff80201234 Hv) as [H1 H2].
  split; [exact H1|]. apply H2. lia.
Defined.
