(* ===== verification/KernelLoad.v ===== *)
(** * Loading the kernel image (boot/stage2_pm.c, [load_elf])

    The staged image lies in memory at [KERNEL_IMAGE_ADDR]; [load_elf] validates
    it, checks that its address range fits the physical window of the kernel and
    copies the segments.  Every iteration parses the image again, from the memory
    as the copies before it left it: the model does the same. *)
From S2P Require Import Prelude Elf64 Memory Paging.

Definition KERNEL_IMAGE_ADDR : Z := 0x01000000.
Definition KERNEL_IMAGE_BYTES : Z := 4 * 1024 * 1024.

(** The bytes at the image pointer. *)
Definition staged (m : mem) (image_bytes : Z) : list Z := mem_slice m KERNEL_IMAGE_ADDR image_bytes.

(** The loop over the load segments: 0 or -1, and memory. *)
Fixpoint segment_loop (m : mem) (image_bytes : Z) (n : nat) (i : Z) {struct n} : option (Z * mem) :=
  match n with
  | O => Some (0, m)
  | S n' =>
      match josh_elf64_load_segment (Some (staged m image_bytes)) image_bytes i (Some blank_segment) with
      | Some (JOSH_ELF64_OK, Some segment) =>
          if ls_virtual_address segment <? KERNEL_VIRT_BASE then Some (-1, m)
          else
            let offset := u64 (ls_virtual_address segment - KERNEL_VIRT_BASE) in
            let physical := u64 (KERNEL_PHYS_BASE + offset) in
            if (physical >? KERNEL_PHYS_LIMIT)
               || (ls_memory_size segment >? u64 (KERNEL_PHYS_LIMIT - physical))
            then Some (-1, m)
            else
              let m := memcopy m (u32 physical) (u32 (KERNEL_IMAGE_ADDR + u32 (ls_file_offset segment)))
                         (Z.to_nat (u32 (ls_file_size segment))) in
              let m :=
                if ls_memory_size segment >? ls_file_size segment
                then memzero m (u32 (u64 (physical + ls_file_size segment)))
                       (Z.to_nat (u32 (u64 (ls_memory_size segment - ls_file_size segment))))
                else m in
              segment_loop m image_bytes n' (i + 1)
      | Some _ => Some (-1, m)
      | None => None
      end
  end.

(** Returns 0 or -1, the pointee of [summary], and memory. *)
Definition load_elf (m : mem) (summary : JoshElf64Summary) (image_bytes : Z)
    : option (Z * JoshElf64Summary * mem) :=
  match josh_elf64_validate (Some (staged m image_bytes)) image_bytes (Some summary) with
  | Some (JOSH_ELF64_OK, Some s) =>
      if (es_virtual_min s <? KERNEL_VIRT_BASE) || (es_virtual_max s <=? es_virtual_min s)
      then Some (-1, s, m)
      else if u64 (es_virtual_max s - KERNEL_VIRT_BASE) >? u32 (KERNEL_PHYS_LIMIT - KERNEL_PHYS_BASE)
      then Some (-1, s, m)
      else
        let? (rc, m) := segment_loop m image_bytes (Z.to_nat (es_load_segment_count s)) 0 in
        Some (rc, s, m)
  | Some (_, Some s) => Some (-1, s, m)
  | _ => None
  end.

(** ** Where a segment goes *)
Definition physical_of (v : Z) : Z := KERNEL_PHYS_BASE + (v - KERNEL_VIRT_BASE).

(** The kernel's addresses lie in the window the loader may write. *)
Definition kernel_fits (s : JoshElf64Summary) : Prop :=
  KERNEL_VIRT_BASE <= es_virtual_min s /\ physical_of (es_virtual_max s) <= KERNEL_PHYS_LIMIT.

(** The kernel's final place does not meet the staged image. *)
Definition clear_of_image (s : JoshElf64Summary) (image_bytes : Z) : Prop :=
  physical_of (es_virtual_max s) <= KERNEL_IMAGE_ADDR \/
  KERNEL_IMAGE_ADDR + image_bytes <= physical_of (es_virtual_min s).

(** Segment [g] of the image staged in [m] is in place in [m']. *)
Definition in_place (m m' : mem) (g : JoshElf64LoadSegment) : Prop :=
  forall i, 0 <= i < ls_memory_size g ->
    m' (physical_of (ls_virtual_address g) + i) =
    if i <? ls_file_size g then m (KERNEL_IMAGE_ADDR + ls_file_offset g + i) else 0.

Definition in_segment (g : JoshElf64LoadSegment) (x : Z) : Prop :=
  physical_of (ls_virtual_address g) <= x < physical_of (seg_end g).

(** ** One segment *)

(** The stores of one iteration. *)
Definition copy_segment (m : mem) (g : JoshElf64LoadSegment) : mem :=
  let physical := physical_of (ls_virtual_address g) in
  let m := memcopy m physical (KERNEL_IMAGE_ADDR + ls_file_offset g) (Z.to_nat (ls_file_size g)) in
  memzero m (physical + ls_file_size g) (Z.to_nat (ls_memory_size g - ls_file_size g)).

Lemma copy_segment_ok m g : mem_ok m -> mem_ok (copy_segment m g).
Proof. intros H. unfold copy_segment. auto with josh. Qed.

Lemma copy_segment_outside m g x :
  0 <= ls_file_size g <= ls_memory_size g -> ~ in_segment g x -> copy_segment m g x = m x.
Proof.
  unfold in_segment, copy_segment, seg_end, physical_of. intros Hs Hx.
  rewrite memzero_spec. ranges. apply memcopy_outside. lia.
Qed.

Lemma copy_segment_in_place m g :
  mem_ok m -> 0 <= ls_file_size g <= ls_memory_size g ->
  (forall x, KERNEL_IMAGE_ADDR + ls_file_offset g <= x < KERNEL_IMAGE_ADDR + ls_file_offset g + ls_file_size g ->
     ~ in_segment g x) ->
  in_place m (copy_segment m g) g.
Proof.
  intros Hm Hs Hd i Hi. unfold copy_segment. rewrite memzero_spec.
  rewrite memcopy_spec; [|done|].
  - rewrite !Z2Nat.id by lia. destruct (Z.ltb_spec i (ls_file_size g)); ranges; try done. f_equal. lia.
  - destruct (Z.eq_dec (ls_file_size g) 0) as [->|Hne]; [lia|]. unfold in_segment, seg_end, physical_of in *.
    pose proof (Hd (KERNEL_IMAGE_ADDR + ls_file_offset g)).
    set (a := KERNEL_IMAGE_ADDR + ls_file_offset g) in *.
    set (d := KERNEL_PHYS_BASE + (ls_virtual_address g - KERNEL_VIRT_BASE)) in *.
    destruct (Z.le_gt_cases d a) as [|Hgt]; [by left|].
    destruct (Z.le_gt_cases (a + ls_file_size g) d) as [|Hgt2]; [right; lia|].
    exfalso. apply (Hd d); [lia|]. split; [lia|]. unfold d. lia.
Qed.

(** A segment the parser hands out, its casts resolved. *)
Definition seg_bounds (image_bytes : Z) (g : JoshElf64LoadSegment) : Prop :=
  in_u64 (ls_file_offset g) /\ in_u64 (ls_virtual_address g) /\
  0 <= ls_file_size g <= ls_memory_size g /\ in_u64 (ls_memory_size g) /\
  ls_file_offset g + ls_file_size g <= image_bytes.

Definition seg_fits (g : JoshElf64LoadSegment) : Prop :=
  KERNEL_VIRT_BASE <= ls_virtual_address g /\ physical_of (seg_end g) <= KERNEL_PHYS_LIMIT.

#[export] Instance seg_fits_dec g : Decision (seg_fits g).
Proof. unfold seg_fits. apply _. Defined.

Lemma segment_loop_step m n' i st g image_bytes :
  0 <= image_bytes <= KERNEL_IMAGE_BYTES ->
  josh_elf64_load_segment (Some (staged m image_bytes)) image_bytes i (Some blank_segment) = Some (st, Some g) ->
  seg_bounds image_bytes g \/ st <> JOSH_ELF64_OK ->
  segment_loop m image_bytes (S n') i =
  if decide (st = JOSH_ELF64_OK /\ seg_fits g)
  then segment_loop (copy_segment m g) image_bytes n' (i + 1) else Some (-1, m).
Proof.
  intros Hn Hl Hb. cbn [segment_loop]. rewrite Hl. unfold KERNEL_IMAGE_BYTES in Hn.
  destruct (decide (st = JOSH_ELF64_OK /\ seg_fits g)) as [[-> Hf]|Hf].
  - destruct Hb as [(Ho & Hv & Hs & Hm & Hi)|]; [|done].
    unfold seg_fits, physical_of, seg_end, KERNEL_VIRT_BASE, KERNEL_PHYS_BASE, KERNEL_PHYS_LIMIT in *.
    unfold in_u64 in *.
    rewrite (u64_id (ls_virtual_address g - _)), (u64_id (0x200000 + _)) by (unfold in_u64; lia).
    rewrite (proj2 (Z.ltb_ge _ _)) by lia.
    rewrite (u64_id (_ - (0x200000 + _))) by (unfold in_u64; lia).
    rewrite !Z.gtb_ltb, !(proj2 (Z.ltb_ge _ _)) by lia. cbn [orb].
    unfold copy_segment, physical_of, KERNEL_IMAGE_ADDR, KERNEL_VIRT_BASE, KERNEL_PHYS_BASE.
    rewrite (u32_id (0x200000 + _)), (u32_id (ls_file_offset g)), (u32_id (0x1000000 + _)),
      (u32_id (ls_file_size g)) by (unfold in_u32; lia).
    rewrite (u64_id (_ + ls_file_size g)), (u64_id (ls_memory_size g - _)),
      (u32_id (_ + ls_file_size g)), (u32_id (ls_memory_size g - _)) by (unfold in_u64, in_u32; lia).
    destruct (ls_file_size g <? ls_memory_size g) eqn:E; [done|].
    by replace (Z.to_nat (ls_memory_size g - ls_file_size g)) with 0%nat by lia.
  - destruct st; try done. destruct Hb as [(Ho & Hv & Hs & Hm & Hi)|]; [|done].
    unfold seg_fits, physical_of, seg_end, KERNEL_VIRT_BASE, KERNEL_PHYS_BASE, KERNEL_PHYS_LIMIT in *.
    unfold in_u64 in *. destruct (Z.ltb_spec (ls_virtual_address g) 0xffffffff80000000); [done|].
    rewrite (u64_id (ls_virtual_address g - _)), (u64_id (0x200000 + _)) by (unfold in_u64; lia).
    destruct (_ || _) eqn:E; [done|]. apply orb_false_iff in E as [E1 E2].
    rewrite u64_id in E2 by (unfold in_u64; lia). exfalso. apply Hf. split; [done|]. lia.
Qed.

(** ** All segments *)
Lemma staged_ext m m' n :
  (forall x, KERNEL_IMAGE_ADDR <= x < KERNEL_IMAGE_ADDR + n -> m x = m' x) -> staged m n = staged m' n.
Proof. apply mem_slice_ext. Qed.

Lemma staged_facts m n :
  mem_ok m -> 0 <= n <= KERNEL_IMAGE_BYTES ->
  bytes (staged m n) /\ in_u64 n /\ n <= zlen (staged m n).
Proof.
  unfold KERNEL_IMAGE_BYTES. intros Hm Hn. unfold staged. rewrite zlen_mem_slice by lia.
  split_and!; [by apply bytes_mem_slice|unfold in_u64; lia|lia].
Qed.

(** Whatever the image holds, and even while the copies overwrite it, the loop
    returns and stays inside the window of the kernel. *)
Lemma segment_loop_confined image_bytes n : forall m i,
  mem_ok m -> 0 <= image_bytes <= KERNEL_IMAGE_BYTES ->
  exists rc m', segment_loop m image_bytes n i = Some (rc, m') /\ (rc = 0 \/ rc = -1) /\ mem_ok m' /\
    forall x, x < KERNEL_PHYS_BASE \/ KERNEL_PHYS_LIMIT <= x -> m' x = m x.
Proof.
  induction n as [|n IH]; intros m i Hm Hn; [eexists _, _; split_and!; try done; by left|].
  destruct (staged_facts m image_bytes Hm Hn) as (Hb & Hs & Hl).
  destruct (load_segment_total _ _ Hb Hs Hl i blank_segment) as (st & g & Hg & Hok).
  assert (Hbd : seg_bounds image_bytes g \/ st <> JOSH_ELF64_OK).
  { destruct (decide (st = JOSH_ELF64_OK)) as [->|]; [left|by right].
    destruct (Hok eq_refl) as (p & -> & (_ & _ & Ho & Hv & Hf & Hms & _) & _ & (Hfm & Hfo & _)).
    unfold seg_bounds, in_u64 in *. cbn. lia. }
  rewrite (segment_loop_step m n i st g image_bytes Hn Hg Hbd).
  destruct (decide _) as [[-> Hf]|_]; [|eexists _, _; split_and!; try done; by right].
  destruct Hbd as [(Ho & Hv & Hsz & _)|]; [|done].
  destruct (IH (copy_segment m g) (i + 1) (copy_segment_ok m g Hm) Hn) as (rc & m' & -> & Hrc & Hm' & Hout).
  exists rc, m'. split_and!; try done. intros x Hx. rewrite Hout by done.
  apply copy_segment_outside; [done|]. unfold in_segment, seg_fits, seg_end, physical_of in *. lia.
Qed.

Section Placement.
Context (n : Z) (sm : JoshElf64Summary).
Context (Hn : 0 <= n <= KERNEL_IMAGE_BYTES) (Hfit : kernel_fits sm) (Hclear : clear_of_image sm n).

(** The copies never touch the staged image. *)
Lemma seg_clear g x :
  seg_ok n sm g -> KERNEL_IMAGE_ADDR <= x < KERNEL_IMAGE_ADDR + n -> ~ in_segment g x.
Proof.
  intros (_ & _ & _ & _ & _ & _ & _ & Hmin & Hmax) Hx.
  unfold clear_of_image, in_segment, physical_of in *. lia.
Qed.

Lemma copy_segment_keeps_image m g x :
  seg_ok n sm g -> KERNEL_IMAGE_ADDR <= x < KERNEL_IMAGE_ADDR + n -> copy_segment m g x = m x.
Proof.
  intros Hg Hx. apply copy_segment_outside; [|by apply seg_clear].
  destruct Hg as (_ & _ & Hf & _ & Hfm & _). unfold in_u64 in Hf. lia.
Qed.

Lemma segment_loop_placed segs m0 : forall k m,
  mem_ok m -> accepted_segments (staged m0 n) n sm segs -> staged m n = staged m0 n ->
  (k <= length segs)%nat ->
  segment_loop m n (length segs - k) (Z.of_nat k) = Some (0, foldl copy_segment m (drop k segs)).
Proof.
  intros k m Hm Hacc. remember (length segs - k)%nat as r eqn:Hr. revert k m Hm Hr.
  induction r as [|r IH]; intros k m Hm Hr Himg Hk.
  { rewrite drop_ge by lia. done. }
  destruct (lookup_lt_is_Some_2 segs k) as [g Hg]; [lia|].
  destruct Hacc as (Hcnt & Hls & Hok & _). pose proof (proj1 (Forall_lookup _ _) Hok k g Hg) as Hgok.
  pose proof Hgok as (Ho & Hv & Hf & Hpos & Hfm & Hfo & Hend & Hmin & Hmax).
  rewrite (segment_loop_step m r (Z.of_nat k) JOSH_ELF64_OK g n Hn).
  - rewrite decide_True; [|split; [done|]].
    + replace (Z.of_nat k + 1) with (Z.of_nat (S k)) by lia.
      rewrite (IH (S k) (copy_segment m g)); [by rewrite (drop_S segs g k Hg)|..]; try lia.
      * by apply copy_segment_ok.
      * rewrite <- Himg. apply staged_ext. intros x Hx. by apply copy_segment_keeps_image.
    + unfold seg_fits, kernel_fits, physical_of in *. lia.
  - rewrite Himg, Hls by lia. by rewrite Nat2Z.id, Hg.
  - left. unfold seg_bounds, seg_end, in_u64 in *. lia.
Qed.

Lemma foldl_copy_segment segs : forall m,
  mem_ok m -> Forall (seg_ok n sm) segs ->
  pairwise (fun s t => seg_end s <= ls_virtual_address t \/ seg_end t <= ls_virtual_address s) segs ->
  mem_ok (foldl copy_segment m segs) /\
  Forall (in_place m (foldl copy_segment m segs)) segs /\
  forall x, Forall (fun g => ~ in_segment g x) segs -> foldl copy_segment m segs x = m x.
Proof.
  induction segs as [|g segs IH]; intros m Hm Hok Hpw; cbn [foldl]; [by split_and!|].
  apply Forall_cons in Hok as [Hg Hok].
  assert (Hfm : 0 <= ls_file_size g <= ls_memory_size g).
  { destruct Hg as (_ & _ & Hf & _ & ? & _). unfold in_u64 in Hf. lia. }
  destruct (IH (copy_segment m g)) as (Hm' & Hin & Hout); [by apply copy_segment_ok|done| |].
  { intros i j x y Hij Hx Hy. by apply (Hpw (S i) (S j) x y); [lia|..]. }
  split_and!; [done| |].
  - apply Forall_cons. split.
    + intros i Hi. rewrite Hout.
      * apply copy_segment_in_place; try done. intros x Hx. apply seg_clear; [done|].
        destruct Hg as (Ho & _ & _ & _ & _ & Hfo & _). unfold in_u64 in Ho. lia.
      * apply Forall_forall. intros t Ht. apply list_elem_of_lookup in Ht as [j Hj].
        destruct (Hpw 0%nat (S j) g t ltac:(lia) eq_refl Hj); unfold in_segment, seg_end, physical_of in *; lia.
    + apply Forall_forall. intros t Ht i Hi.
      pose proof (proj1 (Forall_forall _ _) Hin t Ht i Hi) as Heq. rewrite Heq.
      pose proof (proj1 (Forall_forall _ _) Hok t Ht) as (Ho & _ & _ & _ & _ & Hfo & _). unfold in_u64 in Ho.
      destruct (Z.ltb_spec i (ls_file_size t)); [|done]. apply copy_segment_keeps_image; [done|lia].
  - intros x Hx. apply Forall_cons in Hx as [Hgx Hx]. rewrite Hout by done. by apply copy_segment_outside.
Qed.

End Placement.

(** The kernel of the image staged in [m] is in place in [m']: every segment is, and no
    other byte changed. *)
Definition kernel_loaded (m m' : mem) (segs : list JoshElf64LoadSegment) : Prop :=
  Forall (in_place m m') segs /\
  forall x, Forall (fun g => ~ in_segment g x) segs -> m' x = m x.

(** What [load_elf] checks before it copies. *)
Lemma load_elf_checks m s0 n sm :
  josh_elf64_validate (Some (staged m n)) n (Some s0) = Some (JOSH_ELF64_OK, Some sm) ->
  mem_ok m -> 0 <= n <= KERNEL_IMAGE_BYTES ->
  load_elf m s0 n =
  if (es_virtual_min sm <? KERNEL_VIRT_BASE) || (KERNEL_PHYS_LIMIT <? physical_of (es_virtual_max sm))
  then Some (-1, sm, m)
  else let? (rc, m') := segment_loop m n (Z.to_nat (es_load_segment_count sm)) 0 in Some (rc, sm, m').
Proof.
  intros Hv Hm Hn. unfold load_elf. rewrite Hv.
  destruct (staged_facts m n Hm Hn) as (Hb & Hs & Hl).
  destruct (validate_segments _ _ Hb Hs Hl s0 sm Hv) as (segs & _ & _ & Hok & _ & g & Hg & _ & He).
  destruct (proj1 (Forall_forall _ _) Hok g Hg) as (_ & Hvr & _ & Hpos & _ & _ & Hend & Hmin & Hmax).
  destruct (validate_bounds _ _ Hb Hs Hl s0 sm Hv) as [Hmax64 _].
  unfold physical_of, KERNEL_VIRT_BASE, KERNEL_PHYS_BASE, KERNEL_PHYS_LIMIT, seg_end in *.
  unfold in_u64 in Hvr. rewrite Z.gtb_ltb. change (u32 (0x8000000 - 0x200000)) with 0x7e00000.
  destruct (Z.ltb_spec (es_virtual_min sm) 0xffffffff80000000) as [|Hb1]; [done|]. cbn [orb].
  rewrite (proj2 (Z.leb_gt _ _)) by lia. rewrite u64_id by (unfold in_u64; lia).
  destruct (Z.ltb_spec 0x7e00000 (es_virtual_max sm - 0xffffffff80000000)),
    (Z.ltb_spec 0x8000000 (0x200000 + (es_virtual_max sm - 0xffffffff80000000))); try lia; done.
Qed.

(** The loader returns, and on success the image was valid and fits. *)
Lemma load_elf_total m s0 n :
  mem_ok m -> 0 <= n <= KERNEL_IMAGE_BYTES ->
  exists rc sm m', load_elf m s0 n = Some (rc, sm, m') /\ (rc = 0 \/ rc = -1) /\ mem_ok m' /\
    (forall x, x < KERNEL_PHYS_BASE \/ KERNEL_PHYS_LIMIT <= x -> m' x = m x) /\
    (rc = 0 -> josh_elf64_validate (Some (staged m n)) n (Some s0) = Some (JOSH_ELF64_OK, Some sm) /\
               kernel_fits sm).
Proof.
  intros Hm Hn. destruct (staged_facts m n Hm Hn) as (Hb & Hs & Hl).
  destruct (validate_total _ _ Hb Hs Hl s0) as (st & sm & Hv & _).
  destruct (decide (st = JOSH_ELF64_OK)) as [->|Hne].
  - rewrite (load_elf_checks m s0 n sm Hv Hm Hn).
    destruct (_ || _) eqn:E; [exists (-1), sm, m; split_and!; try done; by right|].
    apply orb_false_iff in E as [E1 E2].
    destruct (segment_loop_confined n (Z.to_nat (es_load_segment_count sm)) m 0 Hm Hn)
      as (rc & m' & -> & Hrc & Hm' & Hout).
    exists rc, sm, m'. split_and!; try done. intros _. split; [done|]. unfold kernel_fits. lia.
  - exists (-1), sm, m. unfold load_elf. rewrite Hv. split_and!; try done; [by destruct st|by right].
Qed.

(** A valid image that fits and does not cover itself is loaded. *)
Lemma load_elf_loads m s0 n sm :
  mem_ok m -> 0 <= n <= KERNEL_IMAGE_BYTES ->
  josh_elf64_validate (Some (staged m n)) n (Some s0) = Some (JOSH_ELF64_OK, Some sm) ->
  kernel_fits sm -> clear_of_image sm n ->
  exists m' segs, load_elf m s0 n = Some (0, sm, m') /\
    accepted_segments (staged m n) n sm segs /\ kernel_loaded m m' segs.
Proof.
  intros Hm Hn Hv Hfit Hclear. destruct (staged_facts m n Hm Hn) as (Hb & Hs & Hl).
  destruct (validate_segments _ _ Hb Hs Hl s0 sm Hv) as (segs & Hacc).
  rewrite (load_elf_checks m s0 n sm Hv Hm Hn). unfold kernel_fits in Hfit.
  rewrite !(proj2 (Z.ltb_ge _ _)) by lia. cbn [orb].
  pose proof Hacc as (Hcnt & _ & Hok & Hpw & _).
  pose proof (segment_loop_placed n sm Hn Hfit Hclear segs m 0 m Hm Hacc eq_refl ltac:(lia)) as Hsl.
  rewrite Nat.sub_0_r, drop_0 in Hsl. change (Z.of_nat 0) with 0 in Hsl.
  replace (Z.to_nat (es_load_segment_count sm)) with (length segs) by (rewrite Hcnt; unfold zlen; lia).
  rewrite Hsl. destruct (foldl_copy_segment n sm Hclear segs m Hm Hok Hpw) as (_ & Hin & Hout).
  by exists (foldl copy_segment m segs), segs.
Qed.

(** ** The example image staged in memory *)
Definition example_memory : mem := mem_put (fun _ => 0xcc) KERNEL_IMAGE_ADDR example_image.

Lemma example_memory_ok : mem_ok example_memory.
Proof. apply mem_put_ok; [intros a; unfold in_u8; lia|apply example_image_bytes]. Qed.

Lemma example_staged : staged example_memory 1024 = example_image.
Proof. apply mem_slice_put. reflexivity. Qed.

(** Whatever bytes are staged, [load_elf] returns 0 or -1 and writes no byte outside the
    physical window of the kernel from 2 MiB to 128 MiB, even when a segment is copied over the
    image that is being parsed; it returns 0 only for an image that validates and whose addresses
    lie in the window. *)
Theorem load_elf_confined (m : mem) (s0 : JoshElf64Summary) (n : Z) :
  mem_ok m -> 0 <= n <= KERNEL_IMAGE_BYTES ->
  exists rc sm m', load_elf m s0 n = Some (rc, sm, m') /\ (rc = 0 \/ rc = -1) /\
    (forall x, x < 0x200000 \/ 0x8000000 <= x -> m' x = m x) /\
    (rc = 0 -> josh_elf64_validate (Some (staged m n)) n (Some s0) = Some (JOSH_ELF64_OK, Some sm) /\
               kernel_fits sm).
Proof.
  intros Hm Hn. destruct (load_elf_total m s0 n Hm Hn) as (rc & sm & m' & H & Hrc & _ & Hout & Hok).
  by exists rc, sm, m'.
Qed.

Lemma load_elf_confined_witness :
  exists rc sm m', load_elf example_memory blank_summary 1000 = Some (rc, sm, m') /\ m' 0x7c00 = 0xcc.
Proof.
  destruct (load_elf_confined example_memory blank_summary 1000) as (rc & sm & m' & H & _ & Hout & _).
  - exact example_memory_ok.
  - vm_compute. split; discriminate.
  - exists rc, sm, m'. split; [exact H|]. rewrite Hout by lia. reflexivity.
Defined.

(** C16: A valid image that fits the window and whose final place does not meet the staged image is
    loaded exactly: [load_elf] returns 0, every load segment has its file bytes at the physical
    address of its virtual address followed by zeros up to its memory size, and every byte outside
    the segments keeps its value. *)
Theorem load_elf_places_kernel (m : mem) (s0 : JoshElf64Summary) (n : Z) (sm : JoshElf64Summary) :
  mem_ok m -> 0 <= n <= KERNEL_IMAGE_BYTES ->
  josh_elf64_validate (Some (staged m n)) n (Some s0) = Some (JOSH_ELF64_OK, Some sm) ->
  kernel_fits sm -> clear_of_image sm n ->
  exists m' segs, load_elf m s0 n = Some (0, sm, m') /\
    accepted_segments (staged m n) n sm segs /\
    Forall (in_place m m') segs /\
    forall x, Forall (fun g => ~ in_segment g x) segs -> m' x = m x.
Proof. apply load_elf_loads. Qed.

Lemma load_elf_places_kernel_witness :
  exists m', load_elf example_memory blank_summary 1024 = Some (0, example_summary, m').
Proof.
  destruct (load_elf_places_kernel example_memory blank_summary 1024 example_summary) as (m' & segs & H & _).
  - exact example_memory_ok.
  - vm_compute. split; discriminate.
  - rewrite example_staged. exact example_validates.
  - vm_compute. split; discriminate.
  - left. vm_compute. discriminate.
  - exists m'. exact H.
Defined.

(** Without the last hypothesis the image can cover itself: the first segment of this image is
    zero-filled over the file bytes of the second one, which arrives as zeros although the file has
    ones, and the loader reports success. *)
Definition self_covering_image : list Z :=
  [0x7f; 69; 76; 70; 2; 1; 1] ++ replicate 9 0 ++ le_bytes 2 2 ++ le_bytes 2 62 ++ le_bytes 4 1 ++
  le_bytes 8 0xffffffff80e00300 ++ le_bytes 8 64 ++ le_bytes 8 0 ++ le_bytes 4 0 ++
  le_bytes 2 64 ++ le_bytes 2 56 ++ le_bytes 2 2 ++ replicate 6 0 ++
  example_phdr 5 0x200 0xffffffff80e00300 32 64 ++
  example_phdr 6 0x300 0xffffffff80e01000 16 16 ++ replicate 592 0 ++ replicate 16 1 ++ replicate 240 0.

Definition self_covering_memory : mem := mem_put (fun _ => 0) KERNEL_IMAGE_ADDR self_covering_image.

Lemma load_elf_can_cover_its_image :
  match load_elf self_covering_memory blank_summary 1024 with
  | Some (rc, _, m') =>
      rc = 0 /\ self_covering_memory (KERNEL_IMAGE_ADDR + 0x300) = 1 /\
      m' (physical_of 0xffffffff80e01000) = 0
  | None => False
  end.
Proof. vm_compute. done. Qed.
