(* ===== verification/Stage2Health.v ===== *)
(** * Persisting the boot-health record (boot/stage2_pm.c)

    Two sectors hold copies of the record; a record is written to the copy its
    generation's parity selects, and the newest valid copy is the current one.
    The state of the second stage is a [machine]: the disk, physical memory, the
    messages written to the serial port and the static
    [health_persistent_enabled], and its functions are programs over it.  The BIOS calls are assembly and firmware, so
    they are parameters: [BiosDisk] says what the C code relies on. *)
From S2P Require Import Prelude Prog Block Health Memory.

Definition HEALTH_BUFFER_ADDR : Z := 0x0005d000.

(** The sector calls, over a disk state [W].  A read returns whether it succeeded
    and what it left in the buffer; a write may fail and still change the disk. *)
Record bios (W : Type) := {
  bios_block_read : W -> Z -> Z -> bool * list Z;
  bios_block_write : W -> Z -> Z -> list Z -> bool * W
}.
Arguments bios_block_read {W} b w lba n : rename.
Arguments bios_block_write {W} b w lba n data : rename.

Class BiosDisk {W : Type} (b : bios W) : Prop := {
  (** a read stays inside its buffer, and a successful one fills it *)
  bios_read_bytes : forall w lba n ok data, 0 < n -> bios_block_read b w lba n = (ok, data) ->
    bytes data /\ zlen data <= 512 * n /\ (ok = true -> zlen data = 512 * n);
  (** a write to one sector, failed or not, changes no other sector *)
  bios_write_frame : forall w lba data ok w', bios_block_write b w lba 1 data = (ok, w') ->
    forall l n, 0 < n -> lba < l \/ l + n <= lba -> bios_block_read b w' l n = bios_block_read b w l n
}.

Record machine (W : Type) := {
  mc_disk : W;
  mc_mem : mem;
  mc_serial : list string;
  mc_persistent : bool
}.
Arguments mc_disk {W} _. Arguments mc_mem {W} _. Arguments mc_serial {W} _. Arguments mc_persistent {W} _.

(** ** Programs over the machine *)
Definition set_mem {W} (m : mem) : prog (machine W) unit := fun s =>
  Some (tt, {| mc_disk := mc_disk s; mc_mem := m; mc_serial := mc_serial s; mc_persistent := mc_persistent s |}).
Definition set_disk {W} (w : W) : prog (machine W) unit := fun s =>
  Some (tt, {| mc_disk := w; mc_mem := mc_mem s; mc_serial := mc_serial s; mc_persistent := mc_persistent s |}).
Definition set_persistent {W} (p : bool) : prog (machine W) unit := fun s =>
  Some (tt, {| mc_disk := mc_disk s; mc_mem := mc_mem s; mc_serial := mc_serial s; mc_persistent := p |}).

(** The port loop of [serial_write], seen from its callers: the text goes out in order.
    Every message ends in a newline, which the log leaves out. *)
Definition serial_write {W} (message : string) : prog (machine W) unit := fun s =>
  Some (tt, {| mc_disk := mc_disk s; mc_mem := mc_mem s; mc_serial := mc_serial s ++ [message];
               mc_persistent := mc_persistent s |}).
Arguments serial_write {W} message%_string.

(** ** The operations *)

(** [memzero(&a, sizeof(a))] *)
Definition zero_record : josh_boot_health_record_t :=
  {| hr_magic := 0; hr_version := 0; hr_size := 0; hr_generation := 0; hr_selected_slot := 0;
     hr_last_good_slot := 0; hr_pending_good := 0; hr_attempt_count := 0; hr_last_failure_stage := 0;
     hr_reserved0 := 0; hr_update_generation := 0; hr_reserved1 := 0; hr_checksum := 0 |}.

Section Operations.
Context {W : Type} (b : bios W).

(** The result, and the pointee of [record]. *)
Definition health_read_copy (lba : Z) (record : josh_boot_health_record_t)
    : prog (machine W) (bool * josh_boot_health_record_t) :=
  do s <- get ;
  let '(ok, data) := bios_block_read b (mc_disk s) lba 1 in
  run set_mem (mem_put (mc_mem s) HEALTH_BUFFER_ADDR data) ;
  if negb ok then ret (false, record)
  else
    do s <- get ;
    do record <- lift (record_of_bytes (mem_slice (mc_mem s) HEALTH_BUFFER_ADDR RECORD_SIZE)) ;
    ret (josh_boot_health_valid (Some record), record).

Definition health_write_copy (lba : Z) (record : josh_boot_health_record_t) : prog (machine W) bool :=
  do s <- get ;
  let m := memzero (mc_mem s) HEALTH_BUFFER_ADDR (Z.to_nat JOSH_BOOT_HEALTH_SECTOR_SIZE) in
  let m := mem_put m HEALTH_BUFFER_ADDR (record_bytes record) in
  run set_mem m ;
  let '(ok, w) := bios_block_write b (mc_disk s) lba 1
                    (mem_slice m HEALTH_BUFFER_ADDR JOSH_BOOT_HEALTH_SECTOR_SIZE) in
  run set_disk w ;
  if negb ok then ret false
  else
    do (ok, verify) <- health_read_copy lba zero_record ;
    if negb ok then ret false
    else ret ((hr_generation verify =? hr_generation record) && (hr_checksum verify =? hr_checksum record)).

(** Always returns 1, with the pointee of [record]. *)
Definition health_load (record : josh_boot_health_record_t) : prog (machine W) (Z * josh_boot_health_record_t) :=
  run set_persistent false ;
  do (have_a, ra) <- health_read_copy JOSH_BOOT_HEALTH_LBA_A zero_record ;
  do (have_b, rb) <- health_read_copy JOSH_BOOT_HEALTH_LBA_B zero_record ;
  if negb have_a && negb have_b then
    do record <- lift (josh_boot_health_default (Some record)) ;
    run serial_write "JOSHBOOT_HEALTH_VOLATILE_UNPROVISIONED" ;
    ret (1, record)
  else
    do record <- lift (snd (josh_boot_health_choose (Some ra) (Some rb) (Some record))) ;
    run set_persistent true ;
    run serial_write "JOSHBOOT_HEALTH_LOADED" ;
    ret (1, record).

Definition copy_lba (record : josh_boot_health_record_t) : Z :=
  if negb (Z.land (hr_generation record) 1 =? 0) then JOSH_BOOT_HEALTH_LBA_B else JOSH_BOOT_HEALTH_LBA_A.

Definition health_persist (record : josh_boot_health_record_t) : prog (machine W) bool :=
  do s <- get ;
  if negb (mc_persistent s) then
    run serial_write "JOSHBOOT_HEALTH_VOLATILE_NO_WRITE" ; ret false
  else
    do ok <- health_write_copy (copy_lba record) record ;
    if negb ok then
      run set_persistent false ;
      run serial_write "JOSHBOOT_WARN_HEALTH_PERSIST" ;
      ret false
    else
      run serial_write "JOSHBOOT_HEALTH_PERSISTED" ;
      ret true.

(** ** Abstract view of the two copies *)

(** The record a copy holds, when its sector reads and the record is valid. *)
Definition stored (w : W) (lba : Z) : option josh_boot_health_record_t :=
  let '(ok, data) := bios_block_read b w lba 1 in
  if ok then
    let? r := record_of_bytes data in
    if josh_boot_health_valid (Some r) then Some r else None
  else None.

(** The record the disk stands for. *)
Definition current (w : W) : option josh_boot_health_record_t :=
  match stored w JOSH_BOOT_HEALTH_LBA_A, stored w JOSH_BOOT_HEALTH_LBA_B with
  | Some ra, Some rb => Some (if hr_generation ra >=? hr_generation rb then ra else rb)
  | Some ra, None => Some ra
  | None, o => o
  end.

(** The current record is in the copy its generation selects. *)
Definition consistent (w : W) (r : josh_boot_health_record_t) : Prop :=
  current w = Some r /\ stored w (copy_lba r) = Some r.

(** Nothing but the two record sectors differs. *)
Definition same_outside (w w' : W) : Prop :=
  forall l n, 0 < n -> JOSH_BOOT_HEALTH_LBA_B < l \/ l + n <= JOSH_BOOT_HEALTH_LBA_A ->
    bios_block_read b w' l n = bios_block_read b w l n.

(** A write that is cut short leaves the old sector, the new one, or one that does not
    hold a valid record. *)
Definition torn_write_detected : Prop :=
  forall w lba r ok w', lba = JOSH_BOOT_HEALTH_LBA_A \/ lba = JOSH_BOOT_HEALTH_LBA_B ->
    record_ok r -> josh_boot_health_valid (Some r) = true ->
    bios_block_write b w lba 1 (record_bytes r ++ replicate 456 0) = (ok, w') ->
    stored w' lba = stored w lba \/ stored w' lba = Some r \/ stored w' lba = None.

(** A disk in working order: every write of a record succeeds and is what is read back. *)
Definition writes_work : Prop :=
  forall w lba r, lba = JOSH_BOOT_HEALTH_LBA_A \/ lba = JOSH_BOOT_HEALTH_LBA_B ->
    record_ok r -> josh_boot_health_valid (Some r) = true ->
    exists w', bios_block_write b w lba 1 (record_bytes r ++ replicate 456 0) = (true, w') /\ stored w' lba = Some r.

Lemma works_torn : writes_work -> torn_write_detected.
Proof.
  intros Hw w lba r ok w' Hl Hr Hv E. destruct (Hw w lba r Hl Hr Hv) as (w1 & E1 & H1). rewrite E in E1.
  injection E1 as -> ->. auto.
Qed.

End Operations.

(** ** Facts about the copies *)
Lemma hr_valid_stored {W} (b : bios W) w lba r :
  stored b w lba = Some r -> josh_boot_health_valid (Some r) = true.
Proof.
  unfold stored. destruct (bios_block_read b w lba 1) as [ok data]. destruct ok; [|done].
  destruct (record_of_bytes data) as [r'|]; [|done]. destruct (josh_boot_health_valid (Some r')) eqn:E; [|done].
  by intros [= <-].
Qed.

(** The memory of a machine after the health code ran. *)
Definition health_scratch (m m' : mem) : Prop :=
  (mem_ok m -> mem_ok m') /\
  forall x, x < HEALTH_BUFFER_ADDR \/ HEALTH_BUFFER_ADDR + 512 <= x -> m' x = m x.

#[export] Instance health_scratch_preorder : PreOrder health_scratch.
Proof.
  split; [by split|]. intros m1 m2 m3 [Hk1 H1] [Hk2 H2]. split; [auto|].
  intros x Hx. by rewrite H2, H1.
Qed.

(** ** Reading a copy *)
Lemma mem_slice_put_take m a l n : 0 <= n <= zlen l -> mem_slice (mem_put m a l) a n = take (Z.to_nat n) l.
Proof.
  intros Hn. assert (Hl : zlen (take (Z.to_nat n) l) = n) by (unfold zlen in *; rewrite length_take; lia).
  rewrite <- (mem_slice_put m a (take (Z.to_nat n) l) n) by done. apply mem_slice_ext. intros x Hx.
  unfold mem_put. rewrite Hl. ranges. unfold get8. rewrite (proj2 (Z.ltb_ge _ _)) by lia.
  by rewrite lookup_take_lt by lia.
Qed.

Lemma record_of_take data :
  bytes data -> 56 <= zlen data -> record_of_bytes (take 56 data) = record_of_bytes data.
Proof.
  intros Hb Hl. destruct (record_of_bytes_some data Hb Hl) as [r Hr]. rewrite Hr.
  apply record_of_bytes_encode in Hr as [Ht Hok]; [|done]. rewrite Ht, <- (app_nil_r (record_bytes r)).
  by apply record_of_record_bytes.
Qed.

Section Proofs.
Context {W : Type} (b : bios W) `{!BiosDisk b}.

Definition with_mem (s : machine W) (m : mem) : machine W :=
  {| mc_disk := mc_disk s; mc_mem := m; mc_serial := mc_serial s; mc_persistent := mc_persistent s |}.

Lemma health_read_copy_run lba r0 s :
  exists ok r m', health_read_copy b lba r0 s = Some ((ok, r), with_mem s m') /\
    health_scratch (mc_mem s) m' /\
    match stored b (mc_disk s) lba with
    | Some r' => ok = true /\ r = r'
    | None => ok = false /\ (r = r0 \/ josh_boot_health_valid (Some r) = false)
    end.
Proof.
  unfold health_read_copy, stored. rewrite (bind_run _ _ s s s) by done.
  destruct (bios_block_read b (mc_disk s) lba 1) as [ok data] eqn:Er.
  assert (Hone : 0 < 1) by lia. destruct (bios_read_bytes _ _ _ _ _ Hone Er) as (Hb & Hle & Hfull).
  set (m' := mem_put (mc_mem s) HEALTH_BUFFER_ADDR data).
  assert (Hsc : health_scratch (mc_mem s) m').
  { split; [intros Hm; by apply mem_put_ok|]. intros x Hx. apply mem_put_outside. lia. }
  rewrite (bind_run _ _ s tt (with_mem s m')) by done. destruct ok; cbn [negb].
  - specialize (Hfull eq_refl). rewrite (bind_run _ _ _ (with_mem s m') (with_mem s m')) by done.
    cbn [mc_mem with_mem]. unfold m', RECORD_SIZE at 1. rewrite mem_slice_put_take by lia.
    change (Z.to_nat 56) with 56%nat. rewrite record_of_take by (done || lia).
    destruct (record_of_bytes_some data Hb) as [r ->]; [lia|].
    exists (josh_boot_health_valid (Some r)), r, m'. split; [done|]. split; [done|].
    destruct (josh_boot_health_valid (Some r)) eqn:E; [done|]. by split; [|right].
  - exists false, r0, m'. split; [done|]. split; [done|]. by split; [|left].
Qed.

(** [stored] after a write elsewhere. *)
Lemma stored_frame w lba data ok w' l :
  bios_block_write b w lba 1 data = (ok, w') -> l <> lba -> stored b w' l = stored b w l.
Proof. intros Hw Hl. unfold stored. rewrite (bios_write_frame _ _ _ _ _ Hw l 1) by lia. done. Qed.

Lemma copy_lba_cases r : copy_lba r = JOSH_BOOT_HEALTH_LBA_A \/ copy_lba r = JOSH_BOOT_HEALTH_LBA_B.
Proof. unfold copy_lba. destruct (negb _); auto. Qed.

(** Consecutive generations live in different copies. *)
Lemma copy_lba_next r r' :
  hr_generation r' = hr_generation r + 1 -> copy_lba r' <> copy_lba r.
Proof.
  intros Hg. unfold copy_lba. rewrite Hg.
  change 1 with (Z.ones 1) at 2 3. rewrite !Z.land_ones by lia. change (2 ^ 1) with 2.
  unfold JOSH_BOOT_HEALTH_LBA_A, JOSH_BOOT_HEALTH_LBA_B.
  destruct (Z.eqb_spec ((hr_generation r + 1) mod 2) 0), (Z.eqb_spec (hr_generation r mod 2) 0); cbn; zdm.
Qed.

(** ** Loading *)
Definition provisioned (w : W) : bool := match current b w with Some _ => true | None => false end.

Lemma health_load_run r0 s :
  exists r m', health_load b r0 s = Some ((1, r),
      {| mc_disk := mc_disk s; mc_mem := m';
         mc_serial := mc_serial s ++
           [if provisioned (mc_disk s) then "JOSHBOOT_HEALTH_LOADED"%string
            else "JOSHBOOT_HEALTH_VOLATILE_UNPROVISIONED"%string];
         mc_persistent := provisioned (mc_disk s) |}) /\
    health_scratch (mc_mem s) m' /\ r = default default_record (current b (mc_disk s)).
Proof.
  unfold health_load. rewrite (bind_run _ _ s tt
    {| mc_disk := mc_disk s; mc_mem := mc_mem s; mc_serial := mc_serial s; mc_persistent := false |}) by done.
  set (s1 := {| mc_disk := mc_disk s |}).
  destruct (health_read_copy_run JOSH_BOOT_HEALTH_LBA_A zero_record s1) as (oka & ra & m1 & Ha & Hs1 & Hra).
  rewrite (bind_run _ _ _ _ _ Ha). cbv beta iota.
  destruct (health_read_copy_run JOSH_BOOT_HEALTH_LBA_B zero_record (with_mem s1 m1)) as (okb & rb & m2 & Hb & Hs2 & Hrb).
  rewrite (bind_run _ _ _ _ _ Hb). cbv beta iota. cbn [mc_disk mc_mem with_mem s1] in *.
  assert (Hs : health_scratch (mc_mem s) m2) by by etransitivity.
  assert (Hz : josh_boot_health_valid (Some zero_record) = false) by reflexivity.
  assert (Hva : josh_boot_health_valid (Some ra) = oka).
  { destruct (stored b (mc_disk s) JOSH_BOOT_HEALTH_LBA_A) as [r'|] eqn:E.
    - destruct Hra as [-> ->]. by eapply hr_valid_stored.
    - by destruct Hra as [-> [->|?]]. }
  assert (Hvb : josh_boot_health_valid (Some rb) = okb).
  { destruct (stored b (mc_disk s) JOSH_BOOT_HEALTH_LBA_B) as [r'|] eqn:E.
    - destruct Hrb as [-> ->]. by eapply hr_valid_stored.
    - by destruct Hrb as [-> [->|?]]. }
  unfold josh_boot_health_choose, provisioned, current. rewrite Hva, Hvb.
  destruct (stored b (mc_disk s) JOSH_BOOT_HEALTH_LBA_A), (stored b (mc_disk s) JOSH_BOOT_HEALTH_LBA_B);
    destruct Hra as [-> Hra], Hrb as [-> Hrb]; subst; cbn [negb andb orb];
    try destruct (_ >=? _); eexists _, m2; (split; [reflexivity|split; [done|]]); done.
Qed.

(** ** Writing a copy *)
Lemma record_sector m r :
  mem_slice (mem_put (memzero m HEALTH_BUFFER_ADDR (Z.to_nat JOSH_BOOT_HEALTH_SECTOR_SIZE))
               HEALTH_BUFFER_ADDR (record_bytes r)) HEALTH_BUFFER_ADDR JOSH_BOOT_HEALTH_SECTOR_SIZE
  = record_bytes r ++ replicate 456 0.
Proof.
  assert (Hz : zlen (record_bytes r) = 56) by (unfold zlen; by rewrite length_record_bytes).
  assert (Hlen : JOSH_BOOT_HEALTH_SECTOR_SIZE = zlen (record_bytes r ++ replicate 456 0)).
  { unfold zlen in *. rewrite length_app, length_replicate. unfold JOSH_BOOT_HEALTH_SECTOR_SIZE. lia. }
  rewrite <- (mem_slice_put m HEALTH_BUFFER_ADDR _ _ Hlen). apply mem_slice_ext. intros x Hx.
  unfold mem_put. rewrite memzero_spec, <- Hlen, Hz.
  unfold JOSH_BOOT_HEALTH_SECTOR_SIZE in *. unfold get8. ranges; cbv iota.
  - destruct (x - HEALTH_BUFFER_ADDR <? 0); [done|].
    rewrite lookup_app_l; [done|]. rewrite length_record_bytes. lia.
  - rewrite (proj2 (Z.ltb_ge _ _)) by lia. rewrite lookup_app_r by (rewrite length_record_bytes; lia).
    rewrite length_record_bytes, lookup_replicate_2 by lia. done.
Qed.

Lemma health_write_copy_run lba r s :
  exists ok okw w' m',
    bios_block_write b (mc_disk s) lba 1 (record_bytes r ++ replicate 456 0) = (okw, w') /\
    health_write_copy b lba r s =
      Some (ok, {| mc_disk := w'; mc_mem := m'; mc_serial := mc_serial s; mc_persistent := mc_persistent s |}) /\
    health_scratch (mc_mem s) m' /\
    (ok = true <-> okw = true /\ exists v, stored b w' lba = Some v /\
       hr_generation v = hr_generation r /\ hr_checksum v = hr_checksum r).
Proof.
  unfold health_write_copy. rewrite (bind_run _ _ s s s) by done.
  set (m1 := mem_put _ HEALTH_BUFFER_ADDR (record_bytes r)).
  rewrite (bind_run _ _ s tt (with_mem s m1)) by done.
  unfold m1 at 1. rewrite record_sector. fold m1.
  destruct (bios_block_write b (mc_disk s) lba 1 (record_bytes r ++ replicate 456 0)) as [okw w'] eqn:Ew.
  set (s2 := {| mc_disk := w'; mc_mem := m1; mc_serial := mc_serial s; mc_persistent := mc_persistent s |}).
  rewrite (bind_run _ _ _ tt s2) by done.
  assert (Hs1 : health_scratch (mc_mem s) m1).
  { split; [intros Hm; apply mem_put_ok; auto with josh|]. intros x Hx. unfold m1.
    rewrite mem_put_outside by (unfold zlen; rewrite length_record_bytes; lia).
    rewrite memzero_spec. unfold JOSH_BOOT_HEALTH_SECTOR_SIZE. ranges; done. }
  destruct okw; cbn [negb].
  2: { exists false, false, w', m1. do 3 (split; [done|]). split; [done|by intros [? _]]. }
  destruct (health_read_copy_run lba zero_record s2) as (ok & v & m2 & Hr & Hs2 & Hst).
  rewrite (bind_run _ _ _ _ _ Hr). cbv beta iota. cbn [mc_disk mc_mem with_mem s2] in *.
  exists (ok && ((hr_generation v =? hr_generation r) && (hr_checksum v =? hr_checksum r))), true, w', m2.
  split; [done|]. split; [by destruct ok|]. split; [by etransitivity|].
  destruct (stored b w' lba) as [v'|].
  - destruct Hst as [-> ->]. cbn [andb]. rewrite andb_true_iff, !Z.eqb_eq.
    split; [intros [? ?]; split; [done|by exists v']|by intros (_ & u & [= <-] & ? & ?)].
  - destruct Hst as [-> _]. cbn [andb]. split; [done|by intros (_ & u & ? & _)].
Qed.

(** ** The two copies as one variable *)
Lemma current_two w c d r :
  c <> d -> c = JOSH_BOOT_HEALTH_LBA_A \/ c = JOSH_BOOT_HEALTH_LBA_B ->
  d = JOSH_BOOT_HEALTH_LBA_A \/ d = JOSH_BOOT_HEALTH_LBA_B ->
  stored b w d = Some r ->
  (stored b w c = None -> current b w = Some r) /\
  (forall x, stored b w c = Some x -> hr_generation r < hr_generation x -> current b w = Some x) /\
  (forall x, stored b w c = Some x -> current b w = Some r -> hr_generation x <= hr_generation r).
Proof.
  intros Hne [->| ->] [->| ->] Hd; try done; unfold current; rewrite Hd; split_and!.
  all: try (intros ->; done).
  all: intros x Hc; rewrite Hc; intros Hgt.
  - by rewrite Z.geb_leb, (proj2 (Z.leb_le _ _)) by lia.
  - destruct (_ >=? _) eqn:E; [injection Hgt as ->; lia|lia].
  - by rewrite Z.geb_leb, (proj2 (Z.leb_gt _ _)) by lia.
  - destruct (_ >=? _) eqn:E; [lia|injection Hgt as ->; lia].
Qed.

(** Whatever a write of the next record does, the disk stands for the old or the new one. *)
Lemma write_consistent w r r' ok w' :
  torn_write_detected b -> record_ok r' -> josh_boot_health_valid (Some r') = true ->
  consistent b w r -> hr_generation r' = hr_generation r + 1 ->
  bios_block_write b w (copy_lba r') 1 (record_bytes r' ++ replicate 456 0) = (ok, w') ->
  (stored b w' (copy_lba r') = Some r' /\ consistent b w' r') \/
  ((forall v, stored b w' (copy_lba r') = Some v -> hr_generation v <> hr_generation r') /\ consistent b w' r).
Proof.
  intros Htorn Hrok Hval [Hcur Hst] Hg Hw. pose proof (copy_lba_next r r' Hg) as Hne.
  pose proof (stored_frame _ _ _ _ _ (copy_lba r) Hw ltac:(done)) as Hd.
  destruct (current_two w' (copy_lba r') (copy_lba r) r Hne (copy_lba_cases r') (copy_lba_cases r))
    as (Hnone & Hnew & _); [congruence|].
  destruct (current_two w (copy_lba r') (copy_lba r) r Hne (copy_lba_cases r') (copy_lba_cases r) Hst)
    as (_ & _ & Hold).
  destruct (Htorn _ _ _ _ _ (copy_lba_cases r') Hrok Hval Hw) as [Hc|[Hc|Hc]].
  - right. split.
    + intros v Hv. rewrite Hc in Hv. specialize (Hold v Hv Hcur). lia.
    + split; [|congruence]. rewrite <- Hcur. unfold current.
      destruct (copy_lba_cases r') as [E'|E'], (copy_lba_cases r) as [E|E]; rewrite E' in *; rewrite E in *; try done;
        by rewrite Hc, Hd.
  - left. split; [done|]. split; [|done]. apply (Hnew r' Hc). lia.
  - right. split; [congruence|]. split; [by apply Hnone|congruence].
Qed.

Lemma same_outside_write w lba data ok w' :
  lba = JOSH_BOOT_HEALTH_LBA_A \/ lba = JOSH_BOOT_HEALTH_LBA_B ->
  bios_block_write b w lba 1 data = (ok, w') -> same_outside b w w'.
Proof.
  intros Hl Hw l n Hn Ho. apply (bios_write_frame _ _ _ _ _ Hw); [done|].
  unfold JOSH_BOOT_HEALTH_LBA_A, JOSH_BOOT_HEALTH_LBA_B in *. lia.
Qed.

(** The record in memory and the disk agree as long as writing is enabled. *)
Definition synced (s : machine W) (r : josh_boot_health_record_t) : Prop :=
  mc_persistent s = true -> consistent b (mc_disk s) r.

Lemma health_persist_run r' s :
  exists ok s', health_persist b r' s = Some (ok, s') /\
    health_scratch (mc_mem s) (mc_mem s') /\ same_outside b (mc_disk s) (mc_disk s') /\
    (exists msg, mc_serial s' = mc_serial s ++ [msg]) /\
    mc_persistent s' = ok /\
    (mc_persistent s = false -> ok = false /\ mc_disk s' = mc_disk s) /\
    (mc_persistent s = true -> torn_write_detected b ->
       record_ok r' -> josh_boot_health_valid (Some r') = true -> forall r, consistent b (mc_disk s) r ->
       hr_generation r' = hr_generation r + 1 ->
       (ok = true /\ consistent b (mc_disk s') r') \/
       (ok = false /\ (consistent b (mc_disk s') r \/ consistent b (mc_disk s') r'))).
Proof.
  unfold health_persist. rewrite (bind_run _ _ s s s) by done.
  destruct (mc_persistent s) eqn:Hp; cbn [negb].
  2: { eexists false, _. split; [reflexivity|]. cbn. split_and!; try done. by eexists. }
  destruct (health_write_copy_run (copy_lba r') r' s) as (ok & okw & w' & m' & Hw & Hrun & Hsc & Hok).
  rewrite (bind_run _ _ _ _ _ Hrun).
  assert (Hsame : same_outside b (mc_disk s) w') by (eapply same_outside_write; [apply copy_lba_cases|done]).
  destruct ok; cbn [negb].
  - eexists true, _. split; [reflexivity|]. cbn. split_and!; try done; [by eexists|].
    intros _ Ht Hro Hva r Hc Hg. left. split; [done|].
    destruct (write_consistent _ _ _ _ _ Ht Hro Hva Hc Hg Hw) as [[_ H]|[Hno _]]; [done|].
    destruct (proj1 Hok eq_refl) as (_ & v & Hv & Hgv & _). by apply Hno in Hv.
  - eexists false, _. split; [reflexivity|]. cbn. split_and!; try done; [by eexists|].
    intros _ Ht Hro Hva r Hc Hg. right. split; [done|].
    destruct (write_consistent _ _ _ _ _ Ht Hro Hva Hc Hg Hw) as [[_ H]|[_ H]]; auto.
Qed.

(** On a disk in working order the next record is stored. *)
Lemma health_persist_works r r' s ok s' :
  health_persist b r' s = Some (ok, s') -> writes_work b -> mc_persistent s = true -> record_ok r' ->
  josh_boot_health_valid (Some r') = true -> consistent b (mc_disk s) r -> hr_generation r' = hr_generation r + 1 ->
  ok = true /\ consistent b (mc_disk s') r'.
Proof.
  intros H Hww Hp Hro Hv Hc Hg. pose proof H as Hrun. unfold health_persist in H. rewrite (bind_run _ _ s s s), Hp in H by done. cbn [negb] in H.
  destruct (health_write_copy_run (copy_lba r') r' s) as (okc & okw & w' & m' & Hw & Hrc & _ & Hok).
  destruct (Hww (mc_disk s) (copy_lba r') r' (copy_lba_cases r') Hro Hv) as (w1 & E1 & H1). rewrite E1 in Hw. injection Hw as <- <-.
  assert (okc = true) as -> by (apply Hok; split; [done|by exists r']).
  rewrite (bind_run _ _ _ _ _ Hrc) in H. injection H as <- _. split; [done|].
  destruct (health_persist_run r' s) as (ok2 & s2 & Hrun2 & _ & _ & _ & _ & _ & Hcases). rewrite Hrun in Hrun2. injection Hrun2 as <- <-.
  by destruct (Hcases Hp (works_torn b Hww) Hro Hv r Hc Hg) as [[_ ?]|[? _]].
Qed.

End Proofs.

(** ** A disk in memory whose writes stop working after a while

    The first [fst w] writes succeed; the next ones fail and leave the sector erased. *)
Definition failing_disk : Type := nat * (Z -> list Z).

Definition failing_write (w : failing_disk) (lba : Z) (data : list Z) : bool * failing_disk :=
  match w with
  | (O, c) => (false, (O, fun l => if l =? lba then replicate 512 0 else c l))
  | (S k, c) => (true, (k, fun l => if l =? lba then data else c l))
  end.

(** Any list as a sector: its first 512 bytes, padded with zeros. *)
Definition sector_of (c : list Z) : list Z := take 512 (map u8 c ++ replicate 512 0).

Definition failing_bios : bios failing_disk :=
  {| bios_block_read w lba n := (true, concat (map (fun l => sector_of (snd w l)) (seqZ lba n)));
     bios_block_write w lba n data := failing_write w lba data |}.

Lemma sector_of_good c : good_sector (sector_of c).
Proof.
  unfold sector_of, good_sector, zlen. split.
  - rewrite length_take, length_app, length_replicate. lia.
  - apply bytes_take, Forall_app. split; [|apply Forall_replicate; unfold in_u8; lia].
    apply Forall_map, Forall_forall. auto with josh.
Qed.

Lemma sector_of_id c : good_sector c -> sector_of c = c.
Proof.
  intros [Hl Hb]. unfold sector_of. replace (map u8 c) with c.
  - rewrite take_app_le, take_ge by (unfold zlen in Hl; lia). done.
  - symmetry. clear Hl. induction Hb as [|x c Hx Hc IH]; [done|]. cbn. by rewrite u8_id, IH.
Qed.

#[export] Instance failing_bios_ok : BiosDisk failing_bios.
Proof.
  split.
  - intros w lba n ok data Hn [= <- <-].
    destruct (concat_sectors (fun l => sector_of (snd w l)) (seqZ lba n)) as [Hz Hb]; [intros; apply sector_of_good|].
    split; [done|]. rewrite Hz. unfold zlen. rewrite length_seqZ. lia.
  - intros w lba data ok w' Hw l n Hn Ho. cbn in *. do 2 f_equal. apply map_ext_in.
    intros x Hx%list_elem_of_In. apply elem_of_seqZ in Hx.
    assert (Hne : (x =? lba) = false) by lia.
    destruct w as [[|k] c]; injection Hw as <- <-; cbn; by rewrite Hne.
Qed.

Lemma failing_stored w lba :
  stored failing_bios w lba =
  let? r := record_of_bytes (sector_of (snd w lba)) in
  if josh_boot_health_valid (Some r) then Some r else None.
Proof.
  unfold stored. cbn [bios_block_read failing_bios].
  rewrite (seqZ_cons lba 1) by lia. cbn. by rewrite app_nil_r.
Qed.

Lemma failing_write_sector w lba data ok w' :
  failing_write w lba data = (ok, w') -> snd w' lba = data \/ snd w' lba = replicate 512 0.
Proof. destruct w as [[|k] c]; intros [= <- <-]; cbn [snd]; rewrite Z.eqb_refl; auto. Qed.

Lemma failing_torn : torn_write_detected failing_bios.
Proof.
  intros w lba r ok w' _ Hok Hv Hw. rewrite !failing_stored. right. cbn [bios_block_write failing_bios] in Hw.
  destruct (failing_write_sector _ _ _ _ _ Hw) as [Hs|Hs]; rewrite Hs; [left|by right].
  rewrite sector_of_id.
  - rewrite record_of_record_bytes by (done || (apply Forall_replicate; unfold in_u8; lia)). by rewrite Hv.
  - split; [unfold zlen; by rewrite length_app, length_record_bytes, length_replicate|].
    apply Forall_app. split; [auto with josh|]. apply Forall_replicate. unfold in_u8. lia.
Qed.

(** An initialised disk: the default record in both copies. *)
Definition initialised_disk (writes : nat) : failing_disk :=
  (writes, fun l => if (l =? 1984) || (l =? 1985) then record_bytes default_record else []).

Lemma initialised_consistent k : consistent failing_bios (initialised_disk k) default_record.
Proof. split; vm_compute; reflexivity. Qed.

Definition booted_machine {W} (w : W) : machine W :=
  {| mc_disk := w; mc_mem := fun _ => 0; mc_serial := []; mc_persistent := true |}.

(** An update on trial for the initialised disk. *)
Definition next_record : josh_boot_health_record_t :=
  default zero_record (snd (josh_boot_health_begin_update (Some default_record) JOSH_BOOT_SLOT_PREVIOUS)).

(** C15: Power-fail safety of the health record. When the disk stands for record [r] and the next
    generation [r'] is persisted, whatever the write does to the sector short of forging a valid
    record, the next load finds exactly [r] or exactly [r'], and finds [r'] when the call reported
    success; no sector but the two record sectors and no memory but the health buffer changes, and
    a failure clears the flag without which no further write is attempted. *)
Theorem health_persist_crash_safe {W : Type} (b : bios W) `{!BiosDisk b}
    (s : machine W) (r r' r0 : josh_boot_health_record_t) :
  torn_write_detected b -> mc_persistent s = true -> consistent b (mc_disk s) r ->
  record_ok r' -> josh_boot_health_valid (Some r') = true -> hr_generation r' = hr_generation r + 1 ->
  exists ok s' now, health_persist b r' s = Some (ok, s') /\
    (now = r \/ now = r') /\ (ok = true -> now = r') /\ mc_persistent s' = ok /\
    consistent b (mc_disk s') now /\
    same_outside b (mc_disk s) (mc_disk s') /\ health_scratch (mc_mem s) (mc_mem s') /\
    forall reboot, mc_disk reboot = mc_disk s' ->
      exists loaded, health_load b r0 reboot = Some ((1, now), loaded) /\ mc_persistent loaded = true.
Proof.
  intros Ht Hp Hc Hro Hv Hg.
  destruct (health_persist_run b r' s) as (ok & s' & Hrun & Hsc & Hso & _ & Hps & _ & Hcases).
  assert (Hnow : exists now, (now = r \/ now = r') /\ (ok = true -> now = r') /\ consistent b (mc_disk s') now).
  { destruct (Hcases Hp Ht Hro Hv r Hc Hg) as [[-> H]|[-> [H|H]]]; [exists r'|exists r|exists r']; split_and!; auto; done. }
  destruct Hnow as (now & Hor & Hok & Hcn). exists ok, s', now. split_and!; try done.
  intros rb Hrb. destruct (health_load_run b r0 rb) as (rl & m' & Hl & _ & Hrl).
  destruct Hcn as [Hcur _]. unfold provisioned in Hl. rewrite Hrb, Hcur in *. cbn in Hrl. subst rl. by eexists.
Qed.

Lemma health_persist_crash_safe_witness :
  exists ok s' now, health_persist failing_bios next_record (booted_machine (initialised_disk 0)) = Some (ok, s') /\
    consistent failing_bios (mc_disk s') now /\ (now = default_record \/ now = next_record).
Proof.
  destruct (health_persist_crash_safe failing_bios (booted_machine (initialised_disk 0)) default_record next_record
    default_record) as (ok & s' & now & H & Hor & _ & _ & Hc & _).
  - exact failing_torn.
  - reflexivity.
  - exact (initialised_consistent 0).
  - unfold next_record. vm_compute. repeat split; discriminate.
  - vm_compute. reflexivity.
  - vm_compute. reflexivity.
  - exists ok, s', now. auto.
Defined.
