(* ===== verification/HealthCtl.v ===== *)
(** * The host tool that edits boot-health records (tools/josh-healthctl.c)

    The tool opens a disk image and applies one health operation to the record in
    its two raw sectors.  The C library's streams are modelled as far as the tool
    uses them: a [FILE] is the bytes of the image, a position and a write buffer
    that is emptied by [fseek], [fflush] and [fclose].  Every call may be cut
    short: the list [ss_faults] says for each call in turn whether it works
    ([None]) or how many bytes get through ([Some k]); an exhausted list means
    that everything works.  What is printed is a list of lines. *)
From stdpp Require Import pretty.
From S2P Require Import Prelude Prog Health Memory Stage2Health.

(** ** Streams *)
Record FILE := {
  f_size : Z;
  f_bytes : mem;
  f_pos : Z;
  f_pending : option (Z * list Z)
}.

Record session := {
  ss_file : FILE;
  ss_faults : list (option Z);
  ss_lines : list string
}.

(** The outcome of the next library call. *)
Definition fault : prog session (option Z) := fun s =>
  match ss_faults s with
  | [] => Some (None, s)
  | o :: rest => Some (o, {| ss_file := ss_file s; ss_faults := rest; ss_lines := ss_lines s |})
  end.

Definition set_file (f : FILE) : prog session unit :=
  modify (fun s => {| ss_file := f; ss_faults := ss_faults s; ss_lines := ss_lines s |}).

Definition print_line (line : string) : prog session unit :=
  modify (fun s => {| ss_file := ss_file s; ss_faults := ss_faults s; ss_lines := ss_lines s ++ [line] |}).

(** At most [o] of the items. *)
Definition limit (o : option Z) (l : list Z) : list Z :=
  match o with None => l | Some k => take (Z.to_nat k) l end.

(** Emptying the write buffer, of which at most [o] bytes reach the image. *)
Definition commit (o : option Z) (f : FILE) : FILE :=
  match f_pending f with
  | None => f
  | Some (pos, data) =>
      let data := limit o data in
      {| f_size := Z.max (f_size f) (if zlen data =? 0 then 0 else pos + zlen data);
         f_bytes := mem_put (f_bytes f) pos data; f_pos := f_pos f; f_pending := None |}
  end.

Definition fseek (offset : Z) : prog session Z :=
  do o <- fault ;
  do s <- get ;
  let f := commit o (ss_file s) in
  match o with
  | None => run set_file {| f_size := f_size f; f_bytes := f_bytes f; f_pos := offset; f_pending := None |} ; ret 0
  | Some _ => run set_file f ; ret (-1)
  end.

(** Reads up to [n] bytes; the count is the length of the result. *)
Definition fread (n : Z) : prog session (list Z) :=
  do o <- fault ;
  do s <- get ;
  let f := ss_file s in
  let data := limit o (mem_slice (f_bytes f) (f_pos f) (Z.max 0 (Z.min n (f_size f - f_pos f)))) in
  run set_file {| f_size := f_size f; f_bytes := f_bytes f; f_pos := f_pos f + zlen data; f_pending := f_pending f |} ;
  ret data.

Definition fwrite (data : list Z) : prog session Z :=
  do o <- fault ;
  do s <- get ;
  let f := ss_file s in
  let data := limit o data in
  run set_file {| f_size := f_size f; f_bytes := f_bytes f; f_pos := f_pos f + zlen data;
                  f_pending := Some (f_pos f, data) |} ;
  ret (zlen data).

Definition fflush : prog session Z :=
  do o <- fault ;
  do s <- get ;
  run set_file (commit o (ss_file s)) ;
  ret (match o with None => 0 | Some _ => -1 end).

(** The tool ignores the result. *)
Definition fclose : prog session unit :=
  do o <- fault ;
  do s <- get ;
  set_file (commit o (ss_file s)).

(** ** The tool *)

(** [Some record]: returned 1.  The record is untouched otherwise. *)
Definition read_record (lba : Z) : prog session (option josh_boot_health_record_t) :=
  do rc <- fseek (lba * JOSH_BOOT_HEALTH_SECTOR_SIZE) ;
  if negb (rc =? 0) then ret None
  else
    do sector <- fread JOSH_BOOT_HEALTH_SECTOR_SIZE ;
    if negb (zlen sector =? JOSH_BOOT_HEALTH_SECTOR_SIZE) then ret None
    else
      do record <- lift (record_of_bytes sector) ;
      ret (Some record).

Definition write_record (lba : Z) (record : josh_boot_health_record_t) : prog session bool :=
  let sector := record_bytes record ++ replicate (Z.to_nat (JOSH_BOOT_HEALTH_SECTOR_SIZE - RECORD_SIZE)) 0 in
  do rc <- fseek (lba * JOSH_BOOT_HEALTH_SECTOR_SIZE) ;
  if negb (rc =? 0) then ret false
  else
    do n <- fwrite sector ;
    if negb (n =? JOSH_BOOT_HEALTH_SECTOR_SIZE) then ret false
    else
      do rc <- fflush ;
      ret (rc =? 0).

(** The result of [josh_boot_health_choose] and the record it stored. *)
Definition load_state : prog session (Z * josh_boot_health_record_t) :=
  do have_a <- read_record JOSH_BOOT_HEALTH_LBA_A ;
  do have_b <- read_record JOSH_BOOT_HEALTH_LBA_B ;
  let a := default zero_record have_a in
  let b := default zero_record have_b in
  let '(existed, record) := josh_boot_health_choose (Some a) (Some b) (Some zero_record) in
  do record <- lift record ;
  ret (existed, record).

Definition persist (record : josh_boot_health_record_t) : prog session bool :=
  let lba := if negb (Z.land (hr_generation record) 1 =? 0)
             then JOSH_BOOT_HEALTH_LBA_B else JOSH_BOOT_HEALTH_LBA_A in
  write_record lba record.

Definition parse_slot (name : string) : option Z :=
  if bool_decide (name = "current"%string) then Some JOSH_BOOT_SLOT_CURRENT
  else if bool_decide (name = "previous"%string) then Some JOSH_BOOT_SLOT_PREVIOUS
  else if bool_decide (name = "recovery"%string) then Some JOSH_BOOT_SLOT_RECOVERY
  else None.

Definition slot_name (slot : Z) : string :=
  if slot =? JOSH_BOOT_SLOT_CURRENT then "current"
  else if slot =? JOSH_BOOT_SLOT_PREVIOUS then "previous"
  else if slot =? JOSH_BOOT_SLOT_RECOVERY then "recovery"
  else "invalid".

Definition decimal (v : Z) : string := pretty (Z.to_N v).

Definition show_lines (record : josh_boot_health_record_t) : list string :=
  [ "generation=" +:+ decimal (hr_generation record);
    "selected=" +:+ slot_name (hr_selected_slot record);
    "last_good=" +:+ slot_name (hr_last_good_slot record);
    "pending_good=" +:+ decimal (hr_pending_good record);
    "attempt_count=" +:+ decimal (hr_attempt_count record);
    "last_failure_stage=" +:+ decimal (hr_last_failure_stage record);
    "update_generation=" +:+ decimal (hr_update_generation record) ]%string.

Definition show (record : josh_boot_health_record_t) : prog session unit :=
  modify (fun s => {| ss_file := ss_file s; ss_faults := ss_faults s; ss_lines := ss_lines s ++ show_lines record |}).

(** [fclose(file); return code] *)
Definition close_and_return (code : Z) : prog session Z := run fclose ; ret code.

(** The two calls at the end of [main]. *)
Definition show_and_return (record : josh_boot_health_record_t) : prog session Z :=
  run show record ; close_and_return 0.

Definition do_init : prog session Z :=
  do record <- lift (josh_boot_health_default (Some zero_record)) ;
  do ok_a <- write_record JOSH_BOOT_HEALTH_LBA_A record ;
  if negb ok_a then close_and_return 1
  else
    do ok_b <- write_record JOSH_BOOT_HEALTH_LBA_B record ;
    if negb ok_b then close_and_return 1 else show_and_return record.

Definition do_slot (good : bool) (existed : Z) (record : josh_boot_health_record_t) (name : string)
    : prog session Z :=
  match parse_slot name with
  | None => close_and_return 2
  | Some slot =>
      do record <- lift (if existed =? 0 then josh_boot_health_default (Some record) else Some record) ;
      let '(ok, record) := if good then josh_boot_health_mark_good (Some record) slot
                           else josh_boot_health_begin_update (Some record) slot in
      do record <- lift record ;
      if ok =? 0 then close_and_return 1
      else
        do ok <- persist record ;
        if negb ok then close_and_return 1 else show_and_return record
  end.

Definition do_attempt (existed : Z) (record : josh_boot_health_record_t) : prog session Z :=
  do record <- lift (if existed =? 0 then josh_boot_health_default (Some record) else Some record) ;
  do record <- lift (snd (josh_boot_health_prepare_attempt (Some record) JOSH_BOOT_HEALTH_MAX_ATTEMPTS)) ;
  do ok <- persist record ;
  if negb ok then close_and_return 1 else show_and_return record.

(** The commands of [main]; [argv] has at least three elements. *)
Definition run_command (argv : list string) (command : string) (existed : Z) (record : josh_boot_health_record_t)
    : prog session Z :=
  if bool_decide (command = "init"%string) then do_init
  else if bool_decide (command = "show"%string) then
    if existed =? 0 then
      run print_line "no valid boot-health record" ; close_and_return 1
    else show_and_return record
  else if bool_decide (command = "good"%string) || bool_decide (command = "pending"%string) then
    match argv with
    | [_; _; _; name] => do_slot (bool_decide (command = "good"%string)) existed record name
    | _ => close_and_return 2
    end
  else if bool_decide (command = "attempt"%string) then do_attempt existed record
  else close_and_return 2.

(** [main] after [fopen] succeeded. *)
Definition main_file (argv : list string) (command : string) : prog session Z :=
  do (existed, record) <- load_state ;
  run_command argv command existed record.

(** The image is [None] when it cannot be opened.  The result is the exit code, what was
    printed and the image afterwards. *)
Definition main (argv : list string) (image : option (Z * mem)) (faults : list (option Z))
    : option (Z * list string * option (Z * mem)) :=
  match argv with
  | program :: command :: path :: _ =>
      match image with
      | None => Some (1, [path], None)
      | Some (size, contents) =>
          let? (code, s) := main_file argv command
            {| ss_file := {| f_size := size; f_bytes := contents; f_pos := 0; f_pending := None |};
               ss_faults := faults; ss_lines := [] |} in
          Some (code, ss_lines s, Some (f_size (ss_file s), f_bytes (ss_file s)))
      end
  | _ =>
      let program := default ""%string (head argv) in
      Some (2, ["usage: " +:+ program +:+ " <show|init|good|pending|attempt> <image> [slot]"]%string, image)
  end.

(** ** The image as the boot loader sees it *)
Definition image : Type := Z * mem.

Definition image_byte (w : image) : mem := fun x => u8 (snd w x).

(** A disk of fixed size with the bytes of the image. *)
Definition image_bios : bios image :=
  {| bios_block_read w lba n :=
       if 512 * (lba + n) <=? fst w then (true, mem_slice (image_byte w) (512 * lba) (512 * n))
       else (false, []);
     bios_block_write w lba n data :=
       if 512 * (lba + n) <=? fst w then (true, (fst w, mem_put (snd w) (512 * lba) (take (Z.to_nat (512 * n)) data)))
       else (false, w) |}.

#[export] Instance image_bios_ok : BiosDisk image_bios.
Proof.
  split; cbn [bios_block_read bios_block_write image_bios].
  - intros w lba n ok data Hn. destruct (_ <=? _); intros [= <- <-].
    + rewrite zlen_mem_slice by lia. split; [|lia]. apply bytes_mem_slice. intros x. apply u8_range.
    + split; [done|]. unfold zlen. cbn. lia.
  - intros w lba data ok w' H l n Hn Ho. revert H. destruct (512 * (lba + 1) <=? fst w); intros [= <- <-]; [|done].
    cbn [fst snd]. destruct (_ <=? _); [|done]. f_equal. apply mem_slice_ext. intros x Hx. unfold image_byte. f_equal. apply mem_put_outside.
    unfold zlen. rewrite length_take. lia.
Qed.

Definition image_of (s : session) : image := (f_size (ss_file s), f_bytes (ss_file s)).

(** The bytes of the two record sectors. *)
Definition in_records (x : Z) : Prop := 512 * JOSH_BOOT_HEALTH_LBA_A <= x < 512 * (JOSH_BOOT_HEALTH_LBA_B + 1).

(** Between two operations: the write buffer is empty. *)
Definition idle (s : session) : Prop := f_pending (ss_file s) = None.

(** The image of [w] changed only between [lo] and [hi], and a buffered write stays there. *)
Definition confined (lo hi : Z) (w : image) (s : session) : Prop :=
  fst w <= f_size (ss_file s) /\
  (forall x, ~ (lo <= x < hi) -> f_bytes (ss_file s) x = snd w x) /\
  (forall pos data, f_pending (ss_file s) = Some (pos, data) -> lo <= pos /\ pos + zlen data <= hi) /\
  (mem_ok (snd w) -> mem_ok (f_bytes (ss_file s)) /\
     forall pos data, f_pending (ss_file s) = Some (pos, data) -> bytes data).

(** The stream is where it was, with the same image. *)
Definition same_image (s s' : session) : Prop :=
  image_of s' = image_of s /\ idle s' /\ ss_lines s' = ss_lines s /\ (ss_faults s = [] -> ss_faults s' = []).

Lemma fault_runs (s : session) Q :
  (forall o rest, (ss_faults s = [] -> o = None /\ rest = []) ->
     Q o {| ss_file := ss_file s; ss_faults := rest; ss_lines := ss_lines s |}) ->
  runs fault s Q.
Proof.
  intros H. unfold fault. destruct s as [f [|o rest] l].
  - exists None, {| ss_file := f; ss_faults := []; ss_lines := l |}. split; [done|]. by apply (H None []).
  - exists o, {| ss_file := f; ss_faults := rest; ss_lines := l |}. split; [done|]. by apply (H o rest).
Qed.

Lemma zlen_limit o (l : list Z) : zlen (limit o l) <= zlen l.
Proof. destruct o; cbn [limit]; [|lia]. unfold zlen. rewrite length_take. lia. Qed.

Lemma bytes_limit o l : bytes l -> bytes (limit o l).
Proof. destruct o; [apply bytes_take|done]. Qed.

Lemma confined_commit lo hi w o s s' :
  confined lo hi w s -> ss_file s' = commit o (ss_file s) -> confined lo hi w s'.
Proof.
  intros (Hsz & Hout & Hp & Hok) E. unfold confined. rewrite E. unfold commit.
  destruct (f_pending (ss_file s)) as [[pos data]|] eqn:Ep; cbn [f_size f_bytes f_pending].
  - destruct (Hp pos data eq_refl) as [H1 H2]. pose proof (zlen_limit o data) as Hl.
    split_and!; [lia| |done|].
    + intros x Hx. rewrite mem_put_outside by lia. by apply Hout.
    + intros Hm. destruct (Hok Hm) as [Hf Hd]. split; [|done]. apply mem_put_ok; [done|].
      by apply bytes_limit, (Hd pos).
  - rewrite Ep. by split_and!.
Qed.

Lemma commit_idle o f : f_pending (commit o f) = None.
Proof. unfold commit. destruct (f_pending f) as [[pos data]|] eqn:E; done. Qed.

Lemma confined_refl lo hi s : idle s -> confined lo hi (image_of s) s.
Proof. unfold confined, idle, image_of. intros ->. cbn. split_and!; (lia || done || by split). Qed.

Lemma confined_weaken lo hi lo' hi' w s :
  lo' <= lo -> hi <= hi' -> confined lo hi w s -> confined lo' hi' w s.
Proof.
  intros H1 H2 (Hs & Ho & Hp & Hb). split; [done|]. split; [intros x Hx; apply Ho; lia|]. split; [|done].
  intros pos data E. destruct (Hp pos data E). lia.
Qed.

(** Composition: a change of the image followed by a confined one. *)
Lemma confined_from lo hi w s1 s2 :
  confined lo hi w s1 -> confined lo hi (image_of s1) s2 -> confined lo hi w s2.
Proof.
  unfold confined, image_of. cbn. intros (Hs & Ho & _ & Hb) (Hs' & Ho' & Hp' & Hb').
  split; [lia|]. split; [intros x Hx; by rewrite Ho', Ho|]. split; [done|]. intros Hm. by apply Hb', Hb.
Qed.

(** ** Reading *)
Lemma fseek_runs lo hi w offset s :
  confined lo hi w s ->
  runs (fseek offset) s (fun rc s' =>
    confined lo hi w s' /\ idle s' /\ ss_lines s' = ss_lines s /\
    (rc = 0 -> f_pos (ss_file s') = offset) /\ (idle s -> image_of s' = image_of s) /\
    (ss_faults s = [] -> ss_faults s' = [] /\ rc = 0)).
Proof.
  intros Hr. unfold fseek. apply runs_bind, fault_runs. intros o rest Ho. apply runs_get. cbn [ss_file ss_faults ss_lines].
  destruct o as [k|]; apply runs_modify, runs_ret; cbn [ss_file ss_faults ss_lines].
  - split; [by eapply confined_commit|]. split; [apply commit_idle|]. split; [done|].
    split; [done|]. split; [|by intros E; destruct (Ho E)].
    unfold image_of, idle, commit. cbn. intros ->. done.
  - set (s' := {| ss_file := commit None (ss_file s); ss_faults := rest; ss_lines := ss_lines s |}).
    assert (Hs' : confined lo hi w s') by by eapply confined_commit.
    destruct Hs' as (H1 & H2 & H3 & H4). cbn in *. split; [split_and!; try done|].
    { intros Hm. destruct (H4 Hm). by split. }
    split; [done|]. split; [done|]. split; [done|]. split; [|intros E; by destruct (Ho E)].
    unfold image_of, idle, commit. cbn. intros ->. done.
Qed.

(** What a sector of the image decodes to, valid or not. *)
Definition raw_record (w : image) (lba : Z) : option josh_boot_health_record_t :=
  if 512 * (lba + 1) <=? fst w then record_of_bytes (mem_slice (snd w) (512 * lba) 512) else None.

Lemma read_record_runs lba s :
  idle s -> mem_ok (f_bytes (ss_file s)) ->
  runs (read_record lba) s (fun r s' => same_image s s' /\
    (forall v, r = Some v -> record_ok v) /\ (ss_faults s = [] -> r = raw_record (image_of s) lba)).
Proof.
  intros Hi Hm. unfold read_record.
  eapply runs_call; [apply (fseek_runs 0 0 (image_of s)), (confined_refl 0 0 s Hi)|]. intros rc s1 (_ & Hi1 & Hl1 & Hp1 & Him1 & Hf1).
  specialize (Him1 Hi). destruct (Z.eqb_spec rc 0) as [->|Hne]; cbn [negb].
  2: { apply runs_ret. split; [split_and!; try done; intros E; apply Hf1, E|]. split; [done|]. intros E. by destruct (Hf1 E). }
  specialize (Hp1 eq_refl). unfold image_of in Him1. injection Him1 as Hsz Hby.
  unfold fread, JOSH_BOOT_HEALTH_SECTOR_SIZE in *.
  apply runs_bind, runs_bind, fault_runs. intros o rest Ho. apply runs_get, runs_modify, runs_ret.
  cbn [ss_file ss_faults ss_lines f_size f_bytes f_pos f_pending]. rewrite Hsz, Hby, Hp1.
  set (data := limit o _).
  assert (Hsame : same_image s {| ss_file := {| f_size := f_size (ss_file s); f_bytes := f_bytes (ss_file s);
      f_pos := lba * 512 + zlen data; f_pending := f_pending (ss_file s1) |}; ss_faults := rest; ss_lines := ss_lines s1 |}).
  { split_and!; try done. intros E. apply Ho, Hf1, E. }
  assert (Hb : bytes data) by by apply bytes_limit, bytes_mem_slice.
  destruct (Z.eqb_spec (zlen data) 512) as [Hz|Hz]; cbn [negb].
  - destruct (record_of_bytes_some data Hb) as [r Hr0]; [lia|]. rewrite Hr0. apply runs_lift, runs_ret.
    split; [exact Hsame|]. split; [intros v [= <-]; by apply (record_of_bytes_encode data)|].
    intros E. destruct (Hf1 E) as [E1 _]. destruct (Ho E1) as [-> _].
    unfold data in *. cbn [limit] in *. rewrite zlen_mem_slice in Hz by lia. unfold raw_record, image_of. cbn [fst snd].
    rewrite (proj2 (Z.leb_le _ _)) by lia. rewrite <- Hr0. do 2 f_equal; lia.
  - apply runs_ret. split; [exact Hsame|]. split; [done|]. intros E. destruct (Hf1 E) as [E1 _]. destruct (Ho E1) as [-> _].
    unfold data in *. cbn [limit] in *. rewrite zlen_mem_slice in Hz by lia. unfold raw_record, image_of. cbn [fst snd].
    rewrite (proj2 (Z.leb_gt _ _)) by lia. done.
Qed.

Lemma stored_raw w lba :
  mem_ok (snd w) ->
  stored image_bios w lba =
  let? r := raw_record w lba in if josh_boot_health_valid (Some r) then Some r else None.
Proof.
  intros Hm. unfold stored, raw_record. cbn [bios_block_read image_bios].
  destruct (512 * (lba + 1) <=? fst w); [|done].
  rewrite (mem_slice_ext _ (snd w)); [done|]. intros x _. by apply u8_id.
Qed.

(** The record the tool starts from. *)
Definition start_record (w : image) : josh_boot_health_record_t := default default_record (current image_bios w).

Definition valid_part (r : josh_boot_health_record_t) : option josh_boot_health_record_t :=
  if josh_boot_health_valid (Some r) then Some r else None.

(** [josh_boot_health_choose] on two readable copies. *)
Lemma choose_spec a b z :
  record_ok a -> record_ok b ->
  exists existed r, josh_boot_health_choose (Some a) (Some b) (Some z) = (existed, Some r) /\
    record_ok r /\ josh_boot_health_valid (Some r) = true /\ (existed =? 0 = true -> r = default_record) /\
    let cur := match valid_part a, valid_part b with
               | Some ra, Some rb => Some (if hr_generation ra >=? hr_generation rb then ra else rb)
               | Some ra, None => Some ra
               | None, o => o
               end in
    r = default default_record cur /\ existed = match cur with Some _ => 1 | None => 0 end.
Proof.
  intros Ha Hb. unfold josh_boot_health_choose, valid_part.
  destruct (josh_boot_health_valid (Some a)) eqn:Ea, (josh_boot_health_valid (Some b)) eqn:Eb; cbn [negb andb orb];
    try destruct (_ >=? _); eexists _, _; (split; [reflexivity|]); cbv zeta; cbn [default];
    (split; [first [exact Ha|exact Hb|apply default_record_ok]|]);
    (split; [first [exact Ea|exact Eb|apply default_record_valid]|]);
    (split; [first [intros [=]|reflexivity]|]); split; reflexivity.
Qed.

Lemma zero_record_ok : record_ok zero_record.
Proof. unfold record_ok, in_u16, in_u32, in_u64. cbn. lia. Qed.

Lemma load_state_runs s :
  idle s -> mem_ok (f_bytes (ss_file s)) ->
  runs load_state s (fun '(existed, r) s' => same_image s s' /\
    record_ok r /\ josh_boot_health_valid (Some r) = true /\ (existed =? 0 = true -> r = default_record) /\
    (ss_faults s = [] -> r = start_record (image_of s) /\
       existed = match current image_bios (image_of s) with Some _ => 1 | None => 0 end)).
Proof.
  intros Hi Hm. unfold load_state. eapply runs_call; [by apply read_record_runs|].
  intros ra s1 ((Him1 & Hi1 & Hl1 & Hf1) & Hoka & Hra). pose proof Him1 as E1. unfold image_of in E1. injection E1 as _ Hby1.
  eapply runs_call; [apply read_record_runs; [done|by rewrite Hby1]|].
  intros rb s2 ((Him2 & Hi2 & Hl2 & Hf2) & Hokb & Hrb).
  assert (Hsame : same_image s s2) by (split_and!; [congruence|done|congruence|auto]).
  assert (Hok : forall o, (forall v, o = Some v -> record_ok v) -> record_ok (default zero_record o))
    by (intros [v|] Hv; [by apply Hv|apply zero_record_ok]).
  destruct (choose_spec (default zero_record ra) (default zero_record rb) zero_record (Hok _ Hoka) (Hok _ Hokb))
    as (existed & r & -> & Hro & Hrv & Hre & Hcur & Hex).
  apply runs_lift, runs_ret. split; [done|]. do 3 (split; [done|]). intros E.
  assert (Hv : forall w lba o, mem_ok (snd w) -> o = raw_record w lba ->
    valid_part (default zero_record o) = stored image_bios w lba).
  { intros w lba o Hw ->. rewrite stored_raw by done. unfold valid_part. by destruct (raw_record w lba). }
  rewrite Him1 in Hrb. rewrite (Hv (image_of s) _ _ Hm (Hra E)), (Hv (image_of s) _ _ Hm (Hrb (Hf1 E))) in *. unfold start_record, current. split; [exact Hcur|].
  rewrite Hex. reflexivity.
Qed.

(** ** Writing *)
Definition record_sector_bytes (r : josh_boot_health_record_t) : list Z := record_bytes r ++ replicate 456 0.

Lemma record_sector_facts r : zlen (record_sector_bytes r) = 512 /\ bytes (record_sector_bytes r).
Proof.
  unfold record_sector_bytes, zlen. rewrite length_app, length_record_bytes, length_replicate. split; [done|].
  apply Forall_app. split; [apply bytes_record_bytes|apply Forall_replicate; unfold in_u8; lia].
Qed.

(** The image after the record was written to copy [lba]. *)
Definition written (w : image) (lba : Z) (r : josh_boot_health_record_t) : image :=
  (Z.max (fst w) (512 * lba + 512), mem_put (snd w) (512 * lba) (record_sector_bytes r)).

Lemma write_record_runs lba r s :
  idle s -> 0 <= lba ->
  runs (write_record lba r) s (fun ok s' =>
    confined (512 * lba) (512 * lba + 512) (image_of s) s' /\ ss_lines s' = ss_lines s /\
    (ok = true -> idle s' /\ image_of s' = written (image_of s) lba r) /\
    (ss_faults s = [] -> ss_faults s' = [] /\ ok = true)).
Proof.
  intros Hi Hlba. unfold write_record. change (record_bytes r ++ replicate _ 0) with (record_sector_bytes r).
  destruct (record_sector_facts r) as [Hz Hb].
  eapply runs_call; [apply (fseek_runs (512 * lba) (512 * lba + 512)), (confined_refl _ _ s Hi)|].
  intros rc s1 (Hc1 & Hi1 & Hl1 & Hp1 & Him1 & Hf1). specialize (Him1 Hi).
  destruct (Z.eqb_spec rc 0) as [->|Hne]; cbn [negb].
  2: { apply runs_ret. split_and!; try done. intros E. by destruct (Hf1 E). }
  specialize (Hp1 eq_refl). unfold fwrite. apply runs_bind, runs_bind, fault_runs. intros o rest Ho.
  apply runs_get, runs_modify, runs_ret. cbn [ss_file ss_faults ss_lines]. rewrite Hp1.
  replace (lba * JOSH_BOOT_HEALTH_SECTOR_SIZE) with (512 * lba) by (unfold JOSH_BOOT_HEALTH_SECTOR_SIZE; lia).
  pose proof (zlen_limit o (record_sector_bytes r)) as Hlim.
  set (s2 := {| ss_file := {| f_size := f_size (ss_file s1); f_bytes := f_bytes (ss_file s1) |} |}).
  assert (Hc2 : confined (512 * lba) (512 * lba + 512) (image_of s) s2).
  { destruct Hc1 as (H1 & H2 & _ & H4). split_and!; try done; cbn.
    - intros pos data [= <- <-]. lia.
    - intros Hm. destruct (H4 Hm) as [H5 _]. split; [done|]. intros pos data [= <- <-]. by apply bytes_limit. }
  destruct (Z.eqb_spec (zlen (limit o (record_sector_bytes r))) JOSH_BOOT_HEALTH_SECTOR_SIZE) as [Hn|Hn]; cbn [negb].
  2: { apply runs_ret. split_and!; try done. intros E. destruct (Hf1 E) as [E1 _]. destruct (Ho E1) as [-> ->]. exfalso. exact (Hn Hz). }
  unfold fflush. apply runs_bind, runs_bind, fault_runs. intros o2 rest2 Ho2. apply runs_get, runs_modify, runs_ret, runs_ret.
  cbn [ss_file ss_faults ss_lines s2]. split; [by eapply (confined_commit _ _ _ o2 s2)|]. split; [done|]. split.
  - intros Hok. destruct o2 as [k|]; [done|]. split; [apply (commit_idle None)|].
    unfold commit, image_of, written. cbn [ss_file f_size f_bytes f_pending limit]. rewrite Hn.
    assert (Hfull : limit o (record_sector_bytes r) = record_sector_bytes r).
    { destruct o as [k|]; [|done]. cbn [limit] in *. apply take_ge. unfold zlen, JOSH_BOOT_HEALTH_SECTOR_SIZE in *.
      rewrite length_take in Hn. lia. }
    rewrite Hfull. unfold image_of in Him1. injection Him1 as -> ->. done.
  - intros E. destruct (Hf1 E) as [E1 _]. destruct (Ho E1) as [_ ->]. by destruct (Ho2 eq_refl) as [-> ->].
Qed.

Lemma close_runs lo hi w code s :
  confined lo hi w s ->
  runs (close_and_return code) s (fun c s' => c = code /\ confined lo hi w s' /\
    ss_lines s' = ss_lines s /\ (idle s -> image_of s' = image_of s)).
Proof.
  intros Hc. unfold close_and_return, fclose. apply runs_bind, runs_bind, fault_runs. intros o rest _.
  apply runs_get, runs_update, runs_ret. split; [done|]. split; [by eapply confined_commit|]. split; [done|].
  unfold idle, image_of, commit. cbn. by intros ->.
Qed.

Lemma show_runs lo hi w r s :
  confined lo hi w s ->
  runs (show_and_return r) s (fun c s' => c = 0 /\ confined lo hi w s' /\
    ss_lines s' = ss_lines s ++ show_lines r /\ (idle s -> image_of s' = image_of s)).
Proof. intros Hc. unfold show_and_return, show. apply runs_modify. eapply runs_mono; [by apply (close_runs lo hi w)|done]. Qed.

(** Writing a record and reporting it. *)
Definition store_and_show (r : josh_boot_health_record_t) : prog session Z :=
  do ok <- persist r ; if negb ok then close_and_return 1 else show_and_return r.

Lemma store_runs r s :
  idle s ->
  runs (store_and_show r) s (fun c s' =>
    confined (512 * copy_lba r) (512 * copy_lba r + 512) (image_of s) s' /\
    (c = 0 \/ c = 1) /\
    (c = 0 -> image_of s' = written (image_of s) (copy_lba r) r /\ ss_lines s' = ss_lines s ++ show_lines r) /\
    (ss_faults s = [] -> c = 0)).
Proof.
  intros Hi. unfold store_and_show. change (persist r) with (write_record (copy_lba r) r).
  assert (Hlba : 0 <= copy_lba r) by (destruct (copy_lba_cases r) as [-> | ->]; done).
  eapply runs_call; [by apply write_record_runs|]. intros ok s1 (Hc & Hl & Hok & Hf).
  destruct ok; cbn [negb].
  - destruct (Hok eq_refl) as [Hi1 Him]. eapply runs_mono; [apply (show_runs _ _ _ r s1 Hc)|].
    intros c s2 (-> & Hc2 & Hl2 & Him2). split; [done|]. split; [auto|]. split; [|done]. intros _.
    split; [rewrite Him2; done|congruence].
  - eapply runs_mono; [apply (close_runs _ _ _ 1 s1 Hc)|]. intros c s2 (-> & Hc2 & _ & _).
    split; [done|]. split; [auto|]. split; [done|]. intros E. by destruct (Hf E).
Qed.

(** ** The record on disk after a write *)
Definition has_records (w : image) : Prop := mem_ok (snd w) /\ 512 * (JOSH_BOOT_HEALTH_LBA_B + 1) <= fst w.

Lemma raw_record_written w lba r l :
  has_records w -> record_ok r -> 0 <= lba <= JOSH_BOOT_HEALTH_LBA_B ->
  raw_record (written w lba r) l = if l =? lba then Some r else raw_record w l.
Proof.
  intros [Hm Hsz] Hr Hl. unfold raw_record, written. cbn [fst snd].
  rewrite (Z.max_l (fst w)) by (unfold JOSH_BOOT_HEALTH_LBA_B in *; lia).
  destruct (record_sector_facts r) as [Hz Hb]. destruct (Z.eqb_spec l lba) as [->|Hne].
  - rewrite (proj2 (Z.leb_le _ _)) by (unfold JOSH_BOOT_HEALTH_LBA_B in *; lia). rewrite mem_slice_put by done.
    apply record_of_record_bytes; [done|]. apply Forall_replicate. unfold in_u8. lia.
  - destruct (_ <=? _); [|done]. f_equal. apply mem_slice_ext. intros x Hx. apply mem_put_outside. lia.
Qed.

Lemma written_ok w lba r : mem_ok (snd w) -> mem_ok (snd (written w lba r)).
Proof. intros Hm. apply mem_put_ok; [done|]. apply record_sector_facts. Qed.

Lemma stored_written w lba r l :
  has_records w -> record_ok r -> josh_boot_health_valid (Some r) = true -> 0 <= lba <= JOSH_BOOT_HEALTH_LBA_B ->
  stored image_bios (written w lba r) l = if l =? lba then Some r else stored image_bios w l.
Proof.
  intros Hw Hr Hv Hl. pose proof Hw as [Hm _]. rewrite !stored_raw by (done || by apply written_ok).
  rewrite raw_record_written by done. destruct (l =? lba); [by rewrite Hv|done].
Qed.

(** A record no older than the current one becomes the current one. *)
Lemma current_written w r :
  has_records w -> record_ok r -> josh_boot_health_valid (Some r) = true ->
  (forall v, current image_bios w = Some v -> v = r \/ hr_generation v < hr_generation r) ->
  current image_bios (written w (copy_lba r) r) = Some r.
Proof.
  intros Hw Hr Hv Hnew. unfold current in *.
  assert (Hl : 0 <= copy_lba r <= JOSH_BOOT_HEALTH_LBA_B) by (destruct (copy_lba_cases r) as [-> | ->]; done).
  rewrite !stored_written by done. destruct (copy_lba_cases r) as [-> | ->]; cbn [Z.eqb Pos.eqb].
  - change (JOSH_BOOT_HEALTH_LBA_A =? JOSH_BOOT_HEALTH_LBA_A) with true.
    change (JOSH_BOOT_HEALTH_LBA_B =? JOSH_BOOT_HEALTH_LBA_A) with false. cbv iota.
    destruct (stored image_bios w JOSH_BOOT_HEALTH_LBA_B) as [rb|]; [|done].
    destruct (Z.geb_spec (hr_generation r) (hr_generation rb)) as [|Hlt]; [done|].
    destruct (stored image_bios w JOSH_BOOT_HEALTH_LBA_A) as [ra|].
    + destruct (Hnew _ eq_refl) as [E|E]; destruct (Z.geb_spec (hr_generation ra) (hr_generation rb)); subst; try lia; done.
    + destruct (Hnew _ eq_refl) as [E|E]; subst; lia || done.
  - change (JOSH_BOOT_HEALTH_LBA_A =? JOSH_BOOT_HEALTH_LBA_B) with false.
    change (JOSH_BOOT_HEALTH_LBA_B =? JOSH_BOOT_HEALTH_LBA_B) with true. cbv iota.
    destruct (stored image_bios w JOSH_BOOT_HEALTH_LBA_A) as [ra|]; [|done].
    destruct (Z.geb_spec (hr_generation ra) (hr_generation r)) as [Hge|Hlt]; [|done].
    destruct (stored image_bios w JOSH_BOOT_HEALTH_LBA_B) as [rb|].
    + destruct (Z.geb_spec (hr_generation ra) (hr_generation rb)).
      * destruct (Hnew _ eq_refl) as [E|E]; [by subst|lia].
      * destruct (Hnew _ eq_refl) as [E|E]; [subst; lia|lia].
    + destruct (Hnew _ eq_refl) as [E|E]; [by subst|lia].
Qed.

(** ** Commands *)

(** The health operation a command line asks for. *)
Definition tool_op (command : string) (extra : list string) : option health_op :=
  if bool_decide (command = "attempt"%string) then Some (PrepareAttempt JOSH_BOOT_HEALTH_MAX_ATTEMPTS)
  else
    match extra with
    | [name] =>
        if bool_decide (command = "good"%string) then MarkGood <$> parse_slot name
        else if bool_decide (command = "pending"%string) then BeginUpdate <$> parse_slot name
        else None
    | _ => None
    end.

Lemma do_slot_step good existed r name slot :
  parse_slot name = Some slot -> (existed =? 0 = true -> r = default_record) ->
  do_slot good existed r name =
  match (if good then josh_boot_health_mark_good (Some r) slot else josh_boot_health_begin_update (Some r) slot) with
  | (ok, Some r') => if ok =? 0 then close_and_return 1 else store_and_show r'
  | (_, None) => undefined
  end.
Proof.
  intros Hp He. unfold do_slot. rewrite Hp.
  replace (if existed =? 0 then josh_boot_health_default (Some r) else Some r) with (Some r)
    by (destruct (existed =? 0); [by rewrite He|done]).
  change (bind (lift (Some r)) ?k) with (k r). cbv beta.
  by destruct good, (josh_boot_health_mark_good (Some r) slot) as [ok [r'|]],
    (josh_boot_health_begin_update (Some r) slot) as [ok' [r''|]].
Qed.

Lemma do_attempt_step existed r r' :
  (existed =? 0 = true -> r = default_record) ->
  snd (josh_boot_health_prepare_attempt (Some r) JOSH_BOOT_HEALTH_MAX_ATTEMPTS) = Some r' ->
  do_attempt existed r = store_and_show r'.
Proof.
  intros He Hr. unfold do_attempt.
  replace (if existed =? 0 then josh_boot_health_default (Some r) else Some r) with (Some r)
    by (destruct (existed =? 0); [by rewrite He|done]).
  change (bind (lift (Some r)) ?k) with (k r). cbv beta. by rewrite Hr.
Qed.

(** A healthy record stays healthy, and its generation grows by one or stays. *)
Lemma apply_op_healthy r op r' :
  record_ok r -> josh_boot_health_valid (Some r) = true -> op_args op -> apply_op (Some r) op = Some r' ->
  record_ok r' /\ josh_boot_health_valid (Some r') = true /\
  (r' = r \/ hr_generation r' = u64 (hr_generation r + 1)).
Proof.
  intros Hr Hv Ha Hop%apply_op_effect.
  destruct (op_effect_valid r op r' Ha Hr (proj1 (proj1 (valid_iff r) Hv)) Hop) as [Hr' Hf'].
  split; [done|]. split; [by eapply op_effect_sealed|]. destruct Hop; [by left|right; reflexivity..].
Qed.

Lemma parse_slot_range name slot : parse_slot name = Some slot -> 0 <= slot <= 2.
Proof.
  unfold parse_slot, JOSH_BOOT_SLOT_CURRENT, JOSH_BOOT_SLOT_PREVIOUS, JOSH_BOOT_SLOT_RECOVERY.
  repeat case_bool_decide; intros [= <-]; lia.
Qed.

Lemma tool_op_args command extra op : tool_op command extra = Some op -> op_args op.
Proof.
  unfold tool_op. case_bool_decide; [intros [= <-]; unfold op_args, in_u32, JOSH_BOOT_HEALTH_MAX_ATTEMPTS; lia|].
  destruct extra as [|name [|]]; [done| |done]. repeat case_bool_decide; [..|done];
    destruct (parse_slot name) as [slot|] eqn:E; intros [= <-]; apply parse_slot_range in E; unfold op_args, in_u32; lia.
Qed.

(** A command that names an operation stores its result. *)
Lemma run_command_op program command path extra op existed r r' :
  tool_op command extra = Some op -> op <> BeginUpdate JOSH_BOOT_SLOT_RECOVERY ->
  josh_boot_health_valid (Some r) = true -> (existed =? 0 = true -> r = default_record) ->
  apply_op (Some r) op = Some r' ->
  run_command (program :: command :: path :: extra) command existed r = store_and_show r'.
Proof.
  intros Ho Hne Hv He Ha. unfold run_command, tool_op in *. destruct (bool_decide (command = "attempt"%string)) eqn:Ec.
  { injection Ho as <-. apply bool_decide_eq_true in Ec as ->. cbn [bool_decide]. by apply do_attempt_step. }
  destruct extra as [|name [|]]; [done| |done].
  destruct (bool_decide (command = "good"%string)) eqn:Eg.
  - apply bool_decide_eq_true in Eg as ->. destruct (parse_slot name) as [slot|] eqn:Es; [|done]. injection Ho as <-.
    change (do_slot true existed r name = store_and_show r').
    rewrite (do_slot_step _ _ _ _ slot Es He). cbn [apply_op] in Ha. unfold josh_boot_health_mark_good in *.
    apply parse_slot_range in Es. rewrite Hv in *. cbn [negb orb] in *.
    assert (Hs : slot_valid slot = true) by (unfold slot_valid, JOSH_BOOT_SLOT_RECOVERY; lia).
    rewrite Hs in *. cbn [negb snd] in *. by injection Ha as <-.
  - destruct (bool_decide (command = "pending"%string)) eqn:Ep; [|done].
    apply bool_decide_eq_true in Ep as ->. destruct (parse_slot name) as [slot|] eqn:Es; [|done]. injection Ho as <-.
    change (do_slot false existed r name = store_and_show r').
    rewrite (do_slot_step _ _ _ _ slot Es He). cbn [apply_op] in Ha. unfold josh_boot_health_begin_update in *.
    apply parse_slot_range in Es. rewrite Hv in *. cbn [negb orb] in *.
    assert (Hs : slot_valid slot = true) by (unfold slot_valid, JOSH_BOOT_SLOT_RECOVERY; lia).
    assert (Hn : slot =? JOSH_BOOT_SLOT_RECOVERY = false) by (apply Z.eqb_neq; congruence).
    rewrite Hs, Hn in *. cbn [negb snd orb] in *. by injection Ha as <-.
Qed.

(** The recovery slot cannot be put on trial. *)
Definition refused (op : health_op) : bool :=
  match op with BeginUpdate slot => slot =? JOSH_BOOT_SLOT_RECOVERY | _ => false end.

Lemma refused_iff op : refused op = true <-> op = BeginUpdate JOSH_BOOT_SLOT_RECOVERY.
Proof. destruct op; cbn; try (split; done). rewrite Z.eqb_eq. split; [by intros ->|by intros [= ->]]. Qed.

Lemma refused_keeps r : apply_op (Some r) (BeginUpdate JOSH_BOOT_SLOT_RECOVERY) = Some r.
Proof. cbn [apply_op]. unfold josh_boot_health_begin_update. by rewrite orb_true_r. Qed.

Lemma run_command_refused program command path extra existed r :
  tool_op command extra = Some (BeginUpdate JOSH_BOOT_SLOT_RECOVERY) -> (existed =? 0 = true -> r = default_record) ->
  run_command (program :: command :: path :: extra) command existed r = close_and_return 1.
Proof.
  intros Ho He. unfold run_command, tool_op in *. destruct (bool_decide (command = "attempt"%string)); [done|].
  destruct extra as [|name [|]]; [done| |done].
  destruct (bool_decide (command = "good"%string)) eqn:Eg; [by destruct (parse_slot name)|].
  destruct (bool_decide (command = "pending"%string)) eqn:Ep; [|done].
  apply bool_decide_eq_true in Ep as ->. destruct (parse_slot name) as [slot|] eqn:Es; [|done]. injection Ho as ->.
  change (do_slot false existed r name = close_and_return 1).
  rewrite (do_slot_step _ _ _ _ _ Es He). unfold josh_boot_health_begin_update. by rewrite orb_true_r.
Qed.

(** The session [main] starts. *)
Definition opened (w : image) (faults : list (option Z)) : session :=
  {| ss_file := {| f_size := fst w; f_bytes := snd w; f_pos := 0; f_pending := None |};
     ss_faults := faults; ss_lines := [] |}.

Lemma main_runs program command path extra w faults Q :
  runs (main_file (program :: command :: path :: extra) command) (opened w faults) Q ->
  exists code s, main (program :: command :: path :: extra) (Some w) faults =
    Some (code, ss_lines s, Some (image_of s)) /\ Q code s.
Proof.
  intros (code & s & H & HQ). exists code, s. split; [|done]. destruct w as [size contents]. unfold main.
  change {| ss_file := _; ss_faults := faults; ss_lines := [] |} with (opened (size, contents) faults).
  by rewrite H.
Qed.

(** What holds of every end of the tool: the exit codes, and what of image [w] it touched.
    [one]: at most one of the two copies. *)
Definition tool_end (one : bool) (w : image) (code : Z) (s : session) : Prop :=
  (code = 0 \/ code = 1 \/ code = 2) /\ (code = 2 -> image_of s = w) /\
  confined (512 * JOSH_BOOT_HEALTH_LBA_A) (512 * (JOSH_BOOT_HEALTH_LBA_B + 1)) w s /\
  (one = true -> exists lba, (lba = JOSH_BOOT_HEALTH_LBA_A \/ lba = JOSH_BOOT_HEALTH_LBA_B) /\
     confined (512 * lba) (512 * lba + 512) w s).

Lemma confined_to_copy lba w s :
  lba = JOSH_BOOT_HEALTH_LBA_A \/ lba = JOSH_BOOT_HEALTH_LBA_B -> confined (512 * lba) (512 * lba + 512) w s ->
  confined (512 * JOSH_BOOT_HEALTH_LBA_A) (512 * (JOSH_BOOT_HEALTH_LBA_B + 1)) w s.
Proof.
  intros Hl Hc. eapply confined_weaken; [| |exact Hc]; unfold JOSH_BOOT_HEALTH_LBA_A, JOSH_BOOT_HEALTH_LBA_B in *; lia.
Qed.

Lemma store_touches r s w one :
  idle s -> image_of s = w -> runs (store_and_show r) s (tool_end one w).
Proof.
  intros Hi <-. eapply runs_mono; [by apply store_runs|]. intros code s' (Hc & H01 & _).
  pose proof (copy_lba_cases r) as Hl. split; [lia|]. split; [lia|]. split; [by eapply confined_to_copy|eauto].
Qed.

(** Ending without a write. *)
Lemma untouched_end one w s s' code :
  image_of s = w -> confined (512 * JOSH_BOOT_HEALTH_LBA_A) (512 * JOSH_BOOT_HEALTH_LBA_A + 512) w s' ->
  (idle s -> image_of s' = image_of s) -> idle s -> code = 0 \/ code = 1 \/ code = 2 -> tool_end one w code s'.
Proof.
  intros Him Hc Hs Hi Hcode. split; [done|]. split; [intros _; by rewrite Hs|]. split; [|eauto].
  eapply confined_to_copy; [|done]. by left.
Qed.

Lemma close_touches code s w one :
  idle s -> image_of s = w -> code = 0 \/ code = 1 \/ code = 2 -> runs (close_and_return code) s (tool_end one w).
Proof.
  intros Hi Him Hcode. eapply runs_mono; [apply (close_runs (512 * JOSH_BOOT_HEALTH_LBA_A) (512 * JOSH_BOOT_HEALTH_LBA_A + 512) w);
    rewrite <- Him; by apply confined_refl|].
  intros k s' (-> & Hc & _ & Hs). by eapply untouched_end.
Qed.

Lemma show_touches r s w one : idle s -> image_of s = w -> runs (show_and_return r) s (tool_end one w).
Proof.
  intros Hi Him. eapply runs_mono; [apply (show_runs (512 * JOSH_BOOT_HEALTH_LBA_A) (512 * JOSH_BOOT_HEALTH_LBA_A + 512) w);
    rewrite <- Him; by apply confined_refl|].
  intros k s' (-> & Hc & _ & Hs). eapply untouched_end; eauto.
Qed.

Lemma init_touches s : idle s -> runs do_init s (tool_end false (image_of s)).
Proof.
  intros Hi. unfold do_init. change (josh_boot_health_default (Some zero_record)) with (Some default_record).
  apply runs_lift. eapply runs_call; [by apply write_record_runs|]. intros ok s1 (Hc1 & _ & Hok1 & _).
  assert (H1 : confined (512 * JOSH_BOOT_HEALTH_LBA_A) (512 * (JOSH_BOOT_HEALTH_LBA_B + 1)) (image_of s) s1)
    by (eapply confined_to_copy; [by left|done]).
  assert (Hend : forall k s', k = 0 \/ k = 1 ->
    confined (512 * JOSH_BOOT_HEALTH_LBA_A) (512 * (JOSH_BOOT_HEALTH_LBA_B + 1)) (image_of s) s' ->
    tool_end false (image_of s) k s').
  { intros k s' Hk Hc. split; [lia|]. split; [lia|]. by split. }
  destruct ok; cbn [negb].
  2: { eapply runs_mono; [by apply close_runs|]. intros k s' (-> & Hc & _). apply Hend; auto. }
  destruct (Hok1 eq_refl) as [Hi1 _]. eapply runs_call; [by apply write_record_runs|]. intros ok s2 (Hc2 & _ & _ & _).
  assert (H2 : confined (512 * JOSH_BOOT_HEALTH_LBA_A) (512 * (JOSH_BOOT_HEALTH_LBA_B + 1)) (image_of s) s2)
    by (eapply confined_from; [exact H1|]; eapply confined_to_copy; [by right|exact Hc2]).
  destruct ok; cbn [negb]; (eapply runs_mono; [by first [apply close_runs|apply show_runs]|]);
    intros k s' (-> & Hc & _); apply Hend; auto.
Qed.

Lemma run_command_touches program command path extra existed r s w :
  idle s -> image_of s = w -> (existed =? 0 = true -> r = default_record) ->
  runs (run_command (program :: command :: path :: extra) command existed r) s
    (tool_end (negb (bool_decide (command = "init"%string))) w).
Proof.
  intros Hi Him He. unfold run_command. destruct (bool_decide (command = "init"%string)); [rewrite <- Him; by apply init_touches|].
  destruct (bool_decide (command = "show"%string)).
  { destruct (existed =? 0); [|by apply show_touches]. apply runs_modify. apply close_touches; auto. }
  destruct (_ || _).
  - destruct extra as [|name [|]]; [apply close_touches; auto| |apply close_touches; auto].
    destruct (parse_slot name) as [slot|] eqn:Es; [|unfold do_slot; rewrite Es; apply close_touches; auto].
    rewrite (do_slot_step _ _ _ _ slot Es He).
    unfold josh_boot_health_mark_good, josh_boot_health_begin_update.
    destruct (bool_decide _); destruct (_ || _); cbn [Z.eqb]; first [by apply store_touches|apply close_touches; auto].
  - destruct (bool_decide (command = "attempt"%string)); [|apply close_touches; auto].
    destruct (apply_op_some r (PrepareAttempt JOSH_BOOT_HEALTH_MAX_ATTEMPTS)) as [r' Hr'].
    rewrite (do_attempt_step existed r r') by done. by apply store_touches.
Qed.

(** ** What a command leaves *)

(** A health operation ends with 0 and writes its result to the copy of its generation. *)
Lemma tool_writes program command path extra op w :
  tool_op command extra = Some op -> op <> BeginUpdate JOSH_BOOT_SLOT_RECOVERY -> has_records w ->
  exists r, apply_op (Some (start_record w)) op = Some r /\
    main (program :: command :: path :: extra) (Some w) [] = Some (0, show_lines r, Some (written w (copy_lba r) r)) /\
    record_ok (start_record w) /\ record_ok r /\ josh_boot_health_valid (Some r) = true /\
    (r = start_record w \/ hr_generation r = u64 (hr_generation (start_record w) + 1)).
Proof.
  intros Hop Hne [Hm Hsz]. destruct (apply_op_some (start_record w) op) as [r Hr].
  assert (Hrun : runs (main_file (program :: command :: path :: extra) command) (opened w []) (fun code s =>
    code = 0 /\ ss_lines s = show_lines r /\ image_of s = written w (copy_lba r) r /\
    record_ok (start_record w) /\ record_ok r /\ josh_boot_health_valid (Some r) = true /\
    (r = start_record w \/ hr_generation r = u64 (hr_generation (start_record w) + 1)))).
  { unfold main_file. eapply runs_call; [by apply load_state_runs|].
    intros [existed r0] s1 ((Him & Hi & Hl & Hf) & Hok & Hv & He & Hst). destruct (Hst eq_refl) as [Hr0 _].
    change (image_of (opened w [])) with (fst w, snd w) in *. rewrite <- surjective_pairing in *. subst r0.
    destruct (apply_op_healthy _ _ _ Hok Hv (tool_op_args _ _ _ Hop) Hr) as (Hok' & Hv' & Hgen).
    rewrite (run_command_op program command path extra op existed _ r Hop Hne Hv He Hr).
    eapply runs_mono; [by apply store_runs|]. intros code s' (_ & _ & Hz & H0).
    specialize (H0 (Hf eq_refl)). subst code. destruct (Hz eq_refl) as [H1 H2].
    rewrite H1, Him, H2, Hl. done. }
  destruct (main_runs _ _ _ _ _ _ _ Hrun) as (code & s & Hmain & -> & Hl & Him & Hfacts).
  exists r. split; [done|]. split; [by rewrite Hmain, Hl, Him|done].
Qed.

(** The refused operation ends with 1, prints nothing and leaves the image. *)
Lemma tool_refuses program command path extra (w : image) :
  tool_op command extra = Some (BeginUpdate JOSH_BOOT_SLOT_RECOVERY) -> mem_ok (snd w) ->
  main (program :: command :: path :: extra) (Some w) [] = Some (1, [], Some w).
Proof.
  intros Hop Hm.
  assert (Hrun : runs (main_file (program :: command :: path :: extra) command) (opened w []) (fun code s =>
    code = 1 /\ ss_lines s = [] /\ image_of s = w)).
  { unfold main_file. eapply runs_call; [by apply load_state_runs|].
    intros [existed r0] s1 ((Him & Hi & Hl & _) & _ & _ & He & _). rewrite run_command_refused by done.
    eapply runs_mono; [apply (close_runs 0 0 (image_of s1)); by apply confined_refl|].
    intros code s' (-> & _ & Hl' & Him'). split; [done|]. split; [by rewrite Hl', Hl|]. rewrite Him', Him by done.
    unfold image_of, opened. cbn. by destruct w. }
  destruct (main_runs _ _ _ _ _ _ _ Hrun) as (code & s & Hmain & Hcode & Hl & Him). by rewrite Hmain, Hcode, Hl, Him.
Qed.

(** The result of an operation is then the record of the image. *)
Lemma tool_current w r :
  has_records w -> record_ok (start_record w) -> record_ok r -> josh_boot_health_valid (Some r) = true ->
  hr_generation (start_record w) + 1 < 2 ^ 64 ->
  r = start_record w \/ hr_generation r = u64 (hr_generation (start_record w) + 1) ->
  current image_bios (written w (copy_lba r) r) = Some r.
Proof.
  intros Hw Hok0 Hok Hv Hg Hgen. apply current_written; try done.
  intros v Hc. unfold start_record in Hg, Hgen, Hok0. rewrite Hc in Hg, Hgen, Hok0.
  cbn [default id] in Hg, Hgen, Hok0. destruct Hgen as [->|Hgen]; [by left|right].
  assert (Hvg : in_u64 (hr_generation v)) by apply Hok0.
  rewrite Hgen, u64_id; unfold in_u64 in *; lia.
Qed.

(** Only a record sector changes. *)
Lemma written_outside w r x : ~ in_records x -> snd (written w (copy_lba r) r) x = snd w x.
Proof.
  intros Hx. unfold written. cbn [snd]. apply mem_put_outside. destruct (record_sector_facts r) as [-> _].
  unfold in_records in Hx. destruct (copy_lba_cases r) as [-> | ->];
    unfold JOSH_BOOT_HEALTH_LBA_A, JOSH_BOOT_HEALTH_LBA_B in *; lia.
Qed.

(** ** Theorems *)

(** C32: The tool and the boot loader agree. On an image that contains both record sectors and whose
    record is not at the last generation of 64 bits, and when the library calls work, take a command
    that names a health operation: good or pending with a slot, or attempt. Only pending with
    the recovery slot is refused: it exits with 1, prints nothing and leaves the image as it was. Every
    other one exits with 0 and prints the resulting record. In all cases nothing but the record
    sectors changes, and from the image the boot loader's [health_load] reads exactly the result of
    applying the operation to the record it would have read before, or to the default record
    when there was none. *)
Theorem healthctl_reaches_loader (program command path : string) (extra : list string) (op : health_op) (w : image) :
  tool_op command extra = Some op -> has_records w -> hr_generation (start_record w) + 1 < 2 ^ 64 ->
  exists (r : josh_boot_health_record_t) (w' : image), apply_op (Some (start_record w)) op = Some r /\
    main (program :: command :: path :: extra) (Some w) [] =
      (if refused op then Some (1, [], Some w) else Some (0, show_lines r, Some w')) /\
    (refused op = true -> w' = w) /\
    (forall x, ~ in_records x -> snd w' x = snd w x) /\
    forall s : machine image, mc_disk s = w' -> exists s', health_load image_bios zero_record s = Some ((1, r), s').
Proof.
  intros Hop Hw Hg. destruct (refused op) eqn:Eref.
  - apply refused_iff in Eref as ->. exists (start_record w), w. split; [apply refused_keeps|]. split; [by apply tool_refuses, Hw|].
    split; [done|]. split; [done|]. intros st Hst.
    destruct (health_load_run image_bios zero_record st) as (r' & m' & Hload & _ & Hr').
    rewrite Hst in Hr'. fold (start_record w) in Hr'. subst r'. by eexists.
  - assert (Hne : op <> BeginUpdate JOSH_BOOT_SLOT_RECOVERY) by (intros Heq%refused_iff; congruence).
    destruct (tool_writes program command path extra op w Hop Hne Hw) as (r & Hr & Hmain & Hok0 & Hok & Hv & Hgen).
    exists r, (written w (copy_lba r) r). split; [done|]. split; [done|]. split; [done|]. split; [apply written_outside|].
    intros st Hst. destruct (health_load_run image_bios zero_record st) as (r' & m' & Hload & _ & Hr').
    rewrite Hst, tool_current in Hr' by done. cbn in Hr'. subst r'. by eexists.
Qed.

(** An image of both record sectors that was never initialised. *)
Definition blank_image : image := (512 * 2048, fun _ => 0).

Lemma blank_image_records : has_records blank_image.
Proof. split; [intros x; unfold in_u8; cbn; lia|]. unfold JOSH_BOOT_HEALTH_LBA_B. cbn. lia. Qed.

Lemma blank_image_start : start_record blank_image = default_record.
Proof.
  unfold start_record, current. rewrite !stored_raw by apply blank_image_records.
  assert (Hr : forall lba, lba = JOSH_BOOT_HEALTH_LBA_A \/ lba = JOSH_BOOT_HEALTH_LBA_B ->
    raw_record blank_image lba = Some zero_record) by (intros lba [-> | ->]; vm_compute; reflexivity).
  rewrite !Hr by auto. reflexivity.
Qed.

Lemma healthctl_reaches_loader_witness :
  (exists r w', main ["josh-healthctl"; "pending"; "disk.img"; "previous"]%string (Some blank_image) []
      = Some (0, show_lines r, Some w') /\ hr_selected_slot r = JOSH_BOOT_SLOT_PREVIOUS) /\
  main ["josh-healthctl"; "pending"; "disk.img"; "recovery"]%string (Some blank_image) [] = Some (1, [], Some blank_image).
Proof.
  assert (Hg : hr_generation (start_record blank_image) + 1 < 2 ^ 64) by (rewrite blank_image_start; vm_compute; reflexivity).
  split.
  - destruct (healthctl_reaches_loader "josh-healthctl" "pending" "disk.img" ["previous"%string]
      (BeginUpdate JOSH_BOOT_SLOT_PREVIOUS) blank_image eq_refl blank_image_records Hg) as (r & w' & Hr & Hmain & _).
    exists r, w'. split; [exact Hmain|]. rewrite blank_image_start in Hr. vm_compute in Hr. by injection Hr as <-.
  - destruct (healthctl_reaches_loader "josh-healthctl" "pending" "disk.img" ["recovery"%string]
      (BeginUpdate JOSH_BOOT_SLOT_RECOVERY) blank_image eq_refl blank_image_records Hg) as (r & w' & _ & Hmain & _).
    exact Hmain.
Defined.

(** C33: Errors of the tool. For every command line and image, and whatever the library calls do at
    any point (seek errors, short reads and writes, failing flushes), the tool ends with exit code 0, 1
    or 2; it never changes a byte outside the two record sectors; every command but init touches at
    most one of the two copies; and exit code 2, for a missing or unknown argument, means that the
    image is untouched. *)
Theorem healthctl_error_paths (argv : list string) (w : image) (faults : list (option Z)) :
  mem_ok (snd w) ->
  exists (code : Z) (lines : list string) (w' : image), main argv (Some w) faults = Some (code, lines, Some w') /\
    (code = 0 \/ code = 1 \/ code = 2) /\ (code = 2 -> w' = w) /\ fst w <= fst w' /\
    (forall x, ~ in_records x -> snd w' x = snd w x) /\
    (argv !! 1%nat <> Some "init"%string ->
       exists lba, (lba = JOSH_BOOT_HEALTH_LBA_A \/ lba = JOSH_BOOT_HEALTH_LBA_B) /\
         forall x, ~ (512 * lba <= x < 512 * lba + 512) -> snd w' x = snd w x).
Proof.
  intros Hm.
  assert (Husage : (length argv < 3)%nat -> exists lines, main argv (Some w) faults = Some (2, lines, Some w)).
  { destruct argv as [|a1 [|a2 [|a3 argv]]]; cbn; try (intros; by eexists). lia. }
  destruct argv as [|program [|command [|path extra]]];
    try (destruct Husage as [lines ->]; [cbn; lia|]; exists 2, lines, w; split_and!; try (done || lia);
         intros _; exists JOSH_BOOT_HEALTH_LBA_A; auto; done).
  assert (Hrun : runs (main_file (program :: command :: path :: extra) command) (opened w faults)
    (tool_end (negb (bool_decide (command = "init"%string))) w)).
  { unfold main_file. eapply runs_call; [by apply load_state_runs|].
    intros [existed r] s ((Him & Hi & _) & _ & _ & He & _). apply run_command_touches; [done| |done].
    rewrite Him. unfold image_of. cbn. by destruct w. }
  destruct (main_runs _ _ _ _ _ _ _ Hrun) as (code & s & -> & Hcode & H2 & (Hs & Ho & _) & Hone).
  exists code, (ss_lines s), (image_of s). split; [done|]. split; [done|]. split; [done|]. split; [done|].
  split; [exact Ho|]. cbn. intros Hne. rewrite bool_decide_eq_false_2 in Hone by congruence.
  destruct (Hone eq_refl) as (lba & Hl & _ & Hc & _). by exists lba.
Qed.

(** Reading works, then the seek before the write fails. *)
Lemma healthctl_error_paths_witness :
  exists lines w', main ["josh-healthctl"; "good"; "disk.img"; "current"]%string (Some blank_image)
      [None; None; None; None; Some 0] = Some (1, lines, Some w') /\
    (forall x, ~ in_records x -> snd w' x = 0).
Proof.
  destruct (healthctl_error_paths ["josh-healthctl"; "good"; "disk.img"; "current"]%string blank_image
    [None; None; None; None; Some 0] (proj1 blank_image_records)) as (code & lines & w' & Hmain & _ & _ & _ & Ho & _).
  exists lines, w'. split; [|exact Ho].
  assert (Hcode : option_map (fun r => fst (fst r)) (main ["josh-healthctl"; "good"; "disk.img"; "current"]%string
    (Some blank_image) [None; None; None; None; Some 0]) = Some 1) by (vm_compute; reflexivity).
  rewrite Hmain in Hcode. injection Hcode as ->. exact Hmain.
Defined.

(** Naming the slots and reading the names back. *)
Lemma slot_name_roundtrip slot : 0 <= slot <= 2 -> parse_slot (slot_name slot) = Some slot.
Proof. intros H. assert (slot = 0 \/ slot = 1 \/ slot = 2) as [->|[->| ->]] by lia; reflexivity. Qed.

(** A read error hides the records: the tool then starts from the default record, although the image
    has a valid one, and reports success. *)
Lemma read_error_hides_record :
  let w := written blank_image JOSH_BOOT_HEALTH_LBA_A
             (seal (with_fields default_record 8 JOSH_BOOT_SLOT_PREVIOUS JOSH_BOOT_SLOT_PREVIOUS 0 0 0 3)) in
  option_map (fun r => fst r)
    (main ["josh-healthctl"; "good"; "disk.img"; "current"]%string (Some w) [Some 0; Some 0]) =
  Some (0, show_lines (seal (with_fields default_record 1 0 0 0 0 0 0))).
Proof. vm_compute. reflexivity. Qed.
