(* ===== verification/Stage2Boot.v ===== *)
(** * Finding and staging a kernel (boot/stage2_pm.c)

    [load_kernel_file] composes the components: it finds the boot partition
    through the BIOS, mounts it, parses the configuration, loads the health
    record, chooses a slot and reads the first kernel candidate that is a valid
    image, falling back from the current kernel to the previous one and to the
    recovery kernel.  Local buffers start with arbitrary contents, written here
    as zeros; a -1 result is [None], since no caller reads the out-parameters
    after it.  The 32 KiB bounce buffer at 0x60000 is scratch space of
    [bios_block_read_bounced]: a read hands its bytes on, and the memory of the
    model keeps what was there (Bounce has the read on memory). *)
From stdpp Require Import relations.
From S2P Require Import Prelude Prog Block Partition Fat32 Config Health Elf64 Slots Memory Paging KernelLoad Stage2Health.

Definition BIOS_BOUNCE_SECTORS : Z := 64.
Definition BIOS_DEVICE_SECTORS : Z := 0x100000000.
Definition CONFIG_PATH : list Z := chars "/boot/josh/boot.cfg" ++ [0].

Definition blank_partition : josh_partition_t :=
  {| pt_scheme := JOSH_PARTITION_SCHEME_MBR; pt_first_lba := 0; pt_sector_count := 0; pt_mbr_type := 0;
     pt_gpt_type_guid := replicate 16 0; pt_gpt_unique_guid := replicate 16 0 |}.

(** A call whose status is compared with the success status. *)
Definition call {W E A} (r : res E A) : prog (machine W) (option A) :=
  match r with
  | Ok a => ret (Some a)
  | Err _ => ret None
  | Stuck => lift None
  end.

Definition kernel_path_for_slot (config : josh_boot_config_t) (slot : Z) : list Z :=
  if slot =? JOSH_BOOT_SLOT_CURRENT then bc_kernel_path config
  else if slot =? JOSH_BOOT_SLOT_PREVIOUS then bc_previous_kernel_path config
  else bc_recovery_kernel_path config.

Definition write_slot_marker {W} (slot : Z) : prog (machine W) unit :=
  if slot =? JOSH_BOOT_SLOT_CURRENT then serial_write "JOSHBOOT_SLOT_CURRENT"
  else if slot =? JOSH_BOOT_SLOT_PREVIOUS then serial_write "JOSHBOOT_SLOT_PREVIOUS"
  else serial_write "JOSHBOOT_SLOT_RECOVERY".

Section Loader.
Context {W : Type} (b : bios W).

(** The chunked copy through the bounce buffer; [destination] holds what was copied so far.
    The loop runs at most once per sector. *)
Fixpoint bounced_loop (w : W) (fuel : nat) (lba remaining : Z) (destination : list Z) {struct fuel}
    : option (list Z) :=
  match fuel with
  | O => None
  | S fuel' =>
      if remaining =? 0 then Some destination
      else
        let chunk := if remaining >? BIOS_BOUNCE_SECTORS then BIOS_BOUNCE_SECTORS else remaining in
        let '(ok, data) := bios_block_read b w lba chunk in
        if negb ok then None
        else
          let bytes := chunk * JOSH_BLOCK_SECTOR_SIZE in
          bounced_loop w fuel' (u64 (lba + chunk)) (remaining - chunk)
            (destination ++ take (Z.to_nat bytes) data)
  end.

Definition bios_block_read_bounced (w : W) (lba sector_count : Z) : option (list Z) :=
  if sector_count =? 0 then None
  else bounced_loop w (S (Z.to_nat sector_count)) lba sector_count [].

(** The device [load_kernel_file] sets up, as it reads at disk state [w]. *)
Definition bios_device (w : W) : josh_block_device_t :=
  {| bd_sector_count := BIOS_DEVICE_SECTORS; bd_read := Some (bios_block_read_bounced w) |}.

(** The mounted file system reads through its device pointer: the disk as it is now. *)
Definition now (w : W) (fs : josh_fat32_t) : josh_fat32_t := on_device fs (bios_device w).

(** [Some n]: returned 0 with [*image_bytes = n]. *)
Definition read_kernel_candidate (fs : josh_fat32_t) (path : list Z) : prog (machine W) (option Z) :=
  do c <- lift (get8 path 0) ;
  if c =? 0 then ret None
  else
    do s <- get ;
    do file <- call (josh_fat32_open_path (Some (now (mc_disk s) fs)) (Some path) (Some tt)) ;
    match file with
    | None => ret None
    | Some kernel =>
        if (ff_size kernel =? 0) || (ff_size kernel >? KERNEL_IMAGE_BYTES) then ret None
        else
          do (status, buffer, bytes_read) <-
            lift (josh_fat32_read_file (Some (now (mc_disk s) fs)) (Some kernel) 0
                    (Some (mem_slice (mc_mem s) KERNEL_IMAGE_ADDR (ff_size kernel))) (ff_size kernel) (Some 0)) ;
          do image <- lift buffer ;
          run set_mem (mem_put (mc_mem s) KERNEL_IMAGE_ADDR image) ;
          do bytes_read <- lift bytes_read ;
          match status with
          | JOSH_FAT32_OK =>
              if negb (bytes_read =? ff_size kernel) then ret None
              else
                do s <- get ;
                do (status, _) <- lift (josh_elf64_validate (Some (staged (mc_mem s) (ff_size kernel)))
                                          (ff_size kernel) (Some blank_summary)) ;
                match status with
                | JOSH_ELF64_OK => ret (Some (ff_size kernel))
                | _ => ret None
                end
          | _ => ret None
          end
    end.

(** The loop over the candidates, [n] iterations left. *)
Fixpoint candidate_loop (fs : josh_fat32_t) (config : josh_boot_config_t) (n : nat)
    (health : josh_boot_health_record_t) (slot : Z) {struct n} : prog (machine W) (option Z) :=
  match n with
  | O => ret None
  | S n' =>
      let path := kernel_path_for_slot config slot in
      run write_slot_marker slot ;
      do loaded <- read_kernel_candidate fs path ;
      match loaded with
      | Some image_bytes =>
          run serial_write "JOSHBOOT_KERNEL_PATH_OK" ;
          run serial_write "JOSHBOOT_KERNEL_FILE_LOADED" ;
          ret (Some image_bytes)
      | None =>
          do p0 <- lift (get8 (bc_previous_kernel_path config) 0) ;
          do r0 <- lift (get8 (bc_recovery_kernel_path config) 0) ;
          if (slot =? JOSH_BOOT_SLOT_CURRENT) && negb (p0 =? 0) then
            let '(ok, health) := josh_boot_health_select_fallback (Some health)
                                   JOSH_BOOT_SLOT_PREVIOUS JOSH_BOOT_FAILURE_KERNEL_FILE in
            if ok =? 0 then ret None
            else
              do health <- lift health ;
              run health_persist b health ;
              run serial_write "JOSHBOOT_FALLBACK_PREVIOUS" ;
              candidate_loop fs config n' health JOSH_BOOT_SLOT_PREVIOUS
          else if negb (slot =? JOSH_BOOT_SLOT_RECOVERY) && negb (r0 =? 0) then
            let '(ok, health) := josh_boot_health_select_fallback (Some health)
                                   JOSH_BOOT_SLOT_RECOVERY JOSH_BOOT_FAILURE_KERNEL_FILE in
            if ok =? 0 then ret None
            else
              do health <- lift health ;
              run health_persist b health ;
              run serial_write "JOSHBOOT_FALLBACK_RECOVERY" ;
              candidate_loop fs config n' health JOSH_BOOT_SLOT_RECOVERY
          else ret None
      end
  end.

(** Opening, reading and parsing the configuration file. *)
Definition read_config (fs : josh_fat32_t) : prog (machine W) (option josh_boot_config_t) :=
  do s <- get ;
  do file <- call (josh_fat32_open_path (Some (now (mc_disk s) fs)) (Some CONFIG_PATH) (Some tt)) ;
  match file with
  | None => run serial_write "JOSHBOOT_ERROR_CONFIG_PATH" ; ret None
  | Some config_file =>
      if (ff_size config_file =? 0) || (ff_size config_file >? JOSH_BOOT_CONFIG_MAX_BYTES)
      then run serial_write "JOSHBOOT_ERROR_CONFIG_SIZE" ; ret None
      else
        let config_buffer := replicate (Z.to_nat JOSH_BOOT_CONFIG_MAX_BYTES) 0 in
        do (status, buffer, config_bytes) <-
          lift (josh_fat32_read_file (Some (now (mc_disk s) fs)) (Some config_file) 0
                  (Some config_buffer) (ff_size config_file) (Some 0)) ;
        do config_buffer <- lift buffer ;
        do config_bytes <- lift config_bytes ;
        if negb (bool_decide (status = JOSH_FAT32_OK)) || negb (config_bytes =? ff_size config_file)
        then run serial_write "JOSHBOOT_ERROR_CONFIG_READ" ; ret None
        else
          do (status, config) <- lift (josh_boot_config_parse (Some config_buffer) config_bytes (Some zero_config)) ;
          match status with
          | JOSH_CONFIG_OK =>
              do config <- lift config ;
              run serial_write "JOSHBOOT_CONFIG_OK" ;
              ret (Some config)
          | _ => run serial_write "JOSHBOOT_ERROR_CONFIG_PARSE" ; ret None
          end
  end.

(** Loading the health record and counting the attempt: the record and the slot to boot. *)
Definition begin_attempt (health_layout_safe : bool) : prog (machine W) (option (josh_boot_health_record_t * Z)) :=
  do loaded <-
    (if negb health_layout_safe then
       do health <- lift (josh_boot_health_default (Some zero_record)) ;
       run set_persistent false ;
       run serial_write "JOSHBOOT_HEALTH_VOLATILE_LAYOUT" ;
       ret (1, health)
     else health_load b zero_record) ;
  let '(rc, health) := loaded in
  if rc =? 0 then run serial_write "JOSHBOOT_ERROR_HEALTH_LOAD" ; ret None
  else
    let old_slot := hr_selected_slot health in
    let old_generation := hr_generation health in
    let was_pending := negb (hr_pending_good health =? 0) in
    let '(slot, health) := josh_boot_health_prepare_attempt (Some health) JOSH_BOOT_HEALTH_MAX_ATTEMPTS in
    do health <- lift health ;
    run (if negb (hr_generation health =? old_generation)
         then run health_persist b health ; ret tt else ret tt) ;
    run (if was_pending && negb (old_slot =? slot) then
           if slot =? JOSH_BOOT_SLOT_PREVIOUS then serial_write "JOSHBOOT_HEALTH_ROLLBACK_PREVIOUS"
           else serial_write "JOSHBOOT_HEALTH_ROLLBACK_RECOVERY"
         else ret tt) ;
    ret (Some (health, slot)).

Definition load_kernel_file : prog (machine W) (option (Z * josh_boot_config_t)) :=
  do s <- get ;
  let device := bios_device (mc_disk s) in
  do partition <- call (josh_partition_find_boot (Some device) (Some blank_partition)) ;
  match partition with
  | None => run serial_write "JOSHBOOT_ERROR_PARTITION" ; ret None
  | Some partition =>
      run serial_write "JOSHBOOT_PARTITION_OK" ;
      do health_layout_safe <-
        lift (josh_partition_range_is_unallocated (Some device) JOSH_BOOT_HEALTH_LBA_A 2) ;
      run (if negb health_layout_safe
           then serial_write "JOSHBOOT_HEALTH_LAYOUT_UNSAFE_VOLATILE" else ret tt) ;
      do fs <- call (josh_fat32_mount (Some device) (Some partition) (Some tt)) ;
      match fs with
      | None => run serial_write "JOSHBOOT_ERROR_FAT32" ; ret None
      | Some filesystem =>
          run serial_write "JOSHBOOT_FAT32_OK" ;
          do config <- read_config filesystem ;
          match config with
          | None => ret None
          | Some config =>
              do attempt <- begin_attempt health_layout_safe ;
              match attempt with
              | None => ret None
              | Some (health, slot) =>
                  do loaded <- candidate_loop filesystem config 3 health slot ;
                  match loaded with
                  | Some image_bytes => ret (Some (image_bytes, config))
                  | None => run serial_write "JOSHBOOT_ERROR_KERNEL_CANDIDATES" ; ret None
                  end
              end
          end
      end
  end.

End Loader.

(** ** The BIOS as a block device *)
Section Device.
Context {W : Type} (b : bios W) `{!BiosDisk b}.

Lemma bounced_loop_full w fuel : forall lba n dest data,
  0 <= n -> (Z.to_nat n < fuel)%nat -> bytes dest ->
  bounced_loop b w fuel lba n dest = Some data ->
  zlen data = zlen dest + 512 * n /\ bytes data.
Proof.
  induction fuel as [|fuel IH]; intros lba n dest data Hn Hf Hb H; [lia|]. cbn [bounced_loop] in H.
  destruct (Z.eqb_spec n 0) as [->|Hn0]; [injection H as <-; split; [lia|done]|].
  set (chunk := if n >? BIOS_BOUNCE_SECTORS then _ else n) in H.
  assert (Hc : 0 < chunk <= n) by (unfold chunk, BIOS_BOUNCE_SECTORS; destruct (n >? 64) eqn:E; lia).
  clearbody chunk. destruct (bios_block_read b w lba chunk) as [ok d] eqn:Er.
  assert (Hc0 : 0 < chunk) by lia. destruct (bios_read_bytes _ _ _ _ _ Hc0 Er) as (Hd & _ & Hfull).
  destruct ok; [|done]. specialize (Hfull eq_refl). cbn [negb] in H.
  apply IH in H as [Hz Hby]; [|lia|lia|apply Forall_app; split; [done|by apply bytes_take]].
  split; [|done]. rewrite Hz. unfold zlen, JOSH_BLOCK_SECTOR_SIZE in *. rewrite length_app, length_take. lia.
Qed.

#[export] Instance bios_device_ok w : JoshBlockDevice (bios_device b w).
Proof.
  split; [cbn; unfold in_u64, BIOS_DEVICE_SECTORS; lia|].
  intros rd lba n data Hn [= <-] H. unfold bios_block_read_bounced in H.
  rewrite (proj2 (Z.eqb_neq n 0)) in H by lia.
  apply bounced_loop_full in H as [Hz Hb]; [|lia|lia|constructor]. split; [|done]. rewrite Hz. change (zlen (@nil Z)) with 0. lia.
Qed.

Lemma bounced_one w lba :
  bios_block_read_bounced b w lba 1 =
  let '(ok, data) := bios_block_read b w lba 1 in if ok then Some data else None.
Proof.
  unfold bios_block_read_bounced. cbn [Z.eqb]. change (S (Z.to_nat 1)) with 2%nat. cbn [bounced_loop Z.eqb].
  change (1 >? BIOS_BOUNCE_SECTORS) with false. cbv iota.
  destruct (bios_block_read b w lba 1) as [ok data] eqn:Er. destruct ok; [|done]. cbn [negb Z.eqb Z.sub].
  assert (H1 : 0 < 1) by lia. destruct (bios_read_bytes _ _ _ _ _ H1 Er) as (_ & _ & Hfull).
  specialize (Hfull eq_refl). cbn. f_equal. apply take_ge. unfold JOSH_BLOCK_SECTOR_SIZE, zlen in *. lia.
Qed.

Lemma read_sector_bios w lba :
  0 <= lba ->
  read_sector (bios_device b w) lba =
  if lba <? BIOS_DEVICE_SECTORS
  then let '(ok, data) := bios_block_read b w lba 1 in if ok then Some data else None
  else None.
Proof.
  intros Hl. unfold read_sector, josh_block_read, uninit. cbn [bd_read bios_device bd_sector_count].
  rewrite bounced_one. cbn [Z.eqb]. unfold BIOS_DEVICE_SECTORS. rewrite Z.geb_leb, Z.gtb_ltb.
  destruct (Z.leb_spec 0x100000000 lba); destruct (Z.ltb_spec lba 0x100000000); try lia; [done|].
  rewrite u64_id by (unfold in_u64; lia). rewrite (proj2 (Z.ltb_ge _ _)) by lia. done.
Qed.

(** Health writes are invisible outside their two sectors. *)
Lemma read_sector_same w w' lba :
  same_outside b w w' -> 0 <= lba -> lba <> JOSH_BOOT_HEALTH_LBA_A -> lba <> JOSH_BOOT_HEALTH_LBA_B ->
  read_sector (bios_device b w') lba = read_sector (bios_device b w) lba.
Proof.
  intros Hs Hl Ha Hb. rewrite !read_sector_bios by done.
  unfold same_outside, JOSH_BOOT_HEALTH_LBA_A, JOSH_BOOT_HEALTH_LBA_B in *.
  by rewrite (Hs lba 1) by lia.
Qed.

End Device.

(** ** Files as lists of bytes *)
Definition file_image (fs : josh_fat32_t) (file : josh_fat32_file_t) : option (list Z) :=
  mapM (file_byte fs (ff_first_cluster file)) (seqZ 0 (ff_size file)).

Lemma file_image_some fs file buf :
  0 <= ff_size file -> zlen buf = ff_size file ->
  (forall i, 0 <= i < ff_size file -> exists v, file_byte fs (ff_first_cluster file) i = Some v /\ get8 buf i = Some v) ->
  file_image fs file = Some buf.
Proof.
  intros Hs Hz H. apply mapM_Some. apply Forall2_same_length_lookup_2.
  { rewrite length_seqZ. unfold zlen in Hz. lia. }
  intros i x y [-> Hi]%lookup_seqZ Hy. destruct (H (0 + Z.of_nat i)) as (v & Hv & Hg); [lia|].
  rewrite Hv. f_equal. rewrite lookup_get8 in Hy. rewrite Z.add_0_l in Hg. congruence.
Qed.

Lemma file_image_none fs file i :
  0 <= i < ff_size file -> file_byte fs (ff_first_cluster file) i = None -> file_image fs file = None.
Proof.
  intros Hi Hn. apply mapM_None, Exists_exists. exists i. split; [|done]. apply elem_of_seqZ. lia.
Qed.

Lemma file_byte_byte fs c q v : fs_ok fs -> file_byte fs c q = Some v -> in_u8 v.
Proof.
  intros Hok H. pose proof (ok_device _ Hok) as Hd. unfold file_byte, cluster_byte in H.
  destruct (nth_cluster _ _ _) as [k|]; [|done].
  destruct (read_sector (fs_device fs) _) as [sector|] eqn:Er; [|done].
  destruct (read_sector_full _ _ _ Er) as [_ Hb]. by eapply get8_byte.
Qed.

Lemma filled_bytes buf buf' m f :
  bytes buf -> (forall i v, f i = Some v -> in_u8 v) -> filled buf buf' 0 m f -> bytes buf'.
Proof.
  intros Hb Hf (Hz & Hin & Hout). apply Forall_lookup. intros i x Hx. rewrite lookup_get8 in Hx.
  destruct (Z.lt_ge_cases (Z.of_nat i) m) as [Hi|Hi].
  - destruct (Hin (Z.of_nat i)) as (v & Hv & Hg); [lia|]. rewrite Z.add_0_l in Hg. simplify_eq. by eapply Hf.
  - rewrite Hout in Hx by lia. by eapply get8_byte.
Qed.

(** A file small enough for the volume's cluster bound reads exactly or not at all. *)
Lemma read_whole_file fs file buf :
  fs_ok fs -> in_u32 (ff_size file) -> 0 < ff_size file <= 512 * FAT32_MIN_CLUSTERS ->
  Z.land (ff_attributes file) FAT_ATTR_DIRECTORY = 0 -> ff_size file <= zlen buf ->
  exists st buf' r,
    josh_fat32_read_file (Some fs) (Some file) 0 (Some buf) (ff_size file) (Some 0) = Some (st, Some buf', Some r) /\
    zlen buf' = zlen buf /\ (bytes buf -> bytes buf') /\
    match file_image fs file with
    | Some img => st = JOSH_FAT32_OK /\ r = ff_size file /\ take (Z.to_nat (ff_size file)) buf' = img
    | None => st <> JOSH_FAT32_OK
    end.
Proof.
  intros Hok Hu Hsz Hattr Hl. assert (Ho : 0 <= 0 <= ff_size file) by lia.
  destruct (read_file_run fs file 0 buf (ff_size file) 0 Hok Hu Hattr Ho Hu Hl) as (st & buf' & r & Hr & Hgood & Hbad).
  rewrite Z.sub_0_r, Z.min_id in *. exists st, buf', r. split; [done|].
  destruct (decide (st = JOSH_FAT32_OK)) as [->|Hne].
  - destruct (Hgood eq_refl) as [-> Hfl]. pose proof Hfl as (Hz & Hf & _). split; [done|].
    split. { intros Hb. eapply filled_bytes; [done| |exact Hfl]. intros. by eapply file_byte_byte. }
    assert (Htk : zlen (take (Z.to_nat (ff_size file)) buf') = ff_size file) by (unfold zlen in *; rewrite length_take; lia).
    rewrite (file_image_some fs file (take (Z.to_nat (ff_size file)) buf')); [done|lia|done|].
    intros i Hi. destruct (Hf i Hi) as (v & Hv & Hg). exists v. split; [done|].
    rewrite Z.add_0_l in Hg. unfold get8 in *. destruct (i <? 0); [done|]. rewrite lookup_take_lt by lia. done.
  - destruct (Hbad Hne) as (_ & m & Hm & Hfl & Hwhy). pose proof Hfl as (Hz & _ & _). split; [done|].
    split. { intros Hb. eapply filled_bytes; [done| |exact Hfl]. intros. by eapply file_byte_byte. }
    rewrite (file_image_none fs file m Hm); [done|]. destruct Hwhy as [H|H]; [done|]. exfalso.
    pose proof (cluster_size_pos fs Hok) as Hcs. destruct (ok_clusters fs Hok) as [Hcc _].
    assert (m / cluster_size fs <= m / 512).
    { apply Z.div_le_compat_l; [lia|]. destruct (ok_spc fs Hok) as (k & Hk & Hspc). unfold cluster_size.
      rewrite Hspc. assert (1 <= 2 ^ k) by (apply (Z.pow_le_mono_r 2 0 k); lia). lia. }
    assert (m / 512 < FAT32_MIN_CLUSTERS) by (apply Z.div_lt_upper_bound; lia).
    rewrite Z.add_0_l in H. lia.
Qed.

(** The kernel a path stands for: a regular file of acceptable size, readable, and a valid image. *)
Definition kernel_image (fs : josh_fat32_t) (path : list Z) : option (list Z) :=
  let? c := get8 path 0 in
  if c =? 0 then None
  else
    match josh_fat32_open_path (Some fs) (Some path) (Some tt) with
    | Ok kernel =>
        if (ff_size kernel =? 0) || (ff_size kernel >? KERNEL_IMAGE_BYTES)
           || negb (Z.land (ff_attributes kernel) FAT_ATTR_DIRECTORY =? 0)
        then None
        else
          let? img := file_image fs kernel in
          match josh_elf64_validate (Some img) (ff_size kernel) (Some blank_summary) with
          | Some (JOSH_ELF64_OK, _) => Some img
          | _ => None
          end
    | _ => None
    end.

Lemma open_path_size fs path f :
  fs_ok fs -> 0 ∈ path -> josh_fat32_open_path (Some fs) (Some path) (Some tt) = Ok f -> in_u32 (ff_size f).
Proof.
  intros Hok H0 Hf. destruct (open_path_run fs path Hok H0) as [_ Hr].
  destruct (Hr f Hf) as [[_ ->]|H]; [cbn; unfold in_u32; lia|by eapply resolves_size].
Qed.

Lemma zlen_file_image fs file img : 0 <= ff_size file -> file_image fs file = Some img -> zlen img = ff_size file.
Proof.
  intros Hs H. apply length_mapM in H. rewrite length_seqZ in H. unfold zlen. lia.
Qed.

(** A volume as seen at another moment: the sectors of its partition are the same. *)
Definition same_volume (fs : josh_fat32_t) (d : josh_block_device_t) : Prop :=
  forall lba, fs_partition_lba fs <= lba < fs_partition_lba fs + fs_partition_sectors fs ->
    read_sector d lba = read_sector (fs_device fs) lba.

Lemma file_image_same fs d file :
  fs_ok fs -> fs_ok (on_device fs d) -> same_volume fs d ->
  in_u32 (ff_size file) -> 0 < ff_size file <= 512 * FAT32_MIN_CLUSTERS ->
  Z.land (ff_attributes file) FAT_ATTR_DIRECTORY = 0 ->
  file_image (on_device fs d) file = file_image fs file.
Proof.
  intros Hok Hok' Hsame Hu Hsz Ha.
  set (buf := replicate (Z.to_nat (ff_size file)) 0).
  assert (Hl : ff_size file <= zlen buf) by (unfold buf, zlen; rewrite length_replicate; lia).
  destruct (read_whole_file fs file buf Hok Hu Hsz Ha Hl) as (st & buf' & r & Hr & _ & _ & H1).
  destruct (read_whole_file (on_device fs d) file buf Hok' Hu Hsz Ha Hl) as (st2 & buf2 & r2 & Hr2 & _ & _ & H2).
  destruct (confined_to_partition fs d None file 0 buf (ff_size file) 0 Hok ltac:(done) Hsame) as [_ He].
  rewrite Hr2, Hr in He. injection He as -> -> ->.
  destruct (file_image fs file), (file_image (on_device fs d) file); try done; destruct_and!; congruence.
Qed.

Lemma kernel_image_same fs d path :
  fs_ok fs -> fs_ok (on_device fs d) -> same_volume fs d -> 0 ∈ path ->
  kernel_image (on_device fs d) path = kernel_image fs path.
Proof.
  intros Hok Hok' Hsame H0. unfold kernel_image.
  destruct (confined_to_partition fs d (Some path) {| ff_first_cluster := 0; ff_size := 0; ff_attributes := 0 |}
    0 [] 0 0 Hok ltac:(done) Hsame) as [-> _].
  destruct (get8 path 0) as [c|]; [|done]. destruct (c =? 0); [done|].
  destruct (josh_fat32_open_path (Some fs) (Some path) (Some tt)) as [file| |] eqn:Eo; [|done..].
  pose proof (open_path_size fs path file Hok H0 Eo) as Hu. unfold in_u32 in Hu.
  destruct (_ || _) eqn:E; [done|]. repeat apply orb_false_iff in E as [E ?].
  rewrite file_image_same; try done; unfold KERNEL_IMAGE_BYTES, FAT32_MIN_CLUSTERS in *; lia.
Qed.

(** ** Reading a candidate *)

(** Memory after a candidate was read: only the staging area may differ. *)
Definition staging_only (m m' : mem) : Prop :=
  (mem_ok m -> mem_ok m') /\
  forall x, x < KERNEL_IMAGE_ADDR \/ KERNEL_IMAGE_ADDR + KERNEL_IMAGE_BYTES <= x -> m' x = m x.

#[export] Instance staging_only_preorder : PreOrder staging_only.
Proof.
  split; [by split|]. intros m1 m2 m3 [Hk1 H1] [Hk2 H2]. split; [auto|]. intros x Hx. by rewrite H2, H1.
Qed.

Lemma staging_put m img :
  zlen img <= KERNEL_IMAGE_BYTES -> (mem_ok m -> bytes img) -> staging_only m (mem_put m KERNEL_IMAGE_ADDR img).
Proof.
  intros Hz Hb. split; [intros Hm; apply mem_put_ok; auto|]. intros x Hx. apply mem_put_outside. lia.
Qed.

(** ** The order of the candidates *)

(** The kernel of the first slot that has a loadable one. *)
Fixpoint first_image (fs : josh_fat32_t) (config : josh_boot_config_t) (slots : list Z) : option (list Z) :=
  match slots with
  | [] => None
  | slot :: rest =>
      match kernel_image fs (kernel_path_for_slot config slot) with
      | Some img => Some img
      | None => first_image fs config rest
      end
  end.

(** Whether a slot has a loadable kernel. *)
Definition usable (fs : josh_fat32_t) (config : josh_boot_config_t) (slot : Z) : bool :=
  match kernel_image fs (kernel_path_for_slot config slot) with Some _ => true | None => false end.

Lemma first_image_settles fs config slots : forall h,
  first_image fs config slots =
    match fst (settle (usable fs config) h slots) with
    | Some slot => kernel_image fs (kernel_path_for_slot config slot)
    | None => None
    end.
Proof.
  induction slots as [|slot [|next rest] IH]; intros h; [done|..]; cbn [first_image settle] in *; unfold usable at 1;
    destruct (kernel_image fs (kernel_path_for_slot config slot)) eqn:E; cbn [fst]; rewrite ?E; try done; apply IH.
Qed.

Lemma paths_ok_slot config slot : paths_ok config -> 0 ∈ kernel_path_for_slot config slot.
Proof. intros (H1 & H2 & H3). unfold kernel_path_for_slot. destruct (_ =? _); [done|]. by destruct (_ =? _). Qed.

Section Candidates.
Context {W : Type} (b : bios W) `{!BiosDisk b}.

Lemma with_mem_self (s : machine W) : with_mem s (mc_mem s) = s.
Proof. by destruct s. Qed.

Lemma read_kernel_candidate_run fs path (s : machine W) :
  mem_ok (mc_mem s) -> fs_ok (now b (mc_disk s) fs) -> 0 ∈ path ->
  exists r m', read_kernel_candidate b fs path s = Some (r, with_mem s m') /\ staging_only (mc_mem s) m' /\
    match kernel_image (now b (mc_disk s) fs) path with
    | Some img => r = Some (zlen img) /\ staged m' (zlen img) = img
    | None => r = None
    end.
Proof.
  intros Hm Hok H0. unfold read_kernel_candidate, kernel_image.
  assert (Hnone : exists r m', Some (@None Z, s) = Some (r, with_mem s m') /\ staging_only (mc_mem s) m' /\ r = None).
  { exists None, (mc_mem s). by rewrite with_mem_self. }
  destruct (get8 path 0) as [c|] eqn:Ec; [|destruct path; [set_solver|done]].
  rewrite (bind_run _ _ s c s) by done. destruct (c =? 0); [done|].
  rewrite (bind_run _ _ s s s) by done. set (fs' := now b (mc_disk s) fs) in *.
  destruct (open_path_run fs' path Hok H0) as [Hns _].
  destruct (josh_fat32_open_path (Some fs') (Some path) (Some tt)) as [file|e|] eqn:Eo; [| |done].
  2: { by rewrite (bind_run _ _ s None s). }
  rewrite (bind_run _ _ s (Some file) s) by done.
  pose proof (open_path_size fs' path file Hok H0 Eo) as Hu.
  destruct ((ff_size file =? 0) || (ff_size file >? KERNEL_IMAGE_BYTES)) eqn:Esz; cbn [orb]; [done|].
  apply orb_false_iff in Esz as [Es0 Es1].
  assert (Hsz : 0 < ff_size file <= KERNEL_IMAGE_BYTES) by (unfold in_u32 in Hu; lia).
  set (buf := mem_slice (mc_mem s) KERNEL_IMAGE_ADDR (ff_size file)).
  assert (Hbuf : zlen buf = ff_size file) by (apply zlen_mem_slice; lia).
  destruct (Z.land (ff_attributes file) FAT_ATTR_DIRECTORY =? 0) eqn:Ea; cbn [negb].
  - assert (Hs2 : 0 < ff_size file <= 512 * FAT32_MIN_CLUSTERS)
      by (unfold KERNEL_IMAGE_BYTES, FAT32_MIN_CLUSTERS in *; lia).
    destruct (read_whole_file fs' file buf Hok Hu Hs2 ltac:(lia) ltac:(lia)) as (st & buf' & r & Hr & Hz & Hb & Him).
    assert (Hbb : bytes buf') by (apply Hb; by apply bytes_mem_slice).
    rewrite (bind_run _ _ s (st, Some buf', Some r) s) by (unfold lift; by rewrite Hr). cbv beta iota.
    rewrite (bind_run _ _ s buf' s) by done.
    set (m' := mem_put (mc_mem s) KERNEL_IMAGE_ADDR buf').
    rewrite (bind_run _ _ s tt (with_mem s m')) by done. rewrite (bind_run _ _ _ r (with_mem s m')) by done.
    assert (Hst : staging_only (mc_mem s) m') by (apply staging_put; [lia|done]).
    destruct (file_image fs' file) as [img|] eqn:Ei; [|exists None, m'; by destruct st].
    destruct Him as (-> & -> & Himg). rewrite take_ge in Himg by (unfold zlen in *; lia). subst img.
    rewrite Z.eqb_refl. cbn [negb]. rewrite (bind_run _ _ _ (with_mem s m') (with_mem s m')) by done.
    cbn [mc_mem with_mem]. assert (Hstg : staged m' (ff_size file) = buf') by (apply mem_slice_put; lia).
    rewrite Hstg. assert (Hi64 : in_u64 (ff_size file)) by (unfold in_u32, in_u64 in *; lia).
    destruct (validate_total buf' (ff_size file) Hbb Hi64 ltac:(lia) blank_summary) as (st & sm & Hv & _).
    rewrite Hv, (bind_run _ _ _ (st, Some sm) (with_mem s m')) by done. cbv beta iota.
    destruct st; try by (exists None, m').
    exists (Some (ff_size file)), m'. rewrite Hz, Hbuf. done.
  - unfold josh_fat32_read_file. rewrite Ea. cbn [negb].
    rewrite (bind_run _ _ s (JOSH_FAT32_NOT_DIRECTORY, Some buf, Some 0) s) by done. cbv beta iota.
    rewrite (bind_run _ _ s buf s) by done.
    set (m' := mem_put (mc_mem s) KERNEL_IMAGE_ADDR buf).
    rewrite (bind_run _ _ s tt (with_mem s m')) by done. rewrite (bind_run _ _ _ 0 (with_mem s m')) by done.
    exists None, m'. split; [done|]. split; [|done]. apply staging_put; [lia|]. intros _. by apply bytes_mem_slice.
Qed.

(** ** What loading may change *)
Record loader_effect (s s' : machine W) : Prop := {
  le_disk : same_outside b (mc_disk s) (mc_disk s');
  le_volatile : mc_persistent s = false -> mc_disk s' = mc_disk s /\ mc_persistent s' = false;
  le_mem_ok : mem_ok (mc_mem s) -> mem_ok (mc_mem s');
  le_mem : forall x,
    (x < KERNEL_IMAGE_ADDR \/ KERNEL_IMAGE_ADDR + KERNEL_IMAGE_BYTES <= x) ->
    (x < HEALTH_BUFFER_ADDR \/ HEALTH_BUFFER_ADDR + 512 <= x) -> mc_mem s' x = mc_mem s x
}.

#[export] Instance loader_effect_preorder : PreOrder loader_effect.
Proof.
  split.
  - intros s. by split.
  - intros s1 s2 s3 [Hd1 Hv1 Hk1 Hm1] [Hd2 Hv2 Hk2 Hm2]. split.
    + intros l n Hn Ho. by rewrite Hd2, Hd1.
    + intros Hp. destruct (Hv1 Hp) as [E1 Hp2]. destruct (Hv2 Hp2) as [E2 Hp3]. split; [congruence|done].
    + auto.
    + intros x Hx1 Hx2. by rewrite Hm2, Hm1.
Qed.

Lemma effect_staging s m : staging_only (mc_mem s) m -> loader_effect s (with_mem s m).
Proof. intros [Hk Hm]. split; try done. intros x Hx _. by apply Hm. Qed.

Lemma effect_serial (s : machine W) l :
  loader_effect s {| mc_disk := mc_disk s; mc_mem := mc_mem s; mc_serial := l; mc_persistent := mc_persistent s |}.
Proof. by split. Qed.

Lemma effect_persist r (s : machine W) :
  exists ok s', health_persist b r s = Some (ok, s') /\ loader_effect s s'.
Proof.
  destruct (health_persist_run b r s) as (ok & s' & H & [Hk Hm] & Hso & _ & Hp & Hvol & _).
  exists ok, s'. split; [done|]. split; try done.
  - intros Hf. destruct (Hvol Hf) as [-> Hd]. by split.
  - intros x _ Hx. by apply Hm.
Qed.

(** The file system keeps its sectors clear of the two record sectors. *)
Definition clear_of_health (fs : josh_fat32_t) : Prop :=
  forall lba, fs_partition_lba fs <= lba < fs_partition_lba fs + fs_partition_sectors fs ->
    lba <> JOSH_BOOT_HEALTH_LBA_A /\ lba <> JOSH_BOOT_HEALTH_LBA_B.

Lemma now_ok w fs :
  fs_ok fs -> bd_sector_count (fs_device fs) = BIOS_DEVICE_SECTORS -> fs_ok (now b w fs).
Proof.
  intros [Hd Hp Ht Hs Hf Hc Hr] Hn. split; try done; [apply _|]. cbn. by rewrite <- Hn.
Qed.

Lemma slot_image_same fs config w w' slot :
  fs_ok fs -> bd_sector_count (fs_device fs) = BIOS_DEVICE_SECTORS -> paths_ok config ->
  (w' = w \/ (same_outside b w w' /\ clear_of_health fs)) ->
  kernel_image (now b w' fs) (kernel_path_for_slot config slot) = kernel_image (now b w fs) (kernel_path_for_slot config slot).
Proof.
  intros Hok Hn Hp [->|[Hs Hc]]; [done|].
  change (now b w' fs) with (on_device (now b w fs) (bios_device b w')).
  apply kernel_image_same; [by apply now_ok| | |by apply paths_ok_slot].
  - change (on_device (now b w fs) (bios_device b w')) with (now b w' fs). by apply now_ok.
  - intros lba Hl. destruct (Hc lba Hl) as [Ha Hb]. apply read_sector_same; try done.
    cbn in Hl. destruct (ok_partition fs Hok) as [? _]. lia.
Qed.

Lemma first_image_same fs config w w' slots :
  fs_ok fs -> bd_sector_count (fs_device fs) = BIOS_DEVICE_SECTORS -> paths_ok config ->
  (w' = w \/ (same_outside b w w' /\ clear_of_health fs)) ->
  first_image (now b w' fs) config slots = first_image (now b w fs) config slots.
Proof.
  intros Hok Hn Hp Hw. induction slots as [|slot slots IH]; [done|]. cbn [first_image].
  by rewrite IH, (slot_image_same fs config w w' slot).
Qed.

(** On a disk in working order that holds [health] at the start, it holds [rec] at the end. *)
Definition settles (k : Z) (health rec : josh_boot_health_record_t) (s s' : machine W) : Prop :=
  writes_work b -> record_ok health -> hr_generation health + k < 2 ^ 64 ->
  mc_persistent s = true -> consistent b (mc_disk s) health -> consistent b (mc_disk s') rec.

(** The record the loop leaves when it starts with [health] and the slots [slots]. *)
Definition settled (fs : josh_fat32_t) (config : josh_boot_config_t) (s : machine W) (health : josh_boot_health_record_t)
    (slots : list Z) : josh_boot_health_record_t :=
  snd (settle (usable (now b (mc_disk s) fs) config) health slots).

Lemma settles_same_disk k health rec s s1 s2 s' :
  mc_disk s1 = mc_disk s -> mc_persistent s1 = mc_persistent s -> mc_disk s2 = mc_disk s' ->
  settles k health rec s1 s' -> settles k health rec s s2.
Proof. intros E1 E2 E3 H Hw Hr Hg Hp Hc. rewrite E3. apply H; rewrite ?E1, ?E2; done. Qed.

Lemma settles_refl k health s s' : mc_disk s' = mc_disk s -> settles k health health s s'.
Proof. intros E _ _ _ _ Hc. by rewrite E. Qed.

(** The record the disk stands for, followed through the loop. *)
Definition follows (k : Z) (health : josh_boot_health_record_t) (s s' : machine W) : Prop :=
  torn_write_detected b -> record_ok health -> hr_generation health + k < 2 ^ 64 ->
  forall rec0, consistent b (mc_disk s) rec0 -> (mc_persistent s = true -> rec0 = health) ->
  exists rec, consistent b (mc_disk s') rec /\ (rec = rec0 \/ rtc fallback_step health rec) /\
    hr_generation rec <= Z.max (hr_generation rec0) (hr_generation health + k).

Definition loop_result (fs : josh_fat32_t) (config : josh_boot_config_t) (s s' : machine W)
    (slots : list Z) (r : option Z) : Prop :=
  match first_image (now b (mc_disk s) fs) config slots with
  | Some img => r = Some (zlen img) /\ staged (mc_mem s') (zlen img) = img
  | None => r = None
  end.

Lemma follows_same_disk k health s s1 s2 s' :
  mc_disk s1 = mc_disk s -> mc_persistent s1 = mc_persistent s -> mc_disk s2 = mc_disk s' ->
  follows k health s1 s' -> follows k health s s2.
Proof. intros E1 E2 E3 H Ht Hr Hg rec0 Hc Hs. rewrite E3. apply H; rewrite ?E1, ?E2; done. Qed.

Lemma follows_refl k health s s' : mc_disk s' = mc_disk s -> follows k health s s'.
Proof. intros E Ht Hr Hg rec0 Hc _. exists rec0. rewrite E. split_and!; auto. lia. Qed.

(** One fallback and its write. *)
Lemma fallback_persist health slot s :
  josh_boot_health_valid (Some health) = true ->
  slot = JOSH_BOOT_SLOT_PREVIOUS \/ slot = JOSH_BOOT_SLOT_RECOVERY ->
  exists h' ok s2,
    josh_boot_health_select_fallback (Some health) slot JOSH_BOOT_FAILURE_KERNEL_FILE = (1, Some h') /\
    health_persist b h' s = Some (ok, s2) /\ josh_boot_health_valid (Some h') = true /\
    loader_effect s s2 /\
    (forall k s', 0 <= k -> follows k h' s2 s' -> follows (k + 1) health s s') /\
    (forall k rec s', 0 <= k -> settles k h' rec s2 s' -> settles (k + 1) health rec s s').
Proof.
  intros Hv Hslot. destruct (select_fallback_valid health slot Hv Hslot) as (h' & Hf & Hv' & Hok & Hg).
  assert (Hstep : fallback_step health h') by by exists slot.
  destruct (health_persist_run b h' s) as (ok & s2 & Hp & [Hk Hm] & Hso & _ & Hps & Hvol & Hcases).
  exists h', ok, s2. do 3 (split; [done|]). split.
  { split; try done; [|intros x _ Hx; by apply Hm]. intros Hpf. destruct (Hvol Hpf) as [-> Hd]. by split. }
  assert (Hg' : forall k, 0 <= k -> record_ok health -> hr_generation health + (k + 1) < 2 ^ 64 ->
    hr_generation h' = hr_generation health + 1).
  { intros k Hk0 Hro Hgen. rewrite Hg. destruct Hro as (_ & _ & _ & Hgr & _). apply u64_id. unfold in_u64 in *. lia. }
  split.
  2: { intros k rec s' Hk0 Hset Hww Hro Hgen Hpp Hc. specialize (Hg' k Hk0 Hro Hgen).
       destruct (health_persist_works b health h' s ok s2 Hp Hww Hpp (Hok Hro) Hv' Hc Hg') as [-> Hc2].
       apply Hset; auto. lia. }
  intros k s' Hk0 Hfol Ht Hro Hgen rec0 Hc Hsync. specialize (Hg' k Hk0 Hro Hgen).
  assert (Hnext : exists rec1, consistent b (mc_disk s2) rec1 /\ (mc_persistent s2 = true -> rec1 = h') /\
    (rec1 = rec0 \/ rec1 = h')).
  { destruct (mc_persistent s) eqn:Ep.
    - rewrite (Hsync eq_refl) in *. destruct (Hcases eq_refl Ht (Hok Hro) Hv' health Hc Hg') as [[-> H]|[-> [H|H]]].
      + exists h'. auto.
      + exists health. rewrite Hps. split_and!; auto; done.
      + exists h'. auto.
    - destruct (Hvol eq_refl) as [-> Hd]. exists rec0. rewrite Hd, Hps. split_and!; auto; done. }
  destruct Hnext as (rec1 & Hc1 & Hs1 & Hor).
  destruct (Hfol Ht (Hok Hro) ltac:(lia) rec1 Hc1 Hs1) as (rec & Hcr & Hrec & Hle).
  exists rec. split; [done|]. split; [|destruct Hor; subst; lia]. destruct Hrec as [->|Hrec]; [|right; by eapply rtc_l].
  destruct Hor as [->| ->]; [by left|]. right. by apply rtc_once.
Qed.

Lemma write_slot_marker_run slot (s : machine W) :
  exists l, write_slot_marker slot s =
    Some (tt, {| mc_disk := mc_disk s; mc_mem := mc_mem s; mc_serial := l; mc_persistent := mc_persistent s |}).
Proof. unfold write_slot_marker, serial_write. destruct (_ =? _); [by eexists|]. destruct (_ =? _); by eexists. Qed.

(** What one fallback does to the rest of the loop. *)
Lemma loop_result_fallback fs config (s s1 s2 s' : machine W) slot slots r :
  fs_ok fs -> bd_sector_count (fs_device fs) = BIOS_DEVICE_SECTORS -> paths_ok config ->
  mc_disk s1 = mc_disk s -> mc_persistent s1 = mc_persistent s ->
  (mc_persistent s = true -> clear_of_health fs) -> loader_effect s1 s2 ->
  kernel_image (now b (mc_disk s) fs) (kernel_path_for_slot config slot) = None ->
  loop_result fs config s2 s' slots r -> loop_result fs config s s' (slot :: slots) r.
Proof.
  intros Hok Hn Hp E1 E2 Hcl He Hk H. unfold loop_result in *. cbn [first_image]. rewrite Hk.
  rewrite (first_image_same fs config (mc_disk s) (mc_disk s2)) in H; try done.
  destruct (mc_persistent s) eqn:Ep.
  - right. split; [|by apply Hcl]. rewrite <- E1. by apply le_disk.
  - left. rewrite <- E1. by apply (le_volatile _ _ He).
Qed.

Lemma settled_fallback fs config (s s1 s2 : machine W) slot next health h' :
  fs_ok fs -> bd_sector_count (fs_device fs) = BIOS_DEVICE_SECTORS -> paths_ok config ->
  mc_disk s1 = mc_disk s -> mc_persistent s1 = mc_persistent s ->
  (mc_persistent s = true -> clear_of_health fs) -> loader_effect s1 s2 ->
  kernel_image (now b (mc_disk s) fs) (kernel_path_for_slot config slot) = None ->
  josh_boot_health_select_fallback (Some health) next JOSH_BOOT_FAILURE_KERNEL_FILE = (1, Some h') ->
  settled fs config s health (slot :: fallback_chain config next) = settled fs config s2 h' (fallback_chain config next).
Proof.
  intros Hok Hn Hp E1 E2 Hcl He Hk Hf. unfold settled.
  rewrite (settle_fallback (usable (now b (mc_disk s) fs) config) health slot next config h' 1); [|unfold usable; by rewrite Hk|done].
  f_equal. apply settle_ext. intros x. unfold usable. rewrite (slot_image_same fs config (mc_disk s) (mc_disk s2)); try done.
  destruct (mc_persistent s) eqn:Ep.
  - right. split; [|by apply Hcl]. rewrite <- E1. by apply le_disk.
  - left. rewrite <- E1. by apply (le_volatile _ _ He).
Qed.

(** What a loop of [n] candidates does, whatever slot it starts from. *)
Definition loop_runs fs config n : Prop := forall health slot s,
  fs_ok fs -> bd_sector_count (fs_device fs) = BIOS_DEVICE_SECTORS -> paths_ok config ->
  mem_ok (mc_mem s) -> josh_boot_health_valid (Some health) = true -> 0 <= slot <= 2 -> 2 - slot < Z.of_nat n ->
  (mc_persistent s = true -> clear_of_health fs) ->
  exists r s', candidate_loop b fs config n health slot s = Some (r, s') /\ loader_effect s s' /\
    loop_result fs config s s' (fallback_chain config slot) r /\ follows (2 - slot) health s s' /\
    settles (2 - slot) health (settled fs config s health (fallback_chain config slot)) s s'.

(** A fallback to [slot'] from the state [s1] in which the candidate of [slot] turned out unusable. *)
Lemma fallback_continues fs config n health slot slot' msg s s1 :
  loop_runs fs config n -> fs_ok fs -> bd_sector_count (fs_device fs) = BIOS_DEVICE_SECTORS -> paths_ok config ->
  mem_ok (mc_mem s) -> josh_boot_health_valid (Some health) = true -> 0 <= slot -> slot < slot' -> 2 - slot < Z.of_nat (S n) ->
  slot' = JOSH_BOOT_SLOT_PREVIOUS \/ slot' = JOSH_BOOT_SLOT_RECOVERY ->
  (mc_persistent s = true -> clear_of_health fs) -> loader_effect s s1 -> mc_disk s1 = mc_disk s -> mc_persistent s1 = mc_persistent s ->
  kernel_image (now b (mc_disk s) fs) (kernel_path_for_slot config slot) = None ->
  exists h' r s',
    josh_boot_health_select_fallback (Some health) slot' JOSH_BOOT_FAILURE_KERNEL_FILE = (1, Some h') /\
    (run health_persist b h' ; run serial_write msg ; candidate_loop b fs config n h' slot') s1 = Some (r, s') /\
    loader_effect s s' /\ loop_result fs config s s' (slot :: fallback_chain config slot') r /\
    follows (2 - slot) health s s' /\
    settles (2 - slot) health (settled fs config s health (slot :: fallback_chain config slot')) s s'.
Proof.
  intros IH Hok Hn Hp Hm Hv H0 Hlt Hfuel Hslot' Hcl He1 Ed Epp Ek.
  destruct (fallback_persist health slot' s1 Hv Hslot') as (h' & ok & s2 & Hf & Hpe & Hv' & He2 & Hfol & Hset).
  set (s3 := {| mc_disk := mc_disk s2; mc_mem := mc_mem s2; mc_serial := mc_serial s2 ++ [msg];
                mc_persistent := mc_persistent s2 |}).
  assert (He3 : loader_effect s1 s3) by (transitivity s2; [done|apply effect_serial]).
  unfold JOSH_BOOT_SLOT_PREVIOUS, JOSH_BOOT_SLOT_RECOVERY in Hslot'.
  destruct (IH h' slot' s3) as (r & s' & Hrun & He & Hres & Hfo & Hst); try done; try lia.
  - apply (le_mem_ok _ _ He3). by apply (le_mem_ok _ _ He1).
  - intros Hpp. destruct (mc_persistent s) eqn:Ep; [by apply Hcl|].
    destruct (le_volatile _ _ He3) as [_ Hf3]; [done|]. congruence.
  - exists h', r, s'. split; [done|]. split.
    { rewrite (bind_run _ _ _ _ _ Hpe). rewrite (bind_run _ _ _ tt s3) by done. exact Hrun. }
    split; [transitivity s1; [done|]; by transitivity s3|]. split; [by apply (loop_result_fallback fs config s s1 s3 s')|].
    split.
    + apply (follows_same_disk _ _ s s1 s' s'); try done.
      assert (Hf2 : follows (2 - slot' + 1) health s1 s') by (apply Hfol; [lia|by apply (follows_same_disk _ _ s2 s3 s' s')]).
      intros Ht Hro Hg rec0 Hc0 Hs0. destruct (Hf2 Ht Hro ltac:(lia) rec0 Hc0 Hs0) as (rec & Hcr & Hrec & Hle).
      exists rec. split_and!; try done. lia.
    + rewrite (settled_fallback fs config s s1 s3 slot slot' health h'); try done.
      apply (settles_same_disk _ _ _ s s1 s' s'); try done.
      intros Hww Hro Hg. apply (Hset (2 - slot') _ s'); try done; lia.
Qed.

Lemma candidate_loop_run fs config n : loop_runs fs config n.
Proof.
  induction n as [|n IH]; intros health slot s Hok Hn Hp Hm Hv Hs Hfuel Hcl; [lia|].
  cbn [candidate_loop]. destruct (write_slot_marker_run slot s) as [l Hl]. rewrite (bind_run _ _ _ _ _ Hl).
  set (s0 := {| mc_disk := mc_disk s |}).
  destruct (read_kernel_candidate_run fs (kernel_path_for_slot config slot) s0) as (r & m' & Hr & Hst & Himg);
    [done|by apply now_ok|by apply paths_ok_slot|].
  rewrite (bind_run _ _ _ _ _ Hr). set (s1 := with_mem s0 m'). cbn [mc_mem mc_disk s0] in *.
  assert (He1 : loader_effect s s1) by (transitivity s0; [apply effect_serial|by apply effect_staging]).
  destruct (kernel_image (now b (mc_disk s) fs) (kernel_path_for_slot config slot)) as [img|] eqn:Ek.
  { destruct Himg as [-> Himg]. eexists _, _. split; [reflexivity|]. split; [transitivity s1; [done|by split]|].
    split; [unfold loop_result, fallback_chain; cbn [first_image]; by rewrite Ek|]. split; [by apply follows_refl|].
    unfold settled, usable, fallback_chain. cbn [settle]. rewrite Ek. by apply settles_refl. }
  subst r. pose proof Hp as (_ & Hp1 & Hp2).
  destruct (get8_present _ Hp1) as (c1 & Hc1 & Hh1), (get8_present _ Hp2) as (c2 & Hc2 & Hh2).
  rewrite (bind_run _ _ s1 c1 s1), (bind_run _ _ s1 c2 s1) by (unfold lift; by rewrite ?Hc1, ?Hc2).
  rewrite <- Hh1, <- Hh2.
  assert (Hend : loop_result fs config s s1 [slot] None) by (unfold loop_result; cbn [first_image]; by rewrite Ek).
  assert (Hset : settles (2 - slot) health (settled fs config s health [slot]) s s1)
    by (unfold settled, usable; cbn [settle]; rewrite Ek; by apply settles_refl).
  assert (Hgo : forall slot' msg, slot' = JOSH_BOOT_SLOT_PREVIOUS \/ slot' = JOSH_BOOT_SLOT_RECOVERY -> slot < slot' -> _)
    by (intros slot' msg H1 H2; exact (fallback_continues fs config n health slot slot' msg s s1 IH Hok Hn Hp Hm Hv (proj1 Hs) H2 Hfuel H1 Hcl He1 eq_refl eq_refl Ek)).
  unfold fallback_chain, JOSH_BOOT_SLOT_CURRENT, JOSH_BOOT_SLOT_PREVIOUS, JOSH_BOOT_SLOT_RECOVERY in *.
  destruct ((slot =? 0) && present_path (bc_previous_kernel_path config)) eqn:E1.
  - apply andb_true_iff in E1 as [E1 _].
    destruct (Hgo 1 "JOSHBOOT_FALLBACK_PREVIOUS"%string) as (h' & r & s' & Hf & Hrun & He & Hres & Hfo & Hse); [by left|lia|].
    rewrite Hf. by exists r, s'.
  - destruct (Z.eqb_spec slot 2) as [Er|Er]; cbn [negb andb]; [by exists None, s1; split_and!; try done; apply follows_refl|].
    destruct (present_path (bc_recovery_kernel_path config)) eqn:E2; [|by exists None, s1; split_and!; try done; apply follows_refl].
    destruct (Hgo 2 "JOSHBOOT_FALLBACK_RECOVERY"%string) as (h' & r & s' & Hf & Hrun & He & Hres & Hfo & Hse); [by right|lia|].
    rewrite Hf. by exists r, s'.
Qed.

End Candidates.

(** ** The configuration *)

(** The configuration a volume stands for. *)
Definition config_of (fs : josh_fat32_t) : option josh_boot_config_t :=
  match josh_fat32_open_path (Some fs) (Some CONFIG_PATH) (Some tt) with
  | Ok file =>
      if (ff_size file =? 0) || (ff_size file >? JOSH_BOOT_CONFIG_MAX_BYTES)
         || negb (Z.land (ff_attributes file) FAT_ATTR_DIRECTORY =? 0)
      then None
      else
        let? text := file_image fs file in
        match josh_boot_config_parse (Some text) (ff_size file) (Some zero_config) with
        | Some (JOSH_CONFIG_OK, config) => config
        | _ => None
        end
  | _ => None
  end.

Section Config.
Context {W : Type} (b : bios W) `{!BiosDisk b}.

Definition with_serial (s : machine W) (l : list string) : machine W :=
  {| mc_disk := mc_disk s; mc_mem := mc_mem s; mc_serial := l; mc_persistent := mc_persistent s |}.

(** The parser looks at the text only. *)
Lemma parse_prefix buf text n :
  0 < n <= 1024 -> n <= zlen buf -> zlen text = n -> take (Z.to_nat n) buf = text ->
  exists st c, josh_boot_config_parse (Some buf) n (Some zero_config) = Some (st, Some c) /\
    josh_boot_config_parse (Some text) n (Some zero_config) = Some (st, Some c) /\ (st = JOSH_CONFIG_OK -> config_ok c).
Proof.
  intros Hn Hb Hzt Htext.
  destruct (parse_config_ref buf n zero_config) as (st & c & Href & Hp); [unfold JOSH_BOOT_CONFIG_MAX_BYTES; lia|lia|].
  destruct (parse_config_ref text n zero_config) as (st2 & c2 & Href2 & Hp2); [unfold JOSH_BOOT_CONFIG_MAX_BYTES; lia|lia|].
  rewrite (take_ge text) in Href2 by (unfold zlen in Hzt; lia). rewrite Htext, Href2 in Href.
  injection Href as <- <-. exists st2, c2. split_and!; try done. intros ->. by eapply parsed_config_ok.
Qed.

Lemma read_config_run fs (s : machine W) :
  fs_ok (now b (mc_disk s) fs) ->
  exists l, read_config b fs s = Some (config_of (now b (mc_disk s) fs), with_serial s l) /\
    forall c, config_of (now b (mc_disk s) fs) = Some c -> config_ok c.
Proof.
  intros Hok. unfold read_config, config_of.
  rewrite (bind_run _ _ s s s) by done. set (fs' := now b (mc_disk s) fs) in *.
  assert (H0 : 0 ∈ CONFIG_PATH) by (unfold CONFIG_PATH; set_solver).
  destruct (open_path_run fs' CONFIG_PATH Hok H0) as [Hns _].
  destruct (josh_fat32_open_path (Some fs') (Some CONFIG_PATH) (Some tt)) as [file|e|] eqn:Eo; [| |done].
  2: { rewrite (bind_run _ _ s None s) by done. eexists. split; [reflexivity|done]. }
  rewrite (bind_run _ _ s (Some file) s) by done.
  pose proof (open_path_size fs' CONFIG_PATH file Hok H0 Eo) as Hu.
  destruct ((ff_size file =? 0) || (ff_size file >? JOSH_BOOT_CONFIG_MAX_BYTES)) eqn:Esz; cbn [orb].
  { eexists. split; [reflexivity|done]. }
  apply orb_false_iff in Esz as [Es0 Es1]. unfold JOSH_BOOT_CONFIG_MAX_BYTES in *.
  assert (Hsz : 0 < ff_size file <= 1024) by (unfold in_u32 in Hu; lia).
  set (buf := replicate (Z.to_nat 1024) 0).
  assert (Hbuf : zlen buf = 1024) by reflexivity. clearbody buf.
  destruct (Z.land (ff_attributes file) FAT_ATTR_DIRECTORY =? 0) eqn:Ea; cbn [negb].
  - assert (Hs2 : 0 < ff_size file <= 512 * FAT32_MIN_CLUSTERS) by (unfold FAT32_MIN_CLUSTERS; lia).
    destruct (read_whole_file fs' file buf Hok Hu Hs2 ltac:(lia) ltac:(lia)) as (st & buf' & r & Hr & Hz & Hb & Him).
    rewrite (bind_run _ _ s (st, Some buf', Some r) s) by (unfold lift; by rewrite Hr). cbv beta iota.
    rewrite (bind_run _ _ s buf' s), (bind_run _ _ s r s) by done.
    destruct (file_image fs' file) as [text|] eqn:Ei.
    2: { rewrite (bool_decide_eq_false_2 (st = JOSH_FAT32_OK)) by done. eexists. split; [reflexivity|done]. }
    destruct Him as (-> & -> & Htext). rewrite (bool_decide_eq_true_2 (JOSH_FAT32_OK = JOSH_FAT32_OK)), Z.eqb_refl by done. cbn [negb orb].
    assert (Hzt : zlen text = ff_size file) by (apply (zlen_file_image fs'); [lia|done]).
    destruct (parse_prefix buf' text (ff_size file) ltac:(lia) ltac:(lia) Hzt Htext) as (st & c & Hpb & Hpt & Hcok). rewrite Hpt.
    rewrite (bind_run _ _ s (st, Some c) s) by (unfold lift; by rewrite Hpb). cbv beta iota.
    destruct st; try (eexists; split; [reflexivity|done]).
    rewrite (bind_run _ _ s c s) by done. eexists. split; [reflexivity|]. intros c' [= <-].
    by apply Hcok.
  - unfold josh_fat32_read_file. rewrite Ea. cbn [negb].
    rewrite (bind_run _ _ s (JOSH_FAT32_NOT_DIRECTORY, Some buf, Some 0) s) by done. cbv beta iota.
    rewrite (bind_run _ _ s buf s), (bind_run _ _ s 0 s) by done.
    eexists. split; [reflexivity|done].
Qed.

End Config.

(** ** Counting the attempt *)
Section Boot.
Context {W : Type} (b : bios W) `{!BiosDisk b}.

Lemma stored_ok w lba r : stored b w lba = Some r -> record_ok r.
Proof.
  unfold stored. destruct (bios_block_read b w lba 1) as [ok data] eqn:Er. destruct ok; [|done].
  assert (H1 : 0 < 1) by lia. destruct (bios_read_bytes _ _ _ _ _ H1 Er) as (Hb & _ & _).
  destruct (record_of_bytes data) as [r'|] eqn:E; [|done]. destruct (josh_boot_health_valid _); [|done].
  intros [= <-]. by destruct (record_of_bytes_encode data r' Hb E).
Qed.

Lemma current_valid w r : current b w = Some r -> josh_boot_health_valid (Some r) = true /\ record_ok r.
Proof.
  intros H.
  assert (Hs : exists lba, stored b w lba = Some r).
  { unfold current in H. destruct (stored b w JOSH_BOOT_HEALTH_LBA_A) as [ra|] eqn:Ea,
      (stored b w JOSH_BOOT_HEALTH_LBA_B) as [rb|] eqn:Eb; try done.
    - destruct (_ >=? _); injection H as <-; by eexists.
    - injection H as <-. by eexists.
    - injection H as <-. by eexists. }
  destruct Hs as [lba Hs]. split; [by eapply hr_valid_stored|by eapply stored_ok].
Qed.

(** The record the attempt starts from. *)
Definition start_record (safe : bool) (w : W) : josh_boot_health_record_t :=
  if safe then default default_record (current b w) else default_record.

Lemma start_record_valid safe w :
  josh_boot_health_valid (Some (start_record safe w)) = true /\ record_ok (start_record safe w).
Proof.
  unfold start_record. destruct safe; [|split; [apply default_record_valid|apply default_record_ok]].
  destruct (current b w) as [r|] eqn:E; cbn; [by apply (current_valid w)|].
  split; [apply default_record_valid|apply default_record_ok].
Qed.

(** The record is loaded. *)
Lemma load_start_record safe (s : machine W) :
  let r := start_record safe (mc_disk s) in
  exists s1,
    (if negb safe then
       do health <- lift (josh_boot_health_default (Some zero_record)) ;
       run set_persistent false ;
       run serial_write "JOSHBOOT_HEALTH_VOLATILE_LAYOUT" ;
       ret (1, health)
     else health_load b zero_record) s = Some ((1, r), s1) /\
    mc_disk s1 = mc_disk s /\ health_scratch (mc_mem s) (mc_mem s1) /\
    (safe = false -> mc_persistent s1 = false) /\
    (mc_persistent s1 = true -> current b (mc_disk s) = Some r) /\
    (safe = true -> mc_persistent s1 = provisioned b (mc_disk s)).
Proof.
  intros r. unfold r, start_record. destruct safe; cbn [negb].
  - destruct (health_load_run b zero_record s) as (rl & m' & Hl & Hsc & ->).
    eexists. split; [exact Hl|]. cbn. split_and!; try done. unfold provisioned.
    by destruct (current b (mc_disk s)).
  - eexists. split; [reflexivity|]. cbn [mc_disk mc_mem mc_persistent].
    do 3 (split; [reflexivity|]). split; discriminate.
Qed.

(** The counted attempt is written when it changed the record. *)
Lemma write_attempt r slot h (s1 : machine W) :
  josh_boot_health_valid (Some r) = true -> record_ok r ->
  josh_boot_health_prepare_attempt (Some r) JOSH_BOOT_HEALTH_MAX_ATTEMPTS = (slot, Some h) ->
  exists s2,
    (if negb (hr_generation h =? hr_generation r) then run health_persist b h ; ret tt else ret tt) s1 = Some (tt, s2) /\
    health_scratch (mc_mem s1) (mc_mem s2) /\ same_outside b (mc_disk s1) (mc_disk s2) /\
    (mc_persistent s1 = false -> mc_disk s2 = mc_disk s1 /\ mc_persistent s2 = false) /\
    (torn_write_detected b -> hr_generation r + 1 < 2 ^ 64 -> forall rec0, consistent b (mc_disk s1) rec0 ->
      (mc_persistent s1 = true -> rec0 = r) ->
      exists rec, consistent b (mc_disk s2) rec /\ (rec = rec0 \/ rec = h) /\ (mc_persistent s2 = true -> rec = h)) /\
    (writes_work b -> hr_generation r + 1 < 2 ^ 64 -> mc_persistent s1 = true -> consistent b (mc_disk s1) r ->
      consistent b (mc_disk s2) h /\ mc_persistent s2 = true).
Proof.
  intros Hv Hr Hprep. destruct (prepare_attempt_valid r Hv Hr) as (slot' & h' & Hprep' & Hvh & Hrh & _ & Hsame & Hnext).
  rewrite Hprep in Hprep'. injection Hprep' as <- <-.
  destruct (Z.eqb_spec (hr_generation h) (hr_generation r)) as [E|E]; cbn [negb].
  - exists s1. split; [done|]. split; [done|]. split; [done|]. split; [done|].
    split; [|intros _ Hg Hp Hc; by rewrite (Hsame E)].
    intros _ Hg rec0 Hc Hs. exists rec0. split; [done|]. split; [by left|]. intros Hp. rewrite (Hs Hp).
    by rewrite (Hsame E).
  - destruct (health_persist_run b h s1) as (ok & s2 & Hp & Hsc & Hso & _ & Hps & Hvol & Hcs).
    exists s2. split; [by rewrite (bind_run _ _ _ _ _ Hp)|]. do 2 (split; [done|]). split.
    { intros Hf. destruct (Hvol Hf) as [-> Hd]. done. }
    assert (Hg1 : hr_generation r + 1 < 2 ^ 64 -> hr_generation h = hr_generation r + 1).
    { intros Hg. destruct Hr as (_ & _ & _ & Hgr & _). rewrite (Hnext E). apply u64_id. unfold in_u64 in *. lia. }
    split.
    2: { intros Hww Hg Hpp Hc. rewrite Hps.
         destruct (health_persist_works b r h s1 ok s2 Hp Hww Hpp Hrh Hvh Hc (Hg1 Hg)) as [-> Hc2]. done. }
    intros Ht Hg rec0 Hc Hs. specialize (Hg1 Hg). destruct (mc_persistent s1) eqn:Ep.
    + rewrite (Hs eq_refl) in *.
      destruct (Hcs eq_refl Ht Hrh Hvh r Hc Hg1) as [[-> H]|[-> [H|H]]]; [exists h|exists r|exists h];
        rewrite ?Hps; split_and!; auto; done.
    + destruct (Hvol eq_refl) as [-> Hd]. exists rec0. rewrite Hd, Hps. split_and!; auto; done.
Qed.

Lemma begin_attempt_run safe (s : machine W) :
  let r := start_record safe (mc_disk s) in
  exists slot h s',
    josh_boot_health_prepare_attempt (Some r) JOSH_BOOT_HEALTH_MAX_ATTEMPTS = (slot, Some h) /\
    begin_attempt b safe s = Some (Some (h, slot), s') /\
    health_scratch (mc_mem s) (mc_mem s') /\ same_outside b (mc_disk s) (mc_disk s') /\
    (safe = false -> mc_disk s' = mc_disk s /\ mc_persistent s' = false) /\
    (torn_write_detected b -> hr_generation r + 1 < 2 ^ 64 -> forall rec0, consistent b (mc_disk s) rec0 ->
      exists rec, consistent b (mc_disk s') rec /\ (rec = rec0 \/ rec = h) /\ (mc_persistent s' = true -> rec = h)) /\
    (writes_work b -> safe = true -> hr_generation r + 1 < 2 ^ 64 -> forall rec0, consistent b (mc_disk s) rec0 ->
      consistent b (mc_disk s') h /\ mc_persistent s' = true).
Proof.
  intros r. destruct (start_record_valid safe (mc_disk s)) as [Hv Hr]. fold r in Hv, Hr.
  destruct (prepare_attempt_valid r Hv Hr) as (slot & h & Hprep & _).
  destruct (load_start_record safe s) as (s1 & Hl & Hd1 & Hsc1 & Hvol1 & Hcur1 & Hpro1). fold r in Hl, Hcur1.
  exists slot, h. unfold begin_attempt. rewrite (bind_run _ _ _ _ _ Hl). cbn [Z.eqb]. rewrite Hprep.
  rewrite (bind_run _ _ s1 h s1) by done.
  destruct (write_attempt r slot h s1 Hv Hr Hprep) as (s2 & Hw & Hsc2 & Hso2 & Hvol2 & Hc2 & Hx2).
  rewrite (bind_run _ _ _ _ _ Hw).
  set (msg := if negb (hr_pending_good r =? 0) && negb (hr_selected_slot r =? slot) then _ else _).
  assert (Hm : exists l, msg s2 = Some (tt, with_serial s2 l)).
  { unfold msg. destruct (negb (hr_pending_good r =? 0) && _); [destruct (slot =? JOSH_BOOT_SLOT_PREVIOUS); eexists; reflexivity|]. exists (mc_serial s2). by destruct s2. }
  destruct Hm as [l Hm]. rewrite (bind_run _ _ _ _ _ Hm). eexists. split; [done|]. split; [reflexivity|].
  cbn [with_serial mc_mem mc_disk mc_persistent]. rewrite <- Hd1. split_and!.
  - by etransitivity.
  - done.
  - intros Hs. by apply Hvol2, Hvol1.
  - intros Ht Hg rec0 Hc. apply Hc2; try done. intros Hp. destruct Hc as [Hcur _].
    rewrite Hd1 in Hcur. specialize (Hcur1 Hp). congruence.
  - intros Hww Hsafe Hg rec0 Hc. rewrite Hd1 in *.
    assert (Hp : mc_persistent s1 = true) by (rewrite (Hpro1 Hsafe); unfold provisioned; by rewrite (proj1 Hc)).
    apply Hx2; try done. assert (rec0 = r) as <-; [|done]. specialize (Hcur1 Hp). destruct Hc as [Hcur _]. congruence.
Qed.

(** ** The plan: what the disk says should be booted

    A pure function of the disk as it is when the loader starts; nothing is written. *)
Definition boot_volume (w : W) : option (bool * josh_fat32_t) :=
  match josh_partition_find_boot (Some (bios_device b w)) (Some blank_partition) with
  | Ok partition =>
      let? safe := josh_partition_range_is_unallocated (Some (bios_device b w)) JOSH_BOOT_HEALTH_LBA_A 2 in
      match josh_fat32_mount (Some (bios_device b w)) (Some partition) (Some tt) with
      | Ok fs => Some (safe, fs)
      | _ => None
      end
  | _ => None
  end.

Definition boot_slot (safe : bool) (w : W) : Z :=
  fst (josh_boot_health_prepare_attempt (Some (start_record safe w)) JOSH_BOOT_HEALTH_MAX_ATTEMPTS).

Definition boot_plan (w : W) : option (josh_boot_config_t * list Z) :=
  let? (safe, fs) := boot_volume w in
  let? config := config_of fs in
  let? img := first_image fs config (fallback_chain config (boot_slot safe w)) in
  Some (config, img).

Lemma now_self w fs : fs_device fs = bios_device b w -> now b w fs = fs.
Proof. intros H. unfold now, on_device. rewrite <- H. by destruct fs. Qed.

(** A volume that is found is well formed, and clear of the records when they may be written. *)
Lemma boot_volume_ok w safe fs :
  boot_volume w = Some (safe, fs) ->
  fs_ok fs /\ fs_device fs = bios_device b w /\ (safe = true -> clear_of_health fs).
Proof.
  unfold boot_volume. intros H.
  destruct (josh_partition_find_boot (Some (bios_device b w)) (Some blank_partition)) as [p| |] eqn:Ep; [|done..].
  destruct (josh_partition_range_is_unallocated _ _ _) as [sf|] eqn:Es; [|done].
  destruct (josh_fat32_mount _ _ _) as [v| |] eqn:Em; [|done..]. injection H as <- <-.
  destruct (find_boot_range _ _ _ (bios_device_ok b w) Ep) as (Hf & Hc & Hr).
  cbn [bd_sector_count bios_device] in Hr. unfold BIOS_DEVICE_SECTORS in Hr.
  assert (Hf64 : in_u64 (pt_first_lba p)) by (unfold in_u64; lia).
  assert (Hc64 : in_u64 (pt_sector_count p)) by (unfold in_u64; lia).
  destruct (mount_ok_fs_ok _ _ _ (bios_device_ok b w) Hf64 Hc64 Em) as (Hok & Hd & Hl & Hn).
  split; [done|]. split; [done|]. intros ->. intros lba Hlba.
  assert (Ha64 : in_u64 JOSH_BOOT_HEALTH_LBA_A) by (unfold in_u64, JOSH_BOOT_HEALTH_LBA_A; lia).
  assert (H264 : in_u64 2) by (unfold in_u64; lia).
  destruct (unallocated_disjoint _ _ _ _ _ (bios_device_ok b w) Ha64 H264 Es Ep) as (_ & _ & _ & _ & Hdis).
  unfold disjoint_ranges, JOSH_BOOT_HEALTH_LBA_A, JOSH_BOOT_HEALTH_LBA_B in *.
  split; intros ->; [apply (Hdis 1984)|apply (Hdis 1985)]; lia.
Qed.

(** Writes to the record sectors change nothing about a volume that is clear of them. *)
Lemma config_of_same fs d :
  fs_ok fs -> fs_ok (on_device fs d) -> same_volume fs d -> config_of (on_device fs d) = config_of fs.
Proof.
  intros Hok Hok' Hsame. unfold config_of.
  destruct (confined_to_partition fs d (Some CONFIG_PATH) {| ff_first_cluster := 0; ff_size := 0; ff_attributes := 0 |}
    0 [] 0 0 Hok ltac:(done) Hsame) as [-> _].
  destruct (josh_fat32_open_path (Some fs) (Some CONFIG_PATH) (Some tt)) as [file| |] eqn:Eo; [|done..].
  assert (H0 : 0 ∈ CONFIG_PATH) by (apply elem_of_app; right; set_solver).
  pose proof (open_path_size fs CONFIG_PATH file Hok H0 Eo) as Hu. unfold in_u32 in Hu.
  destruct (_ || _) eqn:E; [done|]. repeat apply orb_false_iff in E as [E ?].
  rewrite file_image_same; try done; unfold JOSH_BOOT_CONFIG_MAX_BYTES, FAT32_MIN_CLUSTERS in *; lia.
Qed.

Lemma boot_volume_same w w' fs :
  boot_volume w = Some (true, fs) -> same_outside b w w' ->
  boot_volume w' = Some (true, now b w' fs) /\ fs_ok (now b w' fs) /\ same_volume fs (bios_device b w').
Proof.
  intros Hbv Hso. destruct (boot_volume_ok _ _ _ Hbv) as (Hok & Hdev & Hcl). specialize (Hcl eq_refl).
  assert (Hn : bd_sector_count (fs_device fs) = BIOS_DEVICE_SECTORS) by by rewrite Hdev.
  assert (Hsame : same_volume fs (bios_device b w')).
  { intros lba Hl. rewrite Hdev. destruct (Hcl lba Hl) as [Ha Hb]. apply read_sector_same; try done.
    destruct (ok_partition fs Hok) as [? _]. lia. }
  split; [|split; [by apply now_ok|done]]. unfold boot_volume in *.
  destruct (josh_partition_find_boot (Some (bios_device b w)) (Some blank_partition)) as [p| |] eqn:Ep; [|done..].
  destruct (josh_partition_range_is_unallocated _ _ _) as [sf|] eqn:Es; [|done].
  destruct (josh_fat32_mount _ _ _) as [v| |] eqn:Em; [|done..]. injection Hbv as -> <-.
  destruct (find_boot_range _ _ _ (bios_device_ok b w) Ep) as (Hf & Hc & Hr). cbn [bd_sector_count bios_device] in Hr.
  assert (H0 : read_sector (bios_device b w') 0 = read_sector (bios_device b w) 0)
    by (apply read_sector_same; unfold JOSH_BOOT_HEALTH_LBA_A, JOSH_BOOT_HEALTH_LBA_B; done || lia).
  rewrite (find_boot_same (bios_device b w) (bios_device b w') _ JOSH_BOOT_HEALTH_LBA_A 2); try done; try apply (bios_device_ok b w); try by eexists.
  rewrite Ep, (unallocated_same (bios_device b w) (bios_device b w')), Es; try done; try by eexists.
  rewrite (mount_same (bios_device b w) (bios_device b w') p v); [done|done| |done].
  unfold BIOS_DEVICE_SECTORS in Hr.
  destruct (mount_ok_fs_ok (bios_device b w) p v (bios_device_ok b w) ltac:(unfold in_u64; lia) ltac:(unfold in_u64; lia) Em) as (_ & Hd & Hl & _).
  rewrite <- Hl. rewrite Hsame, Hd; [done|]. destruct (ok_clusters v Hok) as [Hmin Hfit].
  pose proof (fs_bounds v Hok) as (? & _). pose proof (spc_range v Hok). unfold FAT32_MIN_CLUSTERS in Hmin. nia.
Qed.

(** What loading did to the machine. *)
Definition load_effect (s s' : machine W) : Prop :=
  same_outside b (mc_disk s) (mc_disk s') /\
  (forall safe fs, boot_volume (mc_disk s) = Some (safe, fs) -> safe = false -> mc_disk s' = mc_disk s) /\
  (boot_volume (mc_disk s) = None -> mc_disk s' = mc_disk s) /\
  mem_ok (mc_mem s') /\
  forall x, (x < KERNEL_IMAGE_ADDR \/ KERNEL_IMAGE_ADDR + KERNEL_IMAGE_BYTES <= x) ->
    (x < HEALTH_BUFFER_ADDR \/ HEALTH_BUFFER_ADDR + 512 <= x) -> mc_mem s' x = mc_mem s x.

(** The records the disk may stand for after loading, from [rec0] at the start. *)
Definition record_after (rec0 rec : josh_boot_health_record_t) : Prop :=
  rec = rec0 \/
  exists h, snd (josh_boot_health_prepare_attempt (Some rec0) JOSH_BOOT_HEALTH_MAX_ATTEMPTS) = Some h /\
    rtc fallback_step h rec.

Definition loaded_plan (s' : machine W) (r : option (Z * josh_boot_config_t))
    (plan : option (josh_boot_config_t * list Z)) : Prop :=
  match plan with
  | Some (config, img) => r = Some (zlen img, config) /\ staged (mc_mem s') (zlen img) = img /\ config_ok config
  | None => r = None
  end.

Definition keeps_record (s s' : machine W) : Prop :=
  torn_write_detected b -> forall rec0, consistent b (mc_disk s) rec0 -> hr_generation rec0 + 3 < 2 ^ 64 ->
  exists rec, consistent b (mc_disk s') rec /\ record_after rec0 rec /\ hr_generation rec <= hr_generation rec0 + 3.

(** On a disk in working order, one boot is one step of the record. *)
Definition steps_record (s s' : machine W) : Prop :=
  writes_work b -> forall fs config rec0, boot_volume (mc_disk s) = Some (true, fs) -> config_of fs = Some config ->
  consistent b (mc_disk s) rec0 -> hr_generation rec0 + 3 < 2 ^ 64 ->
  consistent b (mc_disk s') (snd (boot_step (usable fs config) config rec0)).

Lemma same_disk_effect (s s' : machine W) :
  mem_ok (mc_mem s) -> mc_disk s' = mc_disk s -> mc_mem s' = mc_mem s ->
  (forall safe fs, boot_volume (mc_disk s) = Some (safe, fs) -> config_of fs = None) ->
  load_effect s s' /\ keeps_record s s' /\ steps_record s s'.
Proof.
  intros Hm Hd Hmm Hno. unfold load_effect, keeps_record, steps_record, same_outside. rewrite Hd, Hmm.
  split; [by split_and!|]. split; [intros _ rec0 Hc _; exists rec0; split; [done|split; [by left|lia]]|].
  intros _ fs config rec0 Hbv Hcfg. rewrite (Hno _ _ Hbv) in Hcfg. done.
Qed.

(** From the mounted volume on. *)
Lemma load_from_volume (s : machine W) safe fs config :
  mem_ok (mc_mem s) -> boot_volume (mc_disk s) = Some (safe, fs) -> config_of fs = Some config -> config_ok config ->
  exists slot h s1 r s',
    begin_attempt b safe s = Some (Some (h, slot), s1) /\
    candidate_loop b fs config 3 h slot s1 = Some (r, s') /\
    load_effect s s' /\ keeps_record s s' /\ steps_record s s' /\
    match first_image fs config (fallback_chain config (boot_slot safe (mc_disk s))) with
    | Some img => r = Some (zlen img) /\ staged (mc_mem s') (zlen img) = img
    | None => r = None
    end.
Proof.
  intros Hm Hbv Hc Hcok. destruct (boot_volume_ok _ _ _ Hbv) as (Hok & Hdev & Hclear).
  destruct (begin_attempt_run safe s) as (slot & h & s1 & Hprep & Hba & Hsc & Hso & Hvol & Hcon & Hexact).
  destruct (start_record_valid safe (mc_disk s)) as [Hv Hr].
  destruct (prepare_attempt_valid _ Hv Hr) as (slot' & h' & Hprep' & Hvh & Hrh & Hslot & Hsame & Hnext).
  rewrite Hprep in Hprep'. injection Hprep' as <- <-.
  assert (Hns : bd_sector_count (fs_device fs) = BIOS_DEVICE_SECTORS) by by rewrite Hdev.
  assert (Hcl : mc_persistent s1 = true -> clear_of_health fs).
  { intros Hp. apply Hclear. destruct safe; [done|]. destruct (Hvol eq_refl) as [_ Hf]. congruence. }
  destruct (candidate_loop_run b fs config 3 h slot s1 Hok Hns (config_ok_paths _ Hcok) (proj1 Hsc Hm) Hvh Hslot
    ltac:(lia) Hcl) as (r & s' & Hrun & He & Hres & Hfol & Hset).
  exists slot, h, s1, r, s'. split; [done|]. split; [done|]. destruct He as [Hd2 Hv2 Hmk2 Hm2].
  assert (Hgh3 : hr_generation (start_record safe (mc_disk s)) + 3 < 2 ^ 64 -> hr_generation h + (2 - slot) < 2 ^ 64).
  { intros Hg. destruct (Z.eq_dec (hr_generation h) (hr_generation (start_record safe (mc_disk s)))); [lia|].
    rewrite (Hnext ltac:(done)). destruct Hr as (_ & _ & _ & Hgr & _). rewrite u64_id by (unfold in_u64 in *; lia). lia. }
  assert (Hsame1 : mc_disk s1 = mc_disk s \/ (same_outside b (mc_disk s) (mc_disk s1) /\ clear_of_health fs)).
  { destruct safe; [right; split; [done|by apply Hclear]|left]. by apply Hvol. }
  unfold load_effect. split_and!.
  - intros l n Hn Ho. by rewrite Hd2, Hso.
  - intros sf fs' Hbv' Hsf. rewrite Hbv in Hbv'. injection Hbv' as <- <-. destruct (Hvol Hsf) as [E1 Hp1].
    rewrite <- E1. by apply Hv2.
  - by rewrite Hbv.
  - apply Hmk2. by apply Hsc.
  - intros x Hx1 Hx2. rewrite Hm2 by done. by apply Hsc.
  - intros Ht rec0 Hc0 Hg. destruct safe.
    + assert (Est : start_record true (mc_disk s) = rec0) by (unfold start_record; by rewrite (proj1 Hc0)).
      rewrite Est in *. pose proof (Hgh3 Hg) as Hgh. destruct (Hcon Ht ltac:(lia) rec0 Hc0) as (rec1 & Hc1 & Hor & Hs1).
      destruct (Hfol Ht Hrh Hgh rec1 Hc1 Hs1) as (rec & Hcr & Hrec & Hle). exists rec. split; [done|].
      assert (Hh1 : hr_generation h <= hr_generation rec0 + 1).
      { destruct (Z.eq_dec (hr_generation h) (hr_generation rec0)) as [|Hne]; [lia|]. rewrite (Hnext Hne).
        destruct Hr as (_ & _ & _ & Hgr & _). rewrite u64_id by (unfold in_u64 in *; lia). lia. }
      split; [|destruct Hor; subst; lia].
      destruct Hrec as [->|Hrec]; [destruct Hor as [->| ->]; [by left|]|];
        right; exists h; (split; [by rewrite Hprep|done]).
    + destruct (Hvol eq_refl) as [E1 Hp1]. destruct (Hv2 Hp1) as [E2 _]. exists rec0. rewrite E2, E1.
      split; [done|]. split; [by left|lia].
  - intros Hww fs' config' rec0 Hbv' Hc' Hc0 Hg. rewrite Hbv in Hbv'. injection Hbv' as -> <-. rewrite Hc in Hc'. injection Hc' as <-.
    assert (Est : start_record true (mc_disk s) = rec0) by (unfold start_record; by rewrite (proj1 Hc0)).
    rewrite Est in *. destruct (Hexact Hww eq_refl ltac:(lia) rec0 Hc0) as [Hc1 Hp1].
    specialize (Hset Hww Hrh (Hgh3 Hg) Hp1 Hc1). unfold boot_step. rewrite Hprep. cbn [default from_option id].
    unfold settled in Hset. erewrite settle_ext in Hset; [exact Hset|]. intros x. unfold usable.
    rewrite (slot_image_same b fs config (mc_disk s) (mc_disk s1)); try done; [by rewrite (now_self _ _ Hdev)|by apply config_ok_paths].
  - unfold loop_result in Hres. unfold boot_slot. rewrite Hprep. cbn [fst].
    rewrite (first_image_same b fs config (mc_disk s) (mc_disk s1)) in Hres; try done.
    + by rewrite (now_self _ _ Hdev) in Hres.
    + by apply config_ok_paths.
Qed.

Lemma load_kernel_file_run (s : machine W) :
  mem_ok (mc_mem s) ->
  exists r s', load_kernel_file b s = Some (r, s') /\ loaded_plan s' r (boot_plan (mc_disk s)) /\
    load_effect s s' /\ keeps_record s s' /\ steps_record s s'.
Proof.
  intros Hm. unfold load_kernel_file, boot_plan. rewrite (bind_run _ _ s s s) by done.
  pose proof (find_boot_total (bios_device b (mc_disk s)) (Some blank_partition) (bios_device_ok b _)) as Hns.
  destruct (josh_partition_find_boot (Some (bios_device b (mc_disk s))) (Some blank_partition)) as [p|e|] eqn:Ep; [| |done].
  2: { rewrite (bind_run _ _ s None s) by done. eexists None, _. split; [reflexivity|].
       unfold boot_volume. rewrite Ep. split; [done|]. apply same_disk_effect; try done. unfold boot_volume. by rewrite Ep. }
  rewrite (bind_run _ _ s (Some p) s) by done.
  destruct (unallocated_total (bios_device b (mc_disk s)) JOSH_BOOT_HEALTH_LBA_A 2) as [safe Es].
  set (s1 := with_serial s (mc_serial s ++ ["JOSHBOOT_PARTITION_OK"%string])).
  rewrite (bind_run _ _ s tt s1) by done. rewrite (bind_run _ _ s1 safe s1) by (unfold lift; by rewrite Es).
  assert (Hl : exists l, (if negb safe then serial_write "JOSHBOOT_HEALTH_LAYOUT_UNSAFE_VOLATILE" else ret tt) s1
    = Some (tt, with_serial s l)) by (destruct safe; eexists; reflexivity).
  destruct Hl as [l Hl]. rewrite (bind_run _ _ _ _ _ Hl).
  pose proof (mount_never_stuck (bios_device b (mc_disk s)) p (bios_device_ok b _)) as Hms.
  destruct (josh_fat32_mount (Some (bios_device b (mc_disk s))) (Some p) (Some tt)) as [fs|e|] eqn:Em; [| |done].
  2: { rewrite (bind_run _ _ _ None (with_serial s l)) by done. eexists None, _. split; [reflexivity|].
       unfold boot_volume. rewrite Ep, Es, Em. split; [done|]. apply same_disk_effect; try done. unfold boot_volume. by rewrite Ep, Es, Em. }
  rewrite (bind_run _ _ _ (Some fs) (with_serial s l)) by done.
  assert (Hbv : boot_volume (mc_disk s) = Some (safe, fs)) by (unfold boot_volume; by rewrite Ep, Es, Em).
  rewrite Hbv. destruct (boot_volume_ok _ _ _ Hbv) as (Hok & Hdev & _).
  set (s2 := with_serial s (l ++ ["JOSHBOOT_FAT32_OK"%string])).
  rewrite (bind_run _ _ _ tt s2) by done.
  destruct (read_config_run b fs s2) as (l3 & Hcfg & Hcok). { change (mc_disk s2) with (mc_disk s). by rewrite (now_self _ _ Hdev). }
  cbn [mc_disk s2 with_serial] in Hcfg, Hcok. rewrite (now_self _ _ Hdev) in Hcfg, Hcok.
  rewrite (bind_run _ _ _ _ _ Hcfg). destruct (config_of fs) as [config|] eqn:Ec.
  2: { eexists None, _. split; [reflexivity|]. split; [done|]. apply same_disk_effect; try done. rewrite Hbv. naive_solver. }
  set (s3 := with_serial _ l3).
  destruct (load_from_volume s3 safe fs config Hm Hbv Ec (Hcok _ eq_refl))
    as (slot & h & s4 & r & s5 & Hba & Hcl & He & Hk & Hsr & Hres).
  rewrite (bind_run _ _ _ _ _ Hba), (bind_run _ _ _ _ _ Hcl). change (mc_disk s3) with (mc_disk s) in Hres.
  destruct (first_image fs config (fallback_chain config (boot_slot safe (mc_disk s)))) as [img|] eqn:Ei.
  - destruct Hres as [-> Hst]. eexists _, s5. split; [reflexivity|]. split; [|done]. cbn. by specialize (Hcok _ eq_refl).
  - subst r. eexists None, _. split; [reflexivity|]. split; [done|]. split; [exact He|split; [exact Hk|exact Hsr]].
Qed.

End Boot.

(** ** An example disk

    An MBR disk with initialised health records and a FAT32 volume at sector 2048: the current
    kernel of its configuration is garbage, the previous one is the example image. *)
Definition dirent (name : string) (attributes cluster size : Z) : list Z :=
  chars name ++ [attributes] ++ replicate 8 0 ++ le_bytes 2 0 ++ replicate 4 0 ++
  le_bytes 2 cluster ++ le_bytes 4 size.

Definition EOC : list Z := le_bytes 4 0x0FFFFFFF.

Definition boot_disk_sectors : list (Z * list Z) :=
  [(0, put 510 [0x55; 0xAA] (put 446 ([0x80; 0; 0; 0; 0x0C; 0; 0; 0] ++ le_bytes 4 2048 ++ le_bytes 4 70000) zero_sector));
   (1984, record_bytes default_record); (1985, record_bytes default_record);
   (2048, example_boot_sector);
   (2080, put 8 (EOC ++ EOC ++ EOC ++ EOC ++ EOC ++ le_bytes 4 8 ++ EOC) zero_sector);
   (2592, dirent "BOOT       " 0x10 3 0);
   (2593, dirent "JOSH       " 0x10 4 0 ++ dirent "KERNEL  ELF" 0x20 6 300 ++ dirent "OLD     ELF" 0x20 7 1024);
   (2594, dirent "BOOT    CFG" 0x20 5 (zlen example_text));
   (2595, example_text); (2596, replicate 300 9);
   (2597, take 512 example_image); (2598, drop 512 example_image)].

Definition boot_disk (writes : nat) : failing_disk := (writes, sparse boot_disk_sectors).

Definition boot_machine (writes : nat) : machine failing_disk :=
  {| mc_disk := boot_disk writes; mc_mem := fun _ => 0; mc_serial := []; mc_persistent := false |}.

Lemma boot_machine_ok k : mem_ok (mc_mem (boot_machine k)).
Proof. intros a. unfold in_u8. cbn. lia. Qed.

Lemma boot_disk_plan : boot_plan failing_bios (boot_disk 0) = Some (example_config, example_image).
Proof. vm_compute. reflexivity. Qed.

Lemma boot_disk_consistent k : consistent failing_bios (boot_disk k) default_record.
Proof. split; vm_compute; reflexivity. Qed.

(** C2: The loader implements the boot plan. On every disk that honours the BIOS contract,
    [load_kernel_file] returns without undefined behaviour; with the plan computed purely from the
    disk at the start (boot partition, configuration, health record and its attempt limit, then the
    first of the current, previous and recovery kernels that is a readable valid image), it returns
    that configuration and the staging area holds exactly that image, or it fails when the plan has
    none: the health writes in between never change what is booted. *)
Theorem load_kernel_file_implements_plan {W : Type} (b : bios W) `{!BiosDisk b} (s : machine W) :
  mem_ok (mc_mem s) ->
  exists r s', load_kernel_file b s = Some (r, s') /\
    match boot_plan b (mc_disk s) with
    | Some (config, img) => r = Some (zlen img, config) /\ staged (mc_mem s') (zlen img) = img /\ config_ok config
    | None => r = None
    end.
Proof.
  intros Hm. destruct (load_kernel_file_run b s Hm) as (r & s' & H & Hp & _ & _). by exists r, s'.
Qed.

Lemma load_kernel_file_implements_plan_witness :
  exists s', load_kernel_file failing_bios (boot_machine 0) = Some (Some (1024, example_config), s') /\
    staged (mc_mem s') 1024 = example_image.
Proof.
  destruct (load_kernel_file_implements_plan failing_bios (boot_machine 0) (boot_machine_ok 0)) as (r & s' & H & Hp).
  change (mc_disk (boot_machine 0)) with (boot_disk 0) in Hp. rewrite boot_disk_plan in Hp.
  destruct Hp as (Hr & Hs & _). change (zlen example_image) with 1024 in *.
  exists s'. split; [rewrite H, Hr; reflexivity|exact Hs].
Defined.

(** C14: Isolation of the loader. Whatever the disk holds, loading a kernel writes memory only in the
    4 MiB staging area, the 512-byte health buffer and the 32 KiB bounce buffer, changes no sector but the two health sectors,
    leaves every sector of the mounted volume and of the partition table as it was, and leaves the
    whole disk alone when the health sectors are not outside every partition. *)
Theorem load_kernel_file_isolated {W : Type} (b : bios W) `{!BiosDisk b} (s : machine W) :
  mem_ok (mc_mem s) ->
  exists r s', load_kernel_file b s = Some (r, s') /\
    (forall x, (x < 0x1000000 \/ 0x1400000 <= x) -> (x < 0x5d000 \/ 0x5d200 <= x) ->
       (x < 0x60000 \/ 0x68000 <= x) -> mc_mem s' x = mc_mem s x) /\
    (forall lba n, 0 < n -> 1985 < lba \/ lba + n <= 1984 ->
       bios_block_read b (mc_disk s') lba n = bios_block_read b (mc_disk s) lba n) /\
    (forall safe fs, boot_volume b (mc_disk s) = Some (safe, fs) ->
       (safe = false -> mc_disk s' = mc_disk s) /\
       forall lba, lba = 0 \/ fs_partition_lba fs <= lba < fs_partition_lba fs + fs_partition_sectors fs ->
         bios_block_read b (mc_disk s') lba 1 = bios_block_read b (mc_disk s) lba 1).
Proof.
  intros Hm. destruct (load_kernel_file_run b s Hm) as (r & s' & H & _ & (Hso & Hun & _ & _ & Hmem) & _).
  exists r, s'. split; [done|]. split; [intros x H1 H2 _; by apply Hmem|]. split; [exact Hso|].
  intros safe fs Hbv. specialize (Hun safe fs Hbv). split; [done|]. intros lba Hl.
  destruct safe; [|by rewrite Hun]. destruct (boot_volume_ok b _ _ _ Hbv) as (_ & _ & Hcl).
  apply Hso; [lia|]. destruct Hl as [->|Hl]; [unfold JOSH_BOOT_HEALTH_LBA_A; lia|].
  destruct (Hcl eq_refl lba Hl) as [Ha Hb].
  unfold JOSH_BOOT_HEALTH_LBA_A, JOSH_BOOT_HEALTH_LBA_B in *. lia.
Qed.

Lemma load_kernel_file_isolated_witness :
  exists r s', load_kernel_file failing_bios (boot_machine 2) = Some (r, s') /\
    bios_block_read failing_bios (mc_disk s') 2592 1 = bios_block_read failing_bios (boot_disk 2) 2592 1.
Proof.
  destruct (load_kernel_file_isolated failing_bios (boot_machine 2) (boot_machine_ok 2)) as (r & s' & H & _ & Hd & _).
  exists r, s'. split; [exact H|]. apply (Hd 2592 1); [lia|left; lia].
Defined.

(** The health protocol survives a boot. When the disk stands for record [rec0] at the start,
    then whatever happens to the writes during the boot the disk stands at the end for [rec0] itself
    or for the record after counting the attempt, or one that follows from it by fallbacks: a later
    boot never starts from a record this boot did not produce. *)
Theorem load_kernel_file_keeps_record {W : Type} (b : bios W) `{!BiosDisk b} (s : machine W)
    (rec0 : josh_boot_health_record_t) :
  mem_ok (mc_mem s) -> torn_write_detected b -> consistent b (mc_disk s) rec0 ->
  hr_generation rec0 + 3 < 2 ^ 64 ->
  exists r s' rec, load_kernel_file b s = Some (r, s') /\ consistent b (mc_disk s') rec /\
    (rec = rec0 \/
     exists h, snd (josh_boot_health_prepare_attempt (Some rec0) JOSH_BOOT_HEALTH_MAX_ATTEMPTS) = Some h /\
       rtc fallback_step h rec).
Proof.
  intros Hm Ht Hc Hg. destruct (load_kernel_file_run b s Hm) as (r & s' & H & _ & _ & Hk & _).
  destruct (Hk Ht rec0 Hc Hg) as (rec & Hcr & Ha & _). by exists r, s', rec.
Qed.

Lemma load_kernel_file_keeps_record_witness :
  exists r s' rec, load_kernel_file failing_bios (boot_machine 0) = Some (r, s') /\
    consistent failing_bios (mc_disk s') rec.
Proof.
  destruct (load_kernel_file_keeps_record failing_bios (boot_machine 0) default_record) as (r & s' & rec & H & Hc & _).
  - exact (boot_machine_ok 0).
  - exact failing_torn.
  - exact (boot_disk_consistent 0).
  - vm_compute. reflexivity.
  - exists r, s', rec. auto.
Defined.
