(* ===== verification/Bounce.v ===== *)
(** * Reads through the bounce buffer (boot/stage2_pm.c)

    The BIOS can only read into low memory.  [bios_block_read_bounced] reads up
    to 64 sectors at a time into the buffer at 0x60000 and copies them to their
    destination.  Here the function works on memory, with the bytes left behind in
    the buffer, also by a call that fails, and what it delivers is compared with
    the contents of the disk, sector by sector.  Stage2Boot uses the same function
    as a read that hands its bytes on; the two are related. *)
From S2P Require Import Prelude Block Memory Stage2Health Stage2Boot.

Definition BIOS_BOUNCE_ADDR : Z := 0x00060000.

Section Bounce.
Context {W : Type} (b : bios W).

(** The status and the memory; the loop runs at most once per sector. *)
Fixpoint bounce_loop (w : W) (fuel : nat) (lba remaining destination : Z) (m : mem) {struct fuel} : option (Z * mem) :=
  match fuel with
  | O => None
  | S fuel' =>
      if remaining =? 0 then Some (0, m)
      else
        let chunk := if remaining >? BIOS_BOUNCE_SECTORS then BIOS_BOUNCE_SECTORS else remaining in
        let '(ok, data) := bios_block_read b w lba chunk in
        let m := mem_put m BIOS_BOUNCE_ADDR data in
        if negb ok then Some (-1, m)
        else
          let bytes := u32 (chunk * JOSH_BLOCK_SECTOR_SIZE) in
          let m := memcopy m destination BIOS_BOUNCE_ADDR (Z.to_nat bytes) in
          bounce_loop w fuel' (u64 (lba + chunk)) (u32 (remaining - chunk)) (u32 (destination + bytes)) m
  end.

(** [buffer] is an address, zero for the null pointer. *)
Definition bios_block_read_into (w : W) (lba sector_count buffer : Z) (m : mem) : option (Z * mem) :=
  if (buffer =? 0) || (sector_count =? 0) then Some (-1, m)
  else bounce_loop w (S (Z.to_nat sector_count)) lba sector_count buffer m.

(** ** What the disk holds

    A call that succeeds returns the sectors it was asked for, in order. *)
Definition disk_holds (w : W) (content : Z -> list Z) : Prop :=
  forall lba n data, 0 < n <= BIOS_BOUNCE_SECTORS -> bios_block_read b w lba n = (true, data) ->
    data = concat (map content (seqZ lba n)).

(** The call for the [k]-th run of 64 sectors, or for what is left, succeeds. *)
Definition run_readable (w : W) (lba n k : Z) : Prop :=
  fst (bios_block_read b w (lba + 64 * k) (Z.min 64 (n - 64 * k))) = true.

(** All sectors are at the destination, or those before the first run that cannot be read. *)
Definition delivered (w : W) (content : Z -> list Z) (lba n a rc : Z) (m : mem) : Prop :=
  (rc = 0 /\ (forall k, 0 <= k -> 64 * k < n -> run_readable w lba n k) /\
   mem_slice m a (512 * n) = concat (map content (seqZ lba n))) \/
  (rc = -1 /\ exists k, 0 <= k /\ 64 * k < n /\ ~ run_readable w lba n k /\
     (forall j, 0 <= j < k -> run_readable w lba n j) /\
     mem_slice m a (512 * (64 * k)) = concat (map content (seqZ lba (64 * k)))).

Context `{!BiosDisk b}.

(** What was copied before does not matter to the rest. *)
Lemma bounced_loop_acc w fuel : forall lba n dest,
  bounced_loop b w fuel lba n dest = option_map (app dest) (bounced_loop b w fuel lba n []).
Proof.
  induction fuel as [|fuel IH]; intros lba n dest; [done|]. cbn [bounced_loop].
  destruct (n =? 0); [cbn; by rewrite app_nil_r|]. destruct (bios_block_read _ _ _ _) as [[] data]; cbn [negb]; [|done].
  rewrite (IH _ _ (dest ++ _)), (IH _ _ ([] ++ _)). destruct (bounced_loop _ _ _ _ _ []); [|done].
  cbn. by rewrite app_assoc.
Qed.

Lemma mem_slice_split m a n k : 0 <= n -> 0 <= k -> mem_slice m a (n + k) = mem_slice m a n ++ mem_slice m (a + n) k.
Proof. intros Hn Hk. unfold mem_slice. rewrite seqZ_app by done. apply map_app. Qed.

(** Where a read may leave something: its destination and the buffer. *)
Definition read_area (destination n x : Z) : Prop :=
  destination <= x < destination + 512 * n \/ BIOS_BOUNCE_ADDR <= x < BIOS_BOUNCE_ADDR + 512 * BIOS_BOUNCE_SECTORS.

(** A chunk arrives: the bytes put in the buffer are at the destination after the copy. *)
Lemma chunk_copied m a chunk data :
  mem_ok m -> Forall in_u8 data -> 0 < chunk <= 64 -> zlen data = 512 * chunk ->
  a + 512 * chunk <= BIOS_BOUNCE_ADDR \/ BIOS_BOUNCE_ADDR + 512 * chunk <= a ->
  mem_slice (memcopy (mem_put m BIOS_BOUNCE_ADDR data) a BIOS_BOUNCE_ADDR (Z.to_nat (chunk * 512))) a (512 * chunk) = data.
Proof.
  intros Hm Hd Hc Hlen Hdis. rewrite <- (mem_slice_put m BIOS_BOUNCE_ADDR data (512 * chunk)) at 2 by lia.
  assert (Hm1 : mem_ok (mem_put m BIOS_BOUNCE_ADDR data)) by by apply mem_put_ok.
  unfold mem_slice. apply list_eq. intros i. rewrite !list_lookup_fmap. destruct (decide (i < Z.to_nat (512 * chunk))%nat) as [Hi|Hi].
  - rewrite !lookup_seqZ_lt by lia. cbn. f_equal. rewrite memcopy_spec by (done || (unfold BIOS_BOUNCE_ADDR in *; lia)).
    unfold inside. rewrite (proj2 (Z.leb_le _ _)), (proj2 (Z.ltb_lt _ _)) by lia. cbn [andb]. f_equal. lia.
  - by rewrite !lookup_seqZ_ge by lia.
Qed.

Lemma contents_split (content : Z -> list Z) lba n k : 0 <= n -> 0 <= k ->
  concat (map content (seqZ lba (n + k))) = concat (map content (seqZ lba n)) ++ concat (map content (seqZ (lba + n) k)).
Proof. intros Hn Hk. by rewrite seqZ_app, map_app, concat_app. Qed.

(** A first run, and what the rest of the loop delivers behind it. *)
Lemma delivered_step w content lba n a rc m data :
  disk_holds w content -> 0 < n ->
  bios_block_read b w lba (Z.min 64 n) = (true, data) ->
  (forall t, 0 <= t -> mem_slice m a (512 * (Z.min 64 n + t)) = data ++ mem_slice m (a + 512 * Z.min 64 n) (512 * t)) ->
  delivered w content (lba + Z.min 64 n) (n - Z.min 64 n) (a + 512 * Z.min 64 n) rc m ->
  delivered w content lba n a rc m.
Proof.
  intros Hh Hn Hr Hm Hd.
  assert (Hdata : data = concat (map content (seqZ lba (Z.min 64 n)))) by (apply Hh; [unfold BIOS_BOUNCE_SECTORS; lia|done]).
  assert (Hfirst : run_readable w lba n 0).
  { unfold run_readable. replace (lba + 64 * 0) with lba by lia. replace (n - 64 * 0) with n by lia. by rewrite Hr. }
  assert (Hrest : forall k, 0 < k -> 64 * k < n ->
    run_readable w lba n k <-> run_readable w (lba + Z.min 64 n) (n - Z.min 64 n) (k - 1)).
  { intros k Hk Hkn. unfold run_readable. replace (lba + Z.min 64 n + 64 * (k - 1)) with (lba + 64 * k) by lia.
    by replace (n - Z.min 64 n - 64 * (k - 1)) with (n - 64 * k) by lia. }
  destruct Hd as [(-> & Hall & Hs)|(-> & k & Hk & Hkn & Hno & Hbefore & Hs)]; [left|right]; (split; [done|]).
  - split.
    + intros k Hk Hkn. destruct (Z.eq_dec k 0) as [->|]; [done|]. apply Hrest; [lia..|]. apply Hall; lia.
    + replace n with (Z.min 64 n + (n - Z.min 64 n)) at 1 2 by lia. rewrite Hm, contents_split by lia. by rewrite Hs, Hdata.
  - exists (k + 1). split; [lia|]. split; [lia|]. split.
    { intros H. apply Hno. apply Hrest in H; [|lia..]. by replace (k + 1 - 1) with k in H by lia. }
    split.
    { intros j Hj. destruct (Z.eq_dec j 0) as [->|]; [done|]. apply Hrest; [lia..|]. apply Hbefore. lia. }
    replace (64 * (k + 1)) with (Z.min 64 n + 64 * k) by lia. rewrite Hm, contents_split by lia. by rewrite Hs, Hdata.
Qed.

Lemma bounce_loop_run w content fuel : disk_holds w content -> forall lba n a m,
  mem_ok m -> 0 <= lba -> lba + n <= 2 ^ 64 -> 0 <= n -> (Z.to_nat n < fuel)%nat -> 0 <= a -> a + 512 * n < 2 ^ 32 ->
  a + 512 * n <= BIOS_BOUNCE_ADDR \/ BIOS_BOUNCE_ADDR + 512 * BIOS_BOUNCE_SECTORS <= a ->
  exists rc m', bounce_loop w fuel lba n a m = Some (rc, m') /\ mem_ok m' /\ (forall x, ~ read_area a n x -> m' x = m x) /\
    delivered w content lba n a rc m' /\
    match bounced_loop b w fuel lba n [] with
    | Some data => rc = 0 /\ mem_slice m' a (512 * n) = data
    | None => rc = -1
    end.
Proof.
  intros Hh. induction fuel as [|fuel IH]; intros lba n a m Hm Hlba Hl64 Hn Hf Ha Ha32 Hdis; [lia|]. cbn [bounce_loop bounced_loop].
  destruct (Z.eqb_spec n 0) as [->|Hn0]; [exists 0, m; split_and!; try done; left; split_and!; [done|lia|done]|].
  set (chunk := if n >? BIOS_BOUNCE_SECTORS then BIOS_BOUNCE_SECTORS else n).
  assert (Hmin : chunk = Z.min 64 n) by (unfold chunk, BIOS_BOUNCE_SECTORS; destruct (n >? 64) eqn:E; lia). clearbody chunk.
  assert (Hc : 0 < chunk <= n /\ chunk <= 64) by lia.
  destruct (bios_block_read b w lba chunk) as [ok data] eqn:Er.
  assert (Hc0 : 0 < chunk) by lia. destruct (bios_read_bytes _ _ _ _ _ Hc0 Er) as (Hd & Hle & Hfull).
  set (m1 := mem_put m BIOS_BOUNCE_ADDR data). assert (Hm1 : mem_ok m1) by by apply mem_put_ok.
  assert (Hout1 : forall x, ~ read_area a n x -> m1 x = m x).
  { intros x Hx. apply mem_put_outside. unfold read_area, BIOS_BOUNCE_SECTORS in Hx. lia. }
  destruct ok; cbn [negb].
  2: { exists (-1), m1. split_and!; try done. right. split; [done|]. exists 0. split_and!; try lia; [|done].
       unfold run_readable. replace (lba + 64 * 0) with lba by lia. replace (n - 64 * 0) with n by lia. by rewrite <- Hmin, Er. }
  specialize (Hfull eq_refl).
  unfold JOSH_BLOCK_SECTOR_SIZE, BIOS_BOUNCE_SECTORS in *. rewrite (u32_id (chunk * 512)), (u32_id (n - chunk)), (u32_id (a + chunk * 512)) by word.
  set (m2 := memcopy m1 a BIOS_BOUNCE_ADDR (Z.to_nat (chunk * 512))).
  assert (Hm2 : mem_ok m2) by by apply memcopy_ok.
  assert (Hcopied : mem_slice m2 a (512 * chunk) = data) by (apply chunk_copied; try done; unfold BIOS_BOUNCE_ADDR in *; lia).
  assert (Hlast : chunk = n \/ u64 (lba + chunk) = lba + chunk).
  { destruct (Z.eq_dec chunk n); [by left|right]. apply u64_id. unfold in_u64. lia. }
  assert (Hgo : exists rc m', bounce_loop w fuel (u64 (lba + chunk)) (n - chunk) (a + chunk * 512) m2 = Some (rc, m') /\ mem_ok m' /\
    (forall x, ~ read_area (a + chunk * 512) (n - chunk) x -> m' x = m2 x) /\
    delivered w content (lba + chunk) (n - chunk) (a + chunk * 512) rc m' /\
    match bounced_loop b w fuel (u64 (lba + chunk)) (n - chunk) [] with
    | Some data => rc = 0 /\ mem_slice m' (a + chunk * 512) (512 * (n - chunk)) = data
    | None => rc = -1
    end).
  { destruct Hlast as [Hcn|Hu]; [|rewrite Hu; apply IH; try done; lia].
    rewrite Hcn, Z.sub_diag. destruct fuel; [lia|]. cbn. exists 0, m2. split_and!; try done. left. split_and!; [done|lia|done]. }
  destruct Hgo as (rc & m' & -> & Hm' & Hout & Hdel & Hres).
  assert (Hpre : forall t, 0 <= t -> mem_slice m' a (512 * (chunk + t)) = data ++ mem_slice m' (a + 512 * chunk) (512 * t)).
  { intros t Ht. replace (512 * (chunk + t)) with (512 * chunk + 512 * t) by lia. rewrite mem_slice_split by lia. f_equal.
    rewrite <- Hcopied. apply mem_slice_ext. intros x Hx. apply Hout. unfold read_area, BIOS_BOUNCE_SECTORS, BIOS_BOUNCE_ADDR in *. lia. }
  exists rc, m'. split; [done|]. split; [done|]. split.
  { intros x Hx. rewrite Hout; [unfold m2; rewrite memcopy_outside; [by apply Hout1|]|]; unfold read_area, BIOS_BOUNCE_SECTORS in *; lia. }
  split.
  { replace (a + chunk * 512) with (a + 512 * chunk) in Hdel by lia. rewrite Hmin in Er, Hpre, Hdel. apply (delivered_step w content lba n a rc m' data); try done; lia. }
  rewrite bounced_loop_acc. destruct (bounced_loop b w fuel (u64 (lba + chunk)) (n - chunk) []) as [tail|]; cbn [option_map]; [|done].
  destruct Hres as [-> Htail]. split; [done|]. replace n with (chunk + (n - chunk)) by lia. rewrite Hpre by lia.
  replace (a + 512 * chunk) with (a + chunk * 512) by lia. rewrite Htail. cbn [app]. f_equal.
  symmetry. apply take_ge. unfold zlen in Hfull. lia.
Qed.
End Bounce.

(** C37: Bounced reads deliver what the disk holds. The BIOS returns the sectors it is asked for in
    order when a call succeeds; a call may fail. For a destination of the size of the read that does
    not meet the buffer at 0x60000 and ends below 4 GiB, and sector numbers within 64 bits, the read of one
    or more sectors returns. It returns 0 exactly when
    every run of 64 sectors (the last one shorter) can be read, and then the destination holds the
    sectors [lba], ..., [lba + n - 1] of the disk one after the other. It returns -1 when a run
    cannot be read, and then the destination holds the sectors before the first such run. In either
    case no memory but the destination and the 32 KiB of the buffer changes, and the read that hands
    its bytes on, which the loader is stated with, gives the same bytes. *)
Theorem bounced_read_delivers {W : Type} (b : bios W) `{!BiosDisk b} (w : W) (content : Z -> list Z) (lba n buffer : Z) (m : mem) :
  disk_holds b w content -> mem_ok m -> 0 <= lba -> lba + n <= 2 ^ 64 ->
  0 < n -> 0 < buffer -> buffer + 512 * n < 2 ^ 32 ->
  buffer + 512 * n <= BIOS_BOUNCE_ADDR \/ BIOS_BOUNCE_ADDR + 512 * BIOS_BOUNCE_SECTORS <= buffer ->
  exists rc m', bios_block_read_into b w lba n buffer m = Some (rc, m') /\ mem_ok m' /\
    (forall x, ~ read_area buffer n x -> m' x = m x) /\
    delivered b w content lba n buffer rc m' /\
    bios_block_read_bounced b w lba n = if rc =? 0 then Some (mem_slice m' buffer (512 * n)) else None.
Proof.
  intros Hh Hm Hl Hl64 Hn Hb H32 Hdis. unfold bios_block_read_into, bios_block_read_bounced.
  rewrite (proj2 (Z.eqb_neq buffer 0)), (proj2 (Z.eqb_neq n 0)) by lia. cbn [orb].
  destruct (bounce_loop_run b w content (S (Z.to_nat n)) Hh lba n buffer m) as (rc & m' & H & Hm' & Hout & Hdel & Hres); try done; try lia.
  exists rc, m'. split_and!; try done. destruct (bounced_loop b w _ lba n []) as [data|]; [by destruct Hres as [-> <-]|by subst rc].
Qed.

Lemma failing_holds w : disk_holds failing_bios w (fun l => sector_of (snd w l)).
Proof. intros lba n data _ [= <-]. reflexivity. Qed.

(** A hundred sectors: two runs. *)
Lemma bounced_read_delivers_witness :
  exists m', bios_block_read_into failing_bios (boot_disk 0) 2048 100 0x100000 (fun _ => 0) = Some (0, m') /\
    mem_slice m' 0x100000 51200 = concat (map (fun l => sector_of (snd (boot_disk 0) l)) (seqZ 2048 100)).
Proof.
  destruct (bounced_read_delivers failing_bios (boot_disk 0) (fun l => sector_of (snd (boot_disk 0) l)) 2048 100 0x100000 (fun _ => 0))
    as (rc & m' & H & _ & _ & Hdel & _).
  - apply failing_holds.
  - intros a. unfold in_u8. lia.
  - lia.
  - vm_compute. discriminate.
  - lia.
  - lia.
  - vm_compute. reflexivity.
  - right. vm_compute. discriminate.
  - destruct Hdel as [(Hrc & _ & Hs)|(_ & k & _ & _ & Hno & _)].
    + exists m'. split; [rewrite H, Hrc; reflexivity|exact Hs].
    + exfalso. apply Hno. reflexivity.
Defined.
