(* ===== verification/Protocol.v ===== *)
(** * The boot protocol structures (boot/protocol.h)

    The packed structures the loaders hand to the kernel, with their layout in
    memory.  The header's static assertions on the sizes are lemmas. *)
From S2P Require Import Prelude.

Definition JOSH_BOOT_INFO_MAGIC : Z := 0x30494248534f4a4a.
Definition JOSH_BOOT_ABI_MAJOR : Z := 0.
Definition JOSH_BOOT_ABI_MINOR : Z := 1.

Definition JOSH_BOOT_FLAG_MEMORY_MAP : Z := Z.shiftl 1 0.
Definition JOSH_BOOT_FLAG_FRAMEBUFFER : Z := Z.shiftl 1 1.
Definition JOSH_BOOT_FLAG_RSDP : Z := Z.shiftl 1 2.
Definition JOSH_BOOT_FLAG_SMBIOS : Z := Z.shiftl 1 3.
Definition JOSH_BOOT_FLAG_CMDLINE : Z := Z.shiftl 1 4.
Definition JOSH_BOOT_FLAG_LOADER_NAME : Z := Z.shiftl 1 5.

Definition JOSH_FIRMWARE_LEGACY_BIOS : Z := 1.
Definition JOSH_FIRMWARE_UEFI : Z := 2.

Definition JOSH_MEMORY_USABLE : Z := 1.
Definition JOSH_MEMORY_RESERVED : Z := 2.
Definition JOSH_MEMORY_ACPI_RECLAIMABLE : Z := 3.
Definition JOSH_MEMORY_ACPI_NVS : Z := 4.
Definition JOSH_MEMORY_BAD : Z := 5.

Definition JOSH_BOOT_MAX_MEMORY_ENTRIES : Z := 128.

Record JoshMemoryMapEntry := {
  mm_base : Z;
  mm_length : Z;
  mm_type : Z;
  mm_flags : Z
}.
Definition sizeof_JoshMemoryMapEntry : Z := 24.

Definition memory_map_entry_bytes (e : JoshMemoryMapEntry) : list Z :=
  le_bytes 8 (mm_base e) ++ le_bytes 8 (mm_length e) ++ le_bytes 4 (mm_type e) ++ le_bytes 4 (mm_flags e).

Record JoshFramebufferInfo := {
  fb_address : Z;
  fb_width : Z;
  fb_height : Z;
  fb_pitch : Z;
  fb_bpp : Z;
  fb_red_mask_size : Z;
  fb_red_mask_shift : Z;
  fb_green_mask_size : Z;
  fb_green_mask_shift : Z;
  fb_blue_mask_size : Z;
  fb_blue_mask_shift : Z
}.

Definition framebuffer_bytes (f : JoshFramebufferInfo) : list Z :=
  le_bytes 8 (fb_address f) ++ le_bytes 4 (fb_width f) ++ le_bytes 4 (fb_height f) ++
  le_bytes 4 (fb_pitch f) ++ le_bytes 4 (fb_bpp f) ++
  le_bytes 4 (fb_red_mask_size f) ++ le_bytes 4 (fb_red_mask_shift f) ++
  le_bytes 4 (fb_green_mask_size f) ++ le_bytes 4 (fb_green_mask_shift f) ++
  le_bytes 4 (fb_blue_mask_size f) ++ le_bytes 4 (fb_blue_mask_shift f).

(** The reserved words stay zero. *)
Record JoshBootInfo := {
  bi_magic : Z;
  bi_abi_major : Z;
  bi_abi_minor : Z;
  bi_total_size : Z;
  bi_flags : Z;
  bi_firmware_type : Z;
  bi_boot_drive : Z;
  bi_memory_map_address : Z;
  bi_memory_map_entries : Z;
  bi_memory_map_entry_size : Z;
  bi_framebuffer : JoshFramebufferInfo;
  bi_kernel_phys_start : Z;
  bi_kernel_phys_end : Z;
  bi_kernel_virt_start : Z;
  bi_kernel_virt_end : Z;
  bi_rsdp_phys : Z;
  bi_smbios_phys : Z;
  bi_command_line_address : Z;
  bi_command_line_length : Z;
  bi_reserved0 : Z;
  bi_bootloader_name_address : Z;
  bi_bootloader_name_length : Z;
  bi_reserved1 : Z;
  bi_kernel_entry : Z;
  bi_reserved : list Z
}.
Definition sizeof_JoshBootInfo : Z := 224.

Definition boot_info_bytes (i : JoshBootInfo) : list Z :=
  le_bytes 8 (bi_magic i) ++ le_bytes 4 (bi_abi_major i) ++ le_bytes 4 (bi_abi_minor i) ++
  le_bytes 4 (bi_total_size i) ++ le_bytes 4 (bi_flags i) ++ le_bytes 4 (bi_firmware_type i) ++
  le_bytes 4 (bi_boot_drive i) ++ le_bytes 8 (bi_memory_map_address i) ++
  le_bytes 4 (bi_memory_map_entries i) ++ le_bytes 4 (bi_memory_map_entry_size i) ++
  framebuffer_bytes (bi_framebuffer i) ++
  le_bytes 8 (bi_kernel_phys_start i) ++ le_bytes 8 (bi_kernel_phys_end i) ++
  le_bytes 8 (bi_kernel_virt_start i) ++ le_bytes 8 (bi_kernel_virt_end i) ++
  le_bytes 8 (bi_rsdp_phys i) ++ le_bytes 8 (bi_smbios_phys i) ++
  le_bytes 8 (bi_command_line_address i) ++ le_bytes 4 (bi_command_line_length i) ++
  le_bytes 4 (bi_reserved0 i) ++ le_bytes 8 (bi_bootloader_name_address i) ++
  le_bytes 4 (bi_bootloader_name_length i) ++ le_bytes 4 (bi_reserved1 i) ++
  le_bytes 8 (bi_kernel_entry i) ++ concat (map (le_bytes 8) (bi_reserved i)).

Lemma length_memory_map_entry e : zlen (memory_map_entry_bytes e) = sizeof_JoshMemoryMapEntry.
Proof. unfold memory_map_entry_bytes, zlen. by rewrite !length_app, !length_le_bytes. Qed.

Lemma length_framebuffer f : length (framebuffer_bytes f) = 48%nat.
Proof. unfold framebuffer_bytes. by rewrite !length_app, !length_le_bytes. Qed.

Lemma length_boot_info i : length (bi_reserved i) = 5%nat -> zlen (boot_info_bytes i) = sizeof_JoshBootInfo.
Proof.
  intros H. unfold boot_info_bytes, zlen. rewrite !length_app, !length_le_bytes, length_framebuffer, length_concat.
  rewrite map_map. destruct (bi_reserved i) as [|a [|c [|d [|e [|f [|]]]]]]; try done.
Qed.

Lemma bytes_boot_info i : bytes (boot_info_bytes i).
Proof.
  unfold boot_info_bytes, framebuffer_bytes. repeat apply Forall_app_2; try apply bytes_le_bytes.
  apply Forall_concat, Forall_map, Forall_forall. intros x _. apply bytes_le_bytes.
Qed.
