(* ===== verification/Stage2.v ===== *)
(** * The second stage from entry to handoff (boot/stage2_pm.c)

    [stage2_pm_main] checks the processor and the memory map, obtains an image
    (already staged, or through [load_kernel_file]), loads it, fills the boot
    information and builds the page tables.  The processor's answers and the
    variables the assembly part sets are parameters.  Halting for ever and the
    jump to long mode are outcomes. *)
From S2P Require Import Prelude Prog Cpu Fat32 Config Slots Elf64 Memory Paging KernelLoad Stage2Health Stage2Boot Protocol.

Definition BOOTINFO_ADDR : Z := 0x00058000.
Definition MEMORY_MAP_ADDR : Z := 0x00059000.
Definition VBE_INFO_ADDR : Z := 0x0005a000.
Definition LOADER_NAME_ADDR : Z := 0x0005b000.
Definition CMDLINE_ADDR : Z := 0x0005c000.

(** ** The memory map *)
Definition memory_map_entry (m : mem) (i : Z) : JoshMemoryMapEntry :=
  let p := MEMORY_MAP_ADDR + i * sizeof_JoshMemoryMapEntry in
  {| mm_base := load64 m p; mm_length := load64 m (p + 8);
     mm_type := load32 m (p + 16); mm_flags := load32 m (p + 20) |}.

(** The entries from [i] on, [n] of them. *)
Fixpoint staging_loop (m : mem) (n : nat) (i : Z) {struct n} : bool :=
  match n with
  | O => false
  | S n' =>
      let e := memory_map_entry m i in
      let start := KERNEL_IMAGE_ADDR in
      let end_ := start + KERNEL_IMAGE_BYTES in
      if negb (mm_type e =? JOSH_MEMORY_USABLE) then staging_loop m n' (i + 1)
      else
        let entry_start := mm_base e in
        let entry_end := u64 (entry_start + mm_length e) in
        if entry_end <? entry_start then staging_loop m n' (i + 1)
        else if (start >=? entry_start) && (end_ <=? entry_end) then true
        else staging_loop m n' (i + 1)
  end.

Definition staging_range_is_usable (m : mem) (e820_count : Z) : bool :=
  staging_loop m (Z.to_nat e820_count) 0.

(** ** Firmware tables *)

(** [for (; address + room <= end; address += 16) if (found) return address]; [Some None] is the
    end of the loop.  The two regions have at most 8192 paragraphs. *)
Fixpoint scan_loop (found : Z -> bool) (room end_ : Z) (fuel : nat) (address : Z) {struct fuel}
    : option (option Z) :=
  match fuel with
  | O => None
  | S fuel' =>
      if u32 (address + room) <=? end_ then
        if found address then Some (Some address)
        else scan_loop found room end_ fuel' (u32 (address + 16))
      else Some None
  end.
Definition scan_fuel : nat := Z.to_nat 8200.

Definition rsdp_candidate (m : mem) (end_ address : Z) : bool :=
  if negb (bytes_equal m address (chars "RSD PTR ")) then false
  else if negb (checksum m address 20 =? 0) then false
  else
    let revision := m (address + 15) in
    if revision >=? 2 then
      let length := load32 m (address + 20) in
      negb ((length <? 36) || (u32 (address + length) >? end_) || negb (checksum m address length =? 0))
    else true.

Definition align16 (a : Z) : Z := Z.land (u32 (a + 15)) (u32 (Z.lnot 15)).

Definition find_rsdp (m : mem) : option Z :=
  let ebda := u32 (Z.shiftl (load16 m 0x40e) 4) in
  let region start end_ := scan_loop (rsdp_candidate m end_) 20 end_ scan_fuel (align16 start) in
  let? first := region ebda (u32 (ebda + 1024)) in
  match first with
  | Some address => Some address
  | None =>
      let? second := region 0xe0000 0x100000 in
      match second with
      | Some address => Some address
      | None => Some 0
      end
  end.

Definition smbios_candidate (m : mem) (address : Z) : bool :=
  let length3 := m (address + 6) in
  let length2 := m (address + 5) in
  if bytes_equal m address (chars "_SM3_") && (length3 >=? 0x18) && (checksum m address length3 =? 0) then true
  else bytes_equal m address (chars "_SM_") && (length2 >=? 0x1f) && (checksum m address length2 =? 0).

Definition find_smbios (m : mem) : option Z :=
  let? found := scan_loop (smbios_candidate m) 0x20 0x100000 scan_fuel 0xf0000 in
  match found with
  | Some address => Some address
  | None => Some 0
  end.

(** ** The boot information *)
Fixpoint text_length (text : list Z) : option Z :=
  match text with
  | [] => None
  | c :: rest => if c =? 0 then Some 0 else let? n := text_length rest in Some (n + 1)
  end.

(** The video mode information the assembly part left in memory. *)
Definition framebuffer_of (m : mem) : JoshFramebufferInfo :=
  let vbe := VBE_INFO_ADDR in
  {| fb_address := load32 m (vbe + 0x28); fb_width := load16 m (vbe + 0x12);
     fb_height := load16 m (vbe + 0x14); fb_pitch := load16 m (vbe + 0x10); fb_bpp := m (vbe + 0x19);
     fb_red_mask_size := m (vbe + 0x1f); fb_red_mask_shift := m (vbe + 0x20);
     fb_green_mask_size := m (vbe + 0x21); fb_green_mask_shift := m (vbe + 0x22);
     fb_blue_mask_size := m (vbe + 0x23); fb_blue_mask_shift := m (vbe + 0x24) |}.

Record environment := {
  env_cpu : processor;
  env_eflags : Z;
  env_e820_count : Z;
  env_boot_drive : Z;
  env_filesystem_boot : bool
}.

(** The structure, with the fields that are set step by step as arguments. *)
Definition boot_info (env : environment) (framebuffer : JoshFramebufferInfo) (summary : JoshElf64Summary)
    (flags rsdp smbios command_line command_line_length name name_length : Z) : JoshBootInfo :=
  {| bi_magic := JOSH_BOOT_INFO_MAGIC; bi_abi_major := JOSH_BOOT_ABI_MAJOR; bi_abi_minor := JOSH_BOOT_ABI_MINOR;
     bi_total_size := sizeof_JoshBootInfo; bi_flags := flags; bi_firmware_type := JOSH_FIRMWARE_LEGACY_BIOS;
     bi_boot_drive := env_boot_drive env; bi_memory_map_address := MEMORY_MAP_ADDR;
     bi_memory_map_entries := env_e820_count env; bi_memory_map_entry_size := sizeof_JoshMemoryMapEntry;
     bi_framebuffer := framebuffer;
     bi_kernel_phys_start := u64 (KERNEL_PHYS_BASE + u64 (es_virtual_min summary - KERNEL_VIRT_BASE));
     bi_kernel_phys_end := u64 (KERNEL_PHYS_BASE + u64 (es_virtual_max summary - KERNEL_VIRT_BASE));
     bi_kernel_virt_start := es_virtual_min summary; bi_kernel_virt_end := es_virtual_max summary;
     bi_rsdp_phys := rsdp; bi_smbios_phys := smbios;
     bi_command_line_address := command_line; bi_command_line_length := command_line_length; bi_reserved0 := 0;
     bi_bootloader_name_address := name; bi_bootloader_name_length := name_length; bi_reserved1 := 0;
     bi_kernel_entry := es_entry summary; bi_reserved := replicate 5 0 |}.

Definition put_info (m : mem) (i : JoshBootInfo) : mem := mem_put m BOOTINFO_ADDR (boot_info_bytes i).

Definition base_flags : Z :=
  Z.lor (Z.lor JOSH_BOOT_FLAG_MEMORY_MAP JOSH_BOOT_FLAG_FRAMEBUFFER) JOSH_BOOT_FLAG_LOADER_NAME.

Definition loader_name : list Z := chars "JoshBootloader BIOS".

(** Memory, flags, address and length after the command line was copied. *)
Definition copy_command_line (config : option josh_boot_config_t) (m : mem) (flags : Z)
    : option (mem * Z * Z * Z) :=
  match config with
  | None => Some (m, flags, 0, 0)
  | Some config =>
      let? c0 := get8 (bc_command_line config) 0 in
      if negb (c0 =? 0) then
        let? length := text_length (bc_command_line config) in
        let m := mem_put m CMDLINE_ADDR (take (Z.to_nat length) (bc_command_line config)) in
        Some (m, Z.lor flags JOSH_BOOT_FLAG_CMDLINE, CMDLINE_ADDR, length)
      else Some (m, flags, 0, 0)
  end.

Definition fill_boot_info (env : environment) (m : mem) (summary : JoshElf64Summary)
    (config : option josh_boot_config_t) : option mem :=
  let m := memzero m BOOTINFO_ADDR (Z.to_nat sizeof_JoshBootInfo) in
  let info := boot_info env (framebuffer_of m) summary in
  let flags := base_flags in
  let m := put_info m (info flags 0 0 0 0 0 0) in
  let? rsdp := find_rsdp m in
  let flags := if negb (rsdp =? 0) then Z.lor flags JOSH_BOOT_FLAG_RSDP else flags in
  let m := put_info m (info flags rsdp 0 0 0 0 0) in
  let? smbios := find_smbios m in
  let flags := if negb (smbios =? 0) then Z.lor flags JOSH_BOOT_FLAG_SMBIOS else flags in
  let m := put_info m (info flags rsdp smbios 0 0 0 0) in
  let? (m, flags, command_line, length) :=
    copy_command_line config m flags in
  let m := put_info m (info flags rsdp smbios command_line length 0 0) in
  let m := mem_put m LOADER_NAME_ADDR loader_name in
  Some (put_info m (info flags rsdp smbios command_line length LOADER_NAME_ADDR (zlen loader_name))).

(** ** The main program *)
Inductive outcome :=
| Halted
| Returned
| Handoff (entry : Z).

(** The four bytes at the image pointer are the ELF magic. *)
Definition image_is_elf (m : mem) : bool :=
  negb (negb (m KERNEL_IMAGE_ADDR =? 0x7f) || negb (m (KERNEL_IMAGE_ADDR + 1) =? 69)
        || negb (m (KERNEL_IMAGE_ADDR + 2) =? 76) || negb (m (KERNEL_IMAGE_ADDR + 3) =? 70)).

Section Main.
Context {W : Type} (b : bios W) (env : environment).

Definition halt (message : string) : prog (machine W) outcome :=
  run serial_write message ; ret Halted.

(** The image: already staged, or loaded from the file system. *)
Definition obtain_image : prog (machine W) (outcome + (Z * option josh_boot_config_t)) :=
  do s <- get ;
  if negb (image_is_elf (mc_mem s)) then
    if negb (env_filesystem_boot env) then ret (inl Returned)
    else
      run serial_write "JOSHBOOT_FS_LOAD_BEGIN" ;
      do loaded <- load_kernel_file b ;
      match loaded with
      | None => do o <- halt "JOSHBOOT_ERROR_FILESYSTEM_LOAD" ; ret (inl o)
      | Some (image_bytes, boot_config) =>
          do s <- get ;
          if negb (image_is_elf (mc_mem s))
          then do o <- halt "JOSHBOOT_ERROR_KERNEL_NOT_ELF" ; ret (inl o)
          else ret (inr (image_bytes, Some boot_config))
      end
  else ret (inr (KERNEL_IMAGE_BYTES, None)).

Definition stage2_pm_main : prog (machine W) outcome :=
  do (long_mode, _) <- lift (cpu_has_long_mode (env_cpu env) {| cs_eflags := env_eflags env; cs_events := [] |}) ;
  if negb long_mode then halt "JOSHBOOT_ERROR_CPU_LONG_MODE"
  else
    run serial_write "JOSHBOOT_CPU_LONG_MODE_OK" ;
    do s <- get ;
    if env_filesystem_boot env && negb (staging_range_is_usable (mc_mem s) (env_e820_count env))
    then halt "JOSHBOOT_ERROR_STAGING_MEMORY"
    else
      do image <- obtain_image ;
      match image with
      | inl o => ret o
      | inr (image_bytes, active_config) =>
          run serial_write "JOSHBOOT_ELF64_DETECTED" ;
          do s <- get ;
          do (rc, summary, m) <- lift (load_elf (mc_mem s) blank_summary image_bytes) ;
          run set_mem m ;
          if negb (rc =? 0) then halt "JOSHBOOT_ERROR_ELF64"
          else
            do m <- lift (fill_boot_info env m summary active_config) ;
            run set_mem (build_page_tables m) ;
            run serial_write "JOSHBOOT_HANDOFF_READY" ;
            ret (Handoff (es_entry summary))
      end.

End Main.

(** ** Scanning *)
Lemma scan_loop_spec found room end_ fuel : forall address,
  0 <= address -> 0 < room <= 32 -> end_ <= 0x200000 -> address <= end_ + 16 -> end_ - address < 16 * Z.of_nat fuel - 16 ->
  exists r, scan_loop found room end_ fuel address = Some r /\
    match r with
    | Some a => exists k, 0 <= k /\ a = address + 16 * k /\ a + room <= end_ /\ found a = true /\
        forall j, 0 <= j < k -> found (address + 16 * j) = false
    | None => forall k, 0 <= k -> address + 16 * k + room <= end_ -> found (address + 16 * k) = false
    end.
Proof.
  induction fuel as [|fuel IH]; intros address Ha Hr He Hle Hf; [lia|]. cbn [scan_loop].
  rewrite (u32_id (address + room)), (u32_id (address + 16)) by (unfold in_u32; lia).
  destruct (Z.leb_spec (address + room) end_) as [Hin|Hout].
  2: { eexists. split; [reflexivity|]. intros k Hk Hkr. lia. }
  destruct (found address) eqn:Ef.
  { eexists. split; [reflexivity|]. exists 0. split_and!; try lia; done. }
  destruct (IH (address + 16)) as (r & -> & Hres); [lia..|]. exists r. split; [done|]. destruct r as [a|].
  - destruct Hres as (k & Hk & -> & Hroom & Hfa & Hearlier). exists (k + 1). split_and!; try lia; [by rewrite <- Hfa; f_equal; lia|].
    intros j Hj. destruct (Z.eq_dec j 0) as [->|Hj0]; [by rewrite Z.mul_0_r, Z.add_0_r|].
    rewrite <- (Hearlier (j - 1)) by lia. f_equal. lia.
  - intros k Hk Hkr. destruct (Z.eq_dec k 0) as [->|Hk0]; [by rewrite Z.mul_0_r, Z.add_0_r|].
    rewrite <- (Hres (k - 1)) by lia. f_equal. lia.
Qed.

Lemma align16_spec a : 0 <= a < 2 ^ 31 -> align16 a = 16 * ((a + 15) / 16).
Proof.
  intros Ha. unfold align16. rewrite u32_id by (unfold in_u32; lia).
  change (u32 (Z.lnot 15)) with (Z.shiftl (Z.ones 28) 4). rewrite land_field by lia.
  rewrite Z.mod_small; [done|]. change (2 ^ 4) with 16. zdm.
Qed.

Lemma le_value_bytes l : bytes l -> 0 <= le_value l < 2 ^ (8 * zlen l).
Proof. intros H. unfold zlen. by apply le_value_range. Qed.

Lemma load16_range m a : mem_ok m -> in_u16 (load16 m a).
Proof.
  intros Hm. unfold load16. pose proof (le_value_bytes (mem_slice m a 2) (bytes_mem_slice m a 2 Hm)) as H.
  rewrite zlen_mem_slice in H by lia. exact H.
Qed.

(** What an address returned by the ACPI scan is. *)
Definition rsdp_at (m : mem) (end_ a : Z) : Prop := a mod 16 = 0 /\ a + 20 <= end_ /\ rsdp_candidate m end_ a = true.

Lemma rsdp_region m start end_ :
  0 <= start -> start <= end_ -> end_ <= 0x200000 -> end_ - start <= 0x20000 ->
  exists r, scan_loop (rsdp_candidate m end_) 20 end_ scan_fuel (align16 start) = Some r /\
    match r with
    | Some a => start <= a /\ rsdp_at m end_ a
    | None => forall a, start <= a -> ~ rsdp_at m end_ a
    end.
Proof.
  intros H0 H1 H2 H3. rewrite align16_spec by lia.
  destruct (scan_loop_spec (rsdp_candidate m end_) 20 end_ scan_fuel (16 * ((start + 15) / 16))) as (r & Hr & Hres);
    [zdm|lia|lia|zdm|unfold scan_fuel; zdm|].
  exists r. split; [done|]. destruct r as [a|].
  - destruct Hres as (k & Hk & -> & Hroom & Hfa & _). split; [zdm|]. split; [zdm|]. done.
  - intros a Ha (Hmod & Hroom & Hc). assert (Hf : rsdp_candidate m end_ a = false); [|congruence].
    replace a with (16 * ((start + 15) / 16) + 16 * (a / 16 - (start + 15) / 16)) by zdm.
    apply Hres; zdm.
Qed.

Definition ebda_of (m : mem) : Z := 16 * load16 m 0x40e.

(** The scan returns the first match in the two regions, or 0 when neither has one. *)
Lemma find_rsdp_run m :
  mem_ok m ->
  exists a, find_rsdp m = Some a /\
    ((ebda_of m <= a /\ rsdp_at m (ebda_of m + 1024) a) \/ (0xe0000 <= a /\ rsdp_at m 0x100000 a) \/
     (a = 0 /\ (forall x, ebda_of m <= x -> ~ rsdp_at m (ebda_of m + 1024) x) /\
               (forall x, 0xe0000 <= x -> ~ rsdp_at m 0x100000 x))).
Proof.
  intros Hm. unfold find_rsdp. pose proof (load16_range m 0x40e Hm) as Hs. unfold in_u16 in Hs.
  assert (He : u32 (Z.shiftl (load16 m 0x40e) 4) = ebda_of m).
  { rewrite Z.shiftl_mul_pow2 by lia. unfold ebda_of. rewrite u32_id by (unfold in_u32; lia). lia. }
  rewrite He. unfold ebda_of in *. rewrite (u32_id (16 * _ + 1024)) by (unfold in_u32; lia).
  destruct (rsdp_region m (16 * load16 m 0x40e) (16 * load16 m 0x40e + 1024)) as (r1 & -> & H1); [lia..|].
  destruct r1 as [a|]; [exists a; auto|].
  destruct (rsdp_region m 0xe0000 0x100000) as (r2 & -> & H2); [lia..|].
  destruct r2 as [a|]; [exists a; auto|]. exists 0. auto 10.
Qed.

Lemma find_smbios_run m :
  exists a, find_smbios m = Some a /\
    (a = 0 \/ (0xf0000 <= a /\ a + 0x20 <= 0x100000 /\ a mod 16 = 0 /\ smbios_candidate m a = true)).
Proof.
  unfold find_smbios.
  destruct (scan_loop_spec (smbios_candidate m) 0x20 0x100000 scan_fuel 0xf0000) as (r & -> & Hres);
    [lia|lia|lia|lia|unfold scan_fuel; lia|].
  destruct r as [a|]; [|exists 0; auto]. destruct Hres as (k & Hk & -> & Hroom & Hf & _).
  eexists. split; [reflexivity|]. right. split_and!; try lia; [zdm|done].
Qed.

(** ** Filling the boot information *)
Lemma text_length_c_str l :
  0 ∈ l -> text_length l = Some (zlen (c_str l)) /\ take (Z.to_nat (zlen (c_str l))) l = c_str l /\
    zlen (c_str l) < zlen l.
Proof.
  induction l as [|c l IH]; intros H; [set_solver|]. cbn [text_length c_str].
  destruct (Z.eqb_spec c 0) as [->|Hc]; [unfold zlen; cbn; split_and!; [done|done|lia]|].
  destruct IH as (-> & Ht & Hz); [set_solver|]. unfold zlen in *. cbn [length]. split_and!; [f_equal; lia| |lia].
  rewrite Nat2Z.id in *. cbn [take]. by rewrite Ht.
Qed.

Definition command_line_of (config : option josh_boot_config_t) : list Z :=
  match config with Some c => c_str (bc_command_line c) | None => [] end.

Definition config_good (config : option josh_boot_config_t) : Prop :=
  match config with Some c => config_ok c | None => True end.

Lemma config_command_line c :
  config_ok c -> 0 ∈ bc_command_line c /\ bytes (bc_command_line c) /\ zlen (bc_command_line c) = 128.
Proof.
  intros (_ & _ & _ & id & name & k & p & r & v & _ & _ & _ & _ & _ & _ & -> & _ & _ & _ & _ & _ & Hv).
  pose proof (cmdline_ok_len v Hv) as Hl. unfold zlen in Hl. split_and!.
  - apply text_array_zero. lia.
  - unfold text_array. apply Forall_app. split; [|apply Forall_replicate; unfold in_u8; lia].
    unfold cmdline_ok in Hv. apply andb_true_iff in Hv as [_ Hv]. apply Forall_forall.
    intros x Hx%list_elem_of_In. rewrite forallb_forall in Hv. specialize (Hv x Hx). unfold printable in Hv.
    unfold in_u8. lia.
  - unfold text_array, zlen. rewrite length_app, length_replicate. lia.
Qed.

Lemma framebuffer_ext m m' :
  (forall x, VBE_INFO_ADDR <= x < VBE_INFO_ADDR + 0x2c -> m' x = m x) -> framebuffer_of m' = framebuffer_of m.
Proof.
  intros H. unfold framebuffer_of, load32, load16.
  rewrite !(mem_slice_ext m' m) by (intros x Hx; apply H; lia). rewrite !H by lia. done.
Qed.

(** The three ranges the boot information occupies. *)
Definition info_range (x : Z) : Prop :=
  BOOTINFO_ADDR <= x < BOOTINFO_ADDR + 224 \/ LOADER_NAME_ADDR <= x < LOADER_NAME_ADDR + 19 \/
  CMDLINE_ADDR <= x < CMDLINE_ADDR + 128.

Lemma zlen_boot_info env f sm fl a c d e g h : zlen (boot_info_bytes (boot_info env f sm fl a c d e g h)) = 224.
Proof. by apply length_boot_info. Qed.

Lemma put_info_ok m i : mem_ok m -> mem_ok (put_info m i).
Proof. intros H. apply mem_put_ok; [done|apply bytes_boot_info]. Qed.

Lemma put_info_outside m env f sm fl a c d e g h x :
  x < BOOTINFO_ADDR \/ BOOTINFO_ADDR + 224 <= x -> put_info m (boot_info env f sm fl a c d e g h) x = m x.
Proof. intros H. unfold put_info. apply mem_put_outside. by rewrite zlen_boot_info. Qed.

Lemma loader_name_facts : zlen loader_name = 19 /\ bytes loader_name.
Proof.
  split; [reflexivity|]. apply Forall_forall. intros x Hx%list_elem_of_In.
  assert (H : forallb (fun v => (0 <=? v) && (v <? 256)) loader_name = true) by reflexivity.
  rewrite forallb_forall in H. specialize (H x Hx). unfold in_u8. lia.
Qed.

(** The flags say exactly which optional fields are set. *)
Definition info_flags (rsdp smbios command_line : Z) : Z :=
  Z.lor (Z.lor (Z.lor base_flags (if rsdp =? 0 then 0 else JOSH_BOOT_FLAG_RSDP))
               (if smbios =? 0 then 0 else JOSH_BOOT_FLAG_SMBIOS))
        (if command_line =? 0 then 0 else JOSH_BOOT_FLAG_CMDLINE).

Lemma copy_command_line_run config m flags :
  config_good config ->
  let line := command_line_of config in
  copy_command_line config m flags =
    Some (if bool_decide (line = []) then (m, flags, 0, 0)
          else (mem_put m CMDLINE_ADDR line, Z.lor flags JOSH_BOOT_FLAG_CMDLINE, CMDLINE_ADDR, zlen line)) /\
  bytes line /\ zlen line <= 127.
Proof.
  destruct config as [c|]; cbn [config_good command_line_of copy_command_line]; [|done].
  intros Hc. destruct (config_command_line c Hc) as (H0 & Hb & Hz).
  destruct (text_length_c_str _ H0) as (Hl & Ht & Hlt). cbv zeta.
  destruct (bc_command_line c) as [|c0 rest] eqn:E; [set_solver|]. change (get8 (c0 :: rest) 0) with (Some c0). cbv iota.
  split; [|split; [|lia]].
  - destruct (Z.eqb_spec c0 0) as [->|Hne]; cbn [negb]; [done|]. rewrite Hl, Ht.
    rewrite bool_decide_eq_false_2; [done|]. cbn [c_str]. rewrite (proj2 (Z.eqb_neq c0 0)) by done. done.
  - rewrite <- Ht. by apply bytes_take.
Qed.

(** The structures the loader leaves below 1 MiB. *)
Definition low_structures (x : Z) : Prop := PML4_ADDR <= x < CMDLINE_ADDR + 128.

(** The two addresses come from scans of a memory that is [m] but for those structures. *)
Definition scanned (m : mem) (rsdp smbios : Z) : Prop :=
  (exists m1, (forall x, ~ low_structures x -> m1 x = m x) /\ find_rsdp m1 = Some rsdp) /\
  (exists m2, (forall x, ~ low_structures x -> m2 x = m x) /\ find_smbios m2 = Some smbios).

Lemma info_range_low x : ~ low_structures x -> ~ info_range x.
Proof.
  unfold low_structures, info_range, PML4_ADDR, BOOTINFO_ADDR, LOADER_NAME_ADDR, CMDLINE_ADDR. lia.
Qed.

(** The command line and the loader's name, between two versions of the information. *)
Definition with_line (m : mem) (line : list Z) : mem :=
  if bool_decide (line = []) then m else mem_put m CMDLINE_ADDR line.

Lemma line_flags m line rsdp smbios :
  let flags1 := if negb (rsdp =? 0) then Z.lor base_flags JOSH_BOOT_FLAG_RSDP else base_flags in
  let flags2 := if negb (smbios =? 0) then Z.lor flags1 JOSH_BOOT_FLAG_SMBIOS else flags1 in
  let at_ := if bool_decide (line = []) then 0 else CMDLINE_ADDR in
  (if bool_decide (line = []) then (m, flags2, 0, 0)
   else (mem_put m CMDLINE_ADDR line, Z.lor flags2 JOSH_BOOT_FLAG_CMDLINE, CMDLINE_ADDR, zlen line))
  = (with_line m line, info_flags rsdp smbios at_, at_, zlen line).
Proof.
  cbv zeta. unfold with_line, info_flags. destruct (bool_decide (line = [])) eqn:El.
  - apply bool_decide_eq_true in El. rewrite El. by destruct (rsdp =? 0), (smbios =? 0).
  - by destruct (rsdp =? 0), (smbios =? 0).
Qed.

Lemma texts_in_memory env f sm fl rsdp smbios at_ len m line :
  mem_ok m -> bytes line -> zlen line <= 127 ->
  let info := boot_info env f sm fl rsdp smbios at_ len in
  let m' := put_info (mem_put (put_info (with_line m line) (info 0 0)) LOADER_NAME_ADDR loader_name) (info LOADER_NAME_ADDR 19) in
  mem_ok m' /\ mem_slice m' BOOTINFO_ADDR 224 = boot_info_bytes (info LOADER_NAME_ADDR 19) /\
  mem_slice m' CMDLINE_ADDR (zlen line) = line /\ mem_slice m' LOADER_NAME_ADDR 19 = loader_name /\
  forall x, ~ info_range x -> m' x = m x.
Proof.
  intros Hm Hlb Hlz info m'. destruct loader_name_facts as [Hnz Hnb].
  assert (Hm4 : mem_ok (with_line m line)) by (unfold with_line; destruct (bool_decide _); auto with josh).
  split_and!.
  - apply put_info_ok, mem_put_ok; [by apply put_info_ok|done].
  - apply mem_slice_put. symmetry. apply zlen_boot_info.
  - unfold with_line in *. destruct (bool_decide (line = [])) eqn:El; [by apply bool_decide_eq_true in El as ->|].
    transitivity (mem_slice (mem_put m CMDLINE_ADDR line) CMDLINE_ADDR (zlen line)); [|by apply mem_slice_put].
    apply mem_slice_ext. intros x Hx. unfold m', info. rewrite put_info_outside, mem_put_outside, put_info_outside
      by (rewrite ?Hnz; unfold CMDLINE_ADDR, LOADER_NAME_ADDR, BOOTINFO_ADDR in *; lia). done.
  - etransitivity; [|apply (mem_slice_put (put_info (with_line m line) (info 0 0)) LOADER_NAME_ADDR loader_name 19); by rewrite Hnz].
    apply mem_slice_ext. intros x Hx. apply put_info_outside. unfold LOADER_NAME_ADDR, BOOTINFO_ADDR in *. lia.
  - intros x Hx. unfold info_range in Hx. unfold m', info.
    rewrite put_info_outside, mem_put_outside, put_info_outside by (rewrite ?Hnz; lia).
    unfold with_line. destruct (bool_decide _); [done|]. apply mem_put_outside. lia.
Qed.

Lemma fill_boot_info_run env m summary config :
  mem_ok m -> config_good config ->
  exists m' rsdp smbios,
    let line := command_line_of config in
    let at_ := if bool_decide (line = []) then 0 else CMDLINE_ADDR in
    fill_boot_info env m summary config = Some m' /\ mem_ok m' /\
    mem_slice m' BOOTINFO_ADDR 224 =
      boot_info_bytes (boot_info env (framebuffer_of m) summary (info_flags rsdp smbios at_) rsdp smbios
                         at_ (zlen line) LOADER_NAME_ADDR 19) /\
    mem_slice m' CMDLINE_ADDR (zlen line) = line /\
    mem_slice m' LOADER_NAME_ADDR 19 = loader_name /\ scanned m rsdp smbios /\
    forall x, ~ info_range x -> m' x = m x.
Proof.
  intros Hm Hc. unfold fill_boot_info.
  set (m0 := memzero m BOOTINFO_ADDR (Z.to_nat sizeof_JoshBootInfo)).
  assert (Hm0 : mem_ok m0) by (unfold m0; auto with josh).
  assert (Hout0 : forall x, x < BOOTINFO_ADDR \/ BOOTINFO_ADDR + 224 <= x -> m0 x = m x).
  { intros x Hx. unfold m0. rewrite memzero_spec. unfold sizeof_JoshBootInfo. ranges; done. }
  assert (Hfb : framebuffer_of m0 = framebuffer_of m).
  { apply framebuffer_ext. intros x Hx. apply Hout0. unfold VBE_INFO_ADDR, BOOTINFO_ADDR in *. lia. }
  rewrite Hfb. clearbody m0. set (info := boot_info env (framebuffer_of m) summary).
  set (m1 := put_info m0 (info base_flags 0 0 0 0 0 0)).
  destruct (find_rsdp_run m1) as (rsdp & Hrs & _); [by apply put_info_ok|]. rewrite Hrs.
  set (m2 := put_info m1 (info (if negb (rsdp =? 0) then _ else _) rsdp 0 0 0 0 0)).
  destruct (find_smbios_run m2) as (smbios & Hsm & _). rewrite Hsm.
  set (m3 := put_info m2 _). assert (Hm3 : mem_ok m3) by by repeat apply put_info_ok.
  assert (Hout3 : forall x, x < BOOTINFO_ADDR \/ BOOTINFO_ADDR + 224 <= x -> m1 x = m x /\ m2 x = m x /\ m3 x = m x).
  { intros x Hx. unfold m3, m2, m1, info. rewrite !put_info_outside by done. auto. }
  match goal with |- context [copy_command_line config m3 ?fl] =>
    destruct (copy_command_line_run config m3 fl Hc) as (-> & Hlb & Hlz) end.
  set (line := command_line_of config) in *. pose proof (line_flags m3 line rsdp smbios) as Hfl. cbv zeta in Hfl. rewrite Hfl.
  destruct loader_name_facts as [-> _]. set (at_ := if bool_decide (line = []) then 0 else CMDLINE_ADDR).
  destruct (texts_in_memory env (framebuffer_of m) summary (info_flags rsdp smbios at_) rsdp smbios at_ (zlen line) m3 line Hm3 Hlb Hlz)
    as (Hok & Hi & Ht & Hn & Ho).
  eexists _, rsdp, smbios. cbv zeta. split; [reflexivity|]. split_and!; try done.
  - assert (Hlow : forall x, ~ low_structures x -> x < BOOTINFO_ADDR \/ BOOTINFO_ADDR + 224 <= x).
    { intros x Hx%info_range_low. unfold info_range in Hx. lia. }
    split; [exists m1|exists m2]; (split; [|done]); intros x Hx%Hlow; by apply Hout3.
  - intros x Hx. etransitivity; [by apply Ho|]. apply Hout3. unfold info_range in Hx. lia.
Qed.

(** ** The image that is loaded *)
Lemma kernel_image_size fs path img : kernel_image fs path = Some img -> zlen img <= KERNEL_IMAGE_BYTES.
Proof.
  unfold kernel_image. intros H. steps H. simplify_eq.
  match goal with Hi : file_image _ _ = Some _ |- _ => unfold file_image in Hi; apply length_mapM in Hi; rewrite length_seqZ in Hi end.
  repeat match goal with E : _ || _ = false |- _ => apply orb_false_iff in E as [? ?] end.
  unfold zlen, KERNEL_IMAGE_BYTES in *. lia.
Qed.

Lemma first_image_size fs config slots img : first_image fs config slots = Some img -> zlen img <= KERNEL_IMAGE_BYTES.
Proof.
  induction slots as [|slot slots IH]; cbn [first_image]; [done|].
  destruct (kernel_image fs _) as [i|] eqn:E; [|done]. intros [= <-]. by eapply kernel_image_size.
Qed.

(** The images of a plan validate. *)
Lemma kernel_image_valid fs path img : fs_ok fs -> 0 ∈ path -> kernel_image fs path = Some img ->
  exists o, josh_elf64_validate (Some img) (zlen img) (Some blank_summary) = Some (JOSH_ELF64_OK, o).
Proof.
  intros Hok H0 H. unfold kernel_image in H. destruct (get8 path 0) as [c|]; [|done]. destruct (c =? 0); [done|].
  destruct (josh_fat32_open_path (Some fs) (Some path) (Some tt)) as [file| |] eqn:Eo; [|done..].
  destruct (_ || _); [done|]. destruct (file_image fs file) as [i|] eqn:Ei; [|done].
  pose proof (open_path_size fs path file Hok H0 Eo) as [Hu _].
  destruct (josh_elf64_validate (Some i) (ff_size file) (Some blank_summary)) as [[[] o]|] eqn:Ev; try done.
  injection H as <-. exists o. by rewrite (zlen_file_image fs file i Hu Ei).
Qed.

Lemma first_image_valid fs config slots img : fs_ok fs -> paths_ok config -> first_image fs config slots = Some img ->
  exists o, josh_elf64_validate (Some img) (zlen img) (Some blank_summary) = Some (JOSH_ELF64_OK, o).
Proof.
  intros Hok Hp. induction slots as [|slot slots IH]; cbn [first_image]; [done|].
  destruct (kernel_image fs _) as [i|] eqn:E; [|done]. intros [= <-]. eapply kernel_image_valid; [done| |done]. by apply paths_ok_slot.
Qed.

(** A staged image that validates begins with the magic number. *)
Lemma staged_image_is_elf m img :
  mem_ok m -> zlen img <= KERNEL_IMAGE_BYTES -> staged m (zlen img) = img ->
  (exists o, josh_elf64_validate (Some img) (zlen img) (Some blank_summary) = Some (JOSH_ELF64_OK, o)) ->
  image_is_elf m = true.
Proof.
  intros Hm Hz Hst [o Hv]. assert (Hn : 0 <= zlen img <= KERNEL_IMAGE_BYTES) by (unfold zlen in *; lia).
  destruct (staged_facts m (zlen img) Hm Hn) as (Hb & H64 & _). rewrite Hst in Hb.
  destruct (validate_total img (zlen img) Hb H64 ltac:(lia) blank_summary) as (st & sm & Ht & _).
  rewrite Hv in Ht. injection Ht as <- ->. pose proof (validate_magic img (zlen img) Hb H64 ltac:(lia) _ _ Hv) as Ht.
  assert (Hg : forall k v, take 4 img !! k = Some v -> m (KERNEL_IMAGE_ADDR + Z.of_nat k) = v).
  { intros k v Hk. apply lookup_take_Some in Hk as [Hk _]. rewrite lookup_get8, <- Hst in Hk. pose proof (get8_inv _ _ _ Hk) as Hi.
    unfold staged in Hk, Hi. rewrite zlen_mem_slice in Hi by lia. rewrite get8_mem_slice in Hk by lia. congruence. }
  rewrite Ht in Hg. unfold image_is_elf. pose proof (Hg 0%nat _ eq_refl) as H0. pose proof (Hg 1%nat _ eq_refl) as H1.
  pose proof (Hg 2%nat _ eq_refl) as H2. pose proof (Hg 3%nat _ eq_refl) as H3. rewrite Z.add_0_r in H0.
  change (Z.of_nat 1) with 1 in H1. change (Z.of_nat 2) with 2 in H2. change (Z.of_nat 3) with 3 in H3. by rewrite H0, H1, H2, H3.
Qed.

Section Handoff.
Context {W : Type} (b : bios W) `{!BiosDisk b} (env : environment).

Lemma boot_plan_size w c img : boot_plan b w = Some (c, img) -> zlen img <= KERNEL_IMAGE_BYTES.
Proof.
  unfold boot_plan. destruct (boot_volume b w) as [[safe fs]|]; [|done]. destruct (config_of fs) as [cfg|]; [|done].
  destruct (first_image fs cfg _) as [i|] eqn:E; [|done]. intros [= <- <-]. by eapply first_image_size.
Qed.

Lemma boot_plan_valid w c img : boot_plan b w = Some (c, img) -> config_ok c ->
  exists o, josh_elf64_validate (Some img) (zlen img) (Some blank_summary) = Some (JOSH_ELF64_OK, o).
Proof.
  unfold boot_plan. destruct (boot_volume b w) as [[safe fs]|] eqn:Ev; [|done]. destruct (config_of fs) as [cfg|]; [|done].
  destruct (first_image fs cfg _) as [i|] eqn:E; [|done]. intros [= <- <-] Hc. destruct (boot_volume_ok b _ _ _ Ev) as (Hok & _).
  eapply first_image_valid; [done|by apply config_ok_paths|done].
Qed.

(** Where the image comes from: it was staged before, or the boot plan names it. *)
Definition image_source (s : machine W) (config : option josh_boot_config_t) (img : list Z) : Prop :=
  if image_is_elf (mc_mem s) then config = None /\ img = staged (mc_mem s) KERNEL_IMAGE_BYTES
  else exists c, config = Some c /\ boot_plan b (mc_disk s) = Some (c, img).

Lemma obtain_image_run (s : machine W) :
  mem_ok (mc_mem s) ->
  exists r s', obtain_image b env s = Some (r, s') /\ mem_ok (mc_mem s') /\
    framebuffer_of (mc_mem s') = framebuffer_of (mc_mem s) /\
    match r with
    | inl o => (o = Halted \/ o = Returned) /\ image_is_elf (mc_mem s) = false /\
        (env_filesystem_boot env = true -> boot_plan b (mc_disk s) = None)
    | inr (n, config) => n <= KERNEL_IMAGE_BYTES /\ config_good config /\
        exists img, zlen img = n /\ staged (mc_mem s') n = img /\ image_source s config img
    end.
Proof.
  intros Hm. unfold obtain_image, image_source. rewrite (bind_run _ _ s s s) by done.
  destruct (image_is_elf (mc_mem s)) eqn:Ee; cbn [negb].
  { eexists _, s. split; [reflexivity|]. split; [done|]. split; [done|]. split; [lia|]. split; [done|].
    exists (staged (mc_mem s) KERNEL_IMAGE_BYTES). split; [by apply zlen_mem_slice|done]. }
  destruct (env_filesystem_boot env); cbn [negb].
  2: { eexists _, s. split; [reflexivity|]. split; [done|]. split; [done|]. split; [by right|done]. }
  set (s1 := with_serial s (mc_serial s ++ ["JOSHBOOT_FS_LOAD_BEGIN"%string])).
  rewrite (bind_run _ _ s tt s1) by done.
  destruct (load_kernel_file_run b s1 Hm) as (r & s2 & Hl & Hp & (_ & _ & _ & Hm2 & Hmem) & _).
  assert (Hfb : framebuffer_of (mc_mem s2) = framebuffer_of (mc_mem s)).
  { apply framebuffer_ext. intros x Hx. apply Hmem; unfold VBE_INFO_ADDR, HEALTH_BUFFER_ADDR, KERNEL_IMAGE_ADDR in *; lia. }
  rewrite (bind_run _ _ _ _ _ Hl). unfold loaded_plan in Hp. change (mc_disk s1) with (mc_disk s) in Hp.
  destruct (boot_plan b (mc_disk s)) as [[config img]|] eqn:Ep.
  - destruct Hp as (-> & Hst & Hcok). rewrite (bind_run _ _ s2 s2 s2) by done.
    rewrite (staged_image_is_elf (mc_mem s2) img Hm2 ltac:(by eapply boot_plan_size) Hst) by (by eapply boot_plan_valid). cbn [negb].
    eexists _, s2. split; [reflexivity|]. split; [done|]. split; [done|]. split; [by eapply boot_plan_size|]. split; [done|].
    exists img. split; [done|]. split; [done|]. by exists config.
  - subst r. eexists _, _. split; [reflexivity|]. split; [done|]. split; [done|]. split; [by left|done].
Qed.

(** The kernel as the page tables show it. *)
Definition kernel_mapped (m : mem) (img : list Z) (segs : list JoshElf64LoadSegment) : Prop :=
  forall g i, g ∈ segs -> 0 <= i < ls_memory_size g ->
    exists pa, translate m PML4_ADDR (ls_virtual_address g + i) = Some pa /\
      Some (m pa) = if i <? ls_file_size g then get8 img (ls_file_offset g + i) else Some 0.

(** Addresses of a kernel that fits are translated to their physical place. *)
Lemma translate_kernel t sm v :
  holds_tables t -> kernel_fits sm -> es_virtual_min sm <= v < es_virtual_max sm ->
  translate t PML4_ADDR v = Some (physical_of v).
Proof.
  unfold kernel_fits, physical_of, KERNEL_VIRT_BASE, KERNEL_PHYS_BASE, KERNEL_PHYS_LIMIT. intros Ht [H1 H2] Hv.
  rewrite translate_tables; [|done|unfold in_u64; lia]. rewrite (proj2 (Z.ltb_ge _ _)) by lia.
  unfold KERNEL_VIRT_BASE, KERNEL_PHYS_BASE. ranges. f_equal. lia.
Qed.

(** Building the structures in low memory leaves the kernel alone. *)
Lemma handoff_memory m sm config :
  mem_ok m -> config_good config ->
  exists m' rsdp smbios,
    let line := command_line_of config in
    let at_ := if bool_decide (line = []) then 0 else CMDLINE_ADDR in
    fill_boot_info env m sm config = Some m' /\ mem_ok (build_page_tables m') /\
    mem_slice (build_page_tables m') BOOTINFO_ADDR 224 =
      boot_info_bytes (boot_info env (framebuffer_of m) sm (info_flags rsdp smbios at_) rsdp smbios
                         at_ (zlen line) LOADER_NAME_ADDR 19) /\
    mem_slice (build_page_tables m') CMDLINE_ADDR (zlen line) = line /\
    mem_slice (build_page_tables m') LOADER_NAME_ADDR 19 = loader_name /\
    scanned (build_page_tables m') rsdp smbios /\
    forall x, KERNEL_PHYS_BASE <= x -> build_page_tables m' x = m x.
Proof.
  intros Hm Hc.
  destruct (fill_boot_info_run env m sm config Hm Hc)
    as (m' & rsdp & smbios & Hf & Hm' & Hi & Hl & Hn & (Hs1 & Hs2) & Hout).
  assert (Hkeep : forall x, tables_start + tables_size <= x -> build_page_tables m' x = m' x)
    by (intros; apply build_page_tables_outside; lia).
  assert (Hslice : forall a n, tables_start + tables_size <= a ->
    mem_slice (build_page_tables m') a n = mem_slice m' a n)
    by (intros; apply mem_slice_ext; intros; apply Hkeep; lia).
  assert (Hlow : forall x, ~ low_structures x -> m x = build_page_tables m' x).
  { intros x Hx. rewrite build_page_tables_outside, Hout; [done|by apply info_range_low|].
    unfold low_structures, tables_start, tables_size, PML4_ADDR, CMDLINE_ADDR in *. lia. }
  exists m', rsdp, smbios. cbv zeta. split; [done|]. split; [by apply build_page_tables_ok|].
  rewrite !Hslice by (unfold tables_start, tables_size, PML4_ADDR, BOOTINFO_ADDR, CMDLINE_ADDR, LOADER_NAME_ADDR; lia).
  split; [done|]. split; [done|]. split; [done|]. split.
  - destruct Hs1 as (m1 & H1 & Hr), Hs2 as (m2 & H2 & Hsm).
    split; [exists m1|exists m2]; (split; [|done]); intros x Hx; rewrite <- Hlow by done; auto.
  - intros x Hx. unfold KERNEL_PHYS_BASE in Hx. rewrite build_page_tables_outside
      by (unfold tables_start, tables_size, PML4_ADDR; lia).
    apply Hout. unfold info_range, BOOTINFO_ADDR, LOADER_NAME_ADDR, CMDLINE_ADDR. lia.
Qed.

Lemma kernel_mapped_after m m1 t n img sm segs :
  holds_tables t -> (forall x, KERNEL_PHYS_BASE <= x -> t x = m1 x) ->
  0 <= n -> staged m n = img -> kernel_fits sm -> accepted_segments img n sm segs ->
  Forall (in_place m m1) segs -> kernel_mapped t img segs.
Proof.
  intros Ht Hkeep Hn Himg Hfit (_ & _ & Hok & _) Hin g i Hg Hi.
  pose proof (proj1 (Forall_forall _ _) Hok g Hg) as (Ho & Hv & Hf & _ & _ & Hfo & _ & Hmin & Hmax).
  pose proof (proj1 (Forall_forall _ _) Hin g Hg i Hi) as Hb. unfold seg_end in Hmax.
  exists (physical_of (ls_virtual_address g + i)). split; [apply (translate_kernel t sm); [done|done|lia]|].
  assert (Hpa : physical_of (ls_virtual_address g + i) = physical_of (ls_virtual_address g) + i) by (unfold physical_of; lia).
  rewrite Hpa, Hkeep, Hb by (destruct Hfit as [Hf1 _]; unfold physical_of; lia).
  unfold in_u64 in Ho. destruct (Z.ltb_spec i (ls_file_size g)); [|done].
  rewrite <- Himg. unfold staged. rewrite get8_mem_slice by lia. do 2 f_equal. lia.
Qed.

End Handoff.

(** What the kernel finds when it is entered. *)
Definition handoff_state {W : Type} (b : bios W) (env : environment) (s s' : machine W) (entry : Z) : Prop :=
  exists config img sm segs rsdp smbios,
    let line := command_line_of config in
    let at_ := if bool_decide (line = []) then 0 else CMDLINE_ADDR in
    image_source b s config img /\
    josh_elf64_validate (Some img) (zlen img) (Some blank_summary) = Some (JOSH_ELF64_OK, Some sm) /\
    accepted_segments img (zlen img) sm segs /\ kernel_fits sm /\ entry = es_entry sm /\
    mem_slice (mc_mem s') BOOTINFO_ADDR 224 =
      boot_info_bytes (boot_info env (framebuffer_of (mc_mem s)) sm (info_flags rsdp smbios at_) rsdp smbios
                         at_ (zlen line) LOADER_NAME_ADDR 19) /\
    mem_slice (mc_mem s') CMDLINE_ADDR (zlen line) = line /\
    mem_slice (mc_mem s') LOADER_NAME_ADDR 19 = loader_name /\ scanned (mc_mem s') rsdp smbios /\
    translate (mc_mem s') PML4_ADDR entry = Some (physical_of entry) /\
    (clear_of_image sm (zlen img) -> kernel_mapped (mc_mem s') img segs).

(** What it takes to boot: a 64-bit processor, usable staging memory when files are read, and an image
    that is a valid kernel for the window whose place does not meet the staging area. *)
Definition bootable {W : Type} (b : bios W) (env : environment) (s : machine W) : Prop :=
  long_mode_supported (env_cpu env) = true /\
  (env_filesystem_boot env = true -> staging_range_is_usable (mc_mem s) (env_e820_count env) = true) /\
  exists config img sm, image_source b s config img /\ (image_is_elf (mc_mem s) = false -> env_filesystem_boot env = true) /\
    josh_elf64_validate (Some img) (zlen img) (Some blank_summary) = Some (JOSH_ELF64_OK, Some sm) /\
    kernel_fits sm /\ clear_of_image sm (zlen img).

Lemma image_source_unique {W : Type} (b : bios W) (s : machine W) c c' img img' :
  image_source b s c img -> image_source b s c' img' -> c = c' /\ img = img'.
Proof.
  unfold image_source. destruct (image_is_elf (mc_mem s)); [naive_solver|]. intros (x & -> & Hx) (y & -> & Hy).
  rewrite Hx in Hy. naive_solver.
Qed.

(** A staged image that is loaded leads to the handoff state. *)
Lemma loaded_hands_over {W : Type} (b : bios W) (env : environment) (s s2 : machine W) n config img sm m1 l :
  mem_ok (mc_mem s2) -> 0 <= n <= KERNEL_IMAGE_BYTES -> config_good config -> zlen img = n -> staged (mc_mem s2) n = img ->
  image_source b s config img -> framebuffer_of (mc_mem s2) = framebuffer_of (mc_mem s) ->
  load_elf (mc_mem s2) blank_summary n = Some (0, sm, m1) -> mem_ok m1 ->
  (forall x, x < KERNEL_PHYS_BASE \/ KERNEL_PHYS_LIMIT <= x -> m1 x = mc_mem s2 x) ->
  josh_elf64_validate (Some img) n (Some blank_summary) = Some (JOSH_ELF64_OK, Some sm) -> kernel_fits sm ->
  exists m2, fill_boot_info env m1 sm config = Some m2 /\
    handoff_state b env s {| mc_disk := mc_disk s2; mc_mem := build_page_tables m2; mc_serial := l; mc_persistent := mc_persistent s2 |} (es_entry sm).
Proof.
  intros Hm2 Hn0 Hcfg Hz Hst Hsrc Hfb Hl Hm1 Hout Hv Hfit.
  destruct (handoff_memory env m1 sm config Hm1 Hcfg) as (m2 & rsdp & smbios & Hf & Hm3 & Hinfo & Hline & Hname & Hscan & Hkeep).
  assert (Hfb1 : framebuffer_of m1 = framebuffer_of (mc_mem s)).
  { transitivity (framebuffer_of (mc_mem s2)); [|exact Hfb]. apply framebuffer_ext. intros x Hx.
    apply Hout. left. unfold VBE_INFO_ADDR, KERNEL_PHYS_BASE in *. lia. }
  rewrite Hfb1 in Hinfo. exists m2. split; [done|].
  destruct (staged_facts (mc_mem s2) n Hm2 Hn0) as (Hb & H64 & Hlen). rewrite Hst in Hb, Hlen.
  destruct (validate_segments img n Hb H64 Hlen blank_summary sm Hv) as (segs & Hacc).
  exists config, img, sm, segs, rsdp, smbios. cbv zeta. rewrite Hz. cbn [mc_mem].
  split; [exact Hsrc|]. split; [exact Hv|]. split; [exact Hacc|]. split; [exact Hfit|]. split; [done|].
  split; [exact Hinfo|]. split; [exact Hline|]. split; [exact Hname|]. split; [exact Hscan|]. split.
  - destruct Hacc as (_ & _ & Hall & _ & g & Hg & _ & Hent).
    pose proof (proj1 (Forall_forall _ _) Hall g Hg) as (_ & _ & _ & _ & _ & _ & _ & Hmin & Hmax).
    apply (translate_kernel _ sm); [apply build_holds_tables|done|lia].
  - intros Hclear. rewrite <- Hst in Hv.
    destruct (load_elf_loads (mc_mem s2) blank_summary n sm Hm2 Hn0 Hv Hfit Hclear) as (m' & segs' & Hl' & Hacc' & Hin & _).
    rewrite Hl in Hl'. injection Hl' as <-. rewrite Hst in Hacc'.
    assert (segs' = segs) as -> by (by eapply accepted_segments_unique).
    apply (kernel_mapped_after (mc_mem s2) m1 _ n img sm segs); [apply build_holds_tables|done|lia|done..].
Qed.

Lemma stage2_run {W : Type} (b : bios W) `{!BiosDisk b} (env : environment) (s : machine W) :
  mem_ok (mc_mem s) ->
  exists o s', stage2_pm_main b env s = Some (o, s') /\
    (((o = Halted \/ o = Returned) /\ ~ bootable b env s) \/ exists entry, o = Handoff entry /\ handoff_state b env s s' entry).
Proof.
  intros Hm. unfold stage2_pm_main, bootable.
  unfold bind at 1, lift at 1. rewrite cpu_has_long_mode_run.
  destruct (long_mode_supported (env_cpu env)); cbn [negb]; [|eexists _, _; split; [reflexivity|left; split; [auto|naive_solver]]].
  set (s1 := with_serial s (mc_serial s ++ ["JOSHBOOT_CPU_LONG_MODE_OK"%string])).
  rewrite (bind_run _ _ s tt s1), (bind_run _ _ s1 s1 s1) by done. change (mc_mem s1) with (mc_mem s).
  destruct (env_filesystem_boot env && negb (staging_range_is_usable (mc_mem s) (env_e820_count env))) eqn:Est.
  { apply andb_true_iff in Est as [Ef Est%negb_true_iff]. eexists _, _. split; [reflexivity|]. left. split; [auto|].
    intros (_ & Hu & _). rewrite (Hu Ef) in Est. done. }
  destruct (obtain_image_run b env s1 Hm) as (r & s2 & Hr & Hm2 & Hfb & Himg). rewrite (bind_run _ _ _ _ _ Hr).
  destruct r as [o|[n config]].
  { destruct Himg as (Ho & Helf & Hplan). eexists _, _. split; [reflexivity|]. left. split; [naive_solver|].
    intros (_ & _ & c & i & sm & Hsrc & Hfs & _). change (mc_mem s1) with (mc_mem s) in Helf. change (mc_disk s1) with (mc_disk s) in Hplan.
    unfold image_source in Hsrc. rewrite Helf in Hsrc, Hfs. rewrite (Hplan (Hfs eq_refl)) in Hsrc. naive_solver. }
  destruct Himg as (Hn & Hcfg & img & Hz & Hst & Hsrc).
  set (s3 := with_serial s2 (mc_serial s2 ++ ["JOSHBOOT_ELF64_DETECTED"%string])).
  rewrite (bind_run _ _ _ tt s3), (bind_run _ _ s3 s3 s3) by done. change (mc_mem s3) with (mc_mem s2).
  assert (Hn0 : 0 <= n <= KERNEL_IMAGE_BYTES) by (unfold zlen in Hz; lia).
  destruct (load_elf_total (mc_mem s2) blank_summary n Hm2 Hn0) as (rc & sm & m1 & Hl & Hrc & Hm1 & Hout & Hok).
  rewrite (bind_run _ _ s3 (rc, sm, m1) s3) by (unfold lift; by rewrite Hl). cbv beta iota.
  rewrite (bind_run _ _ s3 tt (with_mem s3 m1)) by done.
  destruct (Z.eqb_spec rc 0) as [->|Hne]; cbn [negb].
  - destruct (Hok eq_refl) as [Hv Hfit]. rewrite Hst in Hv.
    destruct (loaded_hands_over b env s s2 n config img sm m1 (mc_serial s3 ++ ["JOSHBOOT_HANDOFF_READY"%string])) as (m2 & Hf & Hho); try done.
    rewrite (bind_run _ _ _ m2 (with_mem s3 m1)) by (unfold lift; by rewrite Hf).
    eexists _, _. split; [reflexivity|]. right. exists (es_entry sm). split; [done|exact Hho].
  - eexists _, _. split; [reflexivity|]. left. split; [auto|]. intros (_ & _ & c & i & sm' & Hsrc' & _ & Hv' & Hfit' & Hclear').
    destruct (image_source_unique b s _ _ _ _ Hsrc Hsrc') as [-> ->]. rewrite Hz in *. rewrite <- Hst in Hv'.
    destruct (load_elf_loads (mc_mem s2) blank_summary n sm' Hm2 Hn0 Hv' Hfit' Hclear') as (m' & segs' & Hl' & _).
    rewrite Hl in Hl'. congruence.
Qed.

(** ** An example machine *)
Definition example_env : environment :=
  {| env_cpu := example_cpu; env_eflags := 0x246; env_e820_count := 1; env_boot_drive := 0x80; env_filesystem_boot := true |}.

(** One usable range of 64 MiB at address 0. *)
Definition example_map : list Z :=
  memory_map_entry_bytes {| mm_base := 0; mm_length := 0x4000000; mm_type := JOSH_MEMORY_USABLE; mm_flags := 0 |}.

Definition example_machine : machine failing_disk :=
  {| mc_disk := boot_disk 2; mc_mem := mem_put (fun _ => 0) MEMORY_MAP_ADDR example_map;
     mc_serial := []; mc_persistent := false |}.

Lemma example_machine_ok : mem_ok (mc_mem example_machine).
Proof.
  apply mem_put_ok; [intros a; unfold in_u8; lia|]. unfold example_map, memory_map_entry_bytes.
  repeat apply Forall_app_2; apply bytes_le_bytes.
Qed.

(** The example boots: the messages in order, and the entry point of the previous kernel. *)
Lemma example_boots :
  option_map (fun r => (fst r, mc_serial (snd r))) (stage2_pm_main failing_bios example_env example_machine) =
  Some (Handoff 0xffffffff80001000,
        ["JOSHBOOT_CPU_LONG_MODE_OK"; "JOSHBOOT_FS_LOAD_BEGIN"; "JOSHBOOT_PARTITION_OK"; "JOSHBOOT_FAT32_OK";
         "JOSHBOOT_CONFIG_OK"; "JOSHBOOT_HEALTH_LOADED"; "JOSHBOOT_SLOT_CURRENT"; "JOSHBOOT_HEALTH_PERSISTED";
         "JOSHBOOT_FALLBACK_PREVIOUS"; "JOSHBOOT_SLOT_PREVIOUS"; "JOSHBOOT_KERNEL_PATH_OK";
         "JOSHBOOT_KERNEL_FILE_LOADED"; "JOSHBOOT_ELF64_DETECTED"; "JOSHBOOT_HANDOFF_READY"]%string).
Proof. vm_compute. reflexivity. Qed.

(** C1: From entry to handoff. On every machine the second stage ends: it halts, returns to the
    legacy path, or hands over. When it hands over, the image is the one the boot plan names (or the
    one staged beforehand), it validates and fits the kernel window, the entry point lies in an
    executable segment and is mapped to its physical address, the boot information at 0x58000 is the
    encoding of the structure for this kernel, with the framebuffer of the video mode set before, the
    command line of the parsed configuration, the loader name and the two firmware tables the scans
    find, its flags saying which of them are present, and, when the kernel's place does not meet the staging
    area, every byte of every segment read through the page tables is the byte of the image, or zero
    beyond the file size. And it does hand over whenever there is something to boot: a 64-bit
    processor, usable staging memory when files are read, and an image, staged or named by the plan,
    that is a valid kernel for the window and whose place does not meet the staging area. *)
Theorem stage2_handoff_maps_kernel {W : Type} (b : bios W) `{!BiosDisk b} (env : environment) (s : machine W) :
  mem_ok (mc_mem s) ->
  exists o s', stage2_pm_main b env s = Some (o, s') /\
    (((o = Halted \/ o = Returned) /\ ~ bootable b env s) \/
     exists entry, o = Handoff entry /\ handoff_state b env s s' entry).
Proof. intros Hm. by apply (stage2_run b env s). Qed.

Lemma stage2_handoff_maps_kernel_witness :
  exists s', stage2_pm_main failing_bios example_env example_machine = Some (Handoff 0xffffffff80001000, s') /\
    handoff_state failing_bios example_env example_machine s' 0xffffffff80001000.
Proof.
  destruct (stage2_handoff_maps_kernel failing_bios example_env example_machine example_machine_ok)
    as (o & s' & H & Ho).
  pose proof example_boots as He. rewrite H in He. cbn [option_map fst snd] in He. injection He as Ho' _.
  exists s'. destruct Ho as [[[Ho|Ho] _]|(entry & Ho & Hs)]; rewrite Ho in Ho'; try discriminate Ho'.
  injection Ho' as Hent. rewrite Hent in *. split; [rewrite H, Ho; reflexivity|exact Hs].
Defined.
