(* ===== verification/Efi.v ===== *)
(** * The UEFI interface of the loader (boot/uefi/efi.h)

    The types and constants of efi.h, the firmware services as records of
    functions over a firmware state [W], and the state the UEFI loader works on.
    A service is a parameter: it takes the firmware state and returns its status,
    what it stores through its pointer arguments and the next state.  The class
    [UefiFirmware] says what the loader relies on, in terms of a view of the
    firmware: the page ranges, pool buffers and file handles that are in use, the
    files of the boot volume and the loader's variable.  Every service may fail.

    A file pointer is a handle and its methods are the records' functions applied
    to it; zero is the null pointer.  A pool buffer is an object of its own,
    named by its address; page allocations are ranges of physical memory, which
    boot services map one to one. *)
From stdpp Require Import gmap.
From S2P Require Import Prelude Prog Memory Health.

(** ** Status codes *)
Definition EFI_STATUS : Type := Z.
Definition EFI_ERROR_BIT : Z := 0x8000000000000000.
Definition EFIERR (c : Z) : EFI_STATUS := Z.lor EFI_ERROR_BIT c.
Definition EFI_SUCCESS : EFI_STATUS := 0.
Definition EFI_LOAD_ERROR : EFI_STATUS := EFIERR 1.
Definition EFI_INVALID_PARAMETER : EFI_STATUS := EFIERR 2.
Definition EFI_UNSUPPORTED : EFI_STATUS := EFIERR 3.
Definition EFI_BAD_BUFFER_SIZE : EFI_STATUS := EFIERR 4.
Definition EFI_BUFFER_TOO_SMALL : EFI_STATUS := EFIERR 5.
Definition EFI_DEVICE_ERROR : EFI_STATUS := EFIERR 7.
Definition EFI_OUT_OF_RESOURCES : EFI_STATUS := EFIERR 9.
Definition EFI_NOT_FOUND : EFI_STATUS := EFIERR 14.
Definition EFI_ERROR (s : EFI_STATUS) : bool := negb (Z.land s EFI_ERROR_BIT =? 0).

Definition EFI_FILE_MODE_READ : Z := 1.
Definition EFI_VARIABLE_NON_VOLATILE : Z := 0x00000001.
Definition EFI_VARIABLE_BOOTSERVICE_ACCESS : Z := 0x00000002.
Definition EFI_VARIABLE_RUNTIME_ACCESS : Z := 0x00000004.

(** ** Data *)
Record EFI_GUID := { Data1 : Z; Data2 : Z; Data3 : Z; Data4 : list Z }.

#[export] Instance EFI_GUID_eq_dec : EqDecision EFI_GUID.
Proof. solve_decision. Defined.

Inductive EFI_ALLOCATE_TYPE := AllocateAnyPages | AllocateMaxAddress | AllocateAddress | MaxAllocateType.

Inductive EFI_MEMORY_TYPE :=
| EfiReservedMemoryType | EfiLoaderCode | EfiLoaderData | EfiBootServicesCode | EfiBootServicesData
| EfiRuntimeServicesCode | EfiRuntimeServicesData | EfiConventionalMemory | EfiUnusableMemory
| EfiACPIReclaimMemory | EfiACPIMemoryNVS | EfiMemoryMappedIO | EfiMemoryMappedIOPortSpace | EfiPalCode
| EfiPersistentMemory | EfiUnacceptedMemoryType | EfiMaxMemoryType.

(** The value of an enumerator. *)
Definition memory_type_value (t : EFI_MEMORY_TYPE) : Z :=
  match t with
  | EfiReservedMemoryType => 0 | EfiLoaderCode => 1 | EfiLoaderData => 2 | EfiBootServicesCode => 3
  | EfiBootServicesData => 4 | EfiRuntimeServicesCode => 5 | EfiRuntimeServicesData => 6
  | EfiConventionalMemory => 7 | EfiUnusableMemory => 8 | EfiACPIReclaimMemory => 9 | EfiACPIMemoryNVS => 10
  | EfiMemoryMappedIO => 11 | EfiMemoryMappedIOPortSpace => 12 | EfiPalCode => 13 | EfiPersistentMemory => 14
  | EfiUnacceptedMemoryType => 15 | EfiMaxMemoryType => 16
  end.

Record EFI_MEMORY_DESCRIPTOR := {
  md_Type : Z;
  md_PhysicalStart : Z;
  md_VirtualStart : Z;
  md_NumberOfPages : Z;
  md_Attribute : Z
}.
Definition sizeof_EFI_MEMORY_DESCRIPTOR : Z := 40.

(** The descriptor a pointer [p] stands for: four bytes of padding follow the type. *)
Definition descriptor_at (m : mem) (p : Z) : EFI_MEMORY_DESCRIPTOR :=
  {| md_Type := load32 m p; md_PhysicalStart := load64 m (p + 8); md_VirtualStart := load64 m (p + 16);
     md_NumberOfPages := load64 m (p + 24); md_Attribute := load64 m (p + 32) |}.

Record EFI_CONFIGURATION_TABLE := { VendorGuid : EFI_GUID; VendorTable : Z }.

(** The fields of the loaded image the loader reads. *)
Record EFI_LOADED_IMAGE_PROTOCOL := { DeviceHandle : Z; ImageBase : Z; ImageSize : Z }.

Definition PixelRedGreenBlueReserved8BitPerColor : Z := 0.
Definition PixelBlueGreenRedReserved8BitPerColor : Z := 1.
Definition PixelBitMask : Z := 2.
Definition PixelBltOnly : Z := 3.

Record EFI_GRAPHICS_OUTPUT_MODE_INFORMATION := {
  gi_HorizontalResolution : Z;
  gi_VerticalResolution : Z;
  gi_PixelFormat : Z;
  gi_RedMask : Z;
  gi_GreenMask : Z;
  gi_BlueMask : Z;
  gi_PixelsPerScanLine : Z
}.

Record EFI_GRAPHICS_OUTPUT_PROTOCOL_MODE := {
  gm_Info : option EFI_GRAPHICS_OUTPUT_MODE_INFORMATION;
  gm_FrameBufferBase : Z
}.

Record EFI_GRAPHICS_OUTPUT_PROTOCOL := { gop_Mode : option EFI_GRAPHICS_OUTPUT_PROTOCOL_MODE }.

(** The colour masks are 32-bit words. *)
Definition masks_ok (i : EFI_GRAPHICS_OUTPUT_MODE_INFORMATION) : Prop :=
  in_u32 (gi_RedMask i) /\ in_u32 (gi_GreenMask i) /\ in_u32 (gi_BlueMask i).

Definition graphics_ok (g : EFI_GRAPHICS_OUTPUT_PROTOCOL) : Prop :=
  forall mode i, gop_Mode g = Some mode -> gm_Info mode = Some i -> masks_ok i.

(** ** Services *)
Section Services.
Context (W : Type).

(** The volume: opening its root directory, status and handle. *)
Record EFI_SIMPLE_FILE_SYSTEM_PROTOCOL := { OpenVolume : option (W -> (EFI_STATUS * Z) * W) }.

(** What a void pointer to an interface points to. *)
Inductive interface :=
| LoadedImage (i : EFI_LOADED_IMAGE_PROTOCOL)
| SimpleFileSystem (v : EFI_SIMPLE_FILE_SYSTEM_PROTOCOL)
| GraphicsOutput (g : EFI_GRAPHICS_OUTPUT_PROTOCOL).

(** [Open] takes the directory, the path, the mode and the attributes and returns the handle;
    [Read] takes the file and the size of the buffer and returns the new size and the bytes it
    stores; [GetInfo] likewise, with the kind of information asked for. *)
Record EFI_FILE_PROTOCOL := {
  Open : Z -> list Z -> Z -> Z -> W -> (EFI_STATUS * Z) * W;
  Close : Z -> W -> EFI_STATUS * W;
  Read : Z -> Z -> W -> (EFI_STATUS * Z * list Z) * W;
  GetInfo : Z -> EFI_GUID -> Z -> W -> (EFI_STATUS * Z * list Z) * W
}.

(** What [GetMemoryMap] stores: the size, the descriptors, the key, the descriptor size and version. *)
Record memory_map := { map_size : Z; map_data : list Z; map_key : Z; map_descriptor_size : Z; map_version : Z }.

(** [AllocatePages] takes and returns the address; [AllocatePool] returns the address of the buffer
    and what is in it. *)
Record EFI_BOOT_SERVICES := {
  AllocatePages : EFI_ALLOCATE_TYPE -> EFI_MEMORY_TYPE -> Z -> Z -> W -> (EFI_STATUS * Z) * W;
  GetMemoryMap : Z -> W -> (EFI_STATUS * memory_map) * W;
  AllocatePool : EFI_MEMORY_TYPE -> Z -> W -> (EFI_STATUS * Z * list Z) * W;
  FreePool : Z -> W -> EFI_STATUS * W;
  HandleProtocol : Z -> EFI_GUID -> W -> (EFI_STATUS * option interface) * W;
  LocateProtocol : EFI_GUID -> W -> (EFI_STATUS * option interface) * W;
  ExitBootServices : Z -> Z -> W -> EFI_STATUS * W
}.

(** [GetVariable] takes the name, the vendor and the size of the buffer and returns the attributes,
    the new size and the bytes it stores; a service may be absent. *)
Record EFI_RUNTIME_SERVICES := {
  GetVariable : option (list Z -> EFI_GUID -> Z -> W -> (EFI_STATUS * Z * Z * list Z) * W);
  SetVariable : option (list Z -> EFI_GUID -> Z -> Z -> list Z -> W -> EFI_STATUS * W)
}.

Record EFI_SYSTEM_TABLE := {
  RuntimeServices : option EFI_RUNTIME_SERVICES;
  BootServices : option EFI_BOOT_SERVICES;
  NumberOfTableEntries : Z;
  ConfigurationTable : list EFI_CONFIGURATION_TABLE
}.
End Services.

Arguments OpenVolume {W} _. Arguments LoadedImage {W} i. Arguments SimpleFileSystem {W} v. Arguments GraphicsOutput {W} g.
Arguments Open {W} _. Arguments Close {W} _. Arguments Read {W} _. Arguments GetInfo {W} _.
Arguments AllocatePages {W} _. Arguments GetMemoryMap {W} _. Arguments AllocatePool {W} _. Arguments FreePool {W} _.
Arguments HandleProtocol {W} _. Arguments LocateProtocol {W} _. Arguments ExitBootServices {W} _.
Arguments GetVariable {W} _. Arguments SetVariable {W} _.
Arguments RuntimeServices {W} _. Arguments BootServices {W} _. Arguments NumberOfTableEntries {W} _.
Arguments ConfigurationTable {W} _.

(** ** The state of the loader *)
Record uefi (W : Type) := {
  uf_fw : W;
  uf_mem : mem;
  uf_pool : gmap Z (list Z);
  uf_serial : list string
}.
Arguments uf_fw {W} _. Arguments uf_mem {W} _. Arguments uf_pool {W} _. Arguments uf_serial {W} _.

Section State.
Context {W : Type}.

Definition with_fw (w : W) (s : uefi W) : uefi W :=
  {| uf_fw := w; uf_mem := uf_mem s; uf_pool := uf_pool s; uf_serial := uf_serial s |}.
Definition with_memory (m : mem) (s : uefi W) : uefi W :=
  {| uf_fw := uf_fw s; uf_mem := m; uf_pool := uf_pool s; uf_serial := uf_serial s |}.
Definition with_pool (p : gmap Z (list Z)) (s : uefi W) : uefi W :=
  {| uf_fw := uf_fw s; uf_mem := uf_mem s; uf_pool := p; uf_serial := uf_serial s |}.

(** A call of a service. *)
Definition service {A} (f : W -> A * W) : prog (uefi W) A := fun s =>
  let '(a, w) := f (uf_fw s) in Some (a, with_fw w s).

Definition memory_op (f : mem -> mem) : prog (uefi W) unit := modify (fun s => with_memory (f (uf_mem s)) s).

(** The bytes of a pool buffer; the use of a buffer that is not allocated is undefined. *)
Definition buffer (p : Z) : prog (uefi W) (list Z) := fun s =>
  match uf_pool s !! p with Some l => Some (l, s) | None => None end.

(** What a service stores through a buffer pointer; running past the end is undefined. *)
Definition store_buffer (p : Z) (data : list Z) : prog (uefi W) unit := fun s =>
  match uf_pool s !! p with
  | Some l =>
      if zlen data <=? zlen l then Some (tt, with_pool (<[p := data ++ drop (length data) l]> (uf_pool s)) s) else None
  | None => None
  end.

(** A method call on a file handle; the null handle has no methods. *)
Definition method {A} (f : Z) (call : W -> A * W) : prog (uefi W) A :=
  if f =? 0 then undefined else service call.

(** [bs->AllocatePool(type, size, &p)]: a successful call makes the buffer. *)
Definition allocate_pool (bs : EFI_BOOT_SERVICES W) (t : EFI_MEMORY_TYPE) (size : Z) : prog (uefi W) (EFI_STATUS * Z) :=
  do (status, p, contents) <- service (AllocatePool bs t size) ;
  run modify (fun s => if EFI_ERROR status then s else with_pool (<[p := contents]> (uf_pool s)) s) ;
  ret (status, p).

Definition free_pool (bs : EFI_BOOT_SERVICES W) (p : Z) : prog (uefi W) unit :=
  run buffer p ;
  run service (FreePool bs p) ;
  modify (fun s => with_pool (delete p (uf_pool s)) s).

(** The text goes out in order; every message ends in a newline, which the log leaves out. *)
Definition serial_write (text : string) : prog (uefi W) unit :=
  modify (fun s => {| uf_fw := uf_fw s; uf_mem := uf_mem s; uf_pool := uf_pool s; uf_serial := uf_serial s ++ [text] |}).
End State.
Arguments serial_write {W} text%_string.

(** ** The identifiers of main.c *)
Definition gEfiLoadedImageProtocolGuid : EFI_GUID :=
  {| Data1 := 0x5b1b31a1; Data2 := 0x9562; Data3 := 0x11d2; Data4 := [0x8e; 0x3f; 0x00; 0xa0; 0xc9; 0x69; 0x72; 0x3b] |}.
Definition gEfiSimpleFileSystemProtocolGuid : EFI_GUID :=
  {| Data1 := 0x964e5b22; Data2 := 0x6459; Data3 := 0x11d2; Data4 := [0x8e; 0x39; 0x00; 0xa0; 0xc9; 0x69; 0x72; 0x3b] |}.
Definition gEfiFileInfoGuid : EFI_GUID :=
  {| Data1 := 0x09576e92; Data2 := 0x6d3f; Data3 := 0x11d2; Data4 := [0x8e; 0x39; 0x00; 0xa0; 0xc9; 0x69; 0x72; 0x3b] |}.
Definition gEfiGraphicsOutputProtocolGuid : EFI_GUID :=
  {| Data1 := 0x9042a9de; Data2 := 0x23dc; Data3 := 0x4a38; Data4 := [0x96; 0xfb; 0x7a; 0xde; 0xd0; 0x80; 0x51; 0x6a] |}.
Definition gEfiAcpi20TableGuid : EFI_GUID :=
  {| Data1 := 0x8868e871; Data2 := 0xe4f1; Data3 := 0x11d3; Data4 := [0xbc; 0x22; 0x00; 0x80; 0xc7; 0x3c; 0x88; 0x81] |}.
Definition gEfiAcpi10TableGuid : EFI_GUID :=
  {| Data1 := 0xeb9d2d30; Data2 := 0x2d88; Data3 := 0x11d3; Data4 := [0x9a; 0x16; 0x00; 0x90; 0x27; 0x3f; 0xc1; 0x4d] |}.
Definition gEfiSmbios3TableGuid : EFI_GUID :=
  {| Data1 := 0xf2fd1544; Data2 := 0x9794; Data3 := 0x4a2c; Data4 := [0x99; 0x2e; 0xe5; 0xbb; 0xcf; 0x20; 0xe3; 0x94] |}.
Definition gEfiSmbiosTableGuid : EFI_GUID :=
  {| Data1 := 0xeb9d2d31; Data2 := 0x2d88; Data3 := 0x11d3; Data4 := [0x9a; 0x16; 0x00; 0x90; 0x27; 0x3f; 0xc1; 0x4d] |}.
Definition gJoshBootHealthGuid : EFI_GUID :=
  {| Data1 := 0x8f8846d1; Data2 := 0xa182; Data3 := 0x4a91; Data4 := [0x9c; 0x44; 0x4a; 0x4f; 0x53; 0x48; 0x42; 0x48] |}.
Definition gJoshBootHealthName : list Z := chars "JoshBootHealth" ++ [0].

(** ** What the loader relies on *)

(** The firmware as the loader sees it.  A handle stands for a path and a position in that file;
    the root directory has the empty path. *)
Record view := {
  v_pages : list (Z * Z);
  v_buffers : gset Z;
  v_handles : gmap Z (list Z * Z);
  v_contents : gmap (list Z) (list Z);
  v_variable : option (list Z)
}.

Definition set_pages (l : list (Z * Z)) (v : view) : view :=
  {| v_pages := l; v_buffers := v_buffers v; v_handles := v_handles v; v_contents := v_contents v; v_variable := v_variable v |}.
Definition set_buffers (b : gset Z) (v : view) : view :=
  {| v_pages := v_pages v; v_buffers := b; v_handles := v_handles v; v_contents := v_contents v; v_variable := v_variable v |}.
Definition set_handles (h : gmap Z (list Z * Z)) (v : view) : view :=
  {| v_pages := v_pages v; v_buffers := v_buffers v; v_handles := h; v_contents := v_contents v; v_variable := v_variable v |}.
Definition set_variable (x : option (list Z)) (v : view) : view :=
  {| v_pages := v_pages v; v_buffers := v_buffers v; v_handles := v_handles v; v_contents := v_contents v; v_variable := x |}.

(** Two ranges of pages have no byte in common. *)
Definition ranges_apart (a n b k : Z) : Prop := a + 4096 * n <= b \/ b + 4096 * k <= a.

(** A buffer argument: a service stores bytes, and no more than it was told there is room for. *)
Definition stored_within (size : Z) (data : list Z) : Prop := bytes data /\ zlen data <= size.

Class UefiFirmware {W : Type} (io : EFI_FILE_PROTOCOL W) (bs : EFI_BOOT_SERVICES W) (rs : option (EFI_RUNTIME_SERVICES W))
    (fw_view : W -> view) : Prop := {
  (** memory: ranges and buffers are aligned, where they were asked for, and new *)
  fw_allocate_pages : forall mt n max w s a w', 0 < n ->
    AllocatePages bs AllocateMaxAddress mt n max w = (s, a, w') ->
    if EFI_ERROR s then fw_view w' = fw_view w
    else 0 <= a /\ a mod 4096 = 0 /\ a + 4096 * n <= max + 1 /\
      Forall (fun r => ranges_apart a n r.1 r.2) (v_pages (fw_view w)) /\
      fw_view w' = set_pages ((a, n) :: v_pages (fw_view w)) (fw_view w);
  fw_allocate_pool : forall mt n w s p data w',
    AllocatePool bs mt n w = (s, p, data, w') ->
    if EFI_ERROR s then fw_view w' = fw_view w
    else p <> 0 /\ p ∉ v_buffers (fw_view w) /\ bytes data /\ zlen data = n /\
      fw_view w' = set_buffers ({[p]} ∪ v_buffers (fw_view w)) (fw_view w);
  fw_free_pool : forall p w s w', p ∈ v_buffers (fw_view w) ->
    FreePool bs p w = (s, w') -> fw_view w' = set_buffers (v_buffers (fw_view w) ∖ {[p]}) (fw_view w);
  fw_memory_map : forall size w s r w', 0 <= size -> GetMemoryMap bs size w = (s, r, w') ->
    fw_view w' = fw_view w /\ stored_within size (map_data r) /\
    in_u64 (map_size r) /\ in_u64 (map_key r) /\ in_u64 (map_descriptor_size r) /\
    (EFI_ERROR s = false -> map_size r = zlen (map_data r) /\ sizeof_EFI_MEMORY_DESCRIPTOR <= map_descriptor_size r);
  fw_exit : forall h key w s w', ExitBootServices bs h key w = (s, w') -> fw_view w' = fw_view w;
  (** interfaces have the type of their identifier *)
  fw_handle_protocol : forall h g w s i w', HandleProtocol bs h g w = (s, i, w') ->
    fw_view w' = fw_view w /\
    (EFI_ERROR s = false -> g = gEfiLoadedImageProtocolGuid -> match i with Some (LoadedImage _) => True | _ => False end) /\
    (EFI_ERROR s = false -> g = gEfiSimpleFileSystemProtocolGuid ->
     match i with
     | Some (SimpleFileSystem v) => forall ov, OpenVolume v = Some ov -> forall w1 s1 r w2, ov w1 = (s1, r, w2) ->
         if EFI_ERROR s1 then fw_view w2 = fw_view w1
         else r <> 0 /\ v_handles (fw_view w1) !! r = None /\
           fw_view w2 = set_handles (<[r := ([], 0)]> (v_handles (fw_view w1))) (fw_view w1)
     | None => True | _ => False
     end);
  fw_locate_protocol : forall g w s i w', LocateProtocol bs g w = (s, i, w') ->
    fw_view w' = fw_view w /\
    (EFI_ERROR s = false -> g = gEfiGraphicsOutputProtocolGuid -> 
     match i with Some (GraphicsOutput g) => graphics_ok g | None => True | _ => False end);
  (** files: a handle reads the file it was opened for, from its position *)
  fw_open : forall root pos path mode attributes w s f w', v_handles (fw_view w) !! root = Some ([], pos) ->
    Open io root path mode attributes w = (s, f, w') ->
    if EFI_ERROR s then fw_view w' = fw_view w
    else f <> 0 /\ v_handles (fw_view w) !! f = None /\ is_Some (v_contents (fw_view w) !! c_str path) /\
      fw_view w' = set_handles (<[f := (c_str path, 0)]> (v_handles (fw_view w))) (fw_view w);
  fw_close : forall f w s w', is_Some (v_handles (fw_view w) !! f) -> Close io f w = (s, w') ->
    fw_view w' = set_handles (delete f (v_handles (fw_view w))) (fw_view w);
  fw_get_info : forall f path pos c size w s size' data w', 0 <= size ->
    v_handles (fw_view w) !! f = Some (path, pos) -> v_contents (fw_view w) !! path = Some c ->
    GetInfo io f gEfiFileInfoGuid size w = (s, size', data, w') ->
    fw_view w' = fw_view w /\ stored_within size data /\ in_u64 size' /\ in_u64 (zlen c) /\ bytes c /\
    (EFI_ERROR s = false -> slice data 8 8 = Some (le_bytes 8 (zlen c)));
  fw_read : forall f path pos c size w s size' data w', 0 <= size ->
    v_handles (fw_view w) !! f = Some (path, pos) -> v_contents (fw_view w) !! path = Some c ->
    Read io f size w = (s, size', data, w') ->
    (exists pos', fw_view w' = set_handles (<[f := (path, pos')]> (v_handles (fw_view w))) (fw_view w)) /\
    stored_within size data /\
    (EFI_ERROR s = false -> size' = zlen data /\ data = take (Z.to_nat size) (drop (Z.to_nat pos) c));
  (** the variable: a successful write replaces it, a failed one leaves it alone *)
  fw_get_variable : forall r get size w s attrs size' data w', 0 <= size -> rs = Some r -> GetVariable r = Some get ->
    get gJoshBootHealthName gJoshBootHealthGuid size w = (s, attrs, size', data, w') ->
    fw_view w' = fw_view w /\ stored_within size data /\
    (EFI_ERROR s = false -> size' = zlen data /\ v_variable (fw_view w) = Some data);
  fw_set_variable : forall r set attrs data w s w', rs = Some r -> SetVariable r = Some set ->
    set gJoshBootHealthName gJoshBootHealthGuid attrs (zlen data) data w = (s, w') ->
    fw_view w' = if EFI_ERROR s then fw_view w else set_variable (Some data) (fw_view w)
}.

(** ** Firmware that does not fail

    The services may fail at any call; this is the case in which those the loader needs do not.
    The information on a file takes [need] bytes. *)
Record reliable {W : Type} (io : EFI_FILE_PROTOCOL W) (bs : EFI_BOOT_SERVICES W) (rs : option (EFI_RUNTIME_SERVICES W))
    (fw_view : W -> view) (image : Z) (need : list Z -> Z) : Prop := {
  rel_pool : forall t n w, 0 <= n -> EFI_ERROR (AllocatePool bs t n w).1.1.1 = false;
  rel_open : forall root pos path mode attributes w,
    v_handles (fw_view w) !! root = Some ([], pos) -> is_Some (v_contents (fw_view w) !! c_str path) ->
    EFI_ERROR (Open io root path mode attributes w).1.1 = false;
  rel_info : forall f path pos c size w, v_handles (fw_view w) !! f = Some (path, pos) ->
    v_contents (fw_view w) !! path = Some c -> 24 <= need path /\
    (size = 0 -> (GetInfo io f gEfiFileInfoGuid size w).1.1 = (EFI_BUFFER_TOO_SMALL, need path)) /\
    (need path <= size -> EFI_ERROR (GetInfo io f gEfiFileInfoGuid size w).1.1.1 = false);
  rel_read : forall f path pos c size w, 0 <= size -> v_handles (fw_view w) !! f = Some (path, pos) ->
    v_contents (fw_view w) !! path = Some c -> EFI_ERROR (Read io f size w).1.1.1 = false;
  rel_volume : exists loaded fs open_volume, OpenVolume fs = Some open_volume /\ forall w,
    EFI_ERROR (HandleProtocol bs image gEfiLoadedImageProtocolGuid w).1.1 = false /\
    (HandleProtocol bs image gEfiLoadedImageProtocolGuid w).1.2 = Some (LoadedImage loaded) /\
    EFI_ERROR (HandleProtocol bs (DeviceHandle loaded) gEfiSimpleFileSystemProtocolGuid w).1.1 = false /\
    (HandleProtocol bs (DeviceHandle loaded) gEfiSimpleFileSystemProtocolGuid w).1.2 = Some (SimpleFileSystem fs) /\
    EFI_ERROR (open_volume w).1.1 = false;
  rel_variable : exists r get, rs = Some r /\ GetVariable r = Some get /\ forall v w,
    v_variable (fw_view w) = Some v -> zlen v <= RECORD_SIZE ->
    EFI_ERROR (get gJoshBootHealthName gJoshBootHealthGuid RECORD_SIZE w).1.1.1.1 = false
}.

(** Stores of the health variable succeed. *)
Definition stores_work {W : Type} (rs : option (EFI_RUNTIME_SERVICES W)) : Prop :=
  exists r set, rs = Some r /\ SetVariable r = Some set /\ forall attrs data w, bytes data ->
    EFI_ERROR (set gJoshBootHealthName gJoshBootHealthGuid attrs (zlen data) data w).1 = false.

(** What the firmware has to offer: the pages to be had below 4 GiB when the given ranges are in use,
    the least and the largest size of a memory map and the size of its descriptors. *)
Record supplies := { left_pages : list (Z * Z) -> Z; map_least : Z; map_most : Z; descriptor_size : Z }.

Definition no_supplies : supplies := {| left_pages := fun _ => 0; map_least := 0; map_most := 0; descriptor_size := 0 |}.

(** The machine-wide services in the same case: pages are there as long as they last, a graphics mode
    with a framebuffer is set, a memory map fits once there is room for the least size and sixteen
    more descriptors, and boot services end when they are given the key of the last map. *)
Record willing {W : Type} (bs : EFI_BOOT_SERVICES W) (fw_view : W -> view) (image : Z) (sp : supplies) : Prop := {
  wil_pages : forall t n w, 0 < n <= left_pages sp (v_pages (fw_view w)) ->
    let '(s, a, _) := AllocatePages bs AllocateMaxAddress t n 0xffffffff w in
    EFI_ERROR s = false /\ 0 < a /\ left_pages sp (v_pages (fw_view w)) - n <= left_pages sp ((a, n) :: v_pages (fw_view w));
  wil_graphics : forall w, exists s g w' mode i,
    LocateProtocol bs gEfiGraphicsOutputProtocolGuid w = (s, Some (GraphicsOutput g), w') /\ EFI_ERROR s = false /\
    gop_Mode g = Some mode /\ gm_Info mode = Some i /\ gi_PixelFormat i <> PixelBltOnly /\ gm_FrameBufferBase mode <> 0;
  wil_sizes : 0 <= map_least sp <= map_most sp /\ sizeof_EFI_MEMORY_DESCRIPTOR <= descriptor_size sp /\
    map_most sp + 16 * descriptor_size sp < 2 ^ 32;
  wil_map : forall size w, let '(s, r, _) := GetMemoryMap bs size w in
    (size = 0 -> s = EFI_BUFFER_TOO_SMALL /\ map_least sp <= map_size r <= map_most sp /\ map_descriptor_size r = descriptor_size sp) /\
    (map_least sp + 16 * descriptor_size sp <= size ->
     EFI_ERROR s = false /\ map_descriptor_size r = descriptor_size sp /\ zlen (map_data r) <= 128 * descriptor_size sp);
  wil_exit : forall size w s r w', GetMemoryMap bs size w = (s, r, w') -> EFI_ERROR s = false ->
    EFI_ERROR (ExitBootServices bs image (map_key r) w').1 = false
}.

(** ** Rules for services *)
Section Rules.
Context {W : Type}.

Lemma runs_service {A B} (f : W -> A * W) (k : A -> prog (uefi W) B) s Q :
  (forall a w, f (uf_fw s) = (a, w) -> runs (k a) (with_fw w s) Q) -> runs (bind (service f) k) s Q.
Proof.
  intros H. destruct (f (uf_fw s)) as [a w] eqn:E. apply runs_bind. exists a, (with_fw w s).
  unfold service. rewrite E. split; [done|]. by apply H.
Qed.

Lemma runs_method {A B} h (f : W -> A * W) (k : A -> prog (uefi W) B) s Q :
  h <> 0 -> (forall a w, f (uf_fw s) = (a, w) -> runs (k a) (with_fw w s) Q) -> runs (bind (method h f) k) s Q.
Proof. intros Hh H. unfold method. rewrite (proj2 (Z.eqb_neq h 0)) by done. by apply runs_service. Qed.

Lemma runs_buffer {B} p l (k : list Z -> prog (uefi W) B) s Q :
  uf_pool s !! p = Some l -> runs (k l) s Q -> runs (bind (buffer p) k) s Q.
Proof. intros Hp H. apply runs_bind. exists l, s. unfold buffer. by rewrite Hp. Qed.

Lemma runs_store {B} p l data (k : unit -> prog (uefi W) B) s Q :
  uf_pool s !! p = Some l -> zlen data <= zlen l ->
  runs (k tt) (with_pool (<[p := data ++ drop (length data) l]> (uf_pool s)) s) Q ->
  runs (bind (store_buffer p data) k) s Q.
Proof.
  intros Hp Hz H. apply runs_bind. eexists tt, _. split; [|exact H]. unfold store_buffer. rewrite Hp.
  by rewrite (proj2 (Z.leb_le _ _)).
Qed.

(** The log is never read. *)
Lemma runs_message {B} text (k : unit -> prog (uefi W) B) s Q :
  runs (k tt) {| uf_fw := uf_fw s; uf_mem := uf_mem s; uf_pool := uf_pool s; uf_serial := uf_serial s ++ [text] |} Q ->
  runs (bind (serial_write text) k) s Q.
Proof. intros H. exact H. Qed.
End Rules.

(** ** Updates of the view *)
Lemma set_handles_set h h' v : set_handles h (set_handles h' v) = set_handles h v.
Proof. done. Qed.
Lemma set_handles_self v : set_handles (v_handles v) v = v.
Proof. by destruct v. Qed.
Lemma set_buffers_self v : set_buffers (v_buffers v) v = v.
Proof. by destruct v. Qed.

Lemma view_eq v v' :
  v_pages v = v_pages v' -> v_buffers v = v_buffers v' -> v_handles v = v_handles v' ->
  v_contents v = v_contents v' -> v_variable v = v_variable v' -> v = v'.
Proof. destruct v, v'. cbn. by intros -> -> -> -> ->. Qed.

Lemma EFI_ERROR_EFIERR c : 0 <= c < 2 ^ 63 -> EFI_ERROR (EFIERR c) = true.
Proof.
  intros Hc. unfold EFI_ERROR, EFIERR, EFI_ERROR_BIT. rewrite Z.land_comm, Z.land_lor_distr_r, Z.land_diag.
  apply negb_true_iff, Z.eqb_neq. intros H. apply Z.lor_eq_0_iff in H as [H _]. done.
Qed.
