(* ===== verification/EfiMock.v ===== *)
(** * A firmware that honours the contract of the UEFI loader

    An executable firmware with a fixed volume: it shows that the contract
    [UefiFirmware] and the reliability condition can be met, and the examples of
    the UEFI loader run on it.  Its state is the part of the view that changes. *)
From stdpp Require Import gmap.
From S2P Require Import Prelude Prog Memory Health Elf64 Config Efi.

Record mock := {
  mk_pages : list (Z * Z);
  mk_buffers : gset Z;
  mk_handles : gmap Z (list Z * Z);
  mk_variable : option (list Z)
}.

(** The volume: the configuration, a current kernel that is no image and a previous one that is. *)
Definition backslashed (s : string) : list Z := map (fun c => if c =? 47 then 92 else c) (chars s).
Arguments backslashed s%_string.

Definition mock_files : gmap (list Z) (list Z) :=
  list_to_map [(backslashed "/EFI/JOSH/BOOT.CFG", example_text); (backslashed "/boot/kernel.elf", replicate 300 9);
               (backslashed "/boot/old.elf", example_image)].

Definition mock_view (w : mock) : view :=
  {| v_pages := mk_pages w; v_buffers := mk_buffers w; v_handles := mk_handles w; v_contents := mock_files;
     v_variable := map u8 <$> mk_variable w |}.

(** Pages are handed out upwards from 1 MiB, above everything in use. *)
Definition mock_next_page (l : list (Z * Z)) : Z :=
  4096 * ((foldr (fun r top => Z.max top (r.1 + 4096 * r.2)) 0x100000 l + 4095) / 4096).

Definition mock_allocate_pages (t : EFI_ALLOCATE_TYPE) (mt : EFI_MEMORY_TYPE) (n max : Z) (w : mock) : (EFI_STATUS * Z) * mock :=
  let a := mock_next_page (mk_pages w) in
  if a + 4096 * n <=? max + 1
  then (EFI_SUCCESS, a, {| mk_pages := (a, n) :: mk_pages w; mk_buffers := mk_buffers w; mk_handles := mk_handles w; mk_variable := mk_variable w |})
  else (EFI_OUT_OF_RESOURCES, max, w).

Definition with_buffers (b : gset Z) (w : mock) : mock :=
  {| mk_pages := mk_pages w; mk_buffers := b; mk_handles := mk_handles w; mk_variable := mk_variable w |}.
Definition with_handles (h : gmap Z (list Z * Z)) (w : mock) : mock :=
  {| mk_pages := mk_pages w; mk_buffers := mk_buffers w; mk_handles := h; mk_variable := mk_variable w |}.

Definition mock_allocate_pool (t : EFI_MEMORY_TYPE) (n : Z) (w : mock) : (EFI_STATUS * Z * list Z) * mock :=
  if n <? 0 then (EFI_INVALID_PARAMETER, 0, [], w)
  else
    let p := fresh ({[0]} ∪ mk_buffers w) in
    (EFI_SUCCESS, p, replicate (Z.to_nat n) 0xaf, with_buffers ({[p]} ∪ mk_buffers w) w).

Definition mock_free_pool (p : Z) (w : mock) : EFI_STATUS * mock := (EFI_SUCCESS, with_buffers (mk_buffers w ∖ {[p]}) w).

(** A memory map of four descriptors, 48 bytes apart: conventional memory, an empty range, the
    loader's data and ACPI tables. *)
Definition mock_descriptor (t start pages : Z) : list Z :=
  le_bytes 4 t ++ le_bytes 4 0 ++ le_bytes 8 start ++ le_bytes 8 0 ++ le_bytes 8 pages ++ le_bytes 8 0xf ++ replicate 8 0.

Definition mock_map : list Z :=
  mock_descriptor 7 0x1000 0x9f ++ mock_descriptor 0 0xa0000 0 ++ mock_descriptor 2 0x100000 0x100 ++
  mock_descriptor 9 0x7ff0000 0x10.

Definition mock_memory_map (size : Z) (w : mock) : (EFI_STATUS * memory_map) * mock :=
  if size <? zlen mock_map
  then (EFI_BUFFER_TOO_SMALL, {| map_size := zlen mock_map; map_data := []; map_key := 0; map_descriptor_size := 48; map_version := 1 |}, w)
  else (EFI_SUCCESS, {| map_size := zlen mock_map; map_data := mock_map; map_key := 7; map_descriptor_size := 48; map_version := 1 |}, w).

Definition mock_open_volume (w : mock) : (EFI_STATUS * Z) * mock :=
  let r := fresh ({[0]} ∪ dom (mk_handles w)) in (EFI_SUCCESS, r, with_handles (<[r := ([], 0)]> (mk_handles w)) w).

Definition mock_loaded_image : EFI_LOADED_IMAGE_PROTOCOL := {| DeviceHandle := 2; ImageBase := 0x6000000; ImageSize := 0x20000 |}.

Definition mock_volume : EFI_SIMPLE_FILE_SYSTEM_PROTOCOL mock := {| OpenVolume := Some mock_open_volume |}.

Definition mock_handle_protocol (h : Z) (g : EFI_GUID) (w : mock) : (EFI_STATUS * option (interface mock)) * mock :=
  if decide (g = gEfiLoadedImageProtocolGuid) then (EFI_SUCCESS, Some (LoadedImage mock_loaded_image), w)
  else if decide (g = gEfiSimpleFileSystemProtocolGuid) then (EFI_SUCCESS, Some (SimpleFileSystem mock_volume), w)
  else (EFI_UNSUPPORTED, None, w).

Definition mock_graphics : EFI_GRAPHICS_OUTPUT_PROTOCOL :=
  {| gop_Mode := Some {| gm_FrameBufferBase := 0xc0000000;
       gm_Info := Some {| gi_HorizontalResolution := 1024; gi_VerticalResolution := 768; gi_PixelFormat := PixelBitMask;
         gi_RedMask := 0xf800; gi_GreenMask := 0x7e0; gi_BlueMask := 0x1f; gi_PixelsPerScanLine := 1040 |} |} |}.

Definition mock_locate_protocol (g : EFI_GUID) (w : mock) : (EFI_STATUS * option (interface mock)) * mock :=
  if decide (g = gEfiGraphicsOutputProtocolGuid) then (EFI_SUCCESS, Some (GraphicsOutput mock_graphics), w)
  else (EFI_NOT_FOUND, None, w).

Definition mock_bs : EFI_BOOT_SERVICES mock :=
  {| AllocatePages := mock_allocate_pages; GetMemoryMap := mock_memory_map; AllocatePool := mock_allocate_pool;
     FreePool := mock_free_pool; HandleProtocol := mock_handle_protocol; LocateProtocol := mock_locate_protocol;
     ExitBootServices := fun _ key w => (if key =? 7 then EFI_SUCCESS else EFI_INVALID_PARAMETER, w) |}.

Definition mock_open (root : Z) (path : list Z) (mode attributes : Z) (w : mock) : (EFI_STATUS * Z) * mock :=
  match mock_files !! c_str path with
  | None => (EFI_NOT_FOUND, 0, w)
  | Some _ =>
      let f := fresh ({[0]} ∪ dom (mk_handles w)) in
      (EFI_SUCCESS, f, with_handles (<[f := (c_str path, 0)]> (mk_handles w)) w)
  end.

Definition mock_close (f : Z) (w : mock) : EFI_STATUS * mock := (EFI_SUCCESS, with_handles (delete f (mk_handles w)) w).

Definition mock_info (c : list Z) : list Z := le_bytes 8 80 ++ le_bytes 8 (zlen c) ++ replicate 64 0.

Definition mock_get_info (f : Z) (g : EFI_GUID) (size : Z) (w : mock) : (EFI_STATUS * Z * list Z) * mock :=
  match mk_handles w !! f with
  | Some (path, _) =>
      match mock_files !! path with
      | Some c =>
          if size <? 80 then (EFI_BUFFER_TOO_SMALL, 80, [], w)
          else (EFI_SUCCESS, 80, mock_info c, w)
      | None => (EFI_DEVICE_ERROR, 0, [], w)
      end
  | None => (EFI_DEVICE_ERROR, 0, [], w)
  end.

Definition mock_read (f size : Z) (w : mock) : (EFI_STATUS * Z * list Z) * mock :=
  match mk_handles w !! f with
  | Some (path, pos) =>
      match mock_files !! path with
      | Some c =>
          let data := take (Z.to_nat size) (drop (Z.to_nat pos) c) in
          (EFI_SUCCESS, zlen data, data, with_handles (<[f := (path, pos + zlen data)]> (mk_handles w)) w)
      | None => (EFI_DEVICE_ERROR, 0, [], w)
      end
  | None => (EFI_DEVICE_ERROR, 0, [], w)
  end.

Definition mock_io : EFI_FILE_PROTOCOL mock :=
  {| Open := mock_open; Close := mock_close; Read := mock_read; GetInfo := mock_get_info |}.

Definition mock_get_variable (name : list Z) (g : EFI_GUID) (size : Z) (w : mock) : (EFI_STATUS * Z * Z * list Z) * mock :=
  match mk_variable w with
  | None => (EFI_NOT_FOUND, 0, size, [], w)
  | Some v =>
      if zlen v <=? size then (EFI_SUCCESS, 7, zlen v, map u8 v, w) else (EFI_BUFFER_TOO_SMALL, 7, zlen v, [], w)
  end.

Definition mock_set_variable (name : list Z) (g : EFI_GUID) (attributes size : Z) (data : list Z) (w : mock) : EFI_STATUS * mock :=
  if forallb (fun b => (0 <=? b) && (b <? 256)) data
  then (EFI_SUCCESS, {| mk_pages := mk_pages w; mk_buffers := mk_buffers w; mk_handles := mk_handles w; mk_variable := Some data |})
  else (EFI_INVALID_PARAMETER, w).

Definition mock_rs : EFI_RUNTIME_SERVICES mock :=
  {| GetVariable := Some mock_get_variable; SetVariable := Some mock_set_variable |}.

Definition mock_st : EFI_SYSTEM_TABLE mock :=
  {| RuntimeServices := Some mock_rs; BootServices := Some mock_bs; NumberOfTableEntries := 2;
     ConfigurationTable := [{| VendorGuid := gEfiSmbiosTableGuid; VendorTable := 0x7f00000 |};
                            {| VendorGuid := gEfiAcpi20TableGuid; VendorTable := 0x7f10000 |}] |}.

(** ** The contract holds *)
Lemma mock_next_page_above l r : r ∈ l -> r.1 + 4096 * r.2 <= mock_next_page l.
Proof.
  intros Hr. unfold mock_next_page.
  assert (H : r.1 + 4096 * r.2 <= foldr (fun r top => Z.max top (r.1 + 4096 * r.2)) 0x100000 l).
  { induction l as [|x l IH]; [set_solver|]. cbn. apply elem_of_cons in Hr as [->|Hr]; [lia|]. specialize (IH Hr). lia. }
  zdm.
Qed.

Lemma mock_next_page_low l : 0x100000 <= mock_next_page l.
Proof.
  unfold mock_next_page. assert (H : 0x100000 <= foldr (fun r top => Z.max top (r.1 + 4096 * r.2)) 0x100000 l).
  { induction l as [|x l IH]; cbn; lia. }
  zdm.
Qed.

Lemma fresh_not_zero (X : gset Z) : fresh ({[0]} ∪ X) <> 0 /\ fresh ({[0]} ∪ X) ∉ X.
Proof. pose proof (is_fresh ({[0]} ∪ X)) as H. split; set_solver. Qed.

(** Every file of the volume is bytes of a size that fits. *)
Lemma mock_files_ok path c : mock_files !! path = Some c -> bytes c /\ in_u64 (zlen c).
Proof.
  intros H. assert (Hall : bool_decide (map_Forall (fun _ c => forallb (fun b => (0 <=? b) && (b <? 2 ^ 8)) c = true /\ zlen c < 2000) mock_files) = true)
    by (vm_compute; reflexivity).
  apply bool_decide_eq_true in Hall.
  specialize (Hall _ _ H). destruct Hall as [Hb Hz]. split; [|unfold in_u64, zlen in *; lia].
  apply Forall_forall. intros x Hx%list_elem_of_In. rewrite forallb_forall in Hb. specialize (Hb x Hx). unfold in_u8. lia.
Qed.

Lemma forallb_u8 l : forallb (fun b => (0 <=? b) && (b <? 256)) l = true -> map u8 l = l.
Proof.
  intros H. rewrite <- (map_id l) at 2. apply map_ext_in. intros x Hx. rewrite forallb_forall in H. specialize (H x Hx).
  apply u8_id. unfold in_u8. lia.
Qed.

Lemma mock_map_bytes : bytes mock_map.
Proof. unfold mock_map, mock_descriptor. repeat apply Forall_app_2; try apply bytes_le_bytes; apply Forall_replicate; unfold in_u8; lia. Qed.

#[export] Instance mock_firmware : UefiFirmware mock_io mock_bs (RuntimeServices mock_st) mock_view.
Proof.
  split.
  - intros mt n max w s a w' Hn H. cbn in H. unfold mock_allocate_pages in H.
    destruct (Z.leb_spec (mock_next_page (mk_pages w) + 4096 * n) (max + 1)); injection H as <- <- <-; [|done]. cbn [EFI_ERROR].
    change (EFI_ERROR EFI_SUCCESS) with false. pose proof (mock_next_page_low (mk_pages w)).
    split; [lia|]. split; [unfold mock_next_page; rewrite Z.mul_comm; apply Z.mod_mul; lia|]. split; [lia|]. split; [|done].
    apply Forall_forall. intros r Hr. right. by apply mock_next_page_above.
  - intros mt n w s p data w' H. cbn in H. unfold mock_allocate_pool in H.
    destruct (Z.ltb_spec n 0); injection H as <- <- <- <-; [done|]. change (EFI_ERROR EFI_SUCCESS) with false.
    destruct (fresh_not_zero (mk_buffers w)) as [Hf0 Hfn]. split; [done|]. split; [done|]. split.
    { apply Forall_replicate. unfold in_u8. lia. }
    split; [unfold zlen; rewrite length_replicate; lia|done].
  - intros p w s w' Hp H. by injection H as <- <-.
  - intros size w s r w' Hs H. cbn in H. unfold mock_memory_map in H. pose proof mock_map_bytes.
    change (zlen mock_map) with 192 in H. destruct (Z.ltb_spec size 192); injection H as <- <- <-; cbn;
      (split; [done|]); (split; [split; [done|]|]); try (change (zlen mock_map) with 192); try (unfold zlen; cbn; lia);
      unfold in_u64, sizeof_EFI_MEMORY_DESCRIPTOR; (split; [lia|]); (split; [lia|]); (split; [lia|]); try done.
  - intros h key w s w' H. by injection H as <- <-.
  - intros h g w s i w' H. cbn in H. unfold mock_handle_protocol in H.
    destruct (decide (g = gEfiLoadedImageProtocolGuid)) as [->|]; [injection H as <- <- <-; by split_and!|].
    destruct (decide (g = gEfiSimpleFileSystemProtocolGuid)) as [->|]; injection H as <- <- <-; [|by split_and!].
    split; [done|]. split; [done|]. intros _ _ ov [= <-] w1 s1 r w2 H. unfold mock_open_volume in H. injection H as <- <- <-.
    change (EFI_ERROR EFI_SUCCESS) with false. destruct (fresh_not_zero (dom (mk_handles w1))) as [Hf0 Hfn].
    split; [done|]. split; [by apply not_elem_of_dom|done].
  - intros g w s i w' H. cbn in H. unfold mock_locate_protocol in H.
    destruct (decide (g = gEfiGraphicsOutputProtocolGuid)) as [->|]; injection H as <- <- <-; [|by split_and!].
    split; [done|]. intros _ _ mode info [= <-] [= <-]. unfold masks_ok, in_u32. cbn. lia.
  - intros root pos path mode attributes w s f w' Hr H. cbn in H. unfold mock_open in H.
    destruct (mock_files !! c_str path) eqn:E; injection H as <- <- <-; [|done].
    change (EFI_ERROR EFI_SUCCESS) with false. destruct (fresh_not_zero (dom (mk_handles w))) as [Hf0 Hfn].
    split; [done|]. split; [by apply not_elem_of_dom|]. split; [by eexists|done].
  - intros f w s w' Hf H. by injection H as <- <-.
  - intros f path pos c size w s size' data w' Hs Hh Hc H. cbn [mock_io Read GetInfo] in H. cbn [v_handles v_contents mock_view] in Hh, Hc. unfold mock_get_info in H. rewrite Hh, Hc in H.
    destruct (mock_files_ok _ _ Hc) as [Hb Hz].
    destruct (Z.ltb_spec size 80); injection H as <- <- <- <-; unfold mock_info; (split; [done|]); split.
    + split; [done|]. unfold zlen. cbn. lia.
    + split; [unfold in_u64; lia|]. done.
    + split; [do 2 (apply Forall_app_2; [apply bytes_le_bytes|]); apply Forall_replicate; unfold in_u8; lia|].
      unfold zlen. rewrite !length_app, !length_le_bytes, length_replicate. lia.
    + split; [unfold in_u64; lia|]. split; [done|]. split; [done|]. intros _.
      pose proof (slice_full (le_bytes 8 80) (le_bytes 8 (zlen c)) (replicate 64 0)) as Hsl. by rewrite !zlen_le_bytes in Hsl.
  - intros f path pos c size w s size' data w' Hs Hh Hc H. cbn [mock_io Read GetInfo] in H. cbn [v_handles v_contents mock_view] in Hh, Hc. unfold mock_read in H. rewrite Hh, Hc in H.
    destruct (mock_files_ok _ _ Hc) as [Hb Hz]. injection H as <- <- <- <-. split; [by eexists|]. split; [|done].
    split; [by apply bytes_take, bytes_drop|]. unfold zlen. rewrite length_take. lia.
  - intros r get size w s attrs size' data w' Hs [= <-] [= <-] H. unfold mock_get_variable in H. cbn.
    destruct (mk_variable w) as [v|] eqn:E.
    + destruct (Z.leb_spec (zlen v) size); injection H as <- <- <- <- <-; (split; [done|]); split.
      * split; [apply Forall_map, Forall_forall; intros x _; apply u8_range|]. unfold zlen in *. by rewrite length_map.
      * intros _. unfold zlen. rewrite length_map. done.
      * split; [done|]. unfold zlen. cbn. lia.
      * done.
    + injection H as <- <- <- <- <-. split; [done|]. split; [split; [done|unfold zlen; cbn; lia]|done].
  - intros r set attrs data w s w' [= <-] [= <-] H. unfold mock_set_variable in H.
    destruct (forallb _ data) eqn:E; injection H as <- <-; [|done]. change (EFI_ERROR EFI_SUCCESS) with false.
    unfold mock_view, set_variable. cbn. by rewrite (forallb_u8 data E).
Qed.

Lemma mock_reliable : reliable mock_io mock_bs (RuntimeServices mock_st) mock_view 1 (fun _ => 80).
Proof.
  split.
  - intros t n w Hn. cbn. unfold mock_allocate_pool. by rewrite (proj2 (Z.ltb_ge n 0)).
  - intros root pos path mode attributes w Hr [c Hc]. cbn [v_contents mock_view] in Hc. cbn [mock_io Open]. unfold mock_open. by rewrite Hc.
  - intros f path pos c size w Hh Hc. cbn [v_handles v_contents mock_view] in Hh, Hc. cbn [mock_io Read GetInfo]. unfold mock_get_info. rewrite Hh, Hc.
    split; [lia|]. split; [by intros ->|]. intros Hs. by rewrite (proj2 (Z.ltb_ge size 80)).
  - intros f path pos c size w Hs Hh Hc. cbn [v_handles v_contents mock_view] in Hh, Hc. cbn [mock_io Read GetInfo]. unfold mock_read. by rewrite Hh, Hc.
  - exists mock_loaded_image, mock_volume, mock_open_volume. by split_and!.
  - exists mock_rs, mock_get_variable. split_and!; try done. intros v w Hv Hz. cbn in Hv.
    unfold mock_get_variable. destruct (mk_variable w) as [x|]; [|done]. injection Hv as <-.
    unfold zlen in *. rewrite length_map in Hz. by rewrite (proj2 (Z.leb_le _ _)).
Qed.

Definition mock_left (l : list (Z * Z)) : Z := (2 ^ 32 - mock_next_page l) / 4096.

Lemma mock_next_page_cons l n : 0 < n -> mock_next_page ((mock_next_page l, n) :: l) = mock_next_page l + 4096 * n.
Proof.
  intros Hn. unfold mock_next_page at 1. cbn [foldr fst snd].
  set (top := foldr _ _ l). assert (Ht : top <= mock_next_page l) by (unfold mock_next_page; fold top; zdm).
  rewrite Z.max_r by lia. assert (Hm : mock_next_page l mod 4096 = 0) by (unfold mock_next_page; rewrite Z.mul_comm; apply Z.mod_mul; lia).
  zdm.
Qed.

Definition mock_supplies : supplies := {| left_pages := mock_left; map_least := 192; map_most := 192; descriptor_size := 48 |}.

Lemma mock_willing : willing mock_bs mock_view 1 mock_supplies.
Proof.
  split.
  - intros t n w Hn. cbn [mock_view v_pages mock_supplies left_pages] in *. cbn [mock_bs AllocatePages]. unfold mock_allocate_pages, mock_left in *. rewrite (proj2 (Z.leb_le _ _)) by zdm.
    split; [done|]. pose proof (mock_next_page_low (mk_pages w)). split; [lia|]. rewrite mock_next_page_cons by lia. zdm.
  - intros w. cbn. exists EFI_SUCCESS, mock_graphics, w. eexists _, _. by split_and!.
  - unfold sizeof_EFI_MEMORY_DESCRIPTOR. cbn. lia.
  - intros size w. cbn. unfold mock_memory_map. change (zlen mock_map) with 192.
    destruct (Z.ltb_spec size 192); cbn; (split; [intros ->|intros Hs]); try lia; try by split_and!.
  - intros size w s r w' H Es. cbn in H. unfold mock_memory_map in H. destruct (_ <? _); injection H as <- <- <-; [done|]. done.
Qed.

(** The state at power on. *)
Definition mock_start (variable : option (list Z)) : uefi mock :=
  {| uf_fw := {| mk_pages := []; mk_buffers := ∅; mk_handles := ∅; mk_variable := variable |};
     uf_mem := fun _ => 0; uf_pool := ∅; uf_serial := [] |}.
