(* ===== verification/UefiPaging.v ===== *)
(** * The page tables of the UEFI loader (boot/uefi/main.c)

    [build_tables] takes tables from a pool of 48 pages: a root, two levels and
    four directories of large pages for the first four gibibytes, and whatever
    [map4k] needs to map the kernel page by page.  Memory is passed along; a
    [uint64_t*] is the address of its cell, and zero is the null pointer.  The
    pool pointer is the address of a local of [build_tables] and never null. *)
From stdpp Require Import gmap.
From S2P Require Import Prelude Memory Paging.

Definition PAGE_SIZE : Z := 4096.
Definition HUGE_PAGE_SIZE : Z := 0x200000.
Definition PAGE_TABLE_POOL_PAGES : Z := 48.
Definition IDENTITY_GIB : Z := 4.

Record page_table_pool_t := { cursor : Z; pool_end : Z }.

Definition pages_for (n : Z) : Z := u64 (n + PAGE_SIZE - 1) / PAGE_SIZE.

(** Returns the table, memory and the pool. *)
Definition pt_alloc (m : mem) (p : page_table_pool_t) : Z * mem * page_table_pool_t :=
  if cursor p >=? pool_end p then (0, m, p)
  else
    let r := cursor p in
    (r, memzero m r (Z.to_nat PAGE_SIZE), {| cursor := u64 (cursor p + PAGE_SIZE); pool_end := pool_end p |}).

Definition table (e : Z) : Z := Z.land e 0x000ffffffffff000.

(** The table behind the cell at [slot], allocated when the cell is empty; [None] is [return 0].
    Only the two lower levels refuse a large page. *)
Definition next_table (m : mem) (p : page_table_pool_t) (slot : Z) (refuse_large : bool)
    : option Z * mem * page_table_pool_t :=
  let e := load64 m slot in
  if Z.land e PAGE_PRESENT =? 0 then
    let '(t, m, p) := pt_alloc m p in
    if t =? 0 then (None, m, p) else (Some t, store64 m slot (table_entry t), p)
  else if refuse_large && negb (Z.land e PAGE_PS =? 0) then (None, m, p)
  else (Some (table e), m, p).

(** Returns whether the page was mapped, memory and the pool. *)
Definition map4k (m : mem) (p : page_table_pool_t) (pml4 v ph : Z) : bool * mem * page_table_pool_t :=
  let i4 := Z.land (Z.shiftr v 39) 511 in
  let i3 := Z.land (Z.shiftr v 30) 511 in
  let i2 := Z.land (Z.shiftr v 21) 511 in
  let i1 := Z.land (Z.shiftr v 12) 511 in
  match next_table m p (pml4 + 8 * i4) false with
  | (None, m, p) => (false, m, p)
  | (Some pdpt, m, p) =>
      match next_table m p (pdpt + 8 * i3) true with
      | (None, m, p) => (false, m, p)
      | (Some pd, m, p) =>
          match next_table m p (pd + 8 * i2) true with
          | (None, m, p) => (false, m, p)
          | (Some pt, m, p) => (true, store64 m (pt + 8 * i1) (table_entry (Z.land ph 0x000ffffffffff000)), p)
          end
      end
  end.

(** The loop over the identity-mapped gigabytes, [n] iterations from [g] on. *)
Fixpoint identity_loop (m : mem) (p : page_table_pool_t) (pdpt : Z) (n : nat) (g : Z) {struct n}
    : bool * mem * page_table_pool_t :=
  match n with
  | O => (true, m, p)
  | S n' =>
      let '(pd, m, p) := pt_alloc m p in
      if pd =? 0 then (false, m, p)
      else
        let m := store64 m (pdpt + 8 * g) (table_entry pd) in
        identity_loop (table_loop m pd (low_entry g) 512 0) p pdpt n' (g + 1)
  end.

(** The loop over the pages of the kernel, [n] iterations from page [i] on. *)
Fixpoint kernel_loop (m : mem) (p : page_table_pool_t) (pml4 virtual_min kp : Z) (n : nat) (i : Z) {struct n}
    : bool * mem * page_table_pool_t :=
  match n with
  | O => (true, m, p)
  | S n' =>
      match map4k m p pml4 (u64 (virtual_min + u64 (i * PAGE_SIZE))) (u64 (kp + u64 (i * PAGE_SIZE))) with
      | (false, m, p) => (false, m, p)
      | (true, m, p) => kernel_loop m p pml4 virtual_min kp n' (i + 1)
      end
  end.

(** The tables [build_tables] makes in the pool at [pa]: the root, or [None] when the pool ran out
    (or its first table is at address zero, which reads as the null pointer). *)
Definition fill_tables (m : mem) (pa kp virtual_min virtual_max : Z) : option Z * mem :=
  let m := memzero m pa (Z.to_nat (PAGE_TABLE_POOL_PAGES * PAGE_SIZE)) in
  let pool := {| cursor := pa; pool_end := u64 (pa + PAGE_TABLE_POOL_PAGES * PAGE_SIZE) |} in
  let '(pml4, m, pool) := pt_alloc m pool in
  let '(pdpt, m, pool) := pt_alloc m pool in
  if (pml4 =? 0) || (pdpt =? 0) then (None, m)
  else
    let m := store64 m (pml4 + 8 * 0) (table_entry pdpt) in
    match identity_loop m pool pdpt (Z.to_nat IDENTITY_GIB) 0 with
    | (false, m, _) => (None, m)
    | (true, m, pool) =>
        let pages := pages_for (u64 (virtual_max - virtual_min)) in
        match kernel_loop m pool pml4 virtual_min kp (Z.to_nat pages) 0 with
        | (false, m, _) => (None, m)
        | (true, m, _) => (Some pml4, m)
        end
    end.

(** ** Flag bits *)
Lemma land_bit e k : 0 <= k -> (Z.land e (2 ^ k) =? 0) = negb (Z.testbit e k).
Proof.
  intros Hk. destruct (Z.testbit e k) eqn:E; cbn [negb].
  - apply Z.eqb_neq. intros H. assert (Hb : Z.testbit (Z.land e (2 ^ k)) k = false) by by rewrite H, Z.bits_0.
    rewrite Z.land_spec, E, Z.pow2_bits_true in Hb by done. done.
  - apply Z.eqb_eq. apply Z.bits_inj'. intros i Hi. rewrite Z.land_spec, Z.bits_0.
    destruct (Z.eq_dec i k) as [->|Hne]; [by rewrite E|]. by rewrite Z.pow2_bits_false, andb_false_r.
Qed.

(** An entry that points to the aligned address [a]. *)
Lemma table_entry_bits a :
  0 <= a < 2 ^ 52 -> a mod 4096 = 0 ->
  let e := u64 (table_entry a) in present e = true /\ large e = false /\ frame e = a.
Proof.
  intros Ha Hm. cbv zeta. assert (He : table_entry a = 3 + 2 ^ 12 * (a / 4096)).
  { unfold table_entry. rewrite <- Z.lor_assoc. change (Z.lor PAGE_PRESENT PAGE_RW) with 3.
    replace a with (Z.shiftl (a / 4096) 12) at 1 by (rewrite Z.shiftl_mul_pow2 by lia; zdm).
    rewrite Z.lor_comm. apply lor_shiftl_add; lia. }
  rewrite He, u64_id by (unfold in_u64; zdm). unfold present, large. split_and!.
  - rewrite Z.testbit_odd, Z.shiftr_0_r, Z.odd_add, Z.odd_mul. done.
  - rewrite Z.testbit_odd, Z.shiftr_div_pow2 by lia.
    replace ((3 + 2 ^ 12 * (a / 4096)) / 2 ^ 7) with (0 + 2 * (16 * (a / 4096))) by zdm. by rewrite Z.odd_add_mul_2.
  - rewrite frame_spec. zdm.
Qed.

(** ** The tables in the pool

    A table is described by its level and by the part of the address that leads to it; page [k] of
    the pool holds table [k] of the list [T]. *)
Fixpoint position (x : Z * Z) (T : list (Z * Z)) : option Z :=
  match T with
  | [] => None
  | y :: T' => if decide (x = y) then Some 0 else (fun k => 1 + k) <$> position x T'
  end.

Lemma position_lookup x T j : position x T = Some j -> 0 <= j /\ T !! Z.to_nat j = Some x.
Proof.
  revert j. induction T as [|y T IH]; intros j H; cbn in H; [done|].
  destruct (decide (x = y)) as [->|]; [injection H as <-; done|].
  destruct (position x T) as [k|]; [|done]. injection H as <-. destruct (IH k eq_refl) as [Hk Hl].
  split; [lia|]. by replace (Z.to_nat (1 + k)) with (S (Z.to_nat k)) by lia.
Qed.

Lemma position_none x T : position x T = None <-> x ∉ T.
Proof.
  induction T as [|y T IH]; cbn; [split; [set_solver|done]|].
  destruct (decide (x = y)) as [->|Hne]; [split; [done|set_solver]|].
  rewrite not_elem_of_cons. destruct (position x T); cbn; [split; [done|]|]; intuition (done || congruence).
Qed.

Lemma position_snoc x y T :
  position x (T ++ [y]) =
  match position x T with Some j => Some j | None => if decide (x = y) then Some (zlen T) else None end.
Proof.
  induction T as [|z T IH]; cbn; [by destruct (decide (x = y))|].
  destruct (decide (x = z)); [done|]. rewrite IH. destruct (position x T); [done|].
  destruct (decide (x = y)); [|done]. cbn. f_equal. unfold zlen. cbn. lia.
Qed.

Section Pool.
Context (base : Z) (m0 : mem).
Context (Hbase : 0 < base) (Haligned : base mod 4096 = 0) (Hlow : base + 4096 * 48 <= 2 ^ 32).

(** The cell [i] of the table [x], with the leaves [F] (page number to frame). *)
Definition cell (T : list (Z * Z)) (F : gmap Z Z) (x : Z * Z) (i : Z) : Z :=
  let '(l, q) := x in
  if l =? 1 then match F !! (512 * q + i) with Some ph => u64 (table_entry ph) | None => 0 end
  else
    match position (l - 1, 512 * q + i) T with
    | Some j => u64 (table_entry (base + 4096 * j))
    | None => if (l =? 2) && (q <? 4) then u64 (low_entry q i) else 0
    end.

Definition cell_at (k i : Z) : Z := base + 4096 * k + 8 * i.

Record tables (m : mem) (T : list (Z * Z)) (F : gmap Z Z) : Prop := {
  tb_ok : mem_ok m0 -> mem_ok m;
  tb_outside x : x < base \/ base + 4096 * 48 <= x -> m x = m0 x;
  tb_room : (length T <= 48)%nat;
  tb_cells (k : nat) x i : T !! k = Some x -> 0 <= i < 512 -> load64 m (cell_at (Z.of_nat k) i) = cell T F x i;
  tb_nodup : NoDup T;
  tb_root : T !! 0%nat = Some (4, 0);
  tb_parent l q : (l, q) ∈ T -> 1 <= l <= 4 /\ 0 <= q /\ (l < 4 -> (l + 1, q / 512) ∈ T) /\ (l = 1 -> 2048 <= q);
  tb_leaf p ph : F !! p = Some ph -> (1, p / 512) ∈ T /\ 0 <= ph < 2 ^ 52 /\ ph mod 4096 = 0
}.

(** What a cell refers to when its table has no entry of the kind yet. *)
Definition fresh_cell (x : Z * Z) (i : Z) : Z :=
  if (x.1 =? 2) && (x.2 <? 4) then u64 (low_entry x.2 i) else 0.

(** One more table, behind cell [i] of table [k]. *)
Lemma tables_extend m m' T F (k : nat) l q i :
  tables m T F -> T !! k = Some (l, q) -> 2 <= l <= 4 -> 0 <= i < 512 -> (l - 1, 512 * q + i) ∉ T ->
  (length T < 48)%nat -> (l = 2 -> 4 <= q) ->
  (mem_ok m -> mem_ok m') -> (forall x, x < base \/ base + 4096 * 48 <= x -> m' x = m x) ->
  load64 m' (cell_at (Z.of_nat k) i) = u64 (table_entry (base + 4096 * zlen T)) ->
  (forall k' i', (k' < length T)%nat -> 0 <= i' < 512 -> k' <> k \/ i' <> i ->
     load64 m' (cell_at (Z.of_nat k') i') = load64 m (cell_at (Z.of_nat k') i')) ->
  (forall i', 0 <= i' < 512 -> load64 m' (cell_at (zlen T) i') = fresh_cell (l - 1, 512 * q + i) i') ->
  tables m' (T ++ [(l - 1, 512 * q + i)]) F.
Proof.
  intros HT Hk Hl Hi Hy Hroom Hq Hok Hout Hslot Hsame Hnew. pose proof HT as [Ha Hb Hc Hd He Hf Hg Hh].
  set (y := (l - 1, 512 * q + i)) in *.
  destruct (Hg l q) as (_ & Hq0 & _ & _); [by eapply list_elem_of_lookup_2|].
  split.
  - auto.
  - intros x Hx. rewrite Hout, Hb by done. done.
  - rewrite length_app. cbn. lia.
  - intros k' [l' q'] i' Hk' Hi'. destruct (decide (k' = length T)) as [->|Hne].
    + rewrite lookup_app_r, Nat.sub_diag in Hk' by lia. injection Hk' as <- <-.
      change (Z.of_nat (length T)) with (zlen T). rewrite Hnew by done. unfold fresh_cell, cell, y. cbn [fst snd].
      destruct (Z.eqb_spec (l - 1) 1) as [E|E].
      * rewrite (proj2 (Z.eqb_neq (l - 1) 2)) by lia. cbn [andb].
        destruct (F !! _) as [ph|] eqn:EF; [|done]. destruct (Hh _ _ EF) as [Hin _]. exfalso. apply Hy.
        unfold y. rewrite E. replace ((512 * (512 * q + i) + i') / 512) with (512 * q + i) in Hin by zdm. done.
      * fold y. replace (position _ (T ++ [y])) with (@None Z); [done|]. symmetry. apply position_none.
        rewrite elem_of_app, list_elem_of_singleton. intros [Hin|Heq]; [|unfold y in Heq; injection Heq; lia].
        destruct (Hg _ _ Hin) as (_ & _ & Hp & _). apply Hy. unfold y.
        replace (l - 1) with (l - 1 - 1 + 1) by lia.
        replace (512 * q + i) with ((512 * (512 * q + i) + i') / 512) by zdm. apply Hp. lia.
    + assert (Hk'' : T !! k' = Some (l', q')) by (rewrite lookup_app_l in Hk'; [done|]; apply lookup_lt_Some in Hk'; rewrite length_app in Hk'; cbn in Hk'; lia).
      destruct (Hg l' q') as (Hl' & Hq' & _ & _); [by eapply list_elem_of_lookup_2|].
      destruct (decide (k' = k /\ i' = i)) as [[-> ->]|Hki].
      * rewrite Hslot. rewrite Hk in Hk''. injection Hk'' as <- <-. unfold cell.
        rewrite (proj2 (Z.eqb_neq l 1)) by lia. rewrite position_snoc. fold y.
        rewrite (proj2 (position_none y T) Hy). by rewrite decide_True.
      * rewrite Hsame by (apply lookup_lt_Some in Hk''; lia || lia). rewrite (Hd k' (l', q') i' Hk'' Hi').
        unfold cell. destruct (Z.eqb_spec l' 1); [done|]. rewrite position_snoc.
        destruct (position (l' - 1, 512 * q' + i') T); [done|]. rewrite decide_False; [done|].
        unfold y. intros [= E1 E2]. assert (l' = l) by lia. assert (q' = q) by lia. assert (i' = i) by lia. subst.
        apply Hki. split; [|done]. by eapply NoDup_lookup.
  - apply NoDup_app. split; [done|]. split; [|apply NoDup_singleton]. intros x Hx ->%list_elem_of_singleton. done.
  - rewrite lookup_app_l; [done|]. apply lookup_lt_Some in Hf. lia.
  - intros l' q' [Hin|Heq%list_elem_of_singleton]%elem_of_app.
    + destruct (Hg l' q' Hin) as (H1 & H2 & Hp & H3). split; [done|]. split; [done|]. split; [|done]. intros H4. apply elem_of_app. left. auto.
    + unfold y in Heq. injection Heq as -> ->. split; [lia|]. split; [lia|]. split; [|lia]. intros _. apply elem_of_app. left.
      replace (l - 1 + 1) with l by lia. replace ((512 * q + i) / 512) with q by zdm. by eapply list_elem_of_lookup_2.
  - intros p ph Hp. destruct (Hh p ph Hp) as (H1 & H2 & H3). split; [|done]. apply elem_of_app. by left.
Qed.

(** A new leaf in the last table. *)
Lemma tables_leaf m T F (k : nat) q i ph :
  tables m T F -> T !! k = Some (1, q) -> 0 <= i < 512 -> 0 <= ph < 2 ^ 52 -> ph mod 4096 = 0 ->
  tables (store64 m (cell_at (Z.of_nat k) i) (table_entry ph)) T (<[512 * q + i := ph]> F).
Proof.
  intros [Ha Hb Hc Hd He Hf Hg Hh] Hk Hi Hph Hal. pose proof (lookup_lt_Some _ _ _ Hk) as Hkl.
  split; try done.
  - intros Hm. apply store64_ok. auto.
  - intros x Hx. rewrite store64_outside by (unfold cell_at; lia). auto.
  - intros k' [l' q'] i' Hk' Hi'. unfold cell_at in *. rewrite load64_store64 by lia.
    destruct (Hg l' q') as (Hl' & Hq' & _); [by eapply list_elem_of_lookup_2|].
    destruct (Z.eqb_spec (base + 4096 * Z.of_nat k' + 8 * i') (base + 4096 * Z.of_nat k + 8 * i)) as [E|E].
    + assert (k' = k) by lia. assert (i' = i) by lia. subst. rewrite Hk in Hk'. injection Hk' as <- <-.
      unfold cell. cbn [Z.eqb]. by rewrite lookup_insert_eq.
    + rewrite (Hd k' (l', q') i' Hk' Hi'). unfold cell. destruct (Z.eqb_spec l' 1) as [->|]; [|done].
      rewrite lookup_insert_ne; [done|]. intros Heq. assert (q' = q) by lia. assert (i' = i) by lia. subst.
      apply E. do 2 f_equal. f_equal. assert (k' = k) by by eapply NoDup_lookup. by subst.
  - intros p ph' [[<- <-]|[_ Hp]]%lookup_insert_Some; [|by apply Hh].
    split; [|done]. replace ((512 * q + i) / 512) with q by zdm. by eapply list_elem_of_lookup_2.
Qed.

(** The pool after the tables in [T] were taken from it. *)
Definition pool_after (T : list (Z * Z)) : page_table_pool_t :=
  {| cursor := base + 4096 * zlen T; pool_end := base + 4096 * 48 |}.

Lemma pt_alloc_run m T :
  (length T < 48)%nat ->
  pt_alloc m (pool_after T) =
  (base + 4096 * zlen T, memzero m (base + 4096 * zlen T) (Z.to_nat 4096), {| cursor := base + 4096 * (zlen T + 1); pool_end := base + 4096 * 48 |}).
Proof.
  intros Hr. unfold pt_alloc, pool_after, PAGE_SIZE. cbn [cursor pool_end].
  assert (0 <= zlen T < 48) by (unfold zlen; lia).
  rewrite Z.geb_leb, (proj2 (Z.leb_gt _ _)) by lia. rewrite u64_id by (unfold in_u64; lia).
  by replace (base + 4096 * zlen T + 4096) with (base + 4096 * (zlen T + 1)) by lia.
Qed.

Lemma pool_after_snoc T x : {| cursor := base + 4096 * (zlen T + 1); pool_end := base + 4096 * 48 |} = pool_after (T ++ [x]).
Proof. unfold pool_after, zlen. rewrite length_app. cbn [length]. f_equal. lia. Qed.

Lemma table_address_bits j :
  0 <= j < 48 -> let e := u64 (table_entry (base + 4096 * j)) in present e = true /\ large e = false /\ frame e = base + 4096 * j.
Proof. intros Hj. apply table_entry_bits; [lia|]. rewrite Z.mul_comm, Z.mod_add by lia. done. Qed.

(** The stores that put a fresh table behind cell [i] of table [k]. *)
Lemma tables_link m T F (k : nat) l q i :
  tables m T F -> T !! k = Some (l, q) -> 2 <= l <= 4 -> 0 <= i < 512 -> (l - 1, 512 * q + i) ∉ T ->
  (length T < 48)%nat -> (l = 2 -> 4 <= q) -> (l = 3 -> 4 <= 512 * q + i) ->
  tables (store64 (memzero m (base + 4096 * zlen T) (Z.to_nat 4096)) (cell_at (Z.of_nat k) i) (table_entry (base + 4096 * zlen T)))
    (T ++ [(l - 1, 512 * q + i)]) F.
Proof.
  intros HT Hk Hl Hi Hy Hr H2 H3. pose proof (lookup_lt_Some _ _ _ Hk) as Hkl.
  assert (Hz : zlen T = Z.of_nat (length T)) by done. unfold cell_at in *.
  apply (tables_extend m) with (k := k); try done; unfold cell_at.
  - intros Hm. apply store64_ok, memzero_ok, Hm.
  - intros x Hx. rewrite store64_outside by lia. rewrite memzero_spec. ranges; done.
  - rewrite load64_store64, Z.eqb_refl by lia. done.
  - intros k' i' Hk' Hi' Hne. rewrite load64_store64, (proj2 (Z.eqb_neq _ _)) by lia.
    apply load64_ext. intros x Hx. rewrite memzero_spec. ranges; done.
  - intros i' Hi'. rewrite load64_store64, (proj2 (Z.eqb_neq _ _)) by lia.
    rewrite load64_memzero by lia. unfold fresh_cell. cbn [fst snd].
    destruct (Z.eqb_spec (l - 1) 2); [|done]. by rewrite (proj2 (Z.ltb_ge _ _)) by lia.
Qed.

Lemma next_table_run m T F L (k : nat) l q i refuse :
  tables m T F -> T !! k = Some (l, q) -> 2 <= l <= 4 -> 0 <= i < 512 ->
  T ⊆ L -> (l - 1, 512 * q + i) ∈ L -> (length L <= 48)%nat ->
  (l = 2 -> 4 <= q) -> (l = 3 -> 4 <= 512 * q + i) ->
  exists m' T' (j : nat),
    next_table m (pool_after T) (cell_at (Z.of_nat k) i) refuse = (Some (base + 4096 * Z.of_nat j), m', pool_after T') /\
    tables m' T' F /\ T ⊆ T' /\ T' ⊆ L /\ T' !! j = Some (l - 1, 512 * q + i).
Proof.
  intros HT Hk Hl Hi HL Hy HLl H2 H3. unfold next_table. change PAGE_PRESENT with (2 ^ 0). change PAGE_PS with (2 ^ 7).
  rewrite !land_bit by lia. rewrite (tb_cells _ _ _ HT k (l, q) i Hk Hi). unfold cell.
  rewrite (proj2 (Z.eqb_neq l 1)) by lia.
  destruct (position (l - 1, 512 * q + i) T) as [j|] eqn:E.
  - apply position_lookup in E as [Hj Hjl]. pose proof (lookup_lt_Some _ _ _ Hjl) as Hjt. pose proof (tb_room _ _ _ HT).
    destruct (table_address_bits j ltac:(lia)) as (Hp & Hla & Hf). unfold present, large in *. rewrite Hp, Hla.
    cbn [negb]. rewrite andb_false_r. exists m, T, (Z.to_nat j). rewrite Z2Nat.id by done. unfold table. unfold frame in Hf. by rewrite Hf.
  - apply position_none in E.
    replace ((l =? 2) && (q <? 4)) with false by (destruct (Z.eqb_spec l 2); [rewrite (proj2 (Z.ltb_ge _ _)) by lia|]; done).
    rewrite Z.bits_0. cbn [negb].
    assert (Hlt : (length T < 48)%nat).
    { assert (Hs : T ++ [(l - 1, 512 * q + i)] ⊆+ L).
      { apply NoDup_submseteq; [|intros x Hx; set_solver]. apply NoDup_app. split; [apply HT|].
        split; [set_solver|apply NoDup_singleton]. }
      apply submseteq_length in Hs. rewrite length_app in Hs. cbn in Hs. lia. }
    rewrite pt_alloc_run by done. rewrite (proj2 (Z.eqb_neq _ 0)) by (unfold zlen; lia).
    rewrite (pool_after_snoc T (l - 1, 512 * q + i)).
    eexists _, (T ++ [(l - 1, 512 * q + i)]), (length T). split; [done|]. split_and!.
    + by apply tables_link.
    + set_solver.
    + set_solver.
    + by rewrite lookup_app_r, Nat.sub_diag by lia.
Qed.

(** ** One page *)
Definition level3 (v : Z) : Z := (v / 2 ^ 39) mod 2 ^ 9.
Definition level2 (v : Z) : Z := (v / 2 ^ 30) mod 2 ^ 18.
Definition level1 (v : Z) : Z := (v / 2 ^ 21) mod 2 ^ 27.
Definition page_number (v : Z) : Z := (v / 2 ^ 12) mod 2 ^ 36.

(** The indices of the walk, put together. *)
Lemma level_index v :
  512 * 0 + index v 39 = level3 v /\ 512 * level3 v + index v 30 = level2 v /\
  512 * level2 v + index v 21 = level1 v /\ 512 * level1 v + index v 12 = page_number v.
Proof.
  rewrite !index_spec by lia. unfold level3, level2, level1, page_number. change (2 ^ 9) with 512.
  split; [lia|]. split_and!; zdm.
Qed.

Lemma map4k_run m T F L v ph :
  tables m T F -> T ⊆ L -> (length L <= 48)%nat -> 4 <= level2 v ->
  (3, level3 v) ∈ L -> (2, level2 v) ∈ L -> (1, level1 v) ∈ L ->
  0 <= ph < 2 ^ 52 -> ph mod 4096 = 0 ->
  exists m' T', map4k m (pool_after T) base v ph = (true, m', pool_after T') /\
    tables m' T' (<[page_number v := ph]> F) /\ T ⊆ T' /\ T' ⊆ L.
Proof.
  intros HT HL Hlen Hv L3 L2 L1 Hph Hal. unfold map4k. fold (index v 39) (index v 30) (index v 21) (index v 12).
  pose proof (index_range v 39 ltac:(lia)) as R4. pose proof (index_range v 30 ltac:(lia)) as R3.
  pose proof (index_range v 21 ltac:(lia)) as R2. pose proof (index_range v 12 ltac:(lia)) as R1.
  destruct (level_index v) as (E4 & E3 & E2 & E1).
  replace (base + 8 * index v 39) with (cell_at (Z.of_nat 0) (index v 39)) by (unfold cell_at; cbn; lia).
  pose proof (next_table_run m T F L 0%nat 4 0 (index v 39) false HT (tb_root _ _ _ HT) ltac:(lia) R4 HL) as N4.
  rewrite E4 in N4. destruct (N4 L3 Hlen ltac:(lia) ltac:(lia)) as (m1 & T1 & j1 & -> & HT1 & HS1 & HL1 & Hj1). clear N4.
  pose proof (next_table_run m1 T1 F L j1 3 (level3 v) (index v 30) true HT1 Hj1 ltac:(lia) R3 HL1) as N3.
  rewrite E3 in N3. destruct (N3 L2 Hlen ltac:(lia) ltac:(lia)) as (m2 & T2 & j2 & N3' & HT2 & HS2 & HL2 & Hj2). clear N3.
  unfold cell_at in N3' at 1. rewrite N3'.
  pose proof (next_table_run m2 T2 F L j2 2 (level2 v) (index v 21) true HT2 Hj2 ltac:(lia) R2 HL2) as N2.
  rewrite E2 in N2. destruct (N2 L1 Hlen ltac:(lia) ltac:(lia)) as (m3 & T3 & j3 & N2' & HT3 & HS3 & HL3 & Hj3). clear N2.
  unfold cell_at in N2' at 1. rewrite N2'.
  eexists _, T3. split; [done|]. split; [|split; [by etrans; [|etrans]|done]].
  replace (Z.land ph 0x000ffffffffff000) with ph by (fold (frame ph); rewrite frame_spec; zdm).
  rewrite <- E1. by apply tables_leaf.
Qed.

(** ** The walk through the tables *)
Lemma level_div v : level3 v = level2 v / 512 /\ level2 v = level1 v / 512 /\ level1 v = page_number v / 512.
Proof. unfold level3, level2, level1, page_number. split_and!; zdm. Qed.

(** A table is there only with the tables above it, and a leaf only with its table. *)
Lemma ancestors m T F v :
  tables m T F ->
  ((2, level2 v) ∈ T -> (3, level3 v) ∈ T) /\ ((1, level1 v) ∈ T -> (2, level2 v) ∈ T) /\
  (is_Some (F !! page_number v) -> (1, level1 v) ∈ T).
Proof.
  intros HT. destruct (level_div v) as (E3 & E2 & E1). split_and!.
  - intros H. destruct (tb_parent _ _ _ HT _ _ H) as (_ & _ & Hp & _). rewrite E3. apply Hp. lia.
  - intros H. destruct (tb_parent _ _ _ HT _ _ H) as (_ & _ & Hp & _). rewrite E2. apply Hp. lia.
  - intros [ph H]. rewrite E1. by eapply tb_leaf.
Qed.

(** A cell of an upper table, as the walk reads it. *)
Lemma read_cell m T F j l q i :
  tables m T F -> position (l, q) T = Some j -> 0 <= i < 512 ->
  0 <= j < 48 /\ load64 m (base + 4096 * j + 8 * i) = cell T F (l, q) i.
Proof.
  intros HT Hj Hi. apply position_lookup in Hj as [H0 Hl]. pose proof (lookup_lt_Some _ _ _ Hl). pose proof (tb_room _ _ _ HT).
  split; [lia|]. rewrite <- (tb_cells _ _ _ HT _ _ _ Hl Hi). unfold cell_at. by rewrite Z2Nat.id.
Qed.

Lemma frame_base : frame base = base.
Proof. rewrite frame_spec. zdm. Qed.

Lemma not_low v : canonical v = true -> in_u64 v -> level2 v < 4 <-> v < 2 ^ 32.
Proof. unfold canonical, in_u64, level2. intros Hc Hv. apply orb_true_iff in Hc. split; [intros H|]; zdm. Qed.

Lemma translate_pool m T F v :
  tables m T F -> (forall g, 0 <= g < 4 -> (2, g) ∈ T) -> in_u64 v -> canonical v = true ->
  translate m base v =
  if v <? 2 ^ 32 then Some v else match F !! page_number v with Some ph => Some (ph + v mod 4096) | None => None end.
Proof.
  intros HT Hg Hv Hc. destruct (ancestors m T F v HT) as (A2 & A1 & AF). pose proof (not_low v Hc Hv) as Hlow32.
  pose proof (index_range v 39 ltac:(lia)) as R4. pose proof (index_range v 30 ltac:(lia)) as R3.
  pose proof (index_range v 21 ltac:(lia)) as R2. pose proof (index_range v 12 ltac:(lia)) as R1.
  destruct (level_index v) as (E4 & E3 & E2 & E1).
  assert (L2 : 0 <= level2 v) by (unfold level2; zdm).
  assert (Hnone : (1, level1 v) ∉ T -> F !! page_number v = None)
    by (intros H; destruct (F !! page_number v) eqn:EF; [exfalso; apply H, AF; by eexists|done]).
  assert (Hlow2 : (2, level2 v) ∉ T -> (v <? 2 ^ 32) = false).
  { intros H. apply Z.ltb_ge. destruct (Z.le_gt_cases (2 ^ 32) v) as [|Hlt]; [done|]. exfalso. apply H, Hg. lia. }
  unfold translate. rewrite Hc, frame_base. cbn [negb].
  pose proof (tb_cells _ _ _ HT 0%nat (4, 0) (index v 39) (tb_root _ _ _ HT) R4) as C4.
  unfold cell_at in C4. change (Z.of_nat 0) with 0 in C4. rewrite Z.mul_0_r, Z.add_0_r in C4. rewrite C4.
  unfold cell. cbn [Z.eqb Pos.eqb andb]. change (4 - 1) with 3. rewrite E4.
  destruct (position (3, level3 v) T) as [j3|] eqn:P3.
  2: { apply position_none in P3. rewrite Hlow2, Hnone by (intros ?; apply P3; auto). done. }
  destruct (read_cell m T F j3 3 (level3 v) (index v 30) HT P3 R3) as [B3 C3].
  destruct (table_address_bits j3 B3) as (-> & _ & ->). cbn [negb]. rewrite C3.
  unfold cell. cbn [Z.eqb Pos.eqb andb]. change (3 - 1) with 2. rewrite E3.
  destruct (position (2, level2 v) T) as [j2|] eqn:P2.
  2: { apply position_none in P2. rewrite Hlow2, Hnone by (intros ?; apply P2; auto). done. }
  destruct (read_cell m T F j2 2 (level2 v) (index v 21) HT P2 R2) as [B2 C2].
  destruct (table_address_bits j2 B2) as (-> & -> & ->). cbn [negb]. rewrite C2.
  unfold cell. cbn [Z.eqb Pos.eqb andb]. change (2 - 1) with 1. rewrite E2.
  destruct (position (1, level1 v) T) as [j1|] eqn:P1.
  - destruct (read_cell m T F j1 1 (level1 v) (index v 12) HT P1 R1) as [B1 C1].
    destruct (table_address_bits j1 B1) as (-> & -> & ->). cbn [negb]. rewrite C1.
    unfold cell. cbn [Z.eqb Pos.eqb]. rewrite E1. apply position_lookup in P1 as [_ P1].
    destruct (tb_parent _ _ _ HT 1 (level1 v)) as (_ & _ & _ & H2048); [by eapply list_elem_of_lookup_2|].
    replace (v <? 2 ^ 32) with false by lia. destruct (F !! page_number v) as [ph|] eqn:EF; [|done].
    destruct (tb_leaf _ _ _ HT _ _ EF) as (_ & Hph & Hal). destruct (table_entry_bits ph Hph Hal) as (-> & _ & ->).
    cbn [negb]. change 0xfff with (Z.ones 12). by rewrite (Z.land_ones v 12).
  - apply position_none in P1. rewrite Hnone by done. destruct (Z.ltb_spec v (2 ^ 32)) as [Hlt|Hge].
    + rewrite (proj2 (Z.ltb_lt (level2 v) 4)) by lia. rewrite low_entry_spec by lia.
      destruct (large_entry (512 * level2 v + index v 21)) as (-> & -> & ->); [lia|]. cbn [negb].
      f_equal. change 0x1fffff with (Z.ones 21). rewrite Z.land_ones by lia. rewrite E2. unfold level1. unfold in_u64 in Hv. zdm.
    + rewrite (proj2 (Z.ltb_ge (level2 v) 4)) by lia. done.
Qed.

(** ** The identity-mapped part *)
Definition first_tables (g : Z) : list (Z * Z) := (4, 0) :: (3, 0) :: map (fun k => (2, k)) (seqZ 0 g).

Lemma first_tables_S g : 0 <= g -> first_tables (g + 1) = first_tables g ++ [(2, g)].
Proof.
  intros Hg. unfold first_tables. cbn [app]. do 2 f_equal.
  rewrite (seqZ_app 0 g 1) by lia. rewrite map_app. done.
Qed.

Lemma zlen_first_tables g : 0 <= g -> zlen (first_tables g) = g + 2.
Proof. intros Hg. unfold first_tables, zlen. cbn [length]. rewrite length_map, length_seqZ. lia. Qed.

Lemma not_in_first g k : 0 <= g -> (2, k) ∈ first_tables g <-> 0 <= k < g.
Proof.
  intros Hg. unfold first_tables. rewrite !elem_of_cons, list_elem_of_fmap. split.
  - intros [?|[?|(y & [= ->] & Hy%elem_of_seqZ)]]; [done..|lia].
  - intros H. right; right. exists k. split; [done|]. apply elem_of_seqZ. lia.
Qed.

Lemma identity_step m g :
  0 <= g < 4 -> tables m (first_tables g) ∅ ->
  let pd := base + 4096 * (g + 2) in
  tables (table_loop (store64 (memzero m pd (Z.to_nat 4096)) (cell_at 1 g) (table_entry pd)) pd (low_entry g) 512 0)
    (first_tables (g + 1)) ∅.
Proof.
  intros Hg HT pd. rewrite first_tables_S by lia. pose proof (zlen_first_tables g ltac:(lia)) as Hz.
  replace (2, g) with (3 - 1, 512 * 0 + g) by (f_equal; lia).
  assert (Hlen : length (first_tables g) = Z.to_nat (g + 2)) by (unfold zlen in Hz; lia).
  apply (tables_extend m) with (k := 1%nat); try done; try lia; unfold pd, cell_at; cbn [Z.of_nat Pos.of_succ_nat].
  - change (3 - 1, 512 * 0 + g) with (2, g). rewrite not_in_first; lia.
  - intros Hm. apply table_loop_ok, store64_ok, memzero_ok, Hm.
  - intros x Hx. rewrite table_loop_outside, store64_outside by lia. rewrite memzero_spec. ranges; done.
  - rewrite load64_table_loop by zdm. rewrite load64_store64 by lia. rewrite Hz. ranges; done.
  - intros k' i' Hk' Hi' Hne. rewrite load64_table_loop by zdm. rewrite load64_store64 by lia. ranges.
    apply load64_ext. intros x Hx. rewrite memzero_spec. ranges; done.
  - intros i' Hi'. rewrite Hz. rewrite load64_table_loop by zdm. unfold fresh_cell. cbn [fst snd]. ranges.
    cbn [andb]. rewrite (proj2 (Z.ltb_lt _ _)) by lia. do 2 f_equal; zdm.
Qed.

Lemma identity_loop_run n : forall m g,
  g + Z.of_nat n = 4 -> 0 <= g -> tables m (first_tables g) ∅ ->
  exists m', identity_loop m (pool_after (first_tables g)) (base + 4096) n g = (true, m', pool_after (first_tables 4)) /\
    tables m' (first_tables 4) ∅.
Proof.
  induction n as [|n IH]; intros m g Hn Hg HT.
  { replace g with 4 in * by lia. by exists m. }
  cbn [identity_loop]. pose proof (zlen_first_tables g Hg) as Hz.
  rewrite pt_alloc_run by (unfold zlen in Hz; lia). rewrite (pool_after_snoc _ (2, g)), <- first_tables_S, Hz by lia.
  rewrite (proj2 (Z.eqb_neq _ 0)) by lia. replace (base + 4096 + 8 * g) with (cell_at 1 g) by (unfold cell_at; lia).
  apply (IH _ (g + 1)); [lia|lia|]. apply identity_step; [lia|done].
Qed.

Lemma first_tables_run :
  let m := memzero (memzero m0 base (Z.to_nat (PAGE_TABLE_POOL_PAGES * PAGE_SIZE))) base (Z.to_nat 4096) in
  tables (store64 (memzero m (base + 4096) (Z.to_nat 4096)) base (table_entry (base + 4096))) (first_tables 0) ∅.
Proof.
  intros m. assert (HT : tables m [(4, 0)] ∅).
  { unfold m, PAGE_TABLE_POOL_PAGES, PAGE_SIZE. split.
    - intros Hm. by apply memzero_ok, memzero_ok.
    - intros x Hx. rewrite !memzero_spec. ranges; done.
    - cbn. lia.
    - intros k x i Hk Hi. destruct k as [|k]; [|done]. injection Hk as <-. cbn [cell].
      rewrite load64_memzero by (unfold cell_at; cbn; lia). cbn [Z.eqb Pos.eqb andb position].
      by rewrite decide_False by (intros [=]).
    - apply NoDup_singleton.
    - done.
    - intros l q Hin. apply list_elem_of_singleton in Hin. injection Hin as -> ->. lia.
    - intros p ph H. by rewrite lookup_empty in H. }
  clearbody m. pose proof (tables_link m [(4, 0)] ∅ 0%nat 4 0 0 HT eq_refl) as H. unfold cell_at in H.
  change (Z.of_nat 0) with 0 in H. change (zlen [(4, 0)]) with 1 in H. change (first_tables 0) with ([(4, 0)] ++ [(4 - 1, 512 * 0 + 0)]).
  replace (base + 4096 * 0 + 8 * 0) with base in H by lia. rewrite Z.mul_1_r in H.
  apply H; [lia|lia| |cbn; lia|lia|lia]. intros [=]%list_elem_of_singleton.
Qed.

(** ** The kernel's pages *)
Section Kernel.
Context (virtual_min virtual_max kp : Z).
Context (Hfloor : 0xffffffff80000000 <= virtual_min) (Hmax : virtual_min < virtual_max < 2 ^ 64).
Context (Hspan : virtual_max - virtual_min <= 0x4000000).
Context (Hkp : 0 <= kp) (Hkpa : kp mod 4096 = 0) (Hkplow : kp + (virtual_max - virtual_min) <= 2 ^ 32).

Definition kernel_pages : Z := (virtual_max - virtual_min + 4095) / 4096.
Definition first_page : Z := virtual_min / 4096.

(** The tables that may ever be needed: 42 of the 48 the pool has. *)
Definition needed_tables : list (Z * Z) :=
  first_tables 4 ++ [(3, 511); (2, 262142); (2, 262143)] ++ map (fun q => (1, q)) (seqZ (level1 virtual_min) 33).

Lemma needed_enough : (length needed_tables <= 48)%nat.
Proof.
  unfold needed_tables. rewrite !length_app, length_map, length_seqZ.
  pose proof (zlen_first_tables 4 ltac:(lia)) as H. unfold zlen in H. cbn [length]. lia.
Qed.

(** Page [i] of the kernel. *)
Lemma kernel_page_levels i :
  0 <= i < kernel_pages ->
  let v := virtual_min + 4096 * i in
  virtual_min <= v < virtual_max /\ 4 <= level2 v /\
  (3, level3 v) ∈ needed_tables /\ (2, level2 v) ∈ needed_tables /\ (1, level1 v) ∈ needed_tables /\
  page_number v = page_number virtual_min + i.
Proof.
  intros Hi v. assert (Hv : virtual_min <= v < virtual_max) by (unfold v, kernel_pages in *; zdm).
  assert (H3 : level3 v = 511) by (unfold level3; zdm).
  assert (H2 : level2 v = 262142 \/ level2 v = 262143) by (unfold level2; zdm).
  assert (H1 : level1 virtual_min <= level1 v < level1 virtual_min + 33) by (unfold level1; zdm).
  unfold needed_tables. rewrite H3. split_and!; try lia.
  - set_solver.
  - destruct H2 as [-> | ->]; set_solver.
  - rewrite !elem_of_app, list_elem_of_fmap. right. right. exists (level1 v). split; [done|]. apply elem_of_seqZ. lia.
  - unfold page_number, v in *. zdm.
Qed.

(** The leaves after the first [i] pages. *)
Definition leaves (F : gmap Z Z) (i : Z) : Prop :=
  forall p, F !! p = if inside (page_number virtual_min) i p then Some (kp + 4096 * (p - page_number virtual_min)) else None.

Lemma kernel_loop_run n : forall m T F i,
  0 <= i -> i + Z.of_nat n = kernel_pages -> tables m T F -> T ⊆ needed_tables -> first_tables 4 ⊆ T -> leaves F i ->
  exists m' T' F' p', kernel_loop m (pool_after T) base virtual_min kp n i = (true, m', p') /\
    tables m' T' F' /\ first_tables 4 ⊆ T' /\ leaves F' kernel_pages.
Proof.
  induction n as [|n IH]; intros m T F i Hi Hn HT HL Hfirst HF.
  { replace i with kernel_pages in * by lia. by exists m, T, F, (pool_after T). }
  cbn [kernel_loop]. unfold PAGE_SIZE.
  destruct (kernel_page_levels i ltac:(lia)) as (Hv & Hl2 & L3 & L2 & L1 & Hp). cbv zeta in *.
  assert (Hk : 4096 * i < virtual_max - virtual_min) by lia.
  rewrite (u64_id (i * 4096)), !u64_id by (unfold in_u64; lia). rewrite (Z.mul_comm i).
  destruct (map4k_run m T F needed_tables (virtual_min + 4096 * i) (kp + 4096 * i) HT HL needed_enough Hl2 L3 L2 L1)
    as (m1 & T1 & -> & HT1 & HS1 & HL1); [lia|zdm|].
  destruct (IH m1 T1 (<[page_number (virtual_min + 4096 * i) := kp + 4096 * i]> F) (i + 1))
    as (m' & T' & F' & p' & H & Ht & Hf & Hl); try done; try lia.
  - by etrans.
  - intros p. rewrite Hp. destruct (decide (p = page_number virtual_min + i)) as [->|Hne].
    + rewrite lookup_insert_eq. ranges. do 2 f_equal. lia.
    + rewrite lookup_insert_ne, HF by done. ranges; done.
  - by exists m', T', F', p'.
Qed.

(** What the finished tables mean. *)
Definition meaning (v : Z) : option Z :=
  if v <? 2 ^ 32 then Some v
  else if inside (4096 * first_page) (4096 * kernel_pages) v then Some (kp + (v - 4096 * first_page)) else None.

Lemma translate_finished m T F v :
  tables m T F -> first_tables 4 ⊆ T -> leaves F kernel_pages -> in_u64 v -> translate m base v = meaning v.
Proof.
  intros HT Hfirst HF Hv. unfold in_u64 in Hv. unfold meaning, first_page, kernel_pages in *.
  destruct (canonical v) eqn:Hc.
  - rewrite (translate_pool m T F v HT) by (try done; intros g Hg; apply Hfirst, not_in_first; lia).
    destruct (Z.ltb_spec v (2 ^ 32)) as [|Hge]; [done|]. rewrite HF. unfold canonical in Hc. apply orb_true_iff in Hc.
    unfold page_number. destruct (inside_spec (4096 * (virtual_min / 4096)) (4096 * ((virtual_max - virtual_min + 4095) / 4096)) v) as [Hin|Hout].
    + ranges; [|exfalso; zdm]. f_equal. zdm.
    + ranges; [|done]. exfalso. zdm.
  - unfold translate. rewrite Hc. cbn [negb]. unfold canonical in Hc. apply orb_false_iff in Hc as [H1 H2].
    rewrite (proj2 (Z.ltb_ge v (2 ^ 32))) by lia. ranges; [|done]. exfalso. zdm.
Qed.

Lemma fill_tables_run :
  exists m' T F, fill_tables m0 base kp virtual_min virtual_max = (Some base, m') /\
    tables m' T F /\ first_tables 4 ⊆ T /\ leaves F kernel_pages.
Proof.
  unfold fill_tables. rewrite (u64_id (base + _)) by (unfold in_u64, PAGE_TABLE_POOL_PAGES, PAGE_SIZE; lia).
  replace {| cursor := base; pool_end := base + PAGE_TABLE_POOL_PAGES * PAGE_SIZE |} with (pool_after [])
    by (unfold pool_after, zlen, PAGE_TABLE_POOL_PAGES, PAGE_SIZE; cbn; f_equal; lia).
  rewrite pt_alloc_run by (cbn; lia). rewrite (pool_after_snoc [] (4, 0)). cbn [app].
  rewrite pt_alloc_run by (cbn; lia). rewrite (pool_after_snoc [(4, 0)] (3, 0)).
  change (zlen (@nil (Z * Z))) with 0. change (zlen [(4, 0)]) with 1. rewrite Z.mul_0_r, Z.add_0_r, Z.mul_1_r.
  rewrite !(proj2 (Z.eqb_neq _ 0)) by lia. cbn [orb]. change (8 * 0) with 0. rewrite Z.add_0_r.
  change ([(4, 0)] ++ [(3, 0)]) with (first_tables 0).
  destruct (identity_loop_run 4 _ 0 eq_refl ltac:(lia) first_tables_run) as (m1 & Hid & HT1).
  change (Z.to_nat IDENTITY_GIB) with 4%nat. rewrite Hid.
  assert (Hp : pages_for (u64 (virtual_max - virtual_min)) = kernel_pages).
  { unfold pages_for, PAGE_SIZE, kernel_pages. rewrite (u64_id (virtual_max - virtual_min)), u64_id by (unfold in_u64; lia). f_equal. lia. }
  rewrite Hp. assert (0 <= kernel_pages) by (unfold kernel_pages; zdm).
  destruct (kernel_loop_run (Z.to_nat kernel_pages) m1 (first_tables 4) ∅ 0) as (m' & T' & F' & p' & Hk & HT & Hf & Hl); try done; try lia.
  - intros x Hx. unfold needed_tables. apply elem_of_app. by left.
  - intros p. rewrite lookup_empty. by ranges.
  - rewrite Hk. by exists m', T', F'.
Qed.
End Kernel.
End Pool.

(** Only the pool matters. *)
Lemma tables_agree base m0 m m' T F :
  tables base m0 m T F -> (forall x, base <= x < base + 4096 * 48 -> m' x = m x) -> tables base m' m' T F.
Proof.
  intros [Ha Hb Hc Hd He Hf Hg Hh] Hag. split; try done. intros k x i Hk Hi. rewrite <- (Hd k x i Hk Hi).
  apply lookup_lt_Some in Hk. apply load64_ext. intros y Hy. apply Hag. unfold cell_at in Hy. lia.
Qed.

(** The tables are built, and mean the same in every memory with the same pool. *)
Lemma fill_tables_meaning m pa kp virtual_min virtual_max :
  0 < pa -> pa mod 4096 = 0 -> pa + 4096 * 48 <= 2 ^ 32 ->
  0xffffffff80000000 <= virtual_min -> virtual_min < virtual_max < 2 ^ 64 ->
  virtual_max - virtual_min <= 64 * 1024 * 1024 ->
  0 <= kp -> kp mod 4096 = 0 -> kp + (virtual_max - virtual_min) <= 2 ^ 32 ->
  exists m', fill_tables m pa kp virtual_min virtual_max = (Some pa, m') /\ (mem_ok m -> mem_ok m') /\
    (forall x, x < pa \/ pa + 4096 * 48 <= x -> m' x = m x) /\
    forall m'', (forall x, pa <= x < pa + 4096 * 48 -> m'' x = m' x) ->
      forall v, in_u64 v -> translate m'' pa v = meaning virtual_min virtual_max kp v.
Proof.
  intros Hpa Hal Hlow Hf Hm Hs Hkp Hka Hkl.
  destruct (fill_tables_run pa m Hpa Hal Hlow virtual_min virtual_max kp Hf Hm Hs Hkp Hka Hkl) as (m' & T & F & H & HT & Hfirst & HF).
  exists m'. split; [done|]. split; [apply HT|]. split; [apply HT|]. intros m'' Hag v Hv.
  pose proof (tables_agree _ _ _ _ _ _ HT Hag) as HT'. by eapply translate_finished.
Qed.

(** C21: The page tables of the UEFI loader. With any 48 aligned pages below 4 GiB, not at address
    0, as pool and a kernel of at most 64 MiB in the top two gibibytes that is loaded at an aligned
    address below 4 GiB, building the tables never runs out of pool pages,
    writes nothing outside the pool, and the tables mean exactly this: the first 4 GiB are identity
    mapped, the pages from the one of [virtual_min] on are mapped to the kernel's physical pages in
    order, as many as the kernel's size needs, and every other address faults. *)
Theorem uefi_tables_translation (m : mem) (pa kp virtual_min virtual_max : Z) :
  0 < pa -> pa mod 4096 = 0 -> pa + 4096 * 48 <= 2 ^ 32 ->
  0xffffffff80000000 <= virtual_min -> virtual_min < virtual_max < 2 ^ 64 ->
  virtual_max - virtual_min <= 64 * 1024 * 1024 ->
  0 <= kp -> kp mod 4096 = 0 -> kp + (virtual_max - virtual_min) <= 2 ^ 32 ->
  exists m', fill_tables m pa kp virtual_min virtual_max = (Some pa, m') /\
    (forall x, x < pa \/ pa + 4096 * 48 <= x -> m' x = m x) /\
    forall v, in_u64 v -> translate m' pa v =
      let first := 4096 * (virtual_min / 4096) in
      if v <? 2 ^ 32 then Some v
      else if inside first (4096 * ((virtual_max - virtual_min + 4095) / 4096)) v then Some (kp + (v - first)) else None.
Proof.
  intros Hpa Hal Hlow Hf Hm Hs Hkp Hka Hkl.
  destruct (fill_tables_meaning m pa kp virtual_min virtual_max) as (m' & H & _ & Ho & Ht); try done.
  exists m'. split; [done|]. split; [done|]. by apply Ht.
Qed.

Lemma uefi_tables_translation_witness :
  exists m', fill_tables (fun _ => 0xff) 0x100000 0x300000 0xffffffff80000000 0xffffffff80002001 = (Some 0x100000, m') /\
    translate m' 0x100000 0xffffffff80001234 = Some 0x301234 /\
    translate m' 0x100000 0xffffffff80003000 = None.
Proof.
  destruct (uefi_tables_translation (fun _ => 0xff) 0x100000 0x300000 0xffffffff80000000 0xffffffff80002001)
    as (m' & H & _ & Ht); [reflexivity|reflexivity|discriminate|discriminate|split; reflexivity|discriminate|discriminate|reflexivity|discriminate|].
  exists m'. split; [exact H|]. split; (rewrite Ht by (split; [discriminate|reflexivity])); reflexivity.
Defined.

(** A kernel that starts [d] bytes into a page is mapped [d] bytes too low: the address [v] of the
    kernel leads to the byte [d] behind its own. *)
Lemma uefi_tables_shifted (m : mem) (pa kp virtual_min virtual_max d v : Z) :
  0 < pa -> pa mod 4096 = 0 -> pa + 4096 * 48 <= 2 ^ 32 ->
  0xffffffff80000000 <= virtual_min -> virtual_min < virtual_max < 2 ^ 64 ->
  virtual_max - virtual_min <= 64 * 1024 * 1024 ->
  0 <= kp -> kp mod 4096 = 0 -> kp + (virtual_max - virtual_min) <= 2 ^ 32 ->
  virtual_min mod 4096 = d -> virtual_min <= v < virtual_max ->
  exists m', fill_tables m pa kp virtual_min virtual_max = (Some pa, m') /\
    translate m' pa v =
      if v <? 4096 * (virtual_min / 4096) + 4096 * ((virtual_max - virtual_min + 4095) / 4096)
      then Some (kp + (v - virtual_min) + d) else None.
Proof.
  intros Hpa Hal Hlow Hf Hm Hs Hkp Hka Hkl Hd Hv.
  destruct (fill_tables_meaning m pa kp virtual_min virtual_max) as (m' & H & _ & Ho & Ht); try done.
  exists m'. split; [done|]. rewrite (Ht m' ltac:(done)) by (unfold in_u64; lia). unfold meaning, first_page, kernel_pages.
  rewrite (proj2 (Z.ltb_ge v (2 ^ 32))) by lia.
  destruct (Z.ltb_spec v (4096 * (virtual_min / 4096) + 4096 * ((virtual_max - virtual_min + 4095) / 4096))); ranges; try done.
  - f_equal. zdm.
  - exfalso. zdm.
Qed.
