(* ===== verification/UefiLoad.v ===== *)
(** * Choosing and reading the kernel under UEFI (boot/uefi/main.c)

    [load_files] opens the boot volume, reads and parses the configuration, loads
    the health record from its variable, counts the attempt and reads the first
    kernel candidate that is a valid image, as the BIOS loader does from a disk.
    Out-parameters are results; the out-pointers themselves are addresses of
    locals of the callers.  Local variables the code leaves uninitialised start
    as zeros. *)
From stdpp Require Import gmap relations.
From S2P Require Import Prelude Prog Health Elf64 Config Slots Memory Efi EfiMock.

Definition zero_health : josh_boot_health_record_t :=
  {| hr_magic := 0; hr_version := 0; hr_size := 0; hr_generation := 0; hr_selected_slot := 0;
     hr_last_good_slot := 0; hr_pending_good := 0; hr_attempt_count := 0; hr_last_failure_stage := 0;
     hr_reserved0 := 0; hr_update_generation := 0; hr_reserved1 := 0; hr_checksum := 0 |}.

(** The loop of [ascii_path_to_uefi] over the rest of the text, with what is in [w] so far: [None] is
    a read past the end of the text, [Some None] is [return 0]. *)
Fixpoint ascii_path_loop (a : list Z) (cap : Z) (w : list Z) : option (option (list Z)) :=
  match a with
  | [] => None
  | c :: rest =>
      if c =? 0 then Some (Some (w ++ [0]))
      else if zlen w + 1 >=? cap then Some None
      else if (c <? 0x20) || (c >? 0x7e) then Some None
      else ascii_path_loop rest cap (w ++ [if c =? 47 then 92 else c])
  end.

Definition ascii_path_to_uefi (a : option (list Z)) (cap : Z) : option (option (list Z)) :=
  match a with
  | None => Some None
  | Some a =>
      if cap <? 2 then Some None
      else
        let? c := get8 a 0 in
        if negb (c =? 47) then Some None else ascii_path_loop a cap []
  end.

Definition uefi_kernel_path (cfg : josh_boot_config_t) (slot : Z) : list Z :=
  if slot =? JOSH_BOOT_SLOT_CURRENT then bc_kernel_path cfg
  else if slot =? JOSH_BOOT_SLOT_PREVIOUS then bc_previous_kernel_path cfg
  else bc_recovery_kernel_path cfg.

Definition cfg_path : list Z :=
  [92; 69; 70; 73; 92; 74; 79; 83; 72; 92; 66; 79; 79; 84; 46; 67; 70; 71; 0].

Section Loader.
Context {W : Type} (io : EFI_FILE_PROTOCOL W).

(** The bytes a pool pointer stands for, or the null pointer. *)
Definition pointee (p : Z) : prog (uefi W) (option (list Z)) :=
  if p =? 0 then ret None else do l <- buffer p ; ret (Some l).

Definition uefi_slot_marker (slot : Z) : prog (uefi W) unit :=
  if slot =? JOSH_BOOT_SLOT_CURRENT then serial_write "JOSHUEFI_SLOT_CURRENT"
  else if slot =? JOSH_BOOT_SLOT_PREVIOUS then serial_write "JOSHUEFI_SLOT_PREVIOUS"
  else serial_write "JOSHUEFI_SLOT_RECOVERY".

(** The status, the root directory and the loaded image. *)
Definition open_root (image : Z) (st : EFI_SYSTEM_TABLE W)
    : prog (uefi W) (EFI_STATUS * Z * option EFI_LOADED_IMAGE_PROTOCOL) :=
  do bs <- lift (BootServices st) ;
  do (s, i) <- service (HandleProtocol bs image gEfiLoadedImageProtocolGuid) ;
  if EFI_ERROR s then ret (s, 0, None)
  else
    match i with
    | None => ret (s, 0, None)
    | Some (LoadedImage loaded) =>
        do (s, i) <- service (HandleProtocol bs (DeviceHandle loaded) gEfiSimpleFileSystemProtocolGuid) ;
        if EFI_ERROR s then ret (EFI_NOT_FOUND, 0, None)
        else
          match i with
          | None => ret (EFI_NOT_FOUND, 0, None)
          | Some (SimpleFileSystem fs) =>
              match OpenVolume fs with
              | None => ret (EFI_NOT_FOUND, 0, None)
              | Some open_volume =>
                  do (s, root) <- service open_volume ;
                  ret (s, root, if EFI_ERROR s then None else Some loaded)
              end
          | Some _ => undefined
          end
    | Some _ => undefined
    end.

(** The first half of [read_file]: the size of the open file [f], or the status to return after closing it. *)
Definition read_size (bs : EFI_BOOT_SERVICES W) (f : Z) : prog (uefi W) (EFI_STATUS + Z) :=
  do (s, isz, _) <- method f (GetInfo io f gEfiFileInfoGuid 0) ;
  if negb (s =? EFI_BUFFER_TOO_SMALL) || (isz <? 24) then ret (inl EFI_DEVICE_ERROR)
  else
    do (s, info) <- allocate_pool bs EfiLoaderData isz ;
    if EFI_ERROR s then ret (inl s)
    else
      do (s, isz, data) <- method f (GetInfo io f gEfiFileInfoGuid isz) ;
      run store_buffer info data ;
      if EFI_ERROR s then run free_pool bs info ; ret (inl s)
      else
        do l <- buffer info ;
        do fs <- lift (rd64 l 8) ;
        run free_pool bs info ;
        ret (inr fs).

(** The second half: the bytes of the file. *)
Definition read_bytes (bs : EFI_BOOT_SERVICES W) (f fs : Z) : prog (uefi W) (EFI_STATUS * Z * Z) :=
  do (s, buf) <- allocate_pool bs EfiLoaderData fs ;
  if EFI_ERROR s then run method f (Close io f) ; ret (s, 0, 0)
  else
    do (s, size, data) <- method f (Read io f fs) ;
    run store_buffer buf data ;
    run method f (Close io f) ;
    if EFI_ERROR s || negb (size =? fs) then run free_pool bs buf ; ret (EFI_DEVICE_ERROR, buf, size)
    else ret (EFI_SUCCESS, buf, size).

(** The status, the buffer and its size. *)
Definition read_file (bs : EFI_BOOT_SERVICES W) (root : Z) (path : list Z) : prog (uefi W) (EFI_STATUS * Z * Z) :=
  do (s, f) <- method root (Open io root path EFI_FILE_MODE_READ 0) ;
  if EFI_ERROR s || (f =? 0) then ret (s, 0, 0)
  else
    do r <- read_size bs f ;
    match r with
    | inl s => run method f (Close io f) ; ret (s, 0, 0)
    | inr fs =>
        if fs =? 0 then run method f (Close io f) ; ret (EFI_BAD_BUFFER_SIZE, 0, 0)
        else read_bytes bs f fs
    end.

Definition health_attributes : Z :=
  Z.lor (Z.lor EFI_VARIABLE_NON_VOLATILE EFI_VARIABLE_BOOTSERVICE_ACCESS) EFI_VARIABLE_RUNTIME_ACCESS.

Definition uefi_health_store (st : EFI_SYSTEM_TABLE W) (health : josh_boot_health_record_t) : prog (uefi W) bool :=
  match RuntimeServices st with
  | None => ret false
  | Some rs =>
      match SetVariable rs with
      | None => ret false
      | Some set =>
          do s <- service (set gJoshBootHealthName gJoshBootHealthGuid health_attributes RECORD_SIZE (record_bytes health)) ;
          if EFI_ERROR s then run serial_write "JOSHUEFI_WARN_HEALTH_PERSIST" ; ret false
          else run serial_write "JOSHUEFI_HEALTH_PERSISTED" ; ret true
      end
  end.

(** What [GetVariable] leaves in the record: its bytes over the old ones. *)
Definition stored_record (data : list Z) (health : josh_boot_health_record_t) : option josh_boot_health_record_t :=
  if zlen data <=? RECORD_SIZE then record_of_bytes (data ++ drop (length data) (record_bytes health)) else None.

(** The status and size after the call, and the record. *)
Definition read_variable (st : EFI_SYSTEM_TABLE W) (health : josh_boot_health_record_t)
    : prog (uefi W) (EFI_STATUS * Z * josh_boot_health_record_t) :=
  match RuntimeServices st with
  | None => ret (EFI_NOT_FOUND, RECORD_SIZE, health)
  | Some rs =>
      match GetVariable rs with
      | None => ret (EFI_NOT_FOUND, RECORD_SIZE, health)
      | Some get =>
          do (s, _, size, data) <- service (get gJoshBootHealthName gJoshBootHealthGuid RECORD_SIZE) ;
          do health <- lift (stored_record data health) ;
          ret (s, size, health)
      end
  end.

Definition uefi_health_load (st : EFI_SYSTEM_TABLE W) (health : josh_boot_health_record_t)
    : prog (uefi W) josh_boot_health_record_t :=
  do (s, size, health) <- read_variable st health ;
  if EFI_ERROR s || negb (size =? RECORD_SIZE) || negb (josh_boot_health_valid (Some health)) then
    do health <- lift (josh_boot_health_default (Some health)) ;
    run uefi_health_store st health ;
    run serial_write "JOSHUEFI_HEALTH_INITIALIZED" ;
    ret health
  else run serial_write "JOSHUEFI_HEALTH_LOADED" ; ret health.

(** One candidate: its image and size when the path converts, the file reads and the image is valid. *)
Definition try_candidate (bs : EFI_BOOT_SERVICES W) (root : Z) (ascii : list Z) : prog (uefi W) (option (Z * Z)) :=
  do c <- lift (get8 ascii 0) ;
  if c =? 0 then ret None
  else
    do path <- lift (ascii_path_to_uefi (Some ascii) (JOSH_BOOT_CONFIG_PATH_MAX + 1)) ;
    match path with
    | None => ret None
    | Some path =>
        do (s, candidate_image, candidate_size) <- read_file bs root path ;
        if EFI_ERROR s then ret None
        else
          do image <- pointee candidate_image ;
          do (check, _) <- lift (josh_elf64_validate image candidate_size (Some blank_summary)) ;
          match check with
          | JOSH_ELF64_OK => ret (Some (candidate_image, candidate_size))
          | _ => run free_pool bs candidate_image ; ret None
          end
    end.

(** The loop over the candidates, [n] iterations left. *)
Fixpoint uefi_candidate_loop (bs : EFI_BOOT_SERVICES W) (st : EFI_SYSTEM_TABLE W) (root : Z) (cfg : josh_boot_config_t)
    (n : nat) (health : josh_boot_health_record_t) (slot : Z) {struct n} : prog (uefi W) (option (Z * Z)) :=
  match n with
  | O => ret None
  | S n' =>
      let ascii := uefi_kernel_path cfg slot in
      run uefi_slot_marker slot ;
      do loaded <- try_candidate bs root ascii ;
      match loaded with
      | Some k => ret (Some k)
      | None =>
          do p0 <- lift (get8 (bc_previous_kernel_path cfg) 0) ;
          do r0 <- lift (get8 (bc_recovery_kernel_path cfg) 0) ;
          if (slot =? JOSH_BOOT_SLOT_CURRENT) && negb (p0 =? 0) then
            let '(ok, health) := josh_boot_health_select_fallback (Some health)
                                   JOSH_BOOT_SLOT_PREVIOUS JOSH_BOOT_FAILURE_KERNEL_FILE in
            if ok =? 0 then ret None
            else
              do health <- lift health ;
              run uefi_health_store st health ;
              run serial_write "JOSHUEFI_FALLBACK_PREVIOUS" ;
              uefi_candidate_loop bs st root cfg n' health JOSH_BOOT_SLOT_PREVIOUS
          else if negb (slot =? JOSH_BOOT_SLOT_RECOVERY) && negb (r0 =? 0) then
            let '(ok, health) := josh_boot_health_select_fallback (Some health)
                                   JOSH_BOOT_SLOT_RECOVERY JOSH_BOOT_FAILURE_KERNEL_FILE in
            if ok =? 0 then ret None
            else
              do health <- lift health ;
              run uefi_health_store st health ;
              run serial_write "JOSHUEFI_FALLBACK_RECOVERY" ;
              uefi_candidate_loop bs st root cfg n' health JOSH_BOOT_SLOT_RECOVERY
          else ret None
      end
  end.

(** Loading the record and counting the attempt. *)
Definition uefi_begin_attempt (st : EFI_SYSTEM_TABLE W) : prog (uefi W) (josh_boot_health_record_t * Z) :=
  do health <- uefi_health_load st zero_health ;
  let old_slot := hr_selected_slot health in
  let old_generation := hr_generation health in
  let was_pending := negb (hr_pending_good health =? 0) in
  let '(slot, health) := josh_boot_health_prepare_attempt (Some health) JOSH_BOOT_HEALTH_MAX_ATTEMPTS in
  do health <- lift health ;
  run (if negb (hr_generation health =? old_generation)
       then run uefi_health_store st health ; ret tt else ret tt) ;
  run (if was_pending && negb (old_slot =? slot) then
         if slot =? JOSH_BOOT_SLOT_PREVIOUS then serial_write "JOSHUEFI_HEALTH_ROLLBACK_PREVIOUS"
         else serial_write "JOSHUEFI_HEALTH_ROLLBACK_RECOVERY"
       else ret tt) ;
  ret (health, slot).

(** Reading and parsing the configuration: its status, and the configuration on success. *)
Definition uefi_read_config (bs : EFI_BOOT_SERVICES W) (root : Z) : prog (uefi W) (EFI_STATUS * option josh_boot_config_t) :=
  do (s, cfg_buf, cfg_size) <- read_file bs root cfg_path ;
  if EFI_ERROR s then ret (s, None)
  else
    if cfg_size >? JOSH_BOOT_CONFIG_MAX_BYTES then run free_pool bs cfg_buf ; ret (EFI_LOAD_ERROR, None)
    else
      do text <- pointee cfg_buf ;
      do (status, cfg) <- lift (josh_boot_config_parse text cfg_size (Some zero_config)) ;
      run free_pool bs cfg_buf ;
      match status with
      | JOSH_CONFIG_OK => do cfg <- lift cfg ; ret (EFI_SUCCESS, Some cfg)
      | _ => ret (EFI_LOAD_ERROR, None)
      end.

(** The status; on success the configuration, the kernel's buffer and size, and the loaded image. *)
Definition load_files (image : Z) (st : EFI_SYSTEM_TABLE W)
    : prog (uefi W) (EFI_STATUS * option (josh_boot_config_t * Z * Z * option EFI_LOADED_IMAGE_PROTOCOL)) :=
  do (s, root, loaded) <- open_root image st ;
  if EFI_ERROR s then ret (s, None)
  else
    do bs <- lift (BootServices st) ;
    do (s, cfg) <- uefi_read_config bs root ;
    match cfg with
    | None => run method root (Close io root) ; ret (s, None)
    | Some cfg =>
        run serial_write "JOSHUEFI_CONFIG_OK" ;
        do (health, slot) <- uefi_begin_attempt st ;
        do found <- uefi_candidate_loop bs st root cfg 3 health slot ;
        run method root (Close io root) ;
        match found with
        | Some (kernel, kernel_size) =>
            run serial_write "JOSHUEFI_KERNEL_FILE_LOADED" ;
            ret (EFI_SUCCESS, Some (cfg, kernel, kernel_size, loaded))
        | None => run serial_write "JOSHUEFI_ERROR_KERNEL_CANDIDATES" ; ret (EFI_NOT_FOUND, None)
        end
    end.

End Loader.

(** ** Files *)
Definition file_of (v : view) (path : list Z) : option (list Z) :=
  match v_contents v !! path with Some [] => None | r => r end.

Section Files.
Context {W : Type} (io : EFI_FILE_PROTOCOL W) (bs : EFI_BOOT_SERVICES W) (rs : option (EFI_RUNTIME_SERVICES W)).
Context (fw_view : W -> view) `{!UefiFirmware io bs rs fw_view} (image : Z) (need : list Z -> Z).
Abbreviation dependable := (reliable io bs rs fw_view image need).

(** Memory, the view of the firmware and the pool buffers of a state. *)
Definition state_is (m : mem) (v : view) (p : gmap Z (list Z)) (s : uefi W) : Prop :=
  uf_mem s = m /\ fw_view (uf_fw s) = v /\ uf_pool s = p /\ dom p = v_buffers v.

Lemma allocate_pool_runs m v p t n s :
  0 <= n -> state_is m v p s ->
  runs (allocate_pool bs t n) s (fun r s' => let '(status, q) := r in
    (dependable -> EFI_ERROR status = false) /\
    if EFI_ERROR status then state_is m v p s'
    else exists l, q <> 0 /\ p !! q = None /\ bytes l /\ zlen l = n /\
      state_is m (set_buffers ({[q]} ∪ v_buffers v) v) (<[q := l]> p) s').
Proof.
  intros Hn (Hm & Hv & Hp & Hd). unfold allocate_pool. apply runs_service. intros [[status q] l] w E.
  apply runs_modify, runs_ret. split; [intros Hr; pose proof (rel_pool _ _ _ _ _ _ Hr t n (uf_fw s) Hn) as H; by rewrite E in H|].
  pose proof (fw_allocate_pool _ _ _ _ _ _ _ E) as Hlaw. destruct (EFI_ERROR status).
  - split_and!; try done. cbn. by rewrite Hlaw.
  - destruct Hlaw as (Hq & Hnew & Hb & Hz & Hw). rewrite Hv in *. exists l. split_and!; try done.
    + apply not_elem_of_dom. by rewrite Hd.
    + unfold state_is. cbn. rewrite dom_insert_L, Hp, Hd. done.
Qed.

(** Freeing a buffer that was allocated from [p]. *)
Lemma free_pool_runs m v p q l s :
  p !! q = None -> dom p = v_buffers v ->
  state_is m (set_buffers ({[q]} ∪ v_buffers v) v) (<[q := l]> p) s ->
  runs (free_pool bs q) s (fun _ s' => state_is m v p s').
Proof.
  intros Hq Hd (Hm & Hv & Hp & _). unfold free_pool. apply (runs_buffer q l); [by rewrite Hp, lookup_insert_eq|].
  apply runs_service. intros status w E. apply runs_update.
  assert (Hin : q ∈ v_buffers (fw_view (uf_fw s))) by (rewrite Hv; cbn; set_solver).
  pose proof (fw_free_pool _ _ _ _ Hin E) as Hw. rewrite Hv in Hw. unfold state_is. cbn.
  split_and!; try done.
  - rewrite Hw. apply view_eq; try done. cbn. apply not_elem_of_dom in Hq. rewrite Hd in Hq. set_solver.
  - rewrite Hp. by apply delete_insert_id.
Qed.

(** Closing a handle that was opened. *)
Lemma close_file_runs m v p f x s :
  f <> 0 -> v_handles v !! f = None -> dom p = v_buffers v ->
  state_is m (set_handles (<[f := x]> (v_handles v)) v) p s ->
  runs (method f (Close io f)) s (fun _ s' => state_is m v p s').
Proof.
  intros Hf Hn Hd (Hm & Hv & Hp & _). unfold method. rewrite (proj2 (Z.eqb_neq f 0)) by done.
  destruct (Close io f (uf_fw s)) as [status w] eqn:E. exists status, (with_fw w s). unfold service. rewrite E.
  split; [done|]. assert (Ho : is_Some (v_handles (fw_view (uf_fw s)) !! f)) by (rewrite Hv; cbn; rewrite lookup_insert_eq; done).
  pose proof (fw_close _ _ _ _ Ho E) as Hw. rewrite Hv in Hw. split_and!; try done. cbn. rewrite Hw. cbn.
  rewrite delete_insert_id by done. apply (set_handles_self v).
Qed.

(** A method of an open file that leaves the view alone but for the position. *)
Lemma close_then m v p f x s {A} (a : A) Q :
  f <> 0 -> v_handles v !! f = None -> dom p = v_buffers v ->
  state_is m (set_handles (<[f := x]> (v_handles v)) v) p s ->
  (forall s', state_is m v p s' -> Q a s') -> runs (run method f (Close io f) ; ret a) s Q.
Proof.
  intros Hf Hn Hd Hs HQ. eapply runs_call; [by eapply close_file_runs|]. intros st s' H. by apply runs_ret, HQ.
Qed.

Definition read_post (m : mem) (v : view) (p : gmap Z (list Z)) (path : list Z) (r : EFI_STATUS * Z * Z) (s' : uefi W) : Prop :=
  let '(status, buf, size) := r in
  (dependable -> is_Some (file_of v path) -> EFI_ERROR status = false) /\
  if EFI_ERROR status then state_is m v p s'
  else exists c, file_of v path = Some c /\ bytes c /\ size = zlen c /\ in_u64 size /\ buf <> 0 /\ p !! buf = None /\
    state_is m (set_buffers ({[buf]} ∪ v_buffers v) v) (<[buf := c]> p) s'.

(** An open file, with its contents. *)
Definition open_at (v : view) (f pos : Z) (path c : list Z) (v1 : view) : Prop :=
  f <> 0 /\ v_handles v !! f = None /\ v_contents v !! path = Some c /\
  v1 = set_handles (<[f := (path, pos)]> (v_handles v)) v.

Lemma open_at_handle v f pos path c v1 :
  open_at v f pos path c v1 -> v_handles v1 !! f = Some (path, pos) /\ v_contents v1 !! path = Some c.
Proof. intros (_ & _ & Hc & ->). cbn. by rewrite lookup_insert_eq. Qed.

Lemma rd64_stored l data rest v : slice data 8 8 = Some (le_bytes 8 v) -> l = data ++ rest -> bytes l -> in_u64 v -> rd64 l 8 = Some v.
Proof.
  intros Hs -> Hb Hv. pose proof (slice_inv _ _ _ _ Hs) as (_ & _ & Hz & _ & Hd).
  rewrite (rd64_slice _ _ (le_bytes 8 v)); [|done|].
  - rewrite le_value_le_bytes. f_equal. by apply u64_id.
  - rewrite <- Hs. replace data with (take (length data) (data ++ rest)) at 2 by by rewrite take_app_length.
    symmetry. apply slice_take; [unfold zlen in Hz; lia|unfold zlen; rewrite length_app; lia].
Qed.

Lemma get_info_runs {B} m v p f pos path c v1 size (k : EFI_STATUS * Z * list Z -> prog (uefi W) B) s Q :
  0 <= size -> open_at v f pos path c v1 -> state_is m v1 p s ->
  (forall status size' data s',
     state_is m v1 p s' -> stored_within size data -> in_u64 size' -> in_u64 (zlen c) -> bytes c ->
     (EFI_ERROR status = false -> slice data 8 8 = Some (le_bytes 8 (zlen c))) ->
     (dependable -> 24 <= need path /\ (size = 0 -> status = EFI_BUFFER_TOO_SMALL /\ size' = need path) /\
        (need path <= size -> EFI_ERROR status = false)) ->
     runs (k (status, size', data)) s' Q) ->
  runs (bind (method f (GetInfo io f gEfiFileInfoGuid size)) k) s Q.
Proof.
  intros Hsz Ho (Hm & Hv & Hp & Hd) Hk. destruct (open_at_handle _ _ _ _ _ _ Ho) as [Hh Hc]. rewrite <- Hv in Hh, Hc.
  apply runs_method; [apply Ho|]. intros [[status size'] data] w E.
  destruct (fw_get_info _ _ _ _ _ _ _ _ _ _ Hsz Hh Hc E) as (Hw & Hst & Hs' & Hz & Hb & Hok).
  apply Hk; try done.
  - split_and!; try done. cbn. by rewrite Hw.
  - intros Hr. destruct (rel_info _ _ _ _ _ _ Hr f path pos c size (uf_fw s) Hh Hc) as (Hn & H0 & H1). rewrite E in H0, H1.
    cbn in H0, H1. split_and!; [done| |done]. intros H. specialize (H0 H). by simplify_eq.
Qed.
Lemma read_size_runs m v p f path c v1 s :
  open_at v f 0 path c v1 -> state_is m v1 p s ->
  runs (read_size io bs f) s (fun r s' => state_is m v1 p s' /\ in_u64 (zlen c) /\ bytes c /\
    match r with
    | inl status => EFI_ERROR status = true /\ ~ dependable
    | inr fs => fs = zlen c
    end).
Proof.
  intros Ho Hs. unfold read_size. eapply get_info_runs; [lia|done..|].
  intros status isz data s1 S1 _ Hisz Hz Hb _ Hr1.
  destruct (negb (status =? EFI_BUFFER_TOO_SMALL) || (isz <? 24)) eqn:E1.
  { apply runs_ret. split_and!; try done. intros Hr. destruct (Hr1 Hr) as (Hn & H0 & _).
    destruct (H0 eq_refl) as [-> ->]. rewrite Z.eqb_refl in E1. cbn [negb orb] in E1. lia. }
  apply orb_false_iff in E1 as [_ E1].
  eapply runs_call; [apply allocate_pool_runs; [lia|done]|]. intros [status2 info] s2 [Hrel2 H2].
  destruct (EFI_ERROR status2) eqn:E2.
  { apply runs_ret. split_and!; try done. intros Hr. by specialize (Hrel2 Hr). }
  destruct H2 as (l & Hinfo & Hnew & Hl & Hzl & S2).
  assert (Ho2 : open_at (set_buffers ({[info]} ∪ v_buffers v1) v) f 0 path c (set_buffers ({[info]} ∪ v_buffers v1) v1)).
  { destruct Ho as (? & ? & ? & ->). by split_and!. }
  eapply get_info_runs; [lia|done..|]. intros status3 size3 data3 s3 S3 [Hdb Hdz] _ _ _ Hok3 Hr3.
  pose proof (proj1 (proj2 (proj2 S3))) as Hp3. apply (runs_store info l); [by rewrite Hp3, lookup_insert_eq|lia|].
  set (l' := data3 ++ drop (length data3) l). rewrite Hp3, insert_insert_eq.
  assert (S4 : state_is m (set_buffers ({[info]} ∪ v_buffers v1) v1) (<[info := l']> p) (with_pool (<[info := l']> p) s3)).
  { destruct S3 as (? & ? & _ & Hdom). split_and!; try done. rewrite dom_insert_L in *. done. }
  assert (Hd1 : dom p = v_buffers v1) by apply S1.
  destruct (EFI_ERROR status3) eqn:E3.
  - eapply runs_call; [by eapply free_pool_runs|]. intros [] s5 S5. apply runs_ret. split_and!; try done.
    intros Hr. destruct (Hr3 Hr) as (_ & _ & H3). destruct (Hr1 Hr) as (Hn & H0 & _). destruct (H0 eq_refl) as [_ ->].
    specialize (H3 ltac:(lia)). congruence.
  - apply (runs_buffer info l'); [cbn; by rewrite lookup_insert_eq|].
    rewrite (rd64_stored l' data3 (drop (length data3) l) (zlen c)); [|by apply Hok3|done| |done].
    2: { apply Forall_app. split; [done|]. by apply Forall_drop. }
    apply runs_lift. eapply runs_call; [by eapply free_pool_runs|]. intros [] s5 S5. by apply runs_ret.
Qed.

Lemma read_bytes_runs m v p f path c v1 s :
  open_at v f 0 path c v1 -> state_is m v1 p s -> in_u64 (zlen c) -> bytes c -> zlen c <> 0 ->
  runs (read_bytes io bs f (zlen c)) s (read_post m v p path).
Proof.
  intros Ho Hs Hz Hb Hc0. pose proof Ho as (Hf & Hnone & Hc & Hv1).
  assert (Hd : dom p = v_buffers v) by (destruct Hs as (_ & _ & _ & ->); by rewrite Hv1).
  assert (Hfile : file_of v path = Some c) by (unfold file_of; rewrite Hc; destruct c; [done|done]).
  unfold read_bytes. eapply runs_call; [apply allocate_pool_runs; [unfold zlen; lia|done]|]. intros [status buf] s2 [Hrel2 H2].
  destruct (EFI_ERROR status) eqn:E2.
  { eapply close_then; [exact Hf|exact Hnone|exact Hd|by rewrite <- Hv1|]. intros s' S'. split; [|by rewrite E2].
    intros Hr. by specialize (Hrel2 Hr). }
  destruct H2 as (l & Hbuf & Hnew & Hl & Hzl & S2). set (v2 := set_buffers ({[buf]} ∪ v_buffers v1) v1) in *.
  apply runs_method; [done|]. intros [[status3 size3] data3] w3 E3. destruct S2 as (M2 & V2 & P2 & D2).
  destruct (open_at_handle _ _ _ _ _ _ Ho) as [Hh Hcc]. assert (Hz0 : 0 <= zlen c) by (unfold zlen; lia).
  assert (Hh2 : v_handles (fw_view (uf_fw s2)) !! f = Some (path, 0)) by (rewrite V2; exact Hh).
  assert (Hc2 : v_contents (fw_view (uf_fw s2)) !! path = Some c) by (rewrite V2; exact Hcc).
  destruct (fw_read _ _ _ _ _ _ _ _ _ _ Hz0 Hh2 Hc2 E3) as ([pos' Hw3] & [Hdb Hdz] & Hok).
  apply (runs_store buf l); [cbn; by rewrite P2, lookup_insert_eq|lia|]. cbn [uf_pool with_fw]. rewrite P2, insert_insert_eq.
  set (l' := data3 ++ drop (length data3) l). set (vb := set_buffers ({[buf]} ∪ v_buffers v) v).
  eapply runs_call; [eapply (close_file_runs m vb (<[buf := l']> p) f (path, pos')); [done|exact Hnone| |]|].
  { rewrite dom_insert_L. cbn. by rewrite Hd. }
  { split_and!; [done| |done|rewrite dom_insert_L; cbn; by rewrite Hd].
    cbn. rewrite Hw3, V2. unfold v2. rewrite Hv1. cbn. by rewrite insert_insert_eq. }
  intros st4 s4 S4. destruct (EFI_ERROR status3 || negb (size3 =? zlen c)) eqn:E4.
  - eapply runs_call; [exact (free_pool_runs m v p buf l' s4 Hnew Hd S4)|]. intros [] s5 S5. apply runs_ret. split; [|done].
    intros Hr _. exfalso. pose proof (rel_read _ _ _ _ _ _ Hr f _ _ _ (zlen c) (uf_fw s2) Hz0 Hh2 Hc2) as Hrr. rewrite E3 in Hrr. cbn in Hrr.
    rewrite Hrr in E4. destruct (Hok Hrr) as [-> ->]. cbn [orb] in E4. apply negb_true_iff, Z.eqb_neq in E4. apply E4.
    change (Z.to_nat 0) with 0%nat. rewrite drop_0. unfold zlen. rewrite Nat2Z.id, length_take. lia.
  - apply orb_false_iff in E4 as [E4 E5]. destruct (Hok E4) as [-> Hdata]. rewrite drop_0 in Hdata.
    rewrite take_ge in Hdata by (unfold zlen; lia). apply runs_ret. split; [done|]. exists c. split_and!; try done.
    + by rewrite Hdata.
    + by rewrite Hdata.
    + replace c with l'; [exact S4|]. unfold l'. rewrite Hdata, drop_ge, app_nil_r; [done|]. unfold zlen in Hzl. lia.
Qed.

Lemma read_file_runs m v p root pos path s :
  root <> 0 -> v_handles v !! root = Some ([], pos) -> state_is m v p s ->
  runs (read_file io bs root path) s (read_post m v p (c_str path)).
Proof.
  intros Hroot Hr (Hm & Hv & Hp & Hd). unfold read_file. apply runs_method; [done|]. intros [status f] w E.
  rewrite <- Hv in Hr. pose proof (fw_open _ _ _ _ _ _ _ _ _ Hr E) as Hlaw.
  destruct (EFI_ERROR status) eqn:E1; cbn [orb].
  { apply runs_ret. split; [|rewrite E1; split_and!; try done; cbn; by rewrite Hlaw].
    intros Hrel [c Hfile]. pose proof (rel_open _ _ _ _ _ _ Hrel root pos path EFI_FILE_MODE_READ 0 (uf_fw s) Hr) as Hro.
    rewrite E, Hv in Hro. unfold file_of in Hfile. destruct (v_contents v !! c_str path); [|done].
    specialize (Hro ltac:(done)). cbn in Hro. congruence. }
  destruct Hlaw as (Hf & Hnone & [c Hc] & Hw). rewrite Hv in Hnone, Hc, Hw. rewrite (proj2 (Z.eqb_neq f 0)) by done.
  set (v1 := set_handles (<[f := (c_str path, 0)]> (v_handles v)) v) in *.
  assert (Ho : open_at v f 0 (c_str path) c v1) by by split_and!.
  assert (S1 : state_is m v1 p (with_fw w s)) by by split_and!.
  eapply runs_call; [by eapply read_size_runs|]. intros r s2 (S2 & Hz & Hb & Hres). destruct r as [status2|fs].
  - destruct Hres as [E2 Hnr]. eapply close_then; [exact Hf|exact Hnone|exact Hd|exact S2|]. intros s' S'.
    split; [|by rewrite E2]. intros Hrel. by destruct Hnr.
  - subst fs. destruct (Z.eqb_spec (zlen c) 0) as [Ez|Ez].
    + eapply close_then; [exact Hf|exact Hnone|exact Hd|exact S2|]. intros s' S'. split; [|done].
      intros _ [x Hx]. unfold file_of in Hx. rewrite Hc in Hx. destruct c; [done|]. unfold zlen in Ez. cbn in Ez. lia.
    + by eapply read_bytes_runs.
Qed.
End Files.

(** ** Paths *)
Definition uefi_path (path : list Z) : list Z := map (fun c => if c =? 47 then 92 else c) path.

Lemma ascii_path_loop_spec p rest : forall w,
  forallb path_char p = true -> zlen w + zlen p < 96 ->
  ascii_path_loop (p ++ 0 :: rest) 96 w = Some (Some (w ++ uefi_path p ++ [0])).
Proof.
  induction p as [|c p IH]; intros w Hp Hz; [done|]. cbn [forallb] in Hp. apply andb_true_iff in Hp as [Hc Hp].
  unfold path_char in Hc. rewrite !andb_true_iff in Hc. destruct Hc as [[Hc1 Hc2] _].
  change ((c :: p) ++ 0 :: rest) with (c :: (p ++ 0 :: rest)). cbn [ascii_path_loop].
  rewrite (proj2 (Z.eqb_neq c 0)) by lia. unfold zlen in *. cbn [length] in Hz.
  rewrite Z.geb_leb, (proj2 (Z.leb_gt _ _)) by lia. rewrite Z.gtb_ltb, !(proj2 (Z.ltb_ge _ _)) by lia. cbn [orb].
  rewrite IH by (try done; rewrite length_app; cbn; lia). by rewrite <- app_assoc.
Qed.

(** The array of a path of a parsed configuration: absent, or convertible. *)
Definition path_array (a : list Z) : Prop := exists p, a = text_array 96 p /\ (p = [] \/ path_ok p = true).

Lemma path_array_cases a :
  path_array a ->
  (present_path a = false /\ get8 a 0 = Some 0) \/
  (present_path a = true /\ (exists c, get8 a 0 = Some c /\ c <> 0) /\
   ascii_path_to_uefi (Some a) (JOSH_BOOT_CONFIG_PATH_MAX + 1) = Some (Some (uefi_path (c_str a) ++ [0])) /\
   c_str (uefi_path (c_str a) ++ [0]) = uefi_path (c_str a)).
Proof.
  intros (p & -> & [->|Hp]); [by left|]. right. pose proof (path_ok_len p Hp) as Hl.
  assert (H0 : 0 ∉ p) by (by eapply path_ok_no). assert (Hlen : (length p < 96)%nat) by (unfold zlen in Hl; lia).
  rewrite (c_str_text_array 96 p H0 Hlen). unfold path_ok in Hp. rewrite !andb_true_iff in Hp.
  destruct Hp as [[[Hp1 Hp2] Hp3] Hp4]. destruct p as [|c p]; [done|].
  assert (c = 47) as -> by lia. split_and!; [done|by exists 47| |].
  - unfold ascii_path_to_uefi. change (JOSH_BOOT_CONFIG_PATH_MAX + 1) with 96. change (96 <? 2) with false.
    change (get8 (text_array 96 (47 :: p)) 0) with (Some 47). cbn [Z.eqb Pos.eqb negb]. unfold text_array.
    replace (96 - length (47%Z :: p))%nat with (S (96 - S (length (47%Z :: p)))) by lia. cbn [replicate].
    rewrite ascii_path_loop_spec; [done|done|]. unfold zlen in *. cbn [length] in *. lia.
  - assert (Hn : forall q, 0 ∉ q -> c_str (uefi_path q ++ [0]) = uefi_path q); [|by apply Hn].
    induction q as [|x q IH]; intros Hq; [done|].
    change (uefi_path (x :: q)) with ((if x =? 47 then 92 else x) :: uefi_path q). cbn [app c_str]. apply not_elem_of_cons in Hq as [Hx Hq].
    destruct (Z.eqb_spec x 47); [by rewrite IH|]. rewrite (proj2 (Z.eqb_neq x 0)) by lia. by rewrite IH.
Qed.

Lemma config_path_arrays cfg :
  config_ok cfg ->
  (forall slot, path_array (uefi_kernel_path cfg slot)) /\
  path_array (bc_previous_kernel_path cfg) /\ path_array (bc_recovery_kernel_path cfg).
Proof.
  intros (_ & _ & _ & id & name & k & p & r & c & _ & _ & _ & Hk & Hp & Hr & _ & _ & _ & Hk' & Hp' & Hr' & _).
  assert (Ak : path_array (bc_kernel_path cfg)) by (exists k; auto).
  assert (Ap : path_array (bc_previous_kernel_path cfg)) by (exists p; auto).
  assert (Ar : path_array (bc_recovery_kernel_path cfg)) by (exists r; auto).
  split_and!; try done. intros slot. unfold uefi_kernel_path. destruct (slot =? _); [done|]. by destruct (slot =? _).
Qed.

(** ** The plan: what the volume and the variable say should be booted *)
Definition uefi_image (v : view) (path : list Z) : option (list Z) :=
  if present_path path then
    let? img := file_of v (uefi_path (c_str path)) in
    match josh_elf64_validate (Some img) (zlen img) (Some blank_summary) with
    | Some (JOSH_ELF64_OK, _) => Some img
    | _ => None
    end
  else None.

Fixpoint uefi_first_image (v : view) (cfg : josh_boot_config_t) (slots : list Z) : option (list Z) :=
  match slots with
  | [] => None
  | slot :: rest =>
      match uefi_image v (uefi_kernel_path cfg slot) with
      | Some img => Some img
      | None => uefi_first_image v cfg rest
      end
  end.

(** Only the files matter. *)
Lemma uefi_first_image_same v v' cfg slots :
  v_contents v = v_contents v' -> uefi_first_image v cfg slots = uefi_first_image v' cfg slots.
Proof.
  intros H. induction slots as [|slot slots IH]; cbn [uefi_first_image]; [done|].
  rewrite IH. unfold uefi_image, file_of. by rewrite H.
Qed.

Definition uefi_config (v : view) : option josh_boot_config_t :=
  let? text := file_of v (c_str cfg_path) in
  if zlen text >? JOSH_BOOT_CONFIG_MAX_BYTES then None
  else
    match config_ref text with
    | (JOSH_CONFIG_OK, cfg) => Some cfg
    | _ => None
    end.

(** Whether a slot has a kernel file that is a valid image, and the record a walk over [slots] leaves. *)
Definition uefi_usable (v : view) (cfg : josh_boot_config_t) (slot : Z) : bool :=
  match uefi_image v (uefi_kernel_path cfg slot) with Some _ => true | None => false end.

Definition uefi_settled (v : view) (cfg : josh_boot_config_t) (h : josh_boot_health_record_t) (slots : list Z)
    : josh_boot_health_record_t := snd (settle (uefi_usable v cfg) h slots).

(** The record the variable holds. *)
Definition record_in (variable : option (list Z)) : option josh_boot_health_record_t :=
  let? data := variable in
  if zlen data =? RECORD_SIZE then
    let? r := record_of_bytes data in
    if josh_boot_health_valid (Some r) then Some r else None
  else None.

Definition held_record (v : view) : option josh_boot_health_record_t := record_in (v_variable v).

Lemma record_in_bytes r : josh_boot_health_valid (Some r) = true -> record_ok r -> record_in (Some (record_bytes r)) = Some r.
Proof.
  intros Hv Hr. unfold record_in, zlen. rewrite length_record_bytes. rewrite <- (app_nil_r (record_bytes r)), record_of_record_bytes by done.
  by rewrite Hv.
Qed.

Definition uefi_start_record (v : view) : josh_boot_health_record_t := default default_record (held_record v).

Definition uefi_boot_slot (v : view) : Z :=
  fst (josh_boot_health_prepare_attempt (Some (uefi_start_record v)) JOSH_BOOT_HEALTH_MAX_ATTEMPTS).

Definition uefi_plan (v : view) : option (josh_boot_config_t * list Z) :=
  let? cfg := uefi_config v in
  let? img := uefi_first_image v cfg (fallback_chain cfg (uefi_boot_slot v)) in
  Some (cfg, img).

(** The record a boot leaves: none is touched before the configuration was read. *)
Definition uefi_record_after (v : view) : option josh_boot_health_record_t :=
  match uefi_config v with
  | Some cfg => Some (snd (boot_step (uefi_usable v cfg) cfg (uefi_start_record v)))
  | None => held_record v
  end.

(** ** What a boot may leave in the variable *)
Definition attempt_record (v : view) (rec : josh_boot_health_record_t) : Prop :=
  exists r0 h, (r0 = default_record \/ held_record v = Some r0) /\
    snd (josh_boot_health_prepare_attempt (Some r0) JOSH_BOOT_HEALTH_MAX_ATTEMPTS) = Some h /\ rtc fallback_step h rec.

Definition record_written (v : view) (rec : josh_boot_health_record_t) : Prop :=
  rec = default_record \/ attempt_record v rec.

Definition variable_follows (v : view) (var : option (list Z)) : Prop :=
  var = v_variable v \/
  exists rec, var = Some (record_bytes rec) /\ josh_boot_health_valid (Some rec) = true /\ record_ok rec /\ record_written v rec.

Section Boot.
Context {W : Type} (io : EFI_FILE_PROTOCOL W) (st : EFI_SYSTEM_TABLE W) (bs : EFI_BOOT_SERVICES W) (fw_view : W -> view).
Context (Hbs : BootServices st = Some bs) `{!UefiFirmware io bs (RuntimeServices st) fw_view}.
Context (image : Z) (need : list Z -> Z).
Abbreviation dependable := (reliable io bs (RuntimeServices st) fw_view image need).

(** During the boot of a system whose view was [v]: only the variable may have changed, and it holds
    the record [c] when stores succeed. *)
Definition booting (m : mem) (v : view) (p : gmap Z (list Z)) (c : option josh_boot_health_record_t) (s : uefi W) : Prop :=
  exists var, variable_follows v var /\ (stores_work (RuntimeServices st) -> record_in var = c) /\
    state_is fw_view m (set_variable var v) p s.

Lemma health_store_runs m v p c h s :
  booting m v p c s -> josh_boot_health_valid (Some h) = true -> record_ok h -> record_written v h ->
  runs (uefi_health_store st h) s (fun _ s' => booting m v p (Some h) s').
Proof.
  intros Hb Hv Hok Hw. pose proof Hb as (var & Hvar & _ & Hm & Hview & Hp & Hd). unfold uefi_health_store.
  assert (Hno : ~ stores_work (RuntimeServices st) -> booting m v p (Some h) s) by (intros Hs; by exists var).
  unfold booting in *. destruct (RuntimeServices st) as [rs|] eqn:Ers; [|apply runs_ret, Hno; by intros (r & set & ? & _)].
  destruct (SetVariable rs) as [set|] eqn:Eset; [|apply runs_ret, Hno; intros (r & set & [= <-] & ? & _); congruence].
  apply runs_service. intros status w E.
  assert (Hlen : RECORD_SIZE = zlen (record_bytes h)) by (unfold zlen; by rewrite length_record_bytes). rewrite Hlen in E.
  pose proof (fw_set_variable rs set _ _ _ _ _ eq_refl Eset E) as Hlaw.
  assert (Hb' : exists var', variable_follows v var' /\ (stores_work (Some rs) -> record_in var' = Some h) /\
    state_is fw_view m (set_variable var' v) p (with_fw w s)).
  { destruct (EFI_ERROR status) eqn:Es.
    - exists var. split; [done|]. split.
      + intros (r & set' & [= <-] & Eset' & Hgood). rewrite Eset in Eset'. injection Eset' as <-.
        specialize (Hgood health_attributes _ (uf_fw s) (bytes_record_bytes h)). rewrite E in Hgood. cbn in Hgood. congruence.
      + split_and!; try done. cbn. by rewrite Hlaw.
    - exists (Some (record_bytes h)). split; [right; by exists h|]. split; [intros _; by apply record_in_bytes|].
      split_and!; try done. cbn. by rewrite Hlaw, Hview. }
  destruct (EFI_ERROR status); by apply runs_message, runs_ret.
Qed.

(** Reading the variable: a record that passes the tests is the one the variable holds. *)
Lemma read_variable_runs m v p s :
  state_is fw_view m v p s ->
  runs (read_variable st zero_health) s (fun r s' => let '(status, size, health) := r in
    state_is fw_view m v p s' /\
    if EFI_ERROR status || negb (size =? RECORD_SIZE) || negb (josh_boot_health_valid (Some health))
    then dependable -> held_record v = None
    else held_record v = Some health /\ josh_boot_health_valid (Some health) = true /\ record_ok health).
Proof.
  intros (Hm & Hv & Hp & Hd). unfold read_variable.
  destruct (RuntimeServices st) as [rs|] eqn:Ers.
  2: { apply runs_ret. split; [done|]. intros Hr. destruct (rel_variable _ _ _ _ _ _ Hr) as (r & g & Hrs & _). done. }
  destruct (GetVariable rs) as [get|] eqn:Eget.
  2: { apply runs_ret. split; [done|]. intros Hr. destruct (rel_variable _ _ _ _ _ _ Hr) as (r & g & [= <-] & Hg & _). congruence. }
  apply runs_service. intros [[[status attrs] size] data] w E.
  assert (Hrs : 0 <= RECORD_SIZE) by (unfold RECORD_SIZE; lia).
  destruct (fw_get_variable rs get _ _ _ _ _ _ _ Hrs eq_refl Eget E) as (Hw & [Hdb Hdz] & Hok). rewrite Hv in Hok, Hw.
  assert (Hlen : length (record_bytes zero_health) = 56%nat) by apply length_record_bytes. unfold RECORD_SIZE in *.
  set (full := data ++ drop (length data) (record_bytes zero_health)).
  assert (Hfull : bytes full /\ zlen full = 56).
  { unfold full, zlen in *. rewrite length_app, length_drop, Hlen. split; [|lia].
    apply Forall_app. split; [done|]. apply Forall_drop, bytes_record_bytes. }
  destruct (record_of_bytes_some full) as [health Eh]; [apply Hfull|lia|].
  unfold stored_record. rewrite (proj2 (Z.leb_le _ _)) by done. fold full. rewrite Eh.
  apply runs_lift, runs_ret. split; [split_and!; try done; cbn; by rewrite Hw|].
  destruct (EFI_ERROR status) eqn:Es; cbn [orb].
  { intros Hr. destruct (rel_variable _ _ _ _ _ _ Hr) as (r & g & [= <-] & Hg & Hgood). rewrite Eget in Hg. injection Hg as <-.
    unfold held_record, record_in. destruct (v_variable v) as [d|] eqn:Ed; [|done]. destruct (Z.eqb_spec (zlen d) RECORD_SIZE) as [Hz|]; [|done].
    exfalso. pose proof (Hgood d (uf_fw s)) as Hg. rewrite Hv in Hg. unfold RECORD_SIZE in *. rewrite E in Hg. cbn in Hg.
    rewrite Hg in Es by (done || lia). done. }
  destruct (Hok eq_refl) as [-> Hvar]. unfold held_record, record_in. rewrite Hvar. unfold RECORD_SIZE.
  destruct (Z.eqb_spec (zlen data) 56) as [Hz|Hz]; cbn [negb orb]; [|done].
  assert (Efull : full = data) by (unfold full; rewrite drop_ge, app_nil_r; [done|unfold zlen in Hz; lia]).
  rewrite Efull in Eh. rewrite Eh. destruct (josh_boot_health_valid (Some health)) eqn:Ev; cbn [negb]; [|done].
  split; [done|]. split; [done|]. by destruct (record_of_bytes_encode data health Hdb Eh).
Qed.

Lemma uefi_health_load_runs m v p s :
  state_is fw_view m v p s ->
  runs (uefi_health_load st zero_health) s (fun r s' => booting m v p (Some r) s' /\
    (r = default_record \/ held_record v = Some r) /\ josh_boot_health_valid (Some r) = true /\ record_ok r /\
    (dependable -> r = uefi_start_record v)).
Proof.
  intros Hs. unfold uefi_health_load. eapply runs_call; [by apply read_variable_runs|].
  intros [[status size] health] s1 [S1 H1].
  assert (B1 : booting m v p (held_record v) s1) by (exists (v_variable v); split; [by left|]; split; [done|]; by destruct v).
  destruct (EFI_ERROR status || _ || _).
  - apply runs_lift. eapply runs_call; [eapply health_store_runs; [done|apply default_record_valid|apply default_record_ok|by left]|].
    intros ok s2 B2. apply runs_message, runs_ret. split; [done|]. split; [by left|].
    split; [apply default_record_valid|]. split; [apply default_record_ok|]. intros Hr. unfold uefi_start_record. by rewrite H1.
  - destruct H1 as (Hh & Hv & Hok). rewrite Hh in B1. apply runs_message, runs_ret. split_and!; try done; [by right|].
    intros _. unfold uefi_start_record. by rewrite Hh.
Qed.

Lemma uefi_begin_attempt_runs m v p s :
  state_is fw_view m v p s ->
  runs (uefi_begin_attempt st) s (fun r s' => let '(h, slot) := r in booting m v p (Some h) s' /\
    josh_boot_health_valid (Some h) = true /\ record_ok h /\ attempt_record v h /\ 0 <= slot <= 2 /\
    (dependable -> josh_boot_health_prepare_attempt (Some (uefi_start_record v)) JOSH_BOOT_HEALTH_MAX_ATTEMPTS = (slot, Some h))).
Proof.
  intros Hs. unfold uefi_begin_attempt. eapply runs_call; [by apply uefi_health_load_runs|].
  intros r s1 (B1 & Hr & Hv & Hok & Hrel). destruct (prepare_attempt_valid r Hv Hok) as (slot & h & Hprep & Hvh & Hokh & Hslot & Hsame & _).
  rewrite Hprep. apply runs_lift.
  assert (Hw : attempt_record v h) by (exists r, h; rewrite Hprep; split_and!; try done; apply rtc_refl).
  eapply (runs_call _ _ _ (fun _ s' => booting m v p (Some h) s')).
  { destruct (Z.eqb_spec (hr_generation h) (hr_generation r)) as [E|E]; cbn [negb]; [rewrite (Hsame E); by apply runs_ret|].
    eapply runs_call; [eapply health_store_runs; try done; by right|]. intros ok s2 B2. by apply runs_ret. }
  intros [] s2 B2. eapply (runs_call _ _ _ (fun _ s' => booting m v p (Some h) s')).
  { destruct (negb (hr_pending_good r =? 0) && _); [|by apply runs_ret]. by destruct (slot =? JOSH_BOOT_SLOT_PREVIOUS); apply runs_update. }
  intros [] s3 B3. apply runs_ret. split_and!; try done; try lia. intros Hd. by rewrite <- (Hrel Hd).
Qed.

(** The volume: its root is open. *)
Definition volume_open (v : view) (root : Z) : Prop := root <> 0 /\ exists pos, v_handles v !! root = Some ([], pos).

(** A candidate: read and valid, or as if it had not been tried. *)
Definition candidate_post (m : mem) (v : view) (p : gmap Z (list Z)) (c : option josh_boot_health_record_t) (img : option (list Z)) (r : option (Z * Z)) (s' : uefi W) : Prop :=
  match r with
  | Some (buf, size) => exists l, img = Some l /\ size = zlen l /\ bytes l /\ in_u64 size /\ buf <> 0 /\ p !! buf = None /\
      booting m (set_buffers ({[buf]} ∪ v_buffers v) v) (<[buf := l]> p) c s'
  | None => booting m v p c s' /\ (dependable -> img = None)
  end.

Lemma booting_pool m v p q l var c s :
  variable_follows v var -> (stores_work (RuntimeServices st) -> record_in var = c) ->
  state_is fw_view m (set_buffers ({[q]} ∪ v_buffers (set_variable var v)) (set_variable var v)) (<[q := l]> p) s ->
  booting m (set_buffers ({[q]} ∪ v_buffers v) v) (<[q := l]> p) c s.
Proof. intros Hvar Hc Hs. by exists var. Qed.

Lemma try_candidate_runs m v p c root a s :
  volume_open v root -> path_array a -> booting m v p c s ->
  runs (try_candidate io bs root a) s (candidate_post m v p c (uefi_image v a)).
Proof.
  intros (Hroot & pos & Hr) Ha (var & Hvar & Hlast & Hs). assert (B : booting m v p c s) by by exists var.
  unfold try_candidate, uefi_image.
  destruct (path_array_cases a Ha) as [[-> ->]|(-> & (a0 & -> & Hc) & Hpath & Hstr)].
  { apply runs_lift. cbn [Z.eqb]. apply runs_ret. by split. }
  apply runs_lift. rewrite (proj2 (Z.eqb_neq a0 0)) by done. rewrite Hpath. apply runs_lift.
  eapply runs_call; [eapply (read_file_runs io bs (RuntimeServices st) fw_view image need m (set_variable var v)); [exact Hroot|exact Hr|exact Hs]|].
  intros [[status buf] size] s1 [Hrel H1]. rewrite Hstr in Hrel, H1. change (file_of (set_variable var v)) with (file_of v) in *.
  destruct (EFI_ERROR status) eqn:E1.
  { apply runs_ret. split; [by exists var|]. intros Hd. destruct (file_of v (uefi_path (c_str a))) as [l|]; [|done].
    specialize (Hrel Hd ltac:(done)). done. }
  destruct H1 as (l & Hl & Hb & -> & Hu & Hbuf & Hnew & S1). rewrite Hl.
  apply runs_bind. unfold pointee. rewrite (proj2 (Z.eqb_neq buf 0)) by done.
  apply (runs_buffer buf l); [destruct S1 as (_ & _ & -> & _); by rewrite lookup_insert_eq|]. apply runs_ret.
  destruct (validate_total l (zlen l) Hb Hu ltac:(lia) blank_summary) as (check & sm & Hval & _). rewrite Hval.
  apply runs_lift. assert (Hfree : check <> JOSH_ELF64_OK ->
    runs (run free_pool bs buf ; ret None) s1 (candidate_post m v p c None)).
  { intros _. eapply runs_call; [eapply (free_pool_runs io bs (RuntimeServices st) fw_view need m (set_variable var v) p buf l)|].
    - done.
    - destruct Hs as (_ & _ & _ & Hd). exact Hd.
    - exact S1.
    - intros [] s2 S2. apply runs_ret. split; [|done]. by exists var. }
  destruct check; try (by apply Hfree). apply runs_ret. exists l. split_and!; try done. by eapply booting_pool.
Qed.

Definition loop_post (m : mem) (v : view) (p : gmap Z (list Z)) (cfg : josh_boot_config_t) (h : josh_boot_health_record_t) (slots : list Z)
    (r : option (Z * Z)) (s' : uefi W) : Prop :=
  match r with
  | Some (buf, size) => exists l slot, slot ∈ slots /\ uefi_image v (uefi_kernel_path cfg slot) = Some l /\
      (dependable -> uefi_first_image v cfg slots = Some l) /\
      size = zlen l /\ bytes l /\ in_u64 size /\ buf <> 0 /\ p !! buf = None /\
      exists c, (dependable -> c = uefi_settled v cfg h slots) /\
        booting m (set_buffers ({[buf]} ∪ v_buffers v) v) (<[buf := l]> p) (Some c) s'
  | None => (exists c, (dependable -> c = uefi_settled v cfg h slots) /\ booting m v p (Some c) s') /\
      (dependable -> uefi_first_image v cfg slots = None)
  end.

(** The rest of the walk, after a slot that failed. *)
Lemma loop_post_next m v p cfg h h' slot next r s' :
  (dependable -> uefi_image v (uefi_kernel_path cfg slot) = None) ->
  josh_boot_health_select_fallback (Some h) next JOSH_BOOT_FAILURE_KERNEL_FILE = (1, Some h') ->
  loop_post m v p cfg h' (fallback_chain cfg next) r s' -> loop_post m v p cfg h (slot :: fallback_chain cfg next) r s'.
Proof.
  intros Hi Hf. assert (Hset : dependable -> uefi_settled v cfg h (slot :: fallback_chain cfg next) = uefi_settled v cfg h' (fallback_chain cfg next)).
  { intros Hd. unfold uefi_settled. rewrite (settle_fallback _ h slot next cfg h' 1); try done. unfold uefi_usable. by rewrite (Hi Hd). }
  set (rest := fallback_chain cfg next) in *. unfold loop_post. cbn [uefi_first_image]. destruct r as [[buf size]|].
  - intros (l & sl & Hin & Himg & Hd & Hz & Hb & Hu & Hbuf & Hnew & c & Hc & Hboot). exists l, sl.
    split; [set_solver|]. split; [done|]. split; [intros Hr; by rewrite (Hi Hr), (Hd Hr)|].
    do 5 (split; [done|]). exists c. split; [|done]. intros Hr. by rewrite (Hc Hr), (Hset Hr).
  - intros [(c & Hc & Hboot) Hd]. split; [exists c; split; [|done]; intros Hr; by rewrite (Hc Hr), (Hset Hr)|].
    intros Hr. by rewrite (Hi Hr), (Hd Hr).
Qed.

(** No other slot to try. *)
Lemma loop_post_last m v p cfg h slot s' :
  (dependable -> uefi_image v (uefi_kernel_path cfg slot) = None) -> booting m v p (Some h) s' ->
  loop_post m v p cfg h [slot] None s'.
Proof.
  intros Hi Hb. split; [exists h; split; [|done]|]; intros Hd; unfold uefi_settled, uefi_usable; cbn [settle uefi_first_image]; by rewrite (Hi Hd).
Qed.

Lemma uefi_slot_marker_runs {B} m v p c slot (k : unit -> prog (uefi W) B) s Q :
  booting m v p c s -> (forall s', booting m v p c s' -> runs (k tt) s' Q) -> runs (bind (uefi_slot_marker slot) k) s Q.
Proof.
  intros Hb Hk. unfold uefi_slot_marker.
  destruct (slot =? _); [|destruct (slot =? _)]; apply runs_message, Hk, Hb.
Qed.

(** A fallback: the record is written and the walk goes on. *)
Lemma fallback_runs {B} m v p h slot text (k : josh_boot_health_record_t -> prog (uefi W) B) s Q :
  booting m v p (Some h) s -> josh_boot_health_valid (Some h) = true -> record_ok h -> attempt_record v h ->
  slot = JOSH_BOOT_SLOT_PREVIOUS \/ slot = JOSH_BOOT_SLOT_RECOVERY ->
  (forall h' s', josh_boot_health_select_fallback (Some h) slot JOSH_BOOT_FAILURE_KERNEL_FILE = (1, Some h') ->
     booting m v p (Some h') s' -> josh_boot_health_valid (Some h') = true -> record_ok h' -> attempt_record v h' ->
     runs (k h') s' Q) ->
  forall none, runs
    (let '(ok, health) := josh_boot_health_select_fallback (Some h) slot JOSH_BOOT_FAILURE_KERNEL_FILE in
     if ok =? 0 then none
     else
       do health <- lift health ;
       run uefi_health_store st health ;
       run serial_write text ;
       k health) s Q.
Proof.
  intros Hb Hv Hok Ha Hslot Hk none. destruct (select_fallback_valid h slot Hv Hslot) as (h' & Hf & Hv' & Hok' & _).
  assert (Ha' : attempt_record v h').
  { destruct Ha as (r0 & h0 & H0 & Hp & Hrtc). exists r0, h0. split_and!; try done. eapply rtc_r; [done|]. by exists slot. }
  rewrite Hf. cbn [Z.eqb]. apply runs_lift. eapply runs_call; [apply (health_store_runs m v p (Some h) h'); auto; by right|].
  intros ok s2 B2. apply runs_message. apply Hk; auto.
Qed.

Lemma uefi_candidate_loop_runs m v p root cfg n : forall h slot s,
  volume_open v root -> config_ok cfg -> josh_boot_health_valid (Some h) = true -> record_ok h -> attempt_record v h ->
  0 <= slot <= 2 -> 2 - slot < Z.of_nat n -> booting m v p (Some h) s ->
  runs (uefi_candidate_loop io bs st root cfg n h slot) s (loop_post m v p cfg h (fallback_chain cfg slot)).
Proof.
  induction n as [|n IH]; intros h slot s Hvol Hcfg Hv Hok Ha Hslot Hfuel Hb; [lia|].
  destruct (config_path_arrays cfg Hcfg) as (Hpaths & Hpp & Hrp). cbn [uefi_candidate_loop].
  apply (uefi_slot_marker_runs m v p (Some h)); [done|]. clear s Hb. intros s Hb.
  eapply runs_call; [by apply (try_candidate_runs m v p (Some h))|]. intros [[buf size]|] s1 H1.
  { destruct H1 as (l & Himg & -> & Hb1 & Hu & Hbuf & Hnew & B1). apply runs_ret. exists l, slot. split; [unfold fallback_chain; set_solver|].
    split; [done|]. split; [intros _; unfold fallback_chain; cbn [uefi_first_image]; by rewrite Himg|].
    do 5 (split; [done|]). exists h. split; [|done]. intros _. unfold uefi_settled, fallback_chain, uefi_usable. cbn [settle]. by rewrite Himg. }
  destruct H1 as [B1 Hnone].
  destruct (config_ok_paths cfg Hcfg) as (_ & H0p & H0r).
  destruct (get8_present _ H0p) as (cp & -> & Ep). destruct (get8_present _ H0r) as (cr & -> & Er).
  do 2 apply runs_lift. rewrite <- Ep, <- Er. unfold fallback_chain.
  destruct ((slot =? JOSH_BOOT_SLOT_CURRENT) && present_path (bc_previous_kernel_path cfg)) eqn:E1.
  - apply andb_true_iff in E1 as [E1 _]. unfold JOSH_BOOT_SLOT_CURRENT in E1.
    apply (fallback_runs m v p); auto. intros h' s2 Hf B2 Hv' Hok' Ha'.
    eapply runs_mono; [apply IH; try done; unfold JOSH_BOOT_SLOT_PREVIOUS; lia|]. intros r s' Hpost.
    by apply (loop_post_next m v p cfg h h' slot JOSH_BOOT_SLOT_PREVIOUS).
  - destruct (Z.eqb_spec slot JOSH_BOOT_SLOT_RECOVERY) as [->|Hne]; cbn [negb andb].
    { apply runs_ret. by apply loop_post_last. }
    destruct (present_path (bc_recovery_kernel_path cfg)) eqn:E2.
    + apply (fallback_runs m v p); auto. intros h' s2 Hf B2 Hv' Hok' Ha'. unfold JOSH_BOOT_SLOT_RECOVERY in *.
      eapply runs_mono; [apply IH; try done; lia|]. intros r s' Hpost. by apply (loop_post_next m v p cfg h h' slot 2).
    + apply runs_ret. by apply loop_post_last.
Qed.

(** ** The whole of [load_files] *)
Lemma uefi_read_config_runs m v p root s :
  volume_open v root -> state_is fw_view m v p s ->
  runs (uefi_read_config io bs root) s (fun r s' => state_is fw_view m v p s' /\
    match r with
    | (status, Some cfg) => uefi_config v = Some cfg /\ config_ok cfg
    | (status, None) => EFI_ERROR status = true /\ (dependable -> uefi_config v = None)
    end).
Proof.
  intros (Hroot & pos & Hr) Hs. unfold uefi_read_config, uefi_config.
  eapply runs_call; [by eapply (read_file_runs io bs (RuntimeServices st) fw_view image need m v)|].
  intros [[status buf] size] s1 [Hrel H1]. destruct (EFI_ERROR status) eqn:E1.
  { apply runs_ret. split; [done|]. split; [done|]. intros Hd. destruct (file_of v (c_str cfg_path)); [|done].
    specialize (Hrel Hd ltac:(done)). done. }
  destruct H1 as (text & Ht & Hb & -> & Hu & Hbuf & Hnew & S1). rewrite Ht.
  assert (Hd : dom p = v_buffers v) by apply Hs.
  pose proof (free_pool_runs io bs (RuntimeServices st) fw_view need m v p buf text s1 Hnew Hd S1) as Hfree.
  destruct (zlen text >? JOSH_BOOT_CONFIG_MAX_BYTES) eqn:Ez.
  { eapply runs_call; [exact Hfree|]. intros [] s2 S2. by apply runs_ret. }
  apply runs_bind. unfold pointee. rewrite (proj2 (Z.eqb_neq buf 0)) by done.
  apply (runs_buffer buf text); [destruct S1 as (_ & _ & -> & _); by rewrite lookup_insert_eq|]. apply runs_ret.
  assert (Hpos : 0 < zlen text).
  { unfold file_of in Ht. destruct (v_contents v !! _) as [[|b l]|]; simplify_eq. unfold zlen. cbn. lia. }
  destruct (parse_config_ref text (zlen text) zero_config) as (status2 & cfg & Href & Hparse);
    [unfold JOSH_BOOT_CONFIG_MAX_BYTES in *; lia|lia|].
  rewrite take_ge in Href by (unfold zlen; lia). rewrite Hparse, Href. apply runs_lift.
  eapply runs_call; [exact Hfree|]. intros [] s2 S2.
  destruct status2; try (by apply runs_ret). apply runs_lift, runs_ret. split_and!; try done. by eapply parsed_config_ok.
Qed.

(** The loaded image is what the firmware says it is. *)
Definition loaded_image (li : EFI_LOADED_IMAGE_PROTOCOL) : Prop :=
  exists w status w', HandleProtocol bs image gEfiLoadedImageProtocolGuid w = (status, Some (LoadedImage li), w').

Lemma open_root_runs m v p s :
  state_is fw_view m v p s ->
  runs (open_root image st) s (fun r s' => let '(status, root, loaded) := r in
    if EFI_ERROR status then ~ dependable /\ state_is fw_view m v p s'
    else root <> 0 /\ v_handles v !! root = None /\ (exists li, loaded = Some li /\ loaded_image li) /\
      state_is fw_view m (set_handles (<[root := ([], 0)]> (v_handles v)) v) p s').
Proof.
  intros (Hm & Hv & Hp & Hd). unfold open_root. rewrite Hbs. apply runs_lift, runs_service. intros [status i] w1 E1.
  destruct (fw_handle_protocol _ _ _ _ _ _ E1) as (Hw1 & Himg & _). rewrite Hv in Hw1.
  assert (S1 : state_is fw_view m v p (with_fw w1 s)) by by split_and!.
  destruct (EFI_ERROR status) eqn:Es1.
  { apply runs_ret. rewrite Es1. split; [|done]. intros Hr. destruct (rel_volume _ _ _ _ _ _ Hr) as (l & f & o & _ & H).
    destruct (H (uf_fw s)) as (H1 & _). rewrite E1 in H1. cbn in H1. congruence. }
  specialize (Himg eq_refl eq_refl). destruct i as [[loaded| |]|]; try done. apply runs_service. intros [status2 i2] w2 E2.
  destruct (fw_handle_protocol _ _ _ _ _ _ E2) as (Hw2 & _ & Hfs). cbn [uf_fw with_fw] in E2, Hw2. rewrite Hw1 in Hw2.
  assert (S2 : state_is fw_view m v p (with_fw w2 (with_fw w1 s))) by by split_and!.
  assert (Hvol : dependable -> EFI_ERROR status2 = false /\ exists fs ov, i2 = Some (SimpleFileSystem fs) /\ OpenVolume fs = Some ov /\
    forall w, EFI_ERROR (ov w).1.1 = false).
  { intros Hr. destruct (rel_volume _ _ _ _ _ _ Hr) as (l & f & o & Ho & H).
    destruct (H (uf_fw s)) as (_ & Hl & _). rewrite E1 in Hl. cbn in Hl. injection Hl as ->.
    destruct (H w1) as (_ & _ & H3 & H4 & _). rewrite E2 in H3, H4. cbn in H3, H4. split; [done|].
    exists f, o. split_and!; try done. intros w. apply H. }
  destruct (EFI_ERROR status2) eqn:Es2.
  { apply runs_ret. split; [|done]. intros Hr. by destruct (Hvol Hr). }
  specialize (Hfs eq_refl eq_refl). destruct i2 as [[|fs|]|]; try done.
  2: { apply runs_ret. split; [|done]. intros Hr. destruct (Hvol Hr) as (_ & ? & ? & ? & _). done. }
  destruct (OpenVolume fs) as [ov|] eqn:Eov.
  2: { apply runs_ret. split; [|done]. intros Hr. destruct (Hvol Hr) as (_ & f & o & [= <-] & Ho & _). congruence. }
  apply runs_service. intros [status3 root] w3 E3. cbn [uf_fw with_fw] in E3. pose proof (Hfs ov eq_refl _ _ _ _ E3) as Hlaw.
  apply runs_ret. rewrite Hw2 in Hlaw. destruct (EFI_ERROR status3) eqn:Es3.
  - split; [|by split_and!]. intros Hr. destruct (Hvol Hr) as (_ & f & o & [= <-] & Ho & Hok).
    rewrite Eov in Ho. injection Ho as <-. specialize (Hok w2). rewrite E3 in Hok. cbn in Hok. congruence.
  - destruct Hlaw as (Hroot & Hnone & Hw3). split_and!; try done. exists loaded. split; [done|]. by exists (uf_fw s), status, w1.
Qed.

Definition loaded_post (m : mem) (v : view) (p : gmap Z (list Z))
    (r : EFI_STATUS * option (josh_boot_config_t * Z * Z * option EFI_LOADED_IMAGE_PROTOCOL)) (s' : uefi W) : Prop :=
  match r with
  | (status, Some (cfg, buf, size, loaded)) =>
      EFI_ERROR status = false /\ (exists li, loaded = Some li /\ loaded_image li) /\ uefi_config v = Some cfg /\ config_ok cfg /\
      exists l slot, uefi_image v (uefi_kernel_path cfg slot) = Some l /\ (dependable -> uefi_plan v = Some (cfg, l)) /\
        size = zlen l /\ bytes l /\ in_u64 size /\ buf <> 0 /\ p !! buf = None /\
        exists c, (dependable -> c = uefi_record_after v) /\
          booting m (set_buffers ({[buf]} ∪ v_buffers v) v) (<[buf := l]> p) c s'
  | (status, None) => EFI_ERROR status = true /\
      (exists c, (dependable -> c = uefi_record_after v) /\ booting m v p c s') /\ (dependable -> uefi_plan v = None)
  end.

(** Closing the volume at the end. *)
Lemma close_root_runs m v p c root x s :
  root <> 0 -> v_handles v !! root = None -> dom p = v_buffers v ->
  booting m (set_handles (<[root := x]> (v_handles v)) v) p c s ->
  runs (method root (Close io root)) s (fun _ s' => booting m v p c s').
Proof.
  intros Hr Hn Hd (var & Hvar & Hc & Hs).
  eapply runs_mono; [apply (close_file_runs io bs (RuntimeServices st) fw_view m (set_variable var v) p root x); [done|exact Hn|exact Hd|exact Hs]|].
  intros status s' S'. by exists var.
Qed.

Lemma load_files_runs m v p s :
  state_is fw_view m v p s -> runs (load_files io image st) s (loaded_post m v p).
Proof.
  intros Hs. assert (Hd : dom p = v_buffers v) by apply Hs. unfold load_files, uefi_plan.
  eapply runs_call; [by apply open_root_runs|]. intros [[status root] loaded] s1 H1. destruct (EFI_ERROR status) eqn:E1.
  { destruct H1 as [Hnr S1]. apply runs_ret. split; [done|]. split; [|by intros Hr]. exists (held_record v). split; [done|].
    exists (v_variable v). split; [by left|]. split; [done|]. by destruct v. }
  destruct H1 as (Hroot & Hnone & Hld & S1). set (v1 := set_handles (<[root := ([], 0)]> (v_handles v)) v) in *.
  assert (Hvol : volume_open v1 root) by (split; [done|]; exists 0; cbn; by rewrite lookup_insert_eq).
  rewrite Hbs. apply runs_lift. eapply runs_call; [by apply uefi_read_config_runs|]. intros [status2 [cfg|]] s2 [S2 H2].
  2: { destruct H2 as [E2 Hcfg]. eapply runs_call.
       - apply (close_root_runs m v p (held_record v) root ([], 0)); [done|exact Hnone|exact Hd|]. exists (v_variable v1).
         split; [by left|]. split; [done|]. by destruct v.
       - intros st3 s3 B3. apply runs_ret. change (uefi_config v1) with (uefi_config v) in Hcfg.
         split_and!; [done|exists (held_record v); split; [|done]|]; intros Hr; unfold uefi_plan, uefi_record_after; by rewrite (Hcfg Hr). }
  destruct H2 as [Hcfg Hcok]. change (uefi_config v1) with (uefi_config v) in Hcfg. apply runs_message.
  eapply runs_call; [apply (uefi_begin_attempt_runs m v1 p); exact S2|].
  intros [h slot] s3 (B3 & Hv & Hok & Ha & Hslot & Hdep).
  eapply runs_call; [apply (uefi_candidate_loop_runs m v1 p root cfg 3 h slot s3); try done; lia|]. intros found s4 H4.
  assert (Hafter : dependable -> uefi_record_after v = Some (uefi_settled v1 cfg h (fallback_chain cfg slot))).
  { intros Hr. unfold uefi_record_after, boot_step. rewrite Hcfg. change (uefi_start_record v) with (uefi_start_record v1). by rewrite (Hdep Hr). }
  assert (Hplan : dependable -> uefi_plan v = let? img := uefi_first_image v1 cfg (fallback_chain cfg slot) in Some (cfg, img)).
  { intros Hr. unfold uefi_plan, uefi_boot_slot. rewrite Hcfg, (uefi_first_image_same v v1) by done.
    change (uefi_start_record v) with (uefi_start_record v1). by rewrite (Hdep Hr). }
  destruct found as [[buf size]|]; cbn [loop_post] in H4.
  - destruct H4 as (l & sl & Hin & Himg & Hfirst & -> & Hb & Hu & Hbuf & Hnew & c & Hc & B4).
    eapply runs_call; [apply (close_root_runs m (set_buffers ({[buf]} ∪ v_buffers v) v) (<[buf := l]> p) (Some c) root ([], 0));
      [done|exact Hnone|rewrite dom_insert_L; cbn; by rewrite Hd|exact B4]|].
    intros st5 s5 B5. apply runs_message, runs_ret. split; [done|]. split; [done|]. split; [done|]. split; [done|].
    exists l, sl. split_and!; try done; try apply Hu; [intros Hr; by rewrite (Hplan Hr), (Hfirst Hr)|].
    exists (Some c). split; [intros Hr; by rewrite (Hafter Hr), (Hc Hr)|done].
  - destruct H4 as [(c & Hc & B4) Hfirst]. eapply runs_call; [by apply (close_root_runs m v p (Some c) root ([], 0))|].
    intros st5 s5 B5. apply runs_message, runs_ret. split; [done|]. split.
    + exists (Some c). split; [intros Hr; by rewrite (Hafter Hr), (Hc Hr)|done].
    + intros Hr. by rewrite (Hplan Hr), (Hfirst Hr).
Qed.
End Boot.

(** C4: The UEFI loader implements the boot plan. On firmware that honours the contract and whose
    services work, [load_files] returns without undefined behaviour; with the plan computed purely
    from the volume and the health variable at the start (configuration, record and its attempt limit,
    then the first of the current, previous and recovery kernels whose file is a valid image), it
    returns that configuration and a buffer that holds exactly that image, or an error when the plan
    has none. *)
Theorem uefi_load_implements_plan {W : Type} (io : EFI_FILE_PROTOCOL W) (st : EFI_SYSTEM_TABLE W) (bs : EFI_BOOT_SERVICES W)
    (fw_view : W -> view) `{!UefiFirmware io bs (RuntimeServices st) fw_view} (image : Z) (need : list Z -> Z) (s : uefi W) :
  BootServices st = Some bs -> reliable io bs (RuntimeServices st) fw_view image need ->
  dom (uf_pool s) = v_buffers (fw_view (uf_fw s)) ->
  exists status out s', load_files io image st s = Some ((status, out), s') /\
    match uefi_plan (fw_view (uf_fw s)) with
    | Some (cfg, img) => EFI_ERROR status = false /\
        exists buf loaded, out = Some (cfg, buf, zlen img, Some loaded) /\ uf_pool s' !! buf = Some img
    | None => EFI_ERROR status = true /\ out = None
    end.
Proof.
  intros Hbs Hr Hd. assert (Hs : state_is fw_view (uf_mem s) (fw_view (uf_fw s)) (uf_pool s) s) by by split_and!.
  destruct (load_files_runs io st bs fw_view Hbs image need _ _ _ s Hs) as ([status [[[[cfg buf] size] loaded]|]] & s' & H & Hpost).
  - destruct Hpost as (Hok & (l & Hl & _) & _ & _ & img & slot & _ & Hplan & -> & _ & _ & _ & _ & c & _ & var & _ & _ & _ & _ & Hp & _).
    exists status, (Some (cfg, buf, zlen img, loaded)), s'. split; [done|]. rewrite (Hplan Hr), Hl. split; [done|].
    exists buf, l. split; [done|]. by rewrite Hp, lookup_insert_eq.
  - destruct Hpost as (Herr & _ & Hplan). exists status, None, s'. by rewrite (Hplan Hr).
Qed.

Lemma uefi_load_implements_plan_witness :
  exists status buf loaded s', load_files mock_io 1 mock_st (mock_start None) = Some ((status, Some (example_config, buf, 1024, loaded)), s') /\
    uf_pool s' !! buf = Some example_image.
Proof.
  destruct (uefi_load_implements_plan mock_io mock_st mock_bs mock_view 1 (fun _ => 80) (mock_start None)
    eq_refl mock_reliable eq_refl) as (status & out & s' & H & Hplan).
  assert (E : uefi_plan (mock_view (uf_fw (mock_start None))) = Some (example_config, example_image)) by (vm_compute; reflexivity).
  rewrite E in Hplan. destruct Hplan as (_ & buf & loaded & Hout & Hbuf).
  exists status, buf, (Some loaded), s'. split; [rewrite H, Hout; reflexivity|exact Hbuf].
Defined.

(** C20: The UEFI loader gives back what it takes. Whatever service fails at whatever call, [load_files]
    returns without undefined behaviour, leaves memory and the page allocations alone and closes every
    file it opened; when it fails every pool buffer it allocated has been freed; when it succeeds exactly
    one new buffer is left, the kernel's, and its contents are the file of one of the slots of the parsed
    configuration and a valid image. *)
Theorem uefi_load_releases_resources {W : Type} (io : EFI_FILE_PROTOCOL W) (st : EFI_SYSTEM_TABLE W) (bs : EFI_BOOT_SERVICES W)
    (fw_view : W -> view) `{!UefiFirmware io bs (RuntimeServices st) fw_view} (image : Z) (s : uefi W) :
  BootServices st = Some bs -> dom (uf_pool s) = v_buffers (fw_view (uf_fw s)) ->
  exists status out s', load_files io image st s = Some ((status, out), s') /\
    let v := fw_view (uf_fw s) in
    let v' := fw_view (uf_fw s') in
    uf_mem s' = uf_mem s /\ v_pages v' = v_pages v /\ v_handles v' = v_handles v /\ v_contents v' = v_contents v /\
    match out with
    | None => EFI_ERROR status = true /\ uf_pool s' = uf_pool s /\ v_buffers v' = v_buffers v
    | Some (cfg, buf, size, loaded) =>
        EFI_ERROR status = false /\ uefi_config v = Some cfg /\ uf_pool s !! buf = None /\
        v_buffers v' = {[buf]} ∪ v_buffers v /\
        exists img slot, uf_pool s' = <[buf := img]> (uf_pool s) /\ size = zlen img /\
          uefi_image v (uefi_kernel_path cfg slot) = Some img
    end.
Proof.
  intros Hbs Hd. assert (Hs : state_is fw_view (uf_mem s) (fw_view (uf_fw s)) (uf_pool s) s) by by split_and!.
  destruct (load_files_runs io st bs fw_view Hbs image (fun _ => 0) _ _ _ s Hs) as ([status [[[[cfg buf] size] loaded]|]] & s' & H & Hpost).
  - destruct Hpost as (Hok & _ & Hcfg & _ & img & slot & Himg & _ & -> & _ & _ & _ & Hnew & c & _ & var & _ & _ & Hm & Hv & Hp & _).
    eexists status, _, s'. split; [exact H|]. cbv zeta. rewrite Hv. split_and!; try done. by exists img, slot.
  - destruct Hpost as (Herr & (c & _ & var & _ & _ & Hm & Hv & Hp & _) & _). exists status, None, s'. split; [done|]. cbv zeta. rewrite Hv. done.
Qed.

Lemma uefi_load_releases_resources_witness :
  exists status out s', load_files mock_io 1 mock_st (mock_start (Some [1; 2; 3])) = Some ((status, out), s') /\
    v_handles (mock_view (uf_fw s')) = ∅.
Proof.
  destruct (uefi_load_releases_resources mock_io mock_st mock_bs mock_view 1 (mock_start (Some [1; 2; 3])) eq_refl eq_refl)
    as (status & out & s' & H & _ & _ & Hh & _).
  exists status, out, s'. split; [exact H|exact Hh].
Defined.

(** C23: The health variable survives a boot. Whatever service fails, after [load_files] the variable is
    what it was or holds a valid record: the default one, or the record that counting the attempt makes
    of the held or default record, or one that follows from it by fallbacks. *)
Theorem uefi_load_keeps_record {W : Type} (io : EFI_FILE_PROTOCOL W) (st : EFI_SYSTEM_TABLE W) (bs : EFI_BOOT_SERVICES W)
    (fw_view : W -> view) `{!UefiFirmware io bs (RuntimeServices st) fw_view} (image : Z) (s : uefi W) :
  BootServices st = Some bs -> dom (uf_pool s) = v_buffers (fw_view (uf_fw s)) ->
  exists r s', load_files io image st s = Some (r, s') /\
    let v := fw_view (uf_fw s) in
    (v_variable (fw_view (uf_fw s')) = v_variable v \/
     exists rec, v_variable (fw_view (uf_fw s')) = Some (record_bytes rec) /\ josh_boot_health_valid (Some rec) = true /\
       (rec = default_record \/
        exists r0 h, (r0 = default_record \/ held_record v = Some r0) /\
          snd (josh_boot_health_prepare_attempt (Some r0) JOSH_BOOT_HEALTH_MAX_ATTEMPTS) = Some h /\ rtc fallback_step h rec)).
Proof.
  intros Hbs Hd. assert (Hs : state_is fw_view (uf_mem s) (fw_view (uf_fw s)) (uf_pool s) s) by by split_and!.
  destruct (load_files_runs io st bs fw_view Hbs image (fun _ => 0) _ _ _ s Hs) as (r & s' & H & Hpost). exists r, s'.
  split; [done|]. cbv zeta. assert (Hb : exists var, variable_follows (fw_view (uf_fw s)) var /\ v_variable (fw_view (uf_fw s')) = var).
  { destruct r as [status [[[[cfg buf] size] loaded]|]].
    - destruct Hpost as (_ & _ & _ & _ & img & slot & _ & _ & _ & _ & _ & _ & _ & c & _ & var & Hvar & _ & _ & Hv & _). exists var. by rewrite Hv.
    - destruct Hpost as (_ & (c & _ & var & Hvar & _ & _ & Hv & _) & _). exists var. by rewrite Hv. }
  destruct Hb as (var & [->|(rec & -> & Hv & _ & Hw)] & ->); [by left|]. right. by exists rec.
Qed.

Lemma uefi_load_keeps_record_witness :
  exists r s', load_files mock_io 1 mock_st (mock_start None) = Some (r, s') /\
    v_variable (mock_view (uf_fw s')) <> Some [1; 2; 3].
Proof.
  destruct (uefi_load_keeps_record mock_io mock_st mock_bs mock_view 1 (mock_start None) eq_refl eq_refl) as (r & s' & H & Hv).
  exists r, s'. split; [exact H|]. destruct Hv as [Hv|(rec & Hv & _)]; rewrite Hv; [discriminate|]. intros E.
  assert (E' : record_bytes rec = [1; 2; 3]) by congruence.
  apply (f_equal length) in E'. rewrite length_record_bytes in E'. discriminate E'.
Defined.
