(* ===== verification/UefiKernel.v ===== *)
(** * The kernel in memory under UEFI (boot/uefi/main.c)

    [alloc_low] takes pages below 4 GiB from the firmware; [load_elf] validates the
    image, clears fresh pages for the kernel's address range and copies every
    segment to its place in them. *)
From stdpp Require Import gmap.
From S2P Require Import Prelude Prog Elf64 Memory Efi EfiMock UefiPaging UefiLoad.

Definition KERNEL_VIRT_FLOOR : Z := 0xffffffff80000000.
Definition MAX_KERNEL_BYTES : Z := 64 * 1024 * 1024.

Section Kernel.
Context {W : Type}.

Definition alloc_low (bs : option (EFI_BOOT_SERVICES W)) (pages : Z) (a : option Z) : prog (uefi W) (EFI_STATUS * option Z) :=
  match bs, a with
  | Some bs, Some _ =>
      if pages =? 0 then ret (EFI_INVALID_PARAMETER, a)
      else
        do (s, address) <- service (AllocatePages bs AllocateMaxAddress EfiLoaderData pages 0xffffffff) ;
        ret (s, Some address)
  | _, _ => ret (EFI_INVALID_PARAMETER, a)
  end.

(** The copies of [load_elf], [n] segments left from [i] on. *)
Fixpoint place_loop (image bytes virtual_min span phys : Z) (n : nat) (i : Z) : prog (uefi W) EFI_STATUS :=
  match n with
  | O => ret EFI_SUCCESS
  | S n' =>
      do img <- pointee image ;
      do (status, seg) <- lift (josh_elf64_load_segment img bytes i (Some blank_segment)) ;
      do seg <- lift seg ;
      match status with
      | JOSH_ELF64_OK =>
          if ls_virtual_address seg <? virtual_min then ret EFI_LOAD_ERROR
          else
            let off := u64 (ls_virtual_address seg - virtual_min) in
            if (off >? span) || (ls_memory_size seg >? u64 (span - off)) then ret EFI_LOAD_ERROR
            else
              do img <- lift img ;
              do data <- lift (slice img (ls_file_offset seg) (ls_file_size seg)) ;
              run memory_op (fun m => mem_put m (u64 (phys + off)) data) ;
              place_loop image bytes virtual_min span phys n' (u16 (i + 1))
      | _ => ret EFI_LOAD_ERROR
      end
  end.

(** The status, the summary and the physical address. *)
Definition load_elf (bs : EFI_BOOT_SERVICES W) (image bytes : Z) : prog (uefi W) (EFI_STATUS * JoshElf64Summary * Z) :=
  do img <- pointee image ;
  do (status, sum) <- lift (josh_elf64_validate img bytes (Some blank_summary)) ;
  do sum <- lift sum ;
  match status with
  | JOSH_ELF64_OK =>
      if (es_virtual_min sum <? KERNEL_VIRT_FLOOR) || (es_virtual_max sum <=? es_virtual_min sum)
      then ret (EFI_UNSUPPORTED, sum, 0)
      else
        let span := u64 (es_virtual_max sum - es_virtual_min sum) in
        if (span =? 0) || (span >? MAX_KERNEL_BYTES) then ret (EFI_BAD_BUFFER_SIZE, sum, 0)
        else
          do (s, phys) <- alloc_low (Some bs) (pages_for span) (Some 0) ;
          do phys <- lift phys ;
          if EFI_ERROR s then ret (s, sum, phys)
          else
            run memory_op (fun m => memzero m phys (Z.to_nat (u64 (pages_for span * PAGE_SIZE)))) ;
            do s <- place_loop image bytes (es_virtual_min sum) span phys (Z.to_nat (es_load_segment_count sum)) 0 ;
            if EFI_ERROR s then ret (s, sum, phys)
            else run serial_write "JOSHUEFI_ELF64_LOADED" ; ret (EFI_SUCCESS, sum, phys)
  | _ => ret (EFI_LOAD_ERROR, sum, 0)
  end.
End Kernel.

(** ** Allocation *)
Section Allocation.
Context {W : Type} (io : EFI_FILE_PROTOCOL W) (bs : EFI_BOOT_SERVICES W) (rs : option (EFI_RUNTIME_SERVICES W)).
Context (fw_view : W -> view) `{!UefiFirmware io bs rs fw_view} (handle : Z) (sp : supplies).

(** The range of [n] pages at [a] is new. *)
Definition new_range (v : view) (a n : Z) : Prop :=
  0 <= a /\ a mod 4096 = 0 /\ a + 4096 * n <= 2 ^ 32 /\ Forall (fun r => ranges_apart a n r.1 r.2) (v_pages v).

Definition more_pages (a n : Z) (v : view) : view := set_pages ((a, n) :: v_pages v) v.

(** The pages still to be had. *)
Definition pages_left (v : view) : Z := left_pages sp (v_pages v).

Lemma alloc_low_runs m v p n x s :
  0 <= n -> state_is fw_view m v p s ->
  runs (alloc_low (Some bs) n (Some x)) s (fun r s' => exists a, r.2 = Some a /\
    (willing bs fw_view handle sp -> 0 < n <= pages_left v ->
       EFI_ERROR r.1 = false /\ 0 < a /\ pages_left v - n <= pages_left (more_pages a n v)) /\
    if EFI_ERROR r.1 then state_is fw_view m v p s'
    else 0 < n /\ new_range v a n /\ state_is fw_view m (more_pages a n v) p s').
Proof.
  intros Hn (Hm & Hv & Hp & Hd). cbn [alloc_low]. destruct (Z.eqb_spec n 0) as [->|Hn0].
  { apply runs_ret. exists x. split; [done|]. split; [lia|by split_and!]. }
  apply runs_service. intros [status a] w E. apply runs_ret. exists a. split; [done|]. split.
  { intros Hw Hle. unfold pages_left in *. rewrite <- Hv in Hle |- *. pose proof (wil_pages _ _ _ _ Hw EfiLoaderData n (uf_fw s) Hle) as Hl.
    by rewrite E in Hl. }
  assert (Hpos : 0 < n) by lia. pose proof (fw_allocate_pages _ _ _ _ _ _ _ Hpos E) as Hlaw. cbn [fst]. rewrite Hv in Hlaw.
  destruct (EFI_ERROR status); [by split_and!|]. destruct Hlaw as (H0 & Ha & Hmax & Hapart & Hw).
  split; [lia|]. split; [|by split_and!]. by split_and!.
Qed.
End Allocation.

(** ** The kernel in its pages *)
Section Placement.
Context (img : list Z) (phys : Z) (sm : JoshElf64Summary).
Context (Hbytes : bytes img).

Definition page_count : Z := (es_virtual_max sm - es_virtual_min sm + 4095) / 4096.

Definition segment_place (g : JoshElf64LoadSegment) : Z := phys + (ls_virtual_address g - es_virtual_min sm).

Definition place (m : mem) (g : JoshElf64LoadSegment) : mem :=
  mem_put m (segment_place g) (take (Z.to_nat (ls_file_size g)) (drop (Z.to_nat (ls_file_offset g)) img)).

(** Byte [x] of the kernel's pages. *)
Definition covers (g : JoshElf64LoadSegment) (x : Z) : bool := inside (segment_place g) (ls_file_size g) x.

Lemma place_spec m g x :
  seg_ok (zlen img) sm g ->
  place m g x = if covers g x then default 0 (get8 img (ls_file_offset g + (x - segment_place g))) else m x.
Proof.
  intros (Ho & _ & Hf & _ & _ & Hfit & _). unfold in_u64 in *. unfold place, mem_put, covers.
  set (data := take _ _). assert (Hsl : slice img (ls_file_offset g) (ls_file_size g) = Some data) by (apply slice_Some; lia).
  pose proof (slice_inv _ _ _ _ Hsl) as (_ & _ & _ & -> & _). ranges.
  f_equal. symmetry. apply (slice_get8 _ _ _ _ _ Hsl). lia.
Qed.

Lemma foldl_place segs : forall m x,
  Forall (seg_ok (zlen img) sm) segs ->
  pairwise (fun s t => seg_end s <= ls_virtual_address t \/ seg_end t <= ls_virtual_address s) segs ->
  (forall g, g ∈ segs -> covers g x = true ->
     foldl place m segs x = default 0 (get8 img (ls_file_offset g + (x - segment_place g)))) /\
  ((forall g, g ∈ segs -> covers g x = false) -> foldl place m segs x = m x).
Proof.
  induction segs as [|t segs IH]; intros m x Hok Hpw; cbn [foldl]; [split; [set_solver|done]|].
  apply Forall_cons in Hok as [Ht Hok].
  assert (Hpw' : pairwise (fun s t => seg_end s <= ls_virtual_address t \/ seg_end t <= ls_virtual_address s) segs)
    by (intros i j a b Hij Ha Hb; by apply (Hpw (S i) (S j) a b); [lia|..]).
  destruct (IH (place m t) x Hok Hpw') as [Hin Hout]. split.
  - intros g [->|Hg]%elem_of_cons Hc; [|by apply Hin]. rewrite Hout; [by rewrite place_spec, Hc|].
    intros u Hu. pose proof (proj1 (Forall_forall _ _) Hok u Hu) as (_ & _ & _ & _ & Hum & _).
    destruct Ht as (_ & _ & _ & _ & Htm & _). apply list_elem_of_lookup in Hu as [j Hj].
    destruct (Hpw 0%nat (S j) t u ltac:(lia) eq_refl Hj); unfold covers, seg_end, segment_place in *;
      destruct (inside_spec (phys + (ls_virtual_address t - es_virtual_min sm)) (ls_file_size t) x); [|done| |done];
      ranges; done.
  - intros Hn. rewrite Hout by set_solver. rewrite place_spec by done. by rewrite (Hn t) by set_solver.
Qed.

(** What the pages of a loaded kernel hold. *)
Definition kernel_in_pages (m m' : mem) (segs : list JoshElf64LoadSegment) : Prop :=
  (forall g i, g ∈ segs -> 0 <= i < ls_memory_size g ->
     m' (segment_place g + i) = if i <? ls_file_size g then default 0 (get8 img (ls_file_offset g + i)) else 0) /\
  (forall x, x < phys \/ phys + 4096 * page_count <= x -> m' x = m x).

Lemma place_kernel m segs :
  accepted_segments img (zlen img) sm segs -> es_virtual_min sm < es_virtual_max sm ->
  kernel_in_pages m (foldl place (memzero m phys (Z.to_nat (4096 * page_count))) segs) segs.
Proof.
  intros (_ & _ & Hok & Hpw & _) Hlt. assert (Hpc : 0 <= page_count) by (unfold page_count; zdm). split.
  - intros g i Hg Hi. set (x := segment_place g + i). destruct (foldl_place segs (memzero m phys (Z.to_nat (4096 * page_count))) x Hok Hpw) as [Hin Hout].
    pose proof (proj1 (Forall_forall _ _) Hok g Hg) as (_ & _ & Hf & _ & Hfm & _ & _ & Hmin & Hmax). unfold in_u64, seg_end in *.
    destruct (Z.ltb_spec i (ls_file_size g)).
    + rewrite (Hin g Hg); [|unfold covers, x; ranges; done]. do 2 f_equal. unfold x. lia.
    + rewrite Hout.
      * rewrite memzero_spec, Z2Nat.id by lia. ranges. unfold x, segment_place, page_count in *. exfalso. zdm.
      * intros u Hu. pose proof (proj1 (Forall_forall _ _) Hok u Hu) as (_ & _ & _ & _ & Hum & _).
        unfold covers, x. destruct (inside_spec (segment_place u) (ls_file_size u) (segment_place g + i)) as [Hc|]; [|done]. exfalso.
        unfold segment_place in Hc. apply list_elem_of_lookup in Hg as [j Hj], Hu as [k Hk].
        destruct (Nat.lt_total j k) as [Hjk|[->|Hjk]]; [|simplify_eq; lia|].
        -- destruct (Hpw j k g u Hjk Hj Hk); unfold seg_end in *; lia.
        -- destruct (Hpw k j u g Hjk Hk Hj); unfold seg_end in *; lia.
  - intros x Hx. destruct (foldl_place segs (memzero m phys (Z.to_nat (4096 * page_count))) x Hok Hpw) as [_ Hout]. rewrite Hout.
    + rewrite memzero_spec, Z2Nat.id by lia. ranges; done.
    + intros u Hu. pose proof (proj1 (Forall_forall _ _) Hok u Hu) as (_ & _ & Hf & _ & Hum & _ & _ & Hmin & Hmax).
      unfold covers, segment_place, seg_end, page_count, in_u64 in *. destruct (inside_spec (phys + (ls_virtual_address u - es_virtual_min sm)) (ls_file_size u) x); [|done]. exfalso. zdm.
Qed.
End Placement.

Section LoadElf.
Context {W : Type} (io : EFI_FILE_PROTOCOL W) (bs : EFI_BOOT_SERVICES W) (rs : option (EFI_RUNTIME_SERVICES W)).
Context (fw_view : W -> view) `{!UefiFirmware io bs rs fw_view} (handle : Z) (sp : supplies).
Context (img : list Z) (image : Z).
Context (Hbytes : bytes img) (Hsize : in_u64 (zlen img)) (Himage : image <> 0).

Lemma pointee_runs {B} m v p (k : option (list Z) -> prog (uefi W) B) s Q :
  p !! image = Some img -> state_is fw_view m v p s -> runs (k (Some img)) s Q -> runs (bind (pointee image) k) s Q.
Proof.
  intros Hp Hs Hk. apply runs_bind. unfold pointee. rewrite (proj2 (Z.eqb_neq image 0)) by done.
  apply (runs_buffer image img); [destruct Hs as (_ & _ & -> & _); done|]. by apply runs_ret.
Qed.

(** The kernel's address range as [load_elf] accepts it. *)
Definition acceptable (sm : JoshElf64Summary) : Prop :=
  KERNEL_VIRT_FLOOR <= es_virtual_min sm /\ es_virtual_min sm < es_virtual_max sm < 2 ^ 64 /\
  es_virtual_max sm - es_virtual_min sm <= MAX_KERNEL_BYTES.

Lemma place_loop_runs sm segs phys v p :
  accepted_segments img (zlen img) sm segs -> acceptable sm -> zlen segs < 2 ^ 16 -> 0 <= phys ->
  phys + (es_virtual_max sm - es_virtual_min sm) <= 2 ^ 32 -> p !! image = Some img ->
  forall n k m s, (k + n = length segs)%nat -> state_is fw_view m v p s ->
  runs (place_loop image (zlen img) (es_virtual_min sm) (es_virtual_max sm - es_virtual_min sm) phys n (Z.of_nat k)) s
    (fun st s' => st = EFI_SUCCESS /\ state_is fw_view (foldl (place img phys sm) m (drop k segs)) v p s').
Proof.
  intros (_ & Hload & Hok & _) (Hfl & Hlt & Hsp) Hz Hph Hend Hp. unfold KERNEL_VIRT_FLOOR, MAX_KERNEL_BYTES in *.
  induction n as [|n IH]; intros k m s Hk Hs; cbn [place_loop].
  { apply runs_ret. split; [done|]. rewrite drop_ge by lia. done. }
  destruct (lookup_lt_is_Some_2 segs k) as [g Hg]; [lia|].
  pose proof (proj1 (Forall_lookup _ _) Hok k g Hg) as (Ho & Hv & Hf & Hpos & Hfm & Hfit & He & Hmin & Hmax).
  unfold in_u64, seg_end in *. eapply pointee_runs; [done..|]. rewrite Hload by lia. rewrite Nat2Z.id, Hg.
  do 2 apply runs_lift. rewrite (proj2 (Z.ltb_ge _ _)) by lia.
  rewrite (u64_id (ls_virtual_address g - _)), (u64_id (_ - (ls_virtual_address g - _))), (u64_id (phys + _)) by (unfold in_u64; lia).
  rewrite !Z.gtb_ltb, !(proj2 (Z.ltb_ge _ _)) by lia. cbn [orb]. apply runs_lift.
  rewrite slice_Some by lia. apply runs_lift. apply runs_modify.
  replace (u16 (Z.of_nat k + 1)) with (Z.of_nat (S k)) by (unfold zlen in Hz; rewrite u16_id; [lia|unfold in_u16; lia]).
  rewrite (drop_S segs g k Hg). cbn [foldl]. apply IH; [lia|]. destruct Hs as (Hm & ? & ? & ?). split_and!; try done.
  cbn. rewrite Hm. done.
Qed.

Definition load_elf_post (m : mem) (v : view) (p : gmap Z (list Z)) (r : EFI_STATUS * JoshElf64Summary * Z) (s' : uefi W) : Prop :=
  let '(st, sm, phys) := r in
  (forall sm', willing bs fw_view handle sp ->
     josh_elf64_validate (Some img) (zlen img) (Some blank_summary) = Some (JOSH_ELF64_OK, Some sm') ->
     acceptable sm' -> page_count sm' <= pages_left sp v ->
     EFI_ERROR st = false /\ pages_left sp v - page_count sm <= pages_left sp (more_pages phys (page_count sm) v)) /\
  if EFI_ERROR st then state_is fw_view m v p s'
  else josh_elf64_validate (Some img) (zlen img) (Some blank_summary) = Some (JOSH_ELF64_OK, Some sm) /\
    acceptable sm /\ new_range v phys (page_count sm) /\
    exists segs m', accepted_segments img (zlen img) sm segs /\ kernel_in_pages img phys sm m m' segs /\
      (mem_ok m -> mem_ok m') /\ state_is fw_view m' (more_pages phys (page_count sm) v) p s'.

Lemma foldl_place_ok phys sm segs : forall m, mem_ok m -> mem_ok (foldl (place img phys sm) m segs).
Proof.
  induction segs as [|g segs IH]; intros m Hm; cbn; [done|]. apply IH. apply mem_put_ok; [done|]. by apply bytes_take, bytes_drop.
Qed.

(** An image that is not for this loader. *)
Lemma load_elf_refuses m v p sm st phys s' :
  josh_elf64_validate (Some img) (zlen img) (Some blank_summary) = Some (JOSH_ELF64_OK, Some sm) -> ~ acceptable sm ->
  EFI_ERROR st = true -> state_is fw_view m v p s' -> load_elf_post m v p (st, sm, phys) s'.
Proof.
  intros Hval Hno Est Hs. unfold load_elf_post. rewrite Est. split; [|done]. intros sm' _ Hval' Hacc. rewrite Hval in Hval'.
  injection Hval' as <-. done.
Qed.

Lemma load_elf_runs m v p s :
  p !! image = Some img -> state_is fw_view m v p s ->
  runs (load_elf bs image (zlen img)) s (load_elf_post m v p).
Proof.
  intros Hp Hs. unfold load_elf. eapply pointee_runs; [done..|].
  destruct (validate_total img (zlen img) Hbytes Hsize ltac:(lia) blank_summary) as (st & sm & Hval & _). rewrite Hval.
  do 2 apply runs_lift. destruct st; try (apply runs_ret; split; [congruence|done]).
  destruct (validate_bounds img (zlen img) Hbytes Hsize ltac:(lia) _ _ Hval) as [Hmax Hcnt].
  destruct ((es_virtual_min sm <? KERNEL_VIRT_FLOOR) || (es_virtual_max sm <=? es_virtual_min sm)) eqn:E1.
  { apply runs_ret, load_elf_refuses; try done. intros (? & ? & _). lia. }
  apply orb_false_iff in E1 as [E1 E2]. unfold KERNEL_VIRT_FLOOR in E1.
  set (span := es_virtual_max sm - es_virtual_min sm). rewrite (u64_id span) by (unfold in_u64, span; lia).
  destruct ((span =? 0) || (span >? MAX_KERNEL_BYTES)) eqn:E3.
  { apply runs_ret, load_elf_refuses; try done. unfold acceptable, span in *. lia. }
  apply orb_false_iff in E3 as [E3 E4].
  assert (Hacc : acceptable sm) by (unfold acceptable, KERNEL_VIRT_FLOOR, span in *; lia).
  assert (Hpages : pages_for span = page_count sm).
  { unfold pages_for, PAGE_SIZE, page_count. rewrite u64_id by (unfold in_u64, span; lia). f_equal. unfold span. lia. }
  rewrite Hpages. assert (Hpc : 0 <= page_count sm /\ span <= 4096 * page_count sm <= 2 ^ 27) by (unfold page_count, span, MAX_KERNEL_BYTES in *; zdm).
  eapply runs_call; [by apply (alloc_low_runs io bs rs fw_view handle sp m v p); [lia|]|]. intros [status a] s1 (phys & Ha & Hlive & H1). cbn [fst snd] in *.
  subst a. apply runs_lift.
  assert (Hlive' : forall sm', willing bs fw_view handle sp ->
     josh_elf64_validate (Some img) (zlen img) (Some blank_summary) = Some (JOSH_ELF64_OK, Some sm') ->
     acceptable sm' -> page_count sm' <= pages_left sp v ->
     EFI_ERROR status = false /\ pages_left sp v - page_count sm <= pages_left sp (more_pages phys (page_count sm) v)).
  { intros sm' Hw Hval' _ Hle. rewrite Hval in Hval'. injection Hval' as <-. destruct (Hlive Hw) as (? & _ & ?); [|done].
    unfold page_count in *. unfold span, MAX_KERNEL_BYTES in *. zdm. }
  clear Hlive. destruct (EFI_ERROR status) eqn:Es; [apply runs_ret; unfold load_elf_post; by rewrite Es|].
  destruct H1 as (_ & Hr & S1). pose proof Hr as (H0 & Hal & Hle & _). apply runs_modify.
  destruct (validate_segments img (zlen img) Hbytes Hsize ltac:(lia) _ _ Hval) as [segs Hsegs].
  pose proof Hsegs as (Hcount & _).
  set (mz := memzero m phys (Z.to_nat (4096 * page_count sm))).
  eapply runs_call.
  { rewrite Hcount. unfold zlen at 2. rewrite Nat2Z.id. change 0 with (Z.of_nat 0).
    eapply (place_loop_runs sm segs phys (more_pages phys (page_count sm) v) p Hsegs Hacc); try done.
    - unfold JOSH_ELF64_MAX_PHDRS in Hcnt. lia.
    - unfold span in *. lia.
    - instantiate (1 := mz). destruct S1 as (Hm1 & ? & ? & ?). split_and!; try done. cbn. rewrite Hm1. unfold mz, PAGE_SIZE.
      rewrite u64_id by (unfold in_u64; lia). by rewrite Z.mul_comm. }
  intros st2 s2 [-> S2]. rewrite drop_0 in S2. change (EFI_ERROR EFI_SUCCESS) with false. apply runs_message, runs_ret.
  split; [intros sm' Hw Hval' Ha' Hle'; by destruct (Hlive' sm' Hw Hval' Ha' Hle')|].
  split_and!; try done. exists segs, (foldl (place img phys sm) mz segs). split_and!; try done.
  - apply place_kernel; first [done|lia].
  - intros Hm. apply foldl_place_ok, memzero_ok, Hm.
Qed.
End LoadElf.
