(* ===== verification/UefiInfo.v ===== *)
(** * The boot information of the UEFI loader (boot/uefi/main.c)

    The structures the kernel receives lie in one page of memory: the boot
    information at its start, then the memory map, the command line and the
    loader's name.  [fill_meta] fills them but for the framebuffer, which
    [fill_fb] takes from the graphics protocol, and the memory map, which
    [capture_map] converts from the firmware's descriptors. *)
From stdpp Require Import gmap.
From S2P Require Import Prelude Prog Elf64 Config Memory Protocol Efi EfiMock UefiPaging UefiLoad.

(** The offsets of [uefi_metadata_t], whose first member has its own layout in Protocol. *)
Definition META_MEMORY_MAP : Z := sizeof_JoshBootInfo.
Definition META_COMMAND_LINE : Z := META_MEMORY_MAP + sizeof_JoshMemoryMapEntry * JOSH_BOOT_MAX_MEMORY_ENTRIES.
Definition META_LOADER_NAME : Z := META_COMMAND_LINE + (JOSH_BOOT_CONFIG_CMDLINE_MAX + 1).
Definition sizeof_uefi_metadata_t : Z := META_LOADER_NAME + 32.
Definition INFO_MEMORY_MAP_ENTRIES : Z := 40.
Definition INFO_FRAMEBUFFER : Z := 48.

(** [s[n]] is read only while [n < lim]. *)
Fixpoint text_length_loop (fuel : nat) (s : list Z) (lim n : Z) : option Z :=
  match fuel with
  | O => None
  | S fuel' =>
      if n <? lim then
        let? c := get8 s n in
        if c =? 0 then Some n else text_length_loop fuel' s lim (n + 1)
      else Some n
  end.

Definition text_length (s : option (list Z)) (lim : Z) : option Z :=
  match s with None => Some 0 | Some s => text_length_loop (S (Z.to_nat lim)) s lim 0 end.

(** The loop of [guid_equal] over the last eight bytes, [n] left from [i] on. *)
Fixpoint guid_loop (n : nat) (a b : list Z) (i : Z) : option bool :=
  match n with
  | O => Some true
  | S n' =>
      let? x := get8 a i in
      let? y := get8 b i in
      if negb (x =? y) then Some false else guid_loop n' a b (i + 1)
  end.

Definition guid_equal (a b : EFI_GUID) : option bool :=
  if negb (Data1 a =? Data1 b) || negb (Data2 a =? Data2 b) || negb (Data3 a =? Data3 b) then Some false
  else guid_loop 8 (Data4 a) (Data4 b) 0.

(** The loop of [find_table], [n] entries left from [i] on, with [fb] found so far. *)
Fixpoint find_table_loop (tables : list EFI_CONFIGURATION_TABLE) (a : EFI_GUID) (b : option EFI_GUID) (n : nat) (i fb : Z)
    : option Z :=
  match n with
  | O => Some fb
  | S n' =>
      let? e := tables !! Z.to_nat i in
      let? hit := guid_equal (VendorGuid e) a in
      if hit then Some (VendorTable e)
      else
        let? second := match b with None => Some false | Some b => guid_equal (VendorGuid e) b end in
        find_table_loop tables a b n' (i + 1) (if second then VendorTable e else fb)
  end.

Definition find_table {W} (st : EFI_SYSTEM_TABLE W) (a : EFI_GUID) (b : option EFI_GUID) : option Z :=
  find_table_loop (ConfigurationTable st) a b (Z.to_nat (NumberOfTableEntries st)) 0 0.

Definition map_type (t : Z) : Z :=
  if t =? memory_type_value EfiConventionalMemory then JOSH_MEMORY_USABLE
  else if t =? memory_type_value EfiACPIReclaimMemory then JOSH_MEMORY_ACPI_RECLAIMABLE
  else if t =? memory_type_value EfiACPIMemoryNVS then JOSH_MEMORY_ACPI_NVS
  else if t =? memory_type_value EfiUnusableMemory then JOSH_MEMORY_BAD
  else JOSH_MEMORY_RESERVED.

(** The loops over a 32-bit mask run at most 32 times. *)
Fixpoint mask_shift_loop (fuel : nat) (m s : Z) : option Z :=
  match fuel with
  | O => None
  | S fuel' => if Z.land m 1 =? 0 then mask_shift_loop fuel' (Z.shiftr m 1) (s + 1) else Some s
  end.

Definition mask_shift (m : Z) : option Z := if m =? 0 then Some 0 else mask_shift_loop 32 m 0.

Fixpoint mask_size_loop (fuel : nat) (m s : Z) : option Z :=
  match fuel with
  | O => if m =? 0 then Some s else None
  | S fuel' => if m =? 0 then Some s else mask_size_loop fuel' (Z.shiftr m 1) (s + Z.land m 1)
  end.

Definition mask_size (m : Z) : option Z := mask_size_loop 32 m 0.

(** The framebuffer the mode describes. *)
Definition framebuffer_of_mode (base : Z) (i : EFI_GRAPHICS_OUTPUT_MODE_INFORMATION) : option JoshFramebufferInfo :=
  let fb rs rf gs gf bs bf :=
    {| fb_address := base; fb_width := gi_HorizontalResolution i; fb_height := gi_VerticalResolution i;
       fb_pitch := u32 (gi_PixelsPerScanLine i * 4); fb_bpp := 32; fb_red_mask_size := rs; fb_red_mask_shift := rf;
       fb_green_mask_size := gs; fb_green_mask_shift := gf; fb_blue_mask_size := bs; fb_blue_mask_shift := bf |} in
  if gi_PixelFormat i =? PixelRedGreenBlueReserved8BitPerColor then Some (fb 8 0 8 8 8 16)
  else if gi_PixelFormat i =? PixelBlueGreenRedReserved8BitPerColor then Some (fb 8 16 8 8 8 0)
  else
    let? rs := mask_size (gi_RedMask i) in
    let? rf := mask_shift (gi_RedMask i) in
    let? gs := mask_size (gi_GreenMask i) in
    let? gf := mask_shift (gi_GreenMask i) in
    let? bs := mask_size (gi_BlueMask i) in
    let? bf := mask_shift (gi_BlueMask i) in
    Some (fb rs rf gs gf bs bf).

(** The information [fill_meta] puts at [m], with the flags and addresses it computes. *)
Definition meta_info (m : Z) (s : JoshElf64Summary) (kp : Z) (flags rsdp smbios command_line command_line_length : Z)
    (fb : JoshFramebufferInfo) (entries : Z) : JoshBootInfo :=
  {| bi_magic := JOSH_BOOT_INFO_MAGIC; bi_abi_major := JOSH_BOOT_ABI_MAJOR; bi_abi_minor := JOSH_BOOT_ABI_MINOR;
     bi_total_size := sizeof_JoshBootInfo; bi_flags := flags; bi_firmware_type := JOSH_FIRMWARE_UEFI; bi_boot_drive := 0;
     bi_memory_map_address := m + META_MEMORY_MAP; bi_memory_map_entries := entries;
     bi_memory_map_entry_size := sizeof_JoshMemoryMapEntry; bi_framebuffer := fb;
     bi_kernel_phys_start := kp; bi_kernel_phys_end := u64 (kp + u64 (es_virtual_max s - es_virtual_min s));
     bi_kernel_virt_start := es_virtual_min s; bi_kernel_virt_end := es_virtual_max s;
     bi_rsdp_phys := rsdp; bi_smbios_phys := smbios;
     bi_command_line_address := command_line; bi_command_line_length := command_line_length; bi_reserved0 := 0;
     bi_bootloader_name_address := m + META_LOADER_NAME; bi_bootloader_name_length := 19; bi_reserved1 := 0;
     bi_kernel_entry := es_entry s; bi_reserved := replicate 5 0 |}.

Definition zero_framebuffer : JoshFramebufferInfo :=
  {| fb_address := 0; fb_width := 0; fb_height := 0; fb_pitch := 0; fb_bpp := 0; fb_red_mask_size := 0; fb_red_mask_shift := 0;
     fb_green_mask_size := 0; fb_green_mask_shift := 0; fb_blue_mask_size := 0; fb_blue_mask_shift := 0 |}.

Definition meta_flags : Z :=
  Z.lor (Z.lor JOSH_BOOT_FLAG_MEMORY_MAP JOSH_BOOT_FLAG_FRAMEBUFFER) JOSH_BOOT_FLAG_LOADER_NAME.

Definition loader_name : list Z := chars "JoshBootloader UEFI".

(** Memory after [fill_meta]. *)
Definition fill_meta {W} (mm : mem) (m : Z) (st : EFI_SYSTEM_TABLE W) (s : JoshElf64Summary) (kp : Z)
    (c : option josh_boot_config_t) : option mem :=
  let mm := memzero mm m (Z.to_nat sizeof_uefi_metadata_t) in
  let flags := meta_flags in
  let? rsdp := find_table st gEfiAcpi20TableGuid (Some gEfiAcpi10TableGuid) in
  let flags := if negb (rsdp =? 0) then Z.lor flags JOSH_BOOT_FLAG_RSDP else flags in
  let? smbios := find_table st gEfiSmbios3TableGuid (Some gEfiSmbiosTableGuid) in
  let flags := if negb (smbios =? 0) then Z.lor flags JOSH_BOOT_FLAG_SMBIOS else flags in
  let mm := mem_put mm (m + META_LOADER_NAME) (loader_name ++ [0]) in
  match c with
  | None => Some (mem_put mm m (boot_info_bytes (meta_info m s kp flags rsdp smbios 0 0 zero_framebuffer 0)))
  | Some c =>
      let? c0 := get8 (bc_command_line c) 0 in
      if negb (c0 =? 0) then
        let? l := text_length (Some (bc_command_line c)) JOSH_BOOT_CONFIG_CMDLINE_MAX in
        let? text := slice (bc_command_line c) 0 l in
        let mm := mem_put mm (m + META_COMMAND_LINE) text in
        Some (mem_put mm m (boot_info_bytes (meta_info m s kp (Z.lor flags JOSH_BOOT_FLAG_CMDLINE) rsdp smbios
                                               (m + META_COMMAND_LINE) l zero_framebuffer 0)))
      else Some (mem_put mm m (boot_info_bytes (meta_info m s kp flags rsdp smbios 0 0 zero_framebuffer 0)))
  end.

(** The loop of [capture_map] over the descriptors at [raw]: the new memory and the number of entries,
    or that there are too many.  It runs at most once per descriptor. *)
Fixpoint capture_loop (fuel : nat) (mm : mem) (raw size ds m off n : Z) : option (mem * (EFI_STATUS + Z)) :=
  match fuel with
  | O => None
  | S fuel' =>
      if u64 (off + ds) <=? size then
        let d := descriptor_at mm (raw + off) in
        if md_NumberOfPages d =? 0 then capture_loop fuel' mm raw size ds m (u64 (off + ds)) n
        else if n >=? JOSH_BOOT_MAX_MEMORY_ENTRIES then Some (mm, inl EFI_OUT_OF_RESOURCES)
        else
          let o := {| mm_base := md_PhysicalStart d; mm_length := u64 (md_NumberOfPages d * PAGE_SIZE);
                      mm_type := map_type (md_Type d); mm_flags := 0 |} in
          let mm := mem_put mm (m + META_MEMORY_MAP + sizeof_JoshMemoryMapEntry * n) (memory_map_entry_bytes o) in
          capture_loop fuel' mm raw size ds m (u64 (off + ds)) (n + 1)
      else Some (mm, inr n)
  end.

Section Programs.
Context {W : Type}.

(** [fb] is the address of the framebuffer information. *)
Definition fill_fb (bs : EFI_BOOT_SERVICES W) (fb : Z) : prog (uefi W) EFI_STATUS :=
  do (s, g) <- service (LocateProtocol bs gEfiGraphicsOutputProtocolGuid) ;
  if EFI_ERROR s then ret EFI_NOT_FOUND
  else
    match g with
    | None => ret EFI_NOT_FOUND
    | Some (GraphicsOutput g) =>
        match gop_Mode g with
        | None => ret EFI_NOT_FOUND
        | Some mode =>
            match gm_Info mode with
            | None => ret EFI_NOT_FOUND
            | Some i =>
                if (gi_PixelFormat i =? PixelBltOnly) || (gm_FrameBufferBase mode =? 0) then ret EFI_UNSUPPORTED
                else
                  do info <- lift (framebuffer_of_mode (gm_FrameBufferBase mode) i) ;
                  run memory_op (fun m => mem_put m fb (framebuffer_bytes info)) ;
                  run serial_write "JOSHUEFI_GOP_OK" ;
                  ret EFI_SUCCESS
            end
        end
    | Some _ => undefined
    end.

(** The status and the key. *)
Definition capture_map (bs : EFI_BOOT_SERVICES W) (raw cap m : Z) : prog (uefi W) (EFI_STATUS * Z) :=
  do (s, r) <- service (GetMemoryMap bs cap) ;
  run memory_op (fun mm => mem_put mm raw (map_data r)) ;
  if EFI_ERROR s || (map_descriptor_size r <? sizeof_EFI_MEMORY_DESCRIPTOR) then ret (s, map_key r)
  else
    do u <- get ;
    do (mm, n) <- lift (capture_loop (S (Z.to_nat (map_size r))) (uf_mem u) raw (map_size r) (map_descriptor_size r) m 0 0) ;
    run memory_op (fun _ => mm) ;
    match n with
    | inl s => ret (s, map_key r)
    | inr n =>
        run memory_op (fun mm => store_bytes mm (m + INFO_MEMORY_MAP_ENTRIES) (le_bytes 4 n)) ;
        run serial_write "JOSHUEFI_MEMORY_MAP_OK" ;
        ret (EFI_SUCCESS, map_key r)
    end.
End Programs.

(** ** Colour masks *)
Lemma mask_size_total f : forall m s, 0 <= m < 2 ^ Z.of_nat f -> is_Some (mask_size_loop f m s).
Proof.
  induction f as [|f IH]; intros m s Hm; cbn [mask_size_loop].
  - replace (m =? 0) with true by (change (2 ^ Z.of_nat 0) with 1 in Hm; lia). by eexists.
  - destruct (m =? 0); [by eexists|]. apply IH. rewrite Nat2Z.inj_succ, Z.pow_succ_r in Hm by lia.
    rewrite Z.shiftr_div_pow2 by lia. change (2 ^ 1) with 2. zdm.
Qed.

Lemma odd_land m : Z.land m 1 = m mod 2.
Proof. change 1 with (Z.ones 1). by rewrite Z.land_ones. Qed.

Lemma mask_shift_total f : forall m s, 0 < m < 2 ^ Z.of_nat f -> is_Some (mask_shift_loop f m s).
Proof.
  induction f as [|f IH]; intros m s Hm; cbn [mask_shift_loop]; [change (2 ^ Z.of_nat 0) with 1 in Hm; lia|].
  rewrite odd_land. destruct (Z.eqb_spec (m mod 2) 0) as [Ho|]; [|by eexists]. apply IH.
  rewrite Nat2Z.inj_succ, Z.pow_succ_r in Hm by lia. rewrite Z.shiftr_div_pow2 by lia. change (2 ^ 1) with 2. zdm.
Qed.

Lemma framebuffer_total base i : masks_ok i -> is_Some (framebuffer_of_mode base i).
Proof.
  intros (Hr & Hg & Hb). unfold framebuffer_of_mode.
  destruct (gi_PixelFormat i =? _); [by eexists|]. destruct (gi_PixelFormat i =? _); [by eexists|].
  assert (Hall : forall m, in_u32 m -> is_Some (mask_size m) /\ is_Some (mask_shift m)).
  { intros m Hm. unfold in_u32 in Hm. split; [by apply mask_size_total|]. unfold mask_shift.
    destruct (Z.eqb_spec m 0); [by eexists|]. apply mask_shift_total. change (Z.of_nat 32) with 32. lia. }
  destruct (Hall _ Hr) as [[? ->] [? ->]], (Hall _ Hg) as [[? ->] [? ->]], (Hall _ Hb) as [[? ->] [? ->]]. by eexists.
Qed.

(** Doubling a mask: one more position, the same size. *)
Lemma half_double m : Z.shiftr (m * 2) 1 = m.
Proof. rewrite Z.shiftr_div_pow2 by lia. change (2 ^ 1) with 2. zdm. Qed.

Lemma mask_size_shifted s : forall f m acc,
  m <> 0 -> mask_size_loop (s + f) (m * 2 ^ Z.of_nat s) acc = mask_size_loop f m acc.
Proof.
  induction s as [|s IH]; intros f m acc Hm; cbn [Nat.add mask_size_loop]; [by rewrite Z.mul_1_r|].
  rewrite Nat2Z.inj_succ, Z.pow_succ_r, (Z.mul_comm 2), Z.mul_assoc by lia.
  assert (0 < 2 ^ Z.of_nat s) by lia. rewrite (proj2 (Z.eqb_neq _ _)) by nia.
  rewrite half_double, odd_land, Z.mod_mul, Z.add_0_r by lia. by apply IH.
Qed.

Lemma mask_shift_shifted s : forall f m acc,
  mask_shift_loop (s + f) (m * 2 ^ Z.of_nat s) acc = mask_shift_loop f m (acc + Z.of_nat s).
Proof.
  induction s as [|s IH]; intros f m acc; cbn [Nat.add mask_shift_loop]; [by rewrite Z.mul_1_r, Z.add_0_r|].
  rewrite Nat2Z.inj_succ, Z.pow_succ_r, (Z.mul_comm 2), Z.mul_assoc by lia.
  rewrite half_double, odd_land, Z.mod_mul by lia. cbn [Z.eqb]. rewrite IH. f_equal. lia.
Qed.

Lemma mask_size_ones k : forall f acc, mask_size_loop (k + f) (2 ^ Z.of_nat k - 1) acc = Some (acc + Z.of_nat k).
Proof.
  induction k as [|k IH]; intros f acc; [change (2 ^ Z.of_nat 0 - 1) with 0; destruct f; cbn; by rewrite Z.add_0_r|]. cbn [Nat.add mask_size_loop].
  rewrite Nat2Z.inj_succ, Z.pow_succ_r by lia. assert (0 < 2 ^ Z.of_nat k) by lia. rewrite (proj2 (Z.eqb_neq _ _)) by lia.
  rewrite Z.shiftr_div_pow2, odd_land by lia. change (2 ^ 1) with 2.
  replace ((2 * 2 ^ Z.of_nat k - 1) / 2) with (2 ^ Z.of_nat k - 1) by zdm.
  replace ((2 * 2 ^ Z.of_nat k - 1) mod 2) with 1 by zdm. rewrite IH. f_equal. lia.
Qed.

(** A colour of [k] bits from bit [s] on is described by its size and position. *)
Lemma mask_of_channel (k s : nat) :
  (0 < k)%nat -> (k + s <= 32)%nat ->
  mask_size ((2 ^ Z.of_nat k - 1) * 2 ^ Z.of_nat s) = Some (Z.of_nat k) /\
  mask_shift ((2 ^ Z.of_nat k - 1) * 2 ^ Z.of_nat s) = Some (Z.of_nat s).
Proof.
  intros Hk Hs. assert (Hk2 : 2 ^ Z.of_nat k = 2 * 2 ^ (Z.of_nat k - 1)) by (rewrite <- Z.pow_succ_r by lia; f_equal; lia).
  assert (0 < 2 ^ (Z.of_nat k - 1)) by lia. assert (0 < 2 ^ Z.of_nat s) by lia. split; unfold mask_size, mask_shift.
  - replace 32%nat with (s + (k + (32 - s - k)))%nat by lia. rewrite mask_size_shifted by lia. by rewrite mask_size_ones.
  - rewrite (proj2 (Z.eqb_neq _ _)) by nia. replace 32%nat with (s + S (31 - s))%nat by lia. rewrite mask_shift_shifted.
    cbn [mask_shift_loop]. rewrite odd_land, Hk2. replace ((2 * 2 ^ (Z.of_nat k - 1) - 1) mod 2) with 1 by zdm. done.
Qed.

(** ** The firmware's tables *)
Definition guid_ok (g : EFI_GUID) : Prop := length (Data4 g) = 8%nat.

Lemma guid_loop_spec n : forall a b i, 0 <= i -> zlen a = i + Z.of_nat n -> zlen b = i + Z.of_nat n ->
  guid_loop n a b i = Some (bool_decide (drop (Z.to_nat i) a = drop (Z.to_nat i) b)).
Proof.
  induction n as [|n IH]; intros a b i Hi Ha Hb; cbn [guid_loop].
  { unfold zlen in *. rewrite !drop_ge by lia. by rewrite bool_decide_eq_true_2. }
  destruct (get8_Some a i) as [x Hx]; [lia|]. destruct (get8_Some b i) as [y Hy]; [lia|]. rewrite Hx, Hy.
  assert (Hg : forall l c, get8 l i = Some c -> drop (Z.to_nat i) l = c :: drop (Z.to_nat (i + 1)) l).
  { intros l c Hl. unfold get8 in Hl. rewrite (proj2 (Z.ltb_ge i 0)) in Hl by lia. rewrite (drop_S l c) by done. do 2 f_equal. lia. }
  rewrite (Hg a x Hx), (Hg b y Hy). destruct (Z.eqb_spec x y) as [->|Hne]; cbn [negb].
  - rewrite IH by lia. f_equal. apply bool_decide_ext. split; [by intros ->|by intros [= ->]].
  - rewrite bool_decide_eq_false_2; [done|]. by intros [= ].
Qed.

Lemma guid_equal_spec a b : guid_ok a -> guid_ok b -> guid_equal a b = Some (bool_decide (a = b)).
Proof.
  intros Ha Hb. unfold guid_equal. rewrite guid_loop_spec by (unfold zlen; rewrite ?Ha, ?Hb; lia). rewrite !drop_0.
  destruct a as [a1 a2 a3 a4], b as [b1 b2 b3 b4]; cbn.
  destruct (Z.eqb_spec a1 b1), (Z.eqb_spec a2 b2), (Z.eqb_spec a3 b3); cbn; f_equal; subst;
    try (symmetry; apply bool_decide_eq_false_2; naive_solver). apply bool_decide_ext. naive_solver.
Qed.

(** The table of the preferred identifier, the first one, or else of the other, the last one. *)
Definition table_of (tables : list EFI_CONFIGURATION_TABLE) (a b : EFI_GUID) (otherwise : Z) : Z :=
  match filter (fun t => VendorGuid t = a) tables with
  | t :: _ => VendorTable t
  | [] => default otherwise (VendorTable <$> last (filter (fun t => VendorGuid t = b) tables))
  end.

(** The firmware's tables are as many as the system table says, with well-formed identifiers. *)
Definition tables_ok {W} (st : EFI_SYSTEM_TABLE W) : Prop :=
  NumberOfTableEntries st = zlen (ConfigurationTable st) /\ Forall (fun t => guid_ok (VendorGuid t)) (ConfigurationTable st).

Lemma table_of_cons t tables a b fb :
  table_of (t :: tables) a b fb =
  if bool_decide (VendorGuid t = a) then VendorTable t
  else table_of tables a b (if bool_decide (VendorGuid t = b) then VendorTable t else fb).
Proof.
  unfold table_of. rewrite !filter_cons. destruct (bool_decide_reflect (VendorGuid t = a)) as [Ha|Ha].
  { by rewrite decide_True. }
  rewrite decide_False by done. destruct (filter _ tables); [|done].
  destruct (bool_decide_reflect (VendorGuid t = b)) as [Hb|Hb]; [rewrite decide_True by done|by rewrite decide_False].
  rewrite last_cons. by destruct (last _).
Qed.

Lemma find_table_loop_spec tables a b : guid_ok a -> guid_ok b -> Forall (fun t => guid_ok (VendorGuid t)) tables ->
  forall n k fb, (k + n = length tables)%nat ->
  find_table_loop tables a (Some b) n (Z.of_nat k) fb = Some (table_of (drop k tables) a b fb).
Proof.
  intros Ha Hb Hok. induction n as [|n IH]; intros k fb Hk; cbn [find_table_loop].
  { by rewrite drop_ge by lia. }
  destruct (lookup_lt_is_Some_2 tables k) as [t Ht]; [lia|]. rewrite Nat2Z.id, Ht.
  pose proof (proj1 (Forall_lookup _ _) Hok k t Ht) as Hg. rewrite !guid_equal_spec by done.
  rewrite (drop_S tables t k Ht), table_of_cons. destruct (bool_decide _); [done|].
  replace (Z.of_nat k + 1) with (Z.of_nat (S k)) by lia. apply IH. lia.
Qed.

Lemma find_table_spec {W} (st : EFI_SYSTEM_TABLE W) a b :
  tables_ok st -> guid_ok a -> guid_ok b -> find_table st a (Some b) = Some (table_of (ConfigurationTable st) a b 0).
Proof.
  intros [Hn Hok] Ha Hb. unfold find_table. rewrite Hn. unfold zlen. rewrite Nat2Z.id.
  change 0 with (Z.of_nat 0) at 1. by rewrite find_table_loop_spec, drop_0 by done.
Qed.

(** ** The memory map *)

(** The kinds of the boot protocol by the numbers of the UEFI specification: conventional memory is
    usable (1), the unusable kind bad (5), the two ACPI kinds 3 and 4, all others reserved (2). *)
Definition memory_kind (t : Z) : Z :=
  default 2 (snd <$> List.find (fun p => fst p =? t) [(7, 1); (8, 5); (9, 3); (10, 4)]).

Lemma map_type_kind t : map_type t = memory_kind t.
Proof.
  destruct (Z.eq_dec t 7) as [->|H7]; [done|]. destruct (Z.eq_dec t 8) as [->|H8]; [done|].
  destruct (Z.eq_dec t 9) as [->|H9]; [done|]. destruct (Z.eq_dec t 10) as [->|H10]; [done|].
  unfold map_type, memory_kind. cbn [List.find fst snd memory_type_value].
  by rewrite (proj2 (Z.eqb_neq 7 t)), (proj2 (Z.eqb_neq 8 t)), (proj2 (Z.eqb_neq 9 t)), (proj2 (Z.eqb_neq 10 t)),
    (proj2 (Z.eqb_neq t 7)), (proj2 (Z.eqb_neq t 9)), (proj2 (Z.eqb_neq t 10)), (proj2 (Z.eqb_neq t 8)) by done.
Qed.

(** The entry of a descriptor; one with no pages has none. *)
Definition entry_of (d : EFI_MEMORY_DESCRIPTOR) : option JoshMemoryMapEntry :=
  if md_NumberOfPages d =? 0 then None
  else Some {| mm_base := md_PhysicalStart d; mm_length := u64 (4096 * md_NumberOfPages d);
               mm_type := memory_kind (md_Type d); mm_flags := 0 |}.

(** The bytes of a list as a memory of their own. *)
Definition list_mem (l : list Z) : mem := fun x => default 0 (get8 l x).

(** The entries of [n] descriptors of [ds] bytes each from the [k]-th on. *)
Definition entries_from (data : list Z) (ds k n : Z) : list JoshMemoryMapEntry :=
  omap (fun j => entry_of (descriptor_at (list_mem data) (ds * j))) (seqZ k n).

Definition map_entries (r : memory_map) : list JoshMemoryMapEntry :=
  entries_from (map_data r) (map_descriptor_size r) 0 (zlen (map_data r) / map_descriptor_size r).

Definition entries_bytes (es : list JoshMemoryMapEntry) : list Z := concat (map memory_map_entry_bytes es).

Lemma zlen_entries es : zlen (entries_bytes es) = 24 * zlen es.
Proof.
  unfold entries_bytes. induction es as [|e es IH]; [done|]. cbn [map concat].
  pose proof (length_memory_map_entry e) as He. unfold zlen, sizeof_JoshMemoryMapEntry in *. rewrite length_app. cbn [length]. lia.
Qed.

Lemma bytes_entry e : bytes (memory_map_entry_bytes e).
Proof. unfold memory_map_entry_bytes. repeat apply Forall_app_2; apply bytes_le_bytes. Qed.

Lemma bytes_entries es : bytes (entries_bytes es).
Proof. apply Forall_concat, Forall_map, Forall_forall. intros e _. apply bytes_entry. Qed.

Lemma descriptor_ext m m' a b :
  (forall i, 0 <= i < 40 -> m (a + i) = m' (b + i)) -> descriptor_at m a = descriptor_at m' b.
Proof.
  intros H. assert (Hs : forall off n, 0 <= off -> 0 <= n -> off + n <= 40 -> mem_slice m (a + off) n = mem_slice m' (b + off) n).
  { intros off n H0 H1 H2. apply list_eq. intros i. destruct (decide (Z.of_nat i < n)).
    - rewrite !lookup_get8, !get8_mem_slice by lia. rewrite <- !Z.add_assoc. by rewrite H by lia.
    - pose proof (zlen_mem_slice m (a + off) n H1) as Z1. pose proof (zlen_mem_slice m' (b + off) n H1) as Z2.
      unfold zlen in *. rewrite !lookup_ge_None_2 by lia. done. }
  unfold descriptor_at, load64, load32.
  rewrite !(Hs _ 8) by lia. pose proof (Hs 0 4) as H0. rewrite !Z.add_0_r in H0. by rewrite H0 by lia.
Qed.

Section Capture.
Context (data : list Z) (raw ds m : Z).
Context (Hds : 40 <= ds < 2 ^ 64) (Hsize : zlen data <= 2 ^ 32).
Context (Hapart : raw + zlen data <= m + META_MEMORY_MAP \/ m + META_COMMAND_LINE <= raw).

(** [mm] has the descriptors at [raw] and the first entries of the map in place. *)
Definition room (n : Z) : Z := m + META_MEMORY_MAP + 24 * n.

Lemma next_offset k : 0 <= k -> ds * k <= zlen data -> u64 (ds * k + ds) = ds * (k + 1).
Proof.
  intros Hk Hle. rewrite u64_id by (unfold in_u64; destruct (decide (k = 0)) as [->|]; [lia|nia]). lia.
Qed.

Lemma capture_loop_spec n : forall k c fuel mm,
  0 <= k -> 0 <= c <= 128 -> ds * k <= zlen data -> k + Z.of_nat n = zlen data / ds -> (n < fuel)%nat -> holds mm raw data ->
  forall es, es = entries_from data ds k (Z.of_nat n) ->
  exists mm', capture_loop fuel mm raw (zlen data) ds m (ds * k) c =
      Some (mm', if c + zlen es <=? 128 then inr (c + zlen es) else inl EFI_OUT_OF_RESOURCES) /\
    (c + zlen es <= 128 -> forall x, mm' x = mem_put mm (room c) (entries_bytes es) x) /\
    (forall x, x < room c \/ m + META_COMMAND_LINE <= x -> mm' x = mm x) /\ (mem_ok mm -> mem_ok mm').
Proof.
  unfold room, META_COMMAND_LINE, META_MEMORY_MAP, sizeof_JoshBootInfo, sizeof_JoshMemoryMapEntry, JOSH_BOOT_MAX_MEMORY_ENTRIES in *.
  induction n as [|n IH]; intros k c fuel mm Hk Hc Hle Hn Hf Hh es Hes0; (destruct fuel as [|fuel]; [lia|]); cbn [capture_loop];
    rewrite next_offset by done.
  { rewrite (proj2 (Z.leb_gt _ _)) by (assert (zlen data < ds * (zlen data / ds + 1)) by zdm; replace (k + 1) with (zlen data / ds + 1) by lia; lia).
    change (entries_from _ _ _ _) with (@nil JoshMemoryMapEntry) in Hes0. subst es. cbn. rewrite Z.add_0_r, (proj2 (Z.leb_le c 128)) by lia. exists mm. split_and!; try done.
    intros _ x. symmetry. apply mem_put_outside. change (zlen (@nil Z)) with 0. lia. }
  assert (Hin : ds * (k + 1) <= zlen data) by (assert (ds * (zlen data / ds) <= zlen data) by zdm; nia).
  rewrite (proj2 (Z.leb_le _ _)) by lia.
  assert (Hd : descriptor_at mm (raw + ds * k) = descriptor_at (list_mem data) (ds * k)).
  { apply descriptor_ext. intros i Hi. unfold list_mem. rewrite (Hh (ds * k + i)) by lia. cbn. f_equal. lia. }
  assert (Hes : es = match entry_of (descriptor_at (list_mem data) (ds * k)) with Some e => [e] | None => [] end ++
                     entries_from data ds (k + 1) (Z.of_nat n)).
  { subst es. unfold entries_from. rewrite Nat2Z.inj_succ, seqZ_cons by lia. rewrite Z.pred_succ. cbn.
    replace (Z.succ k) with (k + 1) by lia. by destruct (entry_of _). }
  clear Hes0. rewrite Hd. set (d := descriptor_at (list_mem data) (ds * k)) in *. unfold entry_of in Hes. rewrite <- map_type_kind in Hes.
  destruct (Z.eqb_spec (md_NumberOfPages d) 0) as [_|_].
  { subst es. cbn [app]. apply IH; try done; lia. }
  set (e := Build_JoshMemoryMapEntry _ _ _ _) in Hes. subst es. cbn [app]. set (es := entries_from data ds (k + 1) (Z.of_nat n)).
  assert (Hz : zlen (e :: es) = 1 + zlen es) by (unfold zlen; cbn; lia). assert (0 <= zlen es) by (unfold zlen; lia). rewrite Hz.
  unfold META_MEMORY_MAP, sizeof_JoshBootInfo, sizeof_JoshMemoryMapEntry, JOSH_BOOT_MAX_MEMORY_ENTRIES.
  rewrite Z.geb_leb. destruct (Z.leb_spec 128 c).
  { rewrite (proj2 (Z.leb_gt _ 128)) by lia. exists mm. split_and!; try done. intros. lia. }
  unfold PAGE_SIZE. rewrite (Z.mul_comm (md_NumberOfPages d)). change (Build_JoshMemoryMapEntry _ _ _ _) with e.
  set (mm1 := mem_put mm (m + 224 + 24 * c) (memory_map_entry_bytes e)).
  pose proof (length_memory_map_entry e) as Hl. unfold sizeof_JoshMemoryMapEntry in Hl.
  destruct (IH (k + 1) (c + 1) fuel mm1) with (es := es) as (mm' & H1 & H2 & H3 & H4); try lia; try done.
  { apply holds_put_apart; [lia|done]. }
  exists mm'. replace (c + (1 + zlen es)) with (c + 1 + zlen es) by lia. split; [exact H1|]. split_and!.
  - intros Hfit x. rewrite H2 by done. unfold mm1. replace (m + 224 + 24 * (c + 1)) with (m + 224 + 24 * c + zlen (memory_map_entry_bytes e)) by lia.
    apply mem_put_app.
  - intros x Hx. rewrite H3 by lia. unfold mm1. apply mem_put_outside. lia.
  - intros Hm. apply H4, mem_put_ok; [done|]. apply bytes_entry.
Qed.
End Capture.

Section Graphics.
Context {W : Type} (io : EFI_FILE_PROTOCOL W) (bs : EFI_BOOT_SERVICES W) (rs : option (EFI_RUNTIME_SERVICES W)).
Context (fw_view : W -> view) `{!UefiFirmware io bs rs fw_view} (handle : Z) (sp : supplies).
Abbreviation ready := (willing bs fw_view handle sp).

(** The framebuffer is that of the mode the graphics protocol is in. *)
Definition current_framebuffer (fb : JoshFramebufferInfo) : Prop :=
  exists w status g w' mode i, LocateProtocol bs gEfiGraphicsOutputProtocolGuid w = (status, Some (GraphicsOutput g), w') /\
    EFI_ERROR status = false /\ gop_Mode g = Some mode /\ gm_Info mode = Some i /\ gi_PixelFormat i <> PixelBltOnly /\
    gm_FrameBufferBase mode <> 0 /\ framebuffer_of_mode (gm_FrameBufferBase mode) i = Some fb.

Lemma fill_fb_runs mm v p a s :
  state_is fw_view mm v p s ->
  runs (fill_fb bs a) s (fun st s' =>
    (ready -> EFI_ERROR st = false) /\
    if EFI_ERROR st then state_is fw_view mm v p s'
    else exists fb, current_framebuffer fb /\ state_is fw_view (mem_put mm a (framebuffer_bytes fb)) v p s').
Proof.
  intros (Hm & Hv & Hp & Hd). unfold fill_fb. apply runs_service. intros [status g] w E.
  destruct (fw_locate_protocol _ _ _ _ _ E) as [Hw Hg]. rewrite Hv in Hw.
  assert (S1 : state_is fw_view mm v p (with_fw w s)) by by split_and!.
  assert (Hready : ready -> EFI_ERROR status = false /\ exists g0 mode i, g = Some (GraphicsOutput g0) /\ gop_Mode g0 = Some mode /\
    gm_Info mode = Some i /\ gi_PixelFormat i <> PixelBltOnly /\ gm_FrameBufferBase mode <> 0).
  { intros Hr. destruct (wil_graphics _ _ _ _ Hr (uf_fw s)) as (s1 & g1 & w1 & mode & i & Hl & Es & Hmode).
    rewrite E in Hl. injection Hl as -> -> ->. split; [done|]. by exists g1, mode, i. }
  destruct (EFI_ERROR status) eqn:Es; [apply runs_ret; split; [naive_solver|done]|]. specialize (Hg eq_refl eq_refl).
  destruct g as [[| |g]|]; [done..| |apply runs_ret; split; [naive_solver|done]].
  destruct (gop_Mode g) as [mode|] eqn:Emode; [|apply runs_ret; split; [naive_solver|done]].
  destruct (gm_Info mode) as [i|] eqn:Ei; [|apply runs_ret; split; [naive_solver|done]].
  destruct ((gi_PixelFormat i =? PixelBltOnly) || (gm_FrameBufferBase mode =? 0)) eqn:Eb.
  { apply runs_ret. split; [|done]. intros Hr. destruct (Hready Hr) as (_ & g0 & mode0 & i0 & [= <-] & Hm0 & Hi0 & Hf & Hb).
    rewrite Emode in Hm0. injection Hm0 as <-. rewrite Ei in Hi0. injection Hi0 as <-. lia. }
  apply orb_false_iff in Eb as [Ef%Z.eqb_neq Eb%Z.eqb_neq].
  destruct (framebuffer_total (gm_FrameBufferBase mode) i) as [fb Hfb]; [by eapply Hg|]. rewrite Hfb.
  apply runs_lift, runs_modify, runs_message, runs_ret. change (EFI_ERROR EFI_SUCCESS) with false. cbv iota. split; [done|]. exists fb.
  split; [by exists (uf_fw s), status, g, w, mode, i|]. destruct S1 as (<- & ? & ? & ?). by split_and!.
Qed.

(** What a successful capture leaves in the page of the boot information. *)
Definition map_in_page (mm mm' : mem) (m : Z) (r : memory_map) : Prop :=
  zlen (map_entries r) <= JOSH_BOOT_MAX_MEMORY_ENTRIES /\
  forall x, m <= x < m + 4096 ->
    mm' x = mem_put (mem_put mm (m + META_MEMORY_MAP) (entries_bytes (map_entries r)))
                    (m + INFO_MEMORY_MAP_ENTRIES) (le_bytes 4 (zlen (map_entries r))) x.

Definition capture_post (mm : mem) (v : view) (p : gmap Z (list Z)) (raw cap m : Z) (r : EFI_STATUS * Z) (s' : uefi W) : Prop :=
  exists mm', state_is fw_view mm' v p s' /\ (mem_ok mm -> mem_ok mm') /\
    (forall x, x < raw \/ raw + cap <= x -> x < m \/ m + 4096 <= x -> mm' x = mm x) /\
    (EFI_ERROR r.1 = false -> exists w status map, GetMemoryMap bs cap w = (status, map, uf_fw s') /\
       EFI_ERROR status = false /\ r.2 = map_key map /\ map_in_page mm mm' m map) /\
    (ready -> map_least sp + 16 * descriptor_size sp <= cap -> EFI_ERROR r.1 = false).

(** There are no more entries than descriptors. *)
Lemma map_entries_bound r k :
  0 < map_descriptor_size r -> zlen (map_data r) <= k * map_descriptor_size r -> zlen (map_entries r) <= k.
Proof.
  intros Hd Hk. assert (Hlen : forall (f : Z -> option JoshMemoryMapEntry) l, (length (omap f l) <= length l)%nat).
  { intros f l. induction l as [|x l IH]; cbn; [lia|]. destruct (f x); cbn; lia. }
  unfold map_entries, entries_from. set (n := zlen (map_data r) / map_descriptor_size r).
  assert (Hn : 0 <= n <= k) by (split; [apply Z.div_pos; [unfold zlen|]; lia|apply Z.div_le_upper_bound; lia]).
  unfold zlen. pose proof (Hlen (fun j => entry_of (descriptor_at (list_mem (map_data r)) (map_descriptor_size r * j))) (seqZ 0 n)) as H.
  rewrite length_seqZ in H. lia.
Qed.

Lemma capture_map_runs mm v p raw cap m s :
  0 <= cap <= 2 ^ 32 -> raw + cap <= m \/ m + 4096 <= raw -> state_is fw_view mm v p s ->
  runs (capture_map bs raw cap m) s (capture_post mm v p raw cap m).
Proof.
  intros Hcap Hapart (Hm & Hv & Hp & Hd). unfold capture_map. apply runs_service. intros [status r] w E.
  destruct (fw_memory_map cap _ _ _ _ ltac:(lia) E) as (Hw & [Hb Hz] & Hus & _ & Hud & Hok). rewrite Hv in Hw. apply runs_modify.
  cbn [with_fw with_memory uf_mem uf_fw uf_pool uf_serial]. rewrite Hm. set (mm1 := mem_put mm raw (map_data r)).
  assert (Hout1 : forall x, x < raw \/ raw + cap <= x -> mm1 x = mm x) by (intros x Hx; apply mem_put_outside; lia).
  assert (Hready : ready -> map_least sp + 16 * descriptor_size sp <= cap -> EFI_ERROR status = false /\ zlen (map_entries r) <= 128).
  { intros Hr Hc. pose proof (wil_map _ _ _ _ Hr cap (uf_fw s)) as Hw1. rewrite E in Hw1. destruct Hw1 as [_ Hw1].
    destruct (Hw1 Hc) as (? & Hdesc & Hlen). pose proof (wil_sizes _ _ _ _ Hr) as (_ & Hmin & _). unfold sizeof_EFI_MEMORY_DESCRIPTOR in Hmin.
    split; [done|]. apply map_entries_bound; rewrite Hdesc; lia. }
  destruct (EFI_ERROR status) eqn:Es; cbn [orb].
  { apply runs_ret. exists mm1. split; [by split_and!|]. split; [intros; by apply mem_put_ok|]. split; [auto|]. cbn.
    split; [congruence|]. intros Hr Hc. destruct (Hready Hr Hc). congruence. }
  destruct (Hok eq_refl) as [Hms Hds]. unfold sizeof_EFI_MEMORY_DESCRIPTOR in *. rewrite (proj2 (Z.ltb_ge _ _)) by done.
  apply runs_get. rewrite Hms in *. set (ds := map_descriptor_size r) in *. unfold in_u64 in Hud.
  assert (Hz0 : 0 <= zlen (map_data r)) by (unfold zlen; lia).
  assert (Hq : 0 <= zlen (map_data r) / ds <= zlen (map_data r)) by (split; [apply Z.div_pos; lia|apply Z.div_le_upper_bound; nia]).
  destruct (capture_loop_spec (map_data r) raw ds m ltac:(lia) ltac:(lia)) with
    (n := Z.to_nat (zlen (map_data r) / ds)) (k := 0) (c := 0) (fuel := S (Z.to_nat (zlen (map_data r)))) (mm := mm1)
    (es := map_entries r) as (mm2 & H2 & Hin & Hout & Hmok); try lia.
  { unfold META_MEMORY_MAP, META_COMMAND_LINE, META_MEMORY_MAP, sizeof_JoshBootInfo, sizeof_JoshMemoryMapEntry, JOSH_BOOT_MAX_MEMORY_ENTRIES. lia. }
  { apply holds_put. }
  { unfold map_entries. fold ds. by rewrite Z2Nat.id by lia. }
  rewrite Z.mul_0_r in H2. cbn [with_fw with_memory uf_mem uf_fw uf_pool uf_serial]. rewrite H2. apply runs_lift, runs_modify.
  assert (Hfar : forall x, x < raw \/ raw + cap <= x -> x < m \/ m + 4096 <= x -> mm2 x = mm x).
  { intros x Hr Hx. rewrite Hout; [by apply Hout1|]. unfold room, META_MEMORY_MAP, META_COMMAND_LINE, META_MEMORY_MAP, sizeof_JoshBootInfo, sizeof_JoshMemoryMapEntry, JOSH_BOOT_MAX_MEMORY_ENTRIES. lia. }
  assert (Hmok2 : mem_ok mm -> mem_ok mm2) by (intros; by apply Hmok, mem_put_ok).
  rewrite Z.add_0_l in *. unfold map_in_page, JOSH_BOOT_MAX_MEMORY_ENTRIES.
  destruct (Z.leb_spec (zlen (map_entries r)) 128) as [Hfit|Hbig].
  2: { apply runs_ret. exists mm2. split_and!; try done. intros Hr Hc. destruct (Hready Hr Hc). lia. }
  apply runs_modify, runs_message, runs_ret. cbn [with_fw with_memory uf_mem uf_fw uf_pool uf_serial].
  exists (store_bytes mm2 (m + INFO_MEMORY_MAP_ENTRIES) (le_bytes 4 (zlen (map_entries r)))).
  split; [by split_and!|]. split; [intros; by apply store_bytes_ok, Hmok2|]. split.
  - intros x Hr Hx. rewrite store_bytes_put by apply bytes_le_bytes. rewrite mem_put_outside; [by apply Hfar|].
    rewrite zlen_le_bytes. unfold INFO_MEMORY_MAP_ENTRIES. lia.
  - split; [|done]. intros _. exists (uf_fw s), status, r. split; [exact E|]. split; [done|]. split; [done|]. split; [done|]. intros x Hx. rewrite store_bytes_put by apply bytes_le_bytes.
    apply mem_put_ext. rewrite Hin by done. unfold room. rewrite Z.mul_0_r, Z.add_0_r. apply mem_put_ext, Hout1. lia.
Qed.
End Graphics.

(** The entries and their number are in the page. *)
Lemma map_in_page_holds mm mm' m r :
  map_in_page mm mm' m r ->
  holds mm' (m + META_MEMORY_MAP) (entries_bytes (map_entries r)) /\
  holds mm' (m + INFO_MEMORY_MAP_ENTRIES) (le_bytes 4 (zlen (map_entries r))).
Proof.
  intros [Hfit Hin]. pose proof (zlen_entries (map_entries r)) as Hz. unfold JOSH_BOOT_MAX_MEMORY_ENTRIES in Hfit.
  split.
  - eapply holds_ext; [|apply holds_put_apart; [|apply holds_put]].
    + intros x Hx. apply Hin. unfold META_MEMORY_MAP, sizeof_JoshBootInfo in *. lia.
    + rewrite zlen_le_bytes. unfold META_MEMORY_MAP, INFO_MEMORY_MAP_ENTRIES, sizeof_JoshBootInfo. lia.
  - eapply holds_ext; [|apply holds_put]. intros x Hx. apply Hin. rewrite zlen_le_bytes in Hx. unfold INFO_MEMORY_MAP_ENTRIES in *. lia.
Qed.

(** C22: Capturing the memory map. Whatever the firmware's map, [capture_map] returns without undefined
    behaviour, keeps the pool and writes only to the raw buffer and to the page of the boot information;
    when it succeeds, that page has the reference conversion: every descriptor the firmware stored that
    has pages, in order, with its start, its length in bytes and its type, at most 128 of them, and their
    number; and the key is the one of that map. *)
Theorem capture_map_converts {W : Type} (io : EFI_FILE_PROTOCOL W) (bs : EFI_BOOT_SERVICES W) (rs : option (EFI_RUNTIME_SERVICES W))
    (fw_view : W -> view) `{!UefiFirmware io bs rs fw_view} (raw cap m : Z) (s : uefi W) :
  0 <= cap <= 2 ^ 32 -> raw + cap <= m \/ m + 4096 <= raw -> dom (uf_pool s) = v_buffers (fw_view (uf_fw s)) ->
  exists status key s', capture_map bs raw cap m s = Some ((status, key), s') /\
    fw_view (uf_fw s') = fw_view (uf_fw s) /\ uf_pool s' = uf_pool s /\
    (forall x, x < raw \/ raw + cap <= x -> x < m \/ m + 4096 <= x -> uf_mem s' x = uf_mem s x) /\
    (EFI_ERROR status = false -> exists w st1 r, GetMemoryMap bs cap w = (st1, r, uf_fw s') /\ key = map_key r /\
       zlen (map_entries r) <= JOSH_BOOT_MAX_MEMORY_ENTRIES /\
       mem_slice (uf_mem s') (m + META_MEMORY_MAP) (24 * zlen (map_entries r)) = entries_bytes (map_entries r) /\
       load32 (uf_mem s') (m + INFO_MEMORY_MAP_ENTRIES) = zlen (map_entries r)).
Proof.
  intros Hcap Hap Hd. assert (Hs : state_is fw_view (uf_mem s) (fw_view (uf_fw s)) (uf_pool s) s) by by split_and!.
  destruct (capture_map_runs io bs rs fw_view 0 no_supplies _ _ _ raw cap m s Hcap Hap Hs)
    as ([status key] & s' & H & mm' & (Hm & Hv & Hp & _) & _ & Hout & Hmap & _).
  exists status, key, s'. subst mm'. split_and!; try done. intros E. destruct (Hmap E) as (w & st1 & r & Hget & _ & Hk & Hpage).
  destruct (map_in_page_holds _ _ _ _ Hpage) as [He Hn]. apply holds_slice in He, Hn. rewrite zlen_entries in He. rewrite zlen_le_bytes in Hn.
  change (Z.of_nat 4) with 4 in Hn. exists w, st1, r. destruct Hpage as [Hfit _]. split_and!; try done. unfold load32. rewrite Hn, le_value_le_bytes.
  unfold JOSH_BOOT_MAX_MEMORY_ENTRIES in Hfit. apply Z.mod_small. unfold zlen in *. lia.
Qed.

Lemma capture_map_converts_witness :
  exists key s', capture_map mock_bs 0x10000 4096 0x20000 (mock_start None) = Some ((EFI_SUCCESS, key), s') /\
    load32 (uf_mem s') (0x20000 + INFO_MEMORY_MAP_ENTRIES) = 3.
Proof.
  destruct (capture_map_converts mock_io mock_bs (Some mock_rs) mock_view 0x10000 4096 0x20000 (mock_start None))
    as (status & key & s' & H & _ & _ & _ & Hmap); [lia|lia|reflexivity|].
  assert (E : (fst <$> capture_map mock_bs 0x10000 4096 0x20000 (mock_start None)) = Some (EFI_SUCCESS, 7)) by (vm_compute; reflexivity).
  rewrite H in E. cbn in E. injection E as -> ->. exists 7, s'. split; [exact H|].
  destruct (Hmap eq_refl) as (w & st1 & r & Hget & _ & _ & _ & Hn). rewrite Hn.
  change (GetMemoryMap mock_bs) with mock_memory_map in Hget. unfold mock_memory_map in Hget.
  change (4096 <? zlen mock_map) with false in Hget. injection Hget as <- <- _. vm_compute. reflexivity.
Defined.

(** ** The boot information *)

(** What the boot information says, for the framebuffer and the number of map entries filled in later. *)
Definition uefi_boot_info {W} (m : Z) (st : EFI_SYSTEM_TABLE W) (s : JoshElf64Summary) (kp : Z) (text : list Z)
    (fb : JoshFramebufferInfo) (entries : Z) : JoshBootInfo :=
  let rsdp := table_of (ConfigurationTable st) gEfiAcpi20TableGuid gEfiAcpi10TableGuid 0 in
  let smbios := table_of (ConfigurationTable st) gEfiSmbios3TableGuid gEfiSmbiosTableGuid 0 in
  let flags := meta_flags in
  let flags := if negb (rsdp =? 0) then Z.lor flags JOSH_BOOT_FLAG_RSDP else flags in
  let flags := if negb (smbios =? 0) then Z.lor flags JOSH_BOOT_FLAG_SMBIOS else flags in
  if bool_decide (text = []) then meta_info m s kp flags rsdp smbios 0 0 fb entries
  else meta_info m s kp (Z.lor flags JOSH_BOOT_FLAG_CMDLINE) rsdp smbios (m + META_COMMAND_LINE) (zlen text) fb entries.

Lemma text_length_loop_spec text rest : 0 ∉ text -> forall n i,
  (i + n = length text)%nat ->
  text_length_loop (S (n + rest)) (text_array (S (length text + rest)) text) (Z.of_nat (length text + rest)) (Z.of_nat i) = Some (zlen text).
Proof.
  intros H0. induction n as [|n IH]; intros i Hi; cbn [text_length_loop Nat.add].
  - destruct (Z.ltb_spec (Z.of_nat i) (Z.of_nat (length text + rest))); [|unfold zlen; f_equal; lia].
    unfold text_array. rewrite get8_app. unfold zlen. rewrite (proj2 (Z.ltb_ge _ _)) by lia.
    replace (S (length text + rest) - length text)%nat with (S rest) by lia. replace (Z.of_nat i - Z.of_nat (length text)) with 0 by lia.
    cbn. f_equal. lia.
  - rewrite (proj2 (Z.ltb_lt _ _)) by lia. unfold text_array at 1. rewrite get8_app.
    rewrite (proj2 (Z.ltb_lt _ _)) by (unfold zlen; lia). destruct (get8_Some text (Z.of_nat i)) as [c Hc]; [unfold zlen; lia|].
    rewrite Hc. assert (c <> 0).
    { intros ->. apply H0. rewrite <- lookup_get8 in Hc. by eapply list_elem_of_lookup_2. }
    rewrite (proj2 (Z.eqb_neq c 0)) by done. replace (Z.of_nat i + 1) with (Z.of_nat (S i)) by lia. apply IH. lia.
Qed.

Lemma cmdline_text c : config_ok c -> exists text, bc_command_line c = text_array 128 text /\ c_str (bc_command_line c) = text /\
  0 ∉ text /\ zlen text <= 127 /\ bytes text.
Proof.
  intros (_ & _ & _ & id & name & kernel & previous & recovery & text & _ & _ & _ & _ & _ & _ & -> & _ & _ & _ & _ & _ & Hok).
  unfold cmdline_ok in Hok. apply andb_true_iff in Hok as [Hl%Z.leb_le Hp]. exists text.
  assert (H0 : 0 ∉ text) by by apply (forallb_no printable). split_and!; try done.
  - apply c_str_text_array; [done|]. unfold zlen in Hl. lia.
  - apply Forall_forall. intros x Hx%list_elem_of_In. rewrite forallb_forall in Hp. apply Hp in Hx. unfold printable in Hx. unfold in_u8. lia.
Qed.

Section Meta.
Context {W : Type} (st : EFI_SYSTEM_TABLE W) (sm : JoshElf64Summary) (kp m : Z) (c : josh_boot_config_t).
Context (Hst : tables_ok st) (Hc : config_ok c).

(** The page of the boot information: the information, the command line and the loader's name. *)
Record meta_page (mm : mem) (fb : JoshFramebufferInfo) (entries : Z) : Prop := {
  mp_info : holds mm m (boot_info_bytes (uefi_boot_info m st sm kp (c_str (bc_command_line c)) fb entries));
  mp_text : holds mm (m + META_COMMAND_LINE) (c_str (bc_command_line c));
  mp_name : holds mm (m + META_LOADER_NAME) (loader_name ++ [0])
}.

Lemma zlen_uefi_info m' text fb entries : zlen (boot_info_bytes (uefi_boot_info m' st sm kp text fb entries)) = 224.
Proof. apply length_boot_info. unfold uefi_boot_info. by destruct (bool_decide _). Qed.

(** The parts of the page do not overlap. *)
Ltac layout := unfold META_LOADER_NAME, META_COMMAND_LINE, META_MEMORY_MAP, sizeof_JoshBootInfo, sizeof_JoshMemoryMapEntry,
  JOSH_BOOT_MAX_MEMORY_ENTRIES, JOSH_BOOT_CONFIG_CMDLINE_MAX, INFO_MEMORY_MAP_ENTRIES, INFO_FRAMEBUFFER in *.

Lemma meta_page_put mm fb entries :
  holds mm (m + META_COMMAND_LINE) (c_str (bc_command_line c)) -> holds mm (m + META_LOADER_NAME) (loader_name ++ [0]) ->
  meta_page (mem_put mm m (boot_info_bytes (uefi_boot_info m st sm kp (c_str (bc_command_line c)) fb entries))) fb entries.
Proof.
  intros H1 H2. split; [apply holds_put|..]; apply holds_put_apart; try done; rewrite zlen_uefi_info; layout; lia.
Qed.

(** Memory once the page is cleared and has the loader's name. *)
Definition named (mm : mem) : mem :=
  mem_put (memzero mm m (Z.to_nat sizeof_uefi_metadata_t)) (m + META_LOADER_NAME) (loader_name ++ [0]).

Lemma named_ok mm : mem_ok mm -> mem_ok (named mm).
Proof. intros H. apply mem_put_ok; [by apply memzero_ok|]. repeat constructor; unfold in_u8; lia. Qed.

Lemma named_outside mm x : x < m \/ m + 4096 <= x -> named mm x = mm x.
Proof.
  intros Hx. unfold named. rewrite mem_put_outside by (change (zlen (loader_name ++ [0])) with 20; layout; lia).
  rewrite memzero_spec. unfold sizeof_uefi_metadata_t. layout. ranges; done.
Qed.

Lemma fill_meta_spec mm :
  exists mm', fill_meta mm m st sm kp (Some c) = Some mm' /\ meta_page mm' zero_framebuffer 0 /\
    (mem_ok mm -> mem_ok mm') /\ (forall x, x < m \/ m + 4096 <= x -> mm' x = mm x).
Proof.
  destruct (cmdline_text c Hc) as (text & Harr & Htext & H0 & Hlen & Hb). unfold fill_meta. fold (named mm).
  rewrite !find_table_spec by done.
  pose proof (zlen_uefi_info m text zero_framebuffer 0) as Hzi.
  pose proof (bytes_boot_info (uefi_boot_info m st sm kp text zero_framebuffer 0)) as Hbi.
  pose proof (meta_page_put (named mm) zero_framebuffer 0) as Hempty.
  pose proof (meta_page_put (mem_put (named mm) (m + META_COMMAND_LINE) text) zero_framebuffer 0) as Hput. rewrite Htext in *.
  assert (Hname : holds (named mm) (m + META_LOADER_NAME) (loader_name ++ [0])) by apply holds_put.
  pose proof (named_ok mm) as Hok. pose proof (named_outside mm) as Hout. rewrite Harr. destruct text as [|a text].
  - eexists. split; [reflexivity|]. split; [apply Hempty; [apply holds_nil|done]|]. split; [auto using mem_put_ok|].
    intros x Hx. rewrite mem_put_outside; [auto|]. change (zlen _) with 224. lia.
  - change (get8 (text_array 128 (a :: text)) 0) with (Some a). cbv beta iota. assert (a <> 0) by set_solver.
    rewrite (proj2 (Z.eqb_neq a 0)) by done. cbn [negb].
    assert (Hl : text_length (Some (text_array 128 (a :: text))) JOSH_BOOT_CONFIG_CMDLINE_MAX = Some (zlen (a :: text))).
    { pose proof (text_length_loop_spec (a :: text) (127 - length (a :: text)) H0 (length (a :: text)) 0 eq_refl) as Hs.
      unfold zlen in Hlen. rewrite Nat.add_comm, Nat.sub_add in Hs by lia. exact Hs. }
    rewrite Hl. pose proof (slice_full [] (a :: text) (replicate (128 - length (a :: text)) 0)) as Hsl.
    change (slice (text_array 128 (a :: text)) 0 (zlen (a :: text)) = Some (a :: text)) in Hsl. rewrite Hsl.
    eexists. split; [reflexivity|]. split; [apply Hput; [apply holds_put|apply holds_put_apart; [layout; lia|done]]|].
    split; [auto using mem_put_ok|]. intros x Hx. rewrite mem_put_outside by (rewrite length_boot_info by done; layout; lia).
    rewrite mem_put_outside; [auto|]. layout. lia.
Qed.

(** The information around the number of entries and the framebuffer. *)
Lemma meta_info_split flags rsdp smbios address length : exists a b d,
  zlen a = INFO_MEMORY_MAP_ENTRIES /\ zlen b = 4 /\ forall fb entries,
  boot_info_bytes (meta_info m sm kp flags rsdp smbios address length fb entries) =
  a ++ le_bytes 4 entries ++ b ++ framebuffer_bytes fb ++ d.
Proof.
  set (l := boot_info_bytes (meta_info m sm kp flags rsdp smbios address length zero_framebuffer 0)).
  exists (take 40 l), (take 4 (drop 44 l)), (drop 96 l). split; [reflexivity|]. split; [reflexivity|]. intros fb entries. reflexivity.
Qed.

Lemma boot_info_split text : exists a b d,
  zlen a = INFO_MEMORY_MAP_ENTRIES /\ zlen b = 4 /\ forall fb entries,
  boot_info_bytes (uefi_boot_info m st sm kp text fb entries) = a ++ le_bytes 4 entries ++ b ++ framebuffer_bytes fb ++ d.
Proof. unfold uefi_boot_info. destruct (bool_decide _); apply meta_info_split. Qed.

(** The page with another framebuffer, and with another number of entries. *)
Lemma meta_page_framebuffer mm fb fb' entries :
  meta_page mm fb entries -> meta_page (mem_put mm (m + INFO_FRAMEBUFFER) (framebuffer_bytes fb')) fb' entries.
Proof.
  intros [Hi Ht Hn]. destruct (cmdline_text c Hc) as (text & _ & Htext & _ & Hlen & _). rewrite <- Htext in Hlen.
  assert (Hf : forall f, zlen (framebuffer_bytes f) = 48) by (intros f; unfold zlen; by rewrite length_framebuffer). split.
  - destruct (boot_info_split (c_str (bc_command_line c))) as (a & b & d & Ha & Hb & He). rewrite He in *.
    rewrite !holds_app, Ha, Hb, zlen_le_bytes, !Hf in *. layout. destruct Hi as (H1 & H2 & H3 & _ & H5).
    replace (m + 40 + Z.of_nat 4 + 4) with (m + 48) in * by lia.
    split_and!; [..|apply holds_put|]; (apply holds_put_apart; [|done]); rewrite Hf, ?Ha, ?Hb, ?zlen_le_bytes; lia.
  - apply holds_put_apart; [|done]. rewrite Hf. layout. lia.
  - apply holds_put_apart; [|done]. rewrite Hf. layout. lia.
Qed.

Lemma meta_page_map mm mm' fb entries r :
  meta_page mm fb entries -> map_in_page mm mm' m r ->
  meta_page mm' fb (zlen (map_entries r)) /\ holds mm' (m + META_MEMORY_MAP) (entries_bytes (map_entries r)).
Proof.
  intros [Hi Ht Hn] [Hfit Hin]. destruct (cmdline_text c Hc) as (text & _ & Htext & _ & Hlen & _). rewrite <- Htext in Hlen.
  pose proof (zlen_entries (map_entries r)) as Hze. assert (0 <= zlen (map_entries r)) by (unfold zlen; lia).
  set (n := zlen (map_entries r)) in *.
  assert (Hsame : forall a l, m <= a -> a + zlen l <= m + 4096 ->
    holds (mem_put (mem_put mm (m + META_MEMORY_MAP) (entries_bytes (map_entries r))) (m + INFO_MEMORY_MAP_ENTRIES) (le_bytes 4 n)) a l -> holds mm' a l).
  { intros a l H1 H2. apply holds_ext. intros x Hx. apply Hin. lia. }
  assert (Hfar : forall a l, m <= a -> a + zlen l <= m + 4096 ->
    a + zlen l <= m + 40 \/ m + 44 <= a /\ (a + zlen l <= m + 224 \/ m + 3296 <= a) -> holds mm a l -> holds mm' a l).
  { intros a l H1 H2 H3 H4. apply Hsame; [done..|]. apply holds_put_apart; [rewrite zlen_le_bytes; layout; lia|].
    apply holds_put_apart; [layout; lia|done]. }
  split; [split|].
  - destruct (boot_info_split (c_str (bc_command_line c))) as (a & b & d & Ha & Hb & He).
    pose proof (zlen_uefi_info m (c_str (bc_command_line c)) fb entries) as Hz. rewrite He in Hi, Hz. rewrite He.
    assert (Hf : zlen (framebuffer_bytes fb) = 48) by (unfold zlen; by rewrite length_framebuffer).
    unfold zlen in Hz. rewrite !length_app, !Nat2Z.inj_add in Hz. fold (zlen a) (zlen b) (zlen d) (zlen (framebuffer_bytes fb)) (zlen (le_bytes 4 entries)) in Hz.
    rewrite !holds_app, Ha, Hb, !zlen_le_bytes, Hf in *. layout. destruct Hi as (H1 & _ & H3 & H4 & H5).
    split_and!; [apply Hfar; try done; lia|apply Hsame; [lia|rewrite zlen_le_bytes; lia|apply holds_put]|apply Hfar; try done; lia..].
  - apply Hfar; try done; layout; lia.
  - apply Hfar; try done; change (zlen (loader_name ++ [0])) with 20; layout; lia.
  - apply Hsame; [layout; lia|layout; lia|]. apply holds_put_apart; [rewrite zlen_le_bytes; layout; lia|apply holds_put].
Qed.

(** Only the page matters. *)
Lemma meta_page_ext mm mm' fb entries :
  (forall x, m <= x < m + 4096 -> mm' x = mm x) -> meta_page mm fb entries -> meta_page mm' fb entries.
Proof.
  intros He [Hi Ht Hn]. destruct (cmdline_text c Hc) as (text & _ & Htext & _ & Hlen & _). rewrite <- Htext in Hlen.
  split; (eapply holds_ext; [|done]); intros x Hx; apply He.
  - rewrite zlen_uefi_info in Hx. lia.
  - layout. lia.
  - change (zlen (loader_name ++ [0])) with 20 in Hx. layout. lia.
Qed.
End Meta.
