(* ===== verification/UefiMain.v ===== *)
(** * The UEFI loader's main program (boot/uefi/main.c)

    [efi_main] loads the files, places the kernel's segments in fresh pages, fills
    the boot information, builds the page tables, captures the memory map, leaves
    boot services and hands over.  The end of the program is an outcome: a status
    returned to the firmware, or the jump with its four arguments. *)
From stdpp Require Import gmap.
From S2P Require Import Prelude Prog Health Elf64 Config Slots Memory Paging Protocol Efi EfiMock UefiPaging UefiLoad.
From S2P Require Import UefiKernel UefiInfo.

Definition RAW_MAP_EXTRA_DESCRIPTORS : Z := 16.

Inductive uefi_outcome :=
| ReturnedStatus (s : EFI_STATUS)
| UefiHandoff (root stack entry info : Z).

Section Main.
Context {W : Type} (io : EFI_FILE_PROTOCOL W).

(** The status, the root of the tables and the stack pointer. *)
Definition build_tables (bs : EFI_BOOT_SERVICES W) (kp : Z) (s : JoshElf64Summary) : prog (uefi W) (EFI_STATUS * Z * Z) :=
  do (st, pa) <- alloc_low (Some bs) PAGE_TABLE_POOL_PAGES (Some 0) ;
  do pa <- lift pa ;
  if EFI_ERROR st then ret (st, 0, 0)
  else
    do u <- get ;
    let '(root, mm) := fill_tables (uf_mem u) pa kp (es_virtual_min s) (es_virtual_max s) in
    run memory_op (fun _ => mm) ;
    match root with
    | None => ret (EFI_OUT_OF_RESOURCES, 0, 0)
    | Some root =>
        do (st, sp) <- alloc_low (Some bs) 4 (Some 0) ;
        do sp <- lift sp ;
        if EFI_ERROR st then ret (st, 0, 0)
        else
          run memory_op (fun m => memzero m sp (Z.to_nat (4 * PAGE_SIZE))) ;
          ret (EFI_SUCCESS, root, u64 (sp + 4 * PAGE_SIZE - 16))
    end.

(** The loop that captures the map and leaves boot services, [n] attempts left from [a] on: the status to
    return, or that boot services are left. *)
Fixpoint exit_loop (bs : EFI_BOOT_SERVICES W) (image raw cap m : Z) (n : nat) (a : Z) : prog (uefi W) (option EFI_STATUS) :=
  match n with
  | O => ret None
  | S n' =>
      do (s, key) <- capture_map bs raw cap m ;
      if EFI_ERROR s then ret (Some s)
      else
        do s <- service (ExitBootServices bs image key) ;
        if negb (EFI_ERROR s) then ret None
        else if a =? 2 then run serial_write "JOSHUEFI_ERROR_EXIT_BOOT_SERVICES" ; ret (Some s)
        else exit_loop bs image raw cap m n' (a + 1)
  end.

(** From the built tables on: the raw map's pages, then out of boot services. *)
Definition leave_boot_services (bs : EFI_BOOT_SERVICES W) (image m : Z) : prog (uefi W) (option EFI_STATUS) :=
  do (s, r) <- service (GetMemoryMap bs 0) ;
  if negb (s =? EFI_BUFFER_TOO_SMALL) || (map_descriptor_size r <? sizeof_EFI_MEMORY_DESCRIPTOR) then ret (Some EFI_DEVICE_ERROR)
  else
    let need := u64 (map_size r + u64 (map_descriptor_size r * RAW_MAP_EXTRA_DESCRIPTORS)) in
    do (s, ra) <- alloc_low (Some bs) (pages_for need) (Some 0) ;
    do ra <- lift ra ;
    if EFI_ERROR s then ret (Some s)
    else
      let cap := u64 (pages_for need * PAGE_SIZE) in
      exit_loop bs image ra cap m 3 0.

Definition report (message : string) (s : EFI_STATUS) : prog (uefi W) uefi_outcome :=
  run serial_write message ; ret (ReturnedStatus s).

(** From the boot information on, with the kernel in its pages. *)
Definition start_kernel (image : Z) (st : EFI_SYSTEM_TABLE W) (bs : EFI_BOOT_SERVICES W) (cfg : josh_boot_config_t)
    (sum : JoshElf64Summary) (kp : Z) : prog (uefi W) uefi_outcome :=
  do (s, ma) <- alloc_low (Some bs) 1 (Some 0) ;
  do ma <- lift ma ;
  if EFI_ERROR s then ret (ReturnedStatus s)
  else
    do u <- get ;
    do mm <- lift (fill_meta (uf_mem u) ma st sum kp (Some cfg)) ;
    run memory_op (fun _ => mm) ;
    do s <- fill_fb bs (ma + INFO_FRAMEBUFFER) ;
    if EFI_ERROR s then report "JOSHUEFI_ERROR_GOP" s
    else
      do (s, root, stack) <- build_tables bs kp sum ;
      if EFI_ERROR s then report "JOSHUEFI_ERROR_PAGING" s
      else
        do ended <- leave_boot_services bs image ma ;
        match ended with
        | Some s => ret (ReturnedStatus s)
        | None =>
            run serial_write "JOSHUEFI_EXIT_BOOT_SERVICES_OK" ;
            run serial_write "JOSHUEFI_HANDOFF_READY" ;
            ret (UefiHandoff root stack (es_entry sum) ma)
        end.

Definition efi_main (image : Z) (st : option (EFI_SYSTEM_TABLE W)) : prog (uefi W) uefi_outcome :=
  run serial_write "JOSHUEFI_ENTRY_OK" ;
  match st with
  | None => ret (ReturnedStatus EFI_INVALID_PARAMETER)
  | Some st =>
  match BootServices st with
  | None => ret (ReturnedStatus EFI_INVALID_PARAMETER)
  | Some bs =>
      do (s, files) <- load_files io image st ;
      if EFI_ERROR s then report "JOSHUEFI_ERROR_FILESYSTEM" s
      else
        do (cfg, ki, kis, li) <- lift files ;
        if match li with
           | None => true
           | Some li => u64 (ImageBase li + ImageSize li) >? 0x100000000
           end
        then report "JOSHUEFI_ERROR_IMAGE_ABOVE_4G" EFI_UNSUPPORTED
        else
          do (s, sum, kp) <- load_elf bs ki kis ;
          run free_pool bs ki ;
          if EFI_ERROR s then report "JOSHUEFI_ERROR_ELF64" s
          else start_kernel image st bs cfg sum kp
  end
  end.

End Main.

(** ** The steps *)
(** A range that was in use is apart from a new one. *)
Lemma new_range_apart v a n b k : new_range v a n -> (b, k) ∈ v_pages v -> a + 4096 * n <= b \/ b + 4096 * k <= a.
Proof. intros (_ & _ & _ & H) Hin. rewrite Forall_forall in H. exact (H _ Hin). Qed.

Lemma used_new v a n : (a, n) ∈ v_pages (more_pages a n v).
Proof. by left. Qed.
Lemma used_more v a n r : r ∈ v_pages v -> r ∈ v_pages (more_pages a n v).
Proof. intros H. by right. Qed.
#[local] Hint Resolve used_new used_more : josh.

Section Steps.
Context {W : Type} (io : EFI_FILE_PROTOCOL W) (bs : EFI_BOOT_SERVICES W) (rs : option (EFI_RUNTIME_SERVICES W)).
Context (fw_view : W -> view) `{!UefiFirmware io bs rs fw_view} (image : Z) (sp : supplies).
Abbreviation ready := (willing bs fw_view image sp).

Lemma fill_tables_at_zero mm kp lo hi : exists mm', fill_tables mm 0 kp lo hi = (None, mm').
Proof. by eexists. Qed.

(** What the tables and the stack are. *)
Definition built (mm : mem) (v : view) (p : gmap Z (list Z)) (kp : Z) (sm : JoshElf64Summary) (root stack : Z) (s' : uefi W) : Prop :=
  exists base mm', new_range v root 48 /\ new_range (more_pages root 48 v) base 4 /\ stack = base + 4 * 4096 - 16 /\
    (ready -> 52 <= pages_left sp v -> pages_left sp v - 52 <= pages_left sp (more_pages base 4 (more_pages root 48 v))) /\
    state_is fw_view mm' (more_pages base 4 (more_pages root 48 v)) p s' /\
    (forall x, x < root \/ root + 4096 * 48 <= x -> x < base \/ base + 4096 * 4 <= x -> mm' x = mm x) /\
    (forall mm'', (forall x, root <= x < root + 4096 * 48 -> mm'' x = mm' x) ->
       forall a, in_u64 a -> translate mm'' root a = meaning (es_virtual_min sm) (es_virtual_max sm) kp a).

Lemma build_tables_runs mm v p kp sm s :
  acceptable sm -> 0 <= kp -> kp mod 4096 = 0 -> kp + (es_virtual_max sm - es_virtual_min sm) <= 2 ^ 32 ->
  state_is fw_view mm v p s ->
  runs (build_tables bs kp sm) s (fun r s' => let '(st, root, stack) := r in
    (ready -> 52 <= pages_left sp v -> EFI_ERROR st = false) /\
    if EFI_ERROR st then True else built mm v p kp sm root stack s').
Proof.
  intros (Hfl & Hlt & Hsp) Hkp Hka Hkl Hs. unfold build_tables.
  eapply runs_call; [apply (alloc_low_runs io bs rs fw_view image sp mm v p); [unfold PAGE_TABLE_POOL_PAGES; lia|done]|].
  intros [st a] s1 (pa & Ha & L1 & H1). cbn [fst snd] in *. subst a. apply runs_lift. unfold PAGE_TABLE_POOL_PAGES in *.
  destruct (EFI_ERROR st) eqn:E1.
  { apply runs_ret. rewrite E1. split; [|done]. intros Hr Hl. destruct (L1 Hr ltac:(lia)) as [? _]. done. }
  destruct H1 as (_ & Hr1 & Hm1 & Hv1 & Hp1 & Hd1). apply runs_get.
  rewrite Hm1. destruct (decide (pa = 0)) as [->|Hpa].
  { destruct (fill_tables_at_zero mm kp (es_virtual_min sm) (es_virtual_max sm)) as [mm' ->]. apply runs_modify, runs_ret.
    split; [|done]. intros Hr Hl. destruct (L1 Hr ltac:(lia)) as (_ & ? & _). lia. }
  pose proof Hr1 as (H0 & Hal & Hle & _).
  destruct (fill_tables_meaning mm pa kp (es_virtual_min sm) (es_virtual_max sm)) as (m1 & -> & Hok1 & Hout1 & Htr); try done; [lia|].
  apply runs_modify.
  eapply runs_call; [apply (alloc_low_runs io bs rs fw_view image sp m1 (more_pages pa 48 v) p); [lia|by split_and!]|].
  intros [st2 a2] s2 (base & Ha & L2 & H2). cbn [fst snd] in *. subst a2. apply runs_lift.
  assert (L : ready -> 52 <= pages_left sp v -> EFI_ERROR st2 = false /\ pages_left sp v - 52 <= pages_left sp (more_pages base 4 (more_pages pa 48 v))).
  { intros Hr Hl. destruct (L1 Hr ltac:(lia)) as (_ & _ & Hl1). destruct (L2 Hr ltac:(lia)) as (? & _ & ?). split; [done|lia]. }
  destruct (EFI_ERROR st2) eqn:E2; [apply runs_ret; rewrite E2; split; [intros Hr Hl; by destruct (L Hr Hl)|done]|].
  destruct H2 as (_ & Hr2 & Hm2 & Hv2 & Hp2 & Hd2).
  pose proof Hr2 as (H20 & _ & H22 & _). pose proof (new_range_apart _ _ _ pa 48 Hr2 ltac:(auto with josh)) as Hap.
  apply runs_modify, runs_ret. change (EFI_ERROR EFI_SUCCESS) with false. cbv iota. split; [done|]. unfold PAGE_SIZE.
  exists base, (memzero m1 base (Z.to_nat (4 * 4096))). split; [done|]. split; [done|]. split; [rewrite u64_id by (unfold in_u64; lia); lia|].
  split; [intros Hr Hl; by apply L|].
  split; [split; [cbn [with_memory uf_mem]; rewrite Hm2; reflexivity|by split_and!]|]. split.
  - intros x Hx1 Hx2. rewrite memzero_spec. ranges. by apply Hout1.
  - intros mm'' Hag. apply Htr. intros x Hx. rewrite Hag by done. rewrite memzero_spec. by ranges.
Qed.

(** Boot services are left with the key of the map that was just captured. *)
Definition left_with (cap : Z) (r : memory_map) (w : W) : Prop :=
  exists w1 w2 st1 st2, GetMemoryMap bs cap w1 = (st1, r, w2) /\ EFI_ERROR st1 = false /\
    ExitBootServices bs image (map_key r) w2 = (st2, w) /\ EFI_ERROR st2 = false.

Section Leaving.
Context (st : EFI_SYSTEM_TABLE W) (sm : JoshElf64Summary) (kp m : Z) (c : josh_boot_config_t) (fb : JoshFramebufferInfo).
Context (Hst : tables_ok st) (Hc : config_ok c).

Definition left_post (mm : mem) (v : view) (p : gmap Z (list Z)) (raw cap : Z) (r : option EFI_STATUS) (s' : uefi W) : Prop :=
  match r with
  | Some e => EFI_ERROR e = true
  | None => exists map mm', left_with cap map (uf_fw s') /\ state_is fw_view mm' v p s' /\
      meta_page st sm kp m c mm' fb (zlen (map_entries map)) /\ holds mm' (m + META_MEMORY_MAP) (entries_bytes (map_entries map)) /\
      forall x, x < raw \/ raw + cap <= x -> x < m \/ m + 4096 <= x -> mm' x = mm x
  end.

Lemma exit_loop_runs raw cap v p :
  0 <= cap <= 2 ^ 32 -> raw + cap <= m \/ m + 4096 <= raw ->
  forall n a mm entries s, (0 < n)%nat -> a + Z.of_nat n = 3 -> state_is fw_view mm v p s -> meta_page st sm kp m c mm fb entries ->
  runs (exit_loop bs image raw cap m n a) s (fun r s' =>
    (ready -> map_least sp + 16 * descriptor_size sp <= cap -> r = None) /\ left_post mm v p raw cap r s').
Proof.
  intros Hcap Hap. induction n as [|n IH]; intros a mm entries s Hn Ha Hs Hmp; [lia|]. cbn [exit_loop].
  eapply runs_call; [by apply (capture_map_runs io bs rs fw_view image sp mm v p)|].
  intros [st1 key] s1 (mm1 & S1 & _ & Hout & Hcap1 & L1). cbn [fst snd] in *.
  destruct (EFI_ERROR st1) eqn:E1; [apply runs_ret; split; [intros Hr Hc'; by specialize (L1 Hr Hc')|done]|].
  destruct (Hcap1 eq_refl) as (w1 & status & r & Hget & Hsuc & -> & Hpage). apply runs_service. intros st2 w2 Hexit.
  pose proof (fw_exit _ _ _ _ _ Hexit) as Hv2. destruct (meta_page_map st sm kp m c Hc mm mm1 fb entries r Hmp Hpage) as [Hmp1 Hent].
  assert (S2 : state_is fw_view mm1 v p (with_fw w2 s1)) by (destruct S1 as (? & ? & ? & ?); split_and!; try done; cbn; by rewrite Hv2).
  assert (L2 : ready -> EFI_ERROR st2 = false) by (intros Hr; pose proof (wil_exit _ _ _ _ Hr _ _ _ _ _ Hget Hsuc) as He; by rewrite Hexit in He).
  destruct (EFI_ERROR st2) eqn:E2; cbn [negb].
  - destruct (Z.eqb_spec a 2); [apply runs_message, runs_ret; split; [intros Hr; by specialize (L2 Hr)|done]|].
    eapply runs_mono; [by apply (IH (a + 1) mm1 (zlen (map_entries r))); [lia|lia|..]|].
    intros [e|] s3 [L3 H3]; (split; [intros Hr; by specialize (L2 Hr)|]); [done|].
    destruct H3 as (r3 & mm3 & H3 & S3 & Hp3 & He3 & Ho3). exists r3, mm3. split_and!; try done.
    intros x Hx1 Hx2. rewrite Ho3 by done. by apply Hout.
  - apply runs_ret. split; [done|]. exists r, mm1. split_and!; try done. by exists w1, (uf_fw s1), status, st2.
Qed.

(** The pages of the raw memory map, at most. *)
Definition map_pages : Z := (map_most sp + 16 * descriptor_size sp + 4095) / 4096.

Lemma leave_boot_services_runs mm v p s :
  state_is fw_view mm v p s -> (m, 1) ∈ v_pages v -> meta_page st sm kp m c mm fb 0 ->
  runs (leave_boot_services bs image m) s (fun r s' =>
    (ready -> map_pages <= pages_left sp v -> r = None) /\ match r with
    | Some e => EFI_ERROR e = true
    | None => exists raw n, new_range v raw n /\ left_post mm (more_pages raw n v) p raw (4096 * n) None s'
    end).
Proof.
  intros Hs Hpage Hmp. unfold leave_boot_services. apply runs_service. intros [st1 r] w E.
  destruct (fw_memory_map 0 _ _ _ _ ltac:(lia) E) as (Hw & _).
  assert (S1 : state_is fw_view mm v p (with_fw w s)) by (destruct Hs as (? & Hv & ? & ?); split_and!; try done; cbn; by rewrite Hw).
  assert (L1 : ready -> st1 = EFI_BUFFER_TOO_SMALL /\ map_least sp <= map_size r <= map_most sp /\ map_descriptor_size r = descriptor_size sp)
    by (intros Hr; pose proof (wil_map _ _ _ _ Hr 0 (uf_fw s)) as Hm; rewrite E in Hm; by apply Hm).
  destruct (negb (st1 =? EFI_BUFFER_TOO_SMALL) || (map_descriptor_size r <? sizeof_EFI_MEMORY_DESCRIPTOR)) eqn:Eneg.
  { apply runs_ret. split; [|done]. intros Hr. destruct (L1 Hr) as (-> & _ & Hd). pose proof (wil_sizes _ _ _ _ Hr). rewrite Z.eqb_refl in Eneg. cbn in Eneg. lia. }
  set (need := u64 _). assert (Hn : 0 <= pages_for need) by (unfold pages_for, PAGE_SIZE, u64; zdm).
  assert (L2 : ready -> 0 < pages_for need <= map_pages /\ map_least sp + 16 * descriptor_size sp <= 4096 * pages_for need).
  { intros Hr. destruct (L1 Hr) as (_ & Hms & Hd). pose proof (wil_sizes _ _ _ _ Hr) as (Hs0 & Hs1 & Hs2). unfold sizeof_EFI_MEMORY_DESCRIPTOR in Hs1.
    unfold need, pages_for, PAGE_SIZE, map_pages, RAW_MAP_EXTRA_DESCRIPTORS. rewrite Hd.
    rewrite (u64_id (descriptor_size sp * 16)), (u64_id (map_size r + _)), u64_id by (unfold in_u64; lia). zdm. }
  eapply runs_call; [by apply (alloc_low_runs io bs rs fw_view image sp mm v p)|].
  intros [st2 a] s2 (raw & Ha & L3 & H2). cbn [fst snd] in *. subst a. apply runs_lift.
  destruct (EFI_ERROR st2) eqn:E2.
  { apply runs_ret. split; [|done]. intros Hr Hl. destruct (L3 Hr) as [? _]; [destruct (L2 Hr); lia|done]. }
  destruct H2 as (Hpos & Hr & S2). pose proof Hr as (H0 & _ & Hle & _).
  pose proof (new_range_apart _ _ _ _ _ Hr Hpage) as Hap. unfold PAGE_SIZE. rewrite u64_id by (unfold in_u64; lia). rewrite (Z.mul_comm _ 4096).
  eapply runs_mono; [eapply (exit_loop_runs raw (4096 * pages_for need) (more_pages raw (pages_for need) v) p); try done; lia|].
  intros [e|] s3 [L4 H3]; (split; [intros Hrd Hl; by apply L4; [|apply L2]|]); [done|]. by exists raw, (pages_for need).
Qed.
End Leaving.
End Steps.

(** ** The whole program *)

(** The machine at the jump, for the volume in view [v] and the loader started with [image] and [st]. *)
Record handed_over {W} (st : EFI_SYSTEM_TABLE W) (bs : EFI_BOOT_SERVICES W) (image : Z) (cfg : josh_boot_config_t) (img : list Z)
    (sm : JoshElf64Summary) (segs : list JoshElf64LoadSegment) (kp root stack info : Z) (s : uefi W) : Prop := {
  ho_tables : forall a, in_u64 a -> translate (uf_mem s) root a = meaning (es_virtual_min sm) (es_virtual_max sm) kp a;
  ho_kernel : forall g i, g ∈ segs -> 0 <= i < ls_memory_size g ->
    uf_mem s (kp + (ls_virtual_address g - es_virtual_min sm) + i) =
    if i <? ls_file_size g then default 0 (get8 img (ls_file_offset g + i)) else 0;
  ho_info : exists fb r cap, current_framebuffer bs fb /\ left_with bs image cap r (uf_fw s) /\
    meta_page st sm kp info cfg (uf_mem s) fb (zlen (map_entries r)) /\
    holds (uf_mem s) (info + META_MEMORY_MAP) (entries_bytes (map_entries r));
  ho_low : 0 <= info /\ info + 4096 <= 2 ^ 32 /\ 0 <= stack - 0x3ff0 /\ stack + 16 <= 2 ^ 32 /\ stack mod 16 = 0
}.

Section Whole.
Context {W : Type} (io : EFI_FILE_PROTOCOL W) (st : EFI_SYSTEM_TABLE W) (bs : EFI_BOOT_SERVICES W) (fw_view : W -> view).
Context (Hbs : BootServices st = Some bs) `{!UefiFirmware io bs (RuntimeServices st) fw_view}.
Context (Hst : tables_ok st) (image : Z) (sp : supplies) (need : list Z -> Z).
Abbreviation ready := (willing bs fw_view image sp).

(** The pages it takes behind those of the kernel: the boot information, the tables, the stack, the map. *)
Definition loader_pages : Z := 53 + map_pages sp.

(** The pieces put together: what was written later lies in pages of its own. *)
Lemma assemble cfg img sm segs kp mm mm1 mm3 s v ma fb root base raw n r :
  accepted_segments img (zlen img) sm segs -> (kp, page_count sm) ∈ v_pages v ->
  (forall g i, g ∈ segs -> 0 <= i < ls_memory_size g ->
     mm (segment_place kp sm g + i) = if i <? ls_file_size g then default 0 (get8 img (ls_file_offset g + i)) else 0) ->
  new_range v ma 1 -> new_range (more_pages ma 1 v) root 48 -> new_range (more_pages root 48 (more_pages ma 1 v)) base 4 ->
  new_range (more_pages base 4 (more_pages root 48 (more_pages ma 1 v))) raw n ->
  (forall x, x < ma \/ ma + 4096 <= x -> mm1 x = mm x) ->
  (forall x, x < root \/ root + 4096 * 48 <= x -> x < base \/ base + 4096 * 4 <= x -> mm3 x = mem_put mm1 (ma + INFO_FRAMEBUFFER) (framebuffer_bytes fb) x) ->
  (forall x, x < raw \/ raw + 4096 * n <= x -> x < ma \/ ma + 4096 <= x -> uf_mem s x = mm3 x) ->
  (forall mm', (forall x, root <= x < root + 4096 * 48 -> mm' x = mm3 x) ->
     forall a, in_u64 a -> translate mm' root a = meaning (es_virtual_min sm) (es_virtual_max sm) kp a) ->
  current_framebuffer bs fb -> left_with bs image (4096 * n) r (uf_fw s) ->
  meta_page st sm kp ma cfg (uf_mem s) fb (zlen (map_entries r)) ->
  holds (uf_mem s) (ma + META_MEMORY_MAP) (entries_bytes (map_entries r)) ->
  handed_over st bs image cfg img sm segs kp root (base + 4 * 4096 - 16) ma s.
Proof.
  intros (_ & _ & Hok & _) Hin Hker Hr1 Hr3 Hr4 Hr5 Hout1 Hout3 Hout4 Htr Hfb Hleft Hmeta Hent.
  pose proof (new_range_apart _ _ _ _ _ Hr1 Hin) as A1. pose proof (new_range_apart _ _ _ kp (page_count sm) Hr3 ltac:(auto with josh)) as A2.
  pose proof (new_range_apart _ _ _ kp (page_count sm) Hr4 ltac:(auto with josh)) as A3.
  pose proof (new_range_apart _ _ _ ma 1 Hr3 ltac:(auto with josh)) as A4. pose proof (new_range_apart _ _ _ root 48 Hr4 ltac:(auto with josh)) as A6.
  pose proof (new_range_apart _ _ _ kp (page_count sm) Hr5 ltac:(auto with josh)) as B1.
  pose proof (new_range_apart _ _ _ root 48 Hr5 ltac:(auto with josh)) as B2. split.
  - apply Htr. intros x Hx. apply Hout4; lia.
  - intros g i Hg Hi. specialize (Hker g i Hg Hi). unfold segment_place in Hker. rewrite <- Hker.
    pose proof (proj1 (Forall_forall _ _) Hok g Hg) as (_ & _ & _ & _ & _ & _ & _ & Hmin & Hmax).
    unfold seg_end in Hmax. set (x := _ + i). assert (Hspan : es_virtual_max sm - es_virtual_min sm <= 4096 * page_count sm) by (unfold page_count; zdm).
    assert (Hx : kp <= x < kp + 4096 * page_count sm) by lia. rewrite Hout4, Hout3 by lia. rewrite mem_put_outside, Hout1; [done|lia|].
    unfold zlen. rewrite length_framebuffer. unfold INFO_FRAMEBUFFER. lia.
  - by exists fb, r, (4096 * n).
  - destruct Hr1 as (? & _ & ? & _), Hr4 as (? & Hal & ? & _). split_and!; try lia. zdm.
Qed.

Lemma start_kernel_runs cfg img sm segs kp mm v p s :
  config_ok cfg -> accepted_segments img (zlen img) sm segs -> acceptable sm -> 0 <= kp -> kp mod 4096 = 0 ->
  kp + 4096 * page_count sm <= 2 ^ 32 -> (kp, page_count sm) ∈ v_pages v ->
  (exists m0, kernel_in_pages img kp sm m0 mm segs) -> state_is fw_view mm v p s ->
  runs (start_kernel image st bs cfg sm kp) s (fun out s' => match out with
    | ReturnedStatus e => EFI_ERROR e = true /\ ~ (ready /\ loader_pages <= pages_left sp v)
    | UefiHandoff root stack entry info => entry = es_entry sm /\ uf_pool s' = p /\
        handed_over st bs image cfg img sm segs kp root stack info s'
    end).
Proof.
  intros Hcfg Hsegs Hacc Hkp Hka Hkl Hin [m0 [Hker _]] Hs. unfold start_kernel.
  assert (Hlp : ready -> 53 <= loader_pages) by (intros Hr; pose proof (wil_sizes _ _ _ _ Hr) as (? & Hd & ?); unfold loader_pages, map_pages, sizeof_EFI_MEMORY_DESCRIPTOR in *; zdm).
  eapply runs_call; [by apply (alloc_low_runs io bs _ fw_view image sp mm v p); [lia|]|].
  intros [s1 a] u1 (ma & Ha & L1 & H1). cbn [fst snd] in *. subst a. apply runs_lift.
  destruct (EFI_ERROR s1) eqn:E1.
  { apply runs_ret. split; [done|]. intros [Hr Hl]. specialize (Hlp Hr). destruct (L1 Hr ltac:(lia)) as [? _]. done. }
  destruct H1 as (_ & Hr1 & Hm1 & Hv1 & Hp1 & Hd1). apply runs_get.
  rewrite Hm1. destruct (fill_meta_spec st sm kp ma cfg Hst Hcfg mm) as (mm1 & -> & Hmeta & _ & Hout1). apply runs_lift, runs_modify.
  eapply runs_call; [apply (fill_fb_runs io bs _ fw_view image sp mm1 (more_pages ma 1 v) p); by split_and!|].
  intros s2 u2 [L2 H2]. destruct (EFI_ERROR s2) eqn:E2; [apply runs_message, runs_ret; split; [done|]; intros [Hr _]; by specialize (L2 Hr)|].
  destruct H2 as (fb & Hfb & S2).
  set (mm2 := mem_put mm1 _ _) in *. apply (meta_page_framebuffer st sm kp ma cfg Hcfg _ _ fb) in Hmeta. fold mm2 in Hmeta.
  assert (Hspan : es_virtual_max sm - es_virtual_min sm <= 4096 * page_count sm) by (unfold page_count; zdm).
  eapply runs_call; [apply (build_tables_runs io bs _ fw_view image sp mm2 (more_pages ma 1 v) p kp sm); [done|lia|done|lia|exact S2]|].
  intros [[s3 root] stack] u3 [L3 H3]. destruct (EFI_ERROR s3) eqn:E3.
  { apply runs_message, runs_ret. split; [done|]. intros [Hr Hl]. specialize (Hlp Hr). destruct (L1 Hr ltac:(lia)) as (_ & _ & ?).
    by specialize (L3 Hr ltac:(lia)). }
  destruct H3 as (base & mm3 & Hr3 & Hr4 & Hstack & L4 & S3 & Hout3 & Htr).
  pose proof (new_range_apart _ _ _ ma 1 Hr3 ltac:(auto with josh)) as A4. pose proof (new_range_apart _ _ _ ma 1 Hr4 ltac:(auto with josh)) as A5.
  eapply runs_call.
  { apply (leave_boot_services_runs io bs _ fw_view image sp st sm kp ma cfg fb Hcfg mm3 (more_pages base 4 (more_pages root 48 (more_pages ma 1 v))) p); [exact S3|auto with josh|].
    eapply (meta_page_ext st sm kp ma cfg Hcfg); [|exact Hmeta]. intros x Hx. apply Hout3; lia. }
  intros [e|] u4 [L5 H4].
  { apply runs_ret. split; [done|]. intros [Hr Hl]. pose proof (Hlp Hr). destruct (L1 Hr ltac:(lia)) as (_ & _ & ?).
    specialize (L4 Hr ltac:(lia)). discriminate (L5 Hr). unfold loader_pages in Hl. lia. }
  destruct H4 as (raw & n & Hr5 & r & mm4 & Hleft & S4 & Hmeta4 & Hent & Hout4).
  apply runs_message, runs_message, runs_ret. destruct S4 as (Hm4 & _ & Hp4 & _). split; [done|]. split; [done|]. subst stack.
  eapply (assemble cfg img sm segs kp mm mm1 mm3); cbn [uf_mem uf_fw]; rewrite ?Hm4; done.
Qed.

(** A kernel that starts on a page boundary finds its own bytes at its own addresses. *)
Definition kernel_visible (img : list Z) (sm : JoshElf64Summary) (segs : list JoshElf64LoadSegment) (root : Z) (m : mem) : Prop :=
  forall g i, g ∈ segs -> 0 <= i < ls_memory_size g -> exists a,
    translate m root (ls_virtual_address g + i) = Some a /\
    m a = if i <? ls_file_size g then default 0 (get8 img (ls_file_offset g + i)) else 0.

Lemma handed_over_visible cfg img sm segs kp root stack info s :
  accepted_segments img (zlen img) sm segs -> acceptable sm -> es_virtual_min sm mod 4096 = 0 ->
  handed_over st bs image cfg img sm segs kp root stack info s -> kernel_visible img sm segs root (uf_mem s).
Proof.
  intros (_ & _ & Hok & _) (Hfl & Hlt & _) Hal [Ht Hk _ _] g i Hg Hi.
  pose proof (proj1 (Forall_forall _ _) Hok g Hg) as (_ & _ & _ & _ & _ & _ & _ & Hmin & Hmax). unfold seg_end, KERNEL_VIRT_FLOOR in *.
  exists (kp + (ls_virtual_address g - es_virtual_min sm) + i). split; [|by apply Hk].
  rewrite Ht by (unfold in_u64; lia). unfold meaning, first_page, kernel_pages. rewrite (proj2 (Z.ltb_ge _ _)) by lia.
  replace (4096 * (es_virtual_min sm / 4096)) with (es_virtual_min sm) by zdm. ranges; [f_equal; lia|exfalso; zdm].
Qed.

(** What it takes to boot: working services, a plan whose kernel suits the loader, a loader below 4 GiB
    and enough pages. *)
Definition uefi_bootable (v : view) : Prop :=
  reliable io bs (RuntimeServices st) fw_view image need /\ ready /\
  (forall li, loaded_image bs image li -> u64 (ImageBase li + ImageSize li) <= 2 ^ 32) /\
  exists cfg img sm, uefi_plan v = Some (cfg, img) /\
    josh_elf64_validate (Some img) (zlen img) (Some blank_summary) = Some (JOSH_ELF64_OK, Some sm) /\
    acceptable sm /\ page_count sm + loader_pages <= pages_left sp v.

Definition main_post (v : view) (p : gmap Z (list Z)) (out : uefi_outcome) (s' : uefi W) : Prop :=
  match out with
  | ReturnedStatus e => EFI_ERROR e = true /\ ~ uefi_bootable v
  | UefiHandoff root stack entry info => exists cfg slot img sm segs kp,
      uefi_config v = Some cfg /\ uefi_image v (uefi_kernel_path cfg slot) = Some img /\
      josh_elf64_validate (Some img) (zlen img) (Some blank_summary) = Some (JOSH_ELF64_OK, Some sm) /\
      accepted_segments img (zlen img) sm segs /\ entry = es_entry sm /\
      handed_over st bs image cfg img sm segs kp root stack info s' /\
      (es_virtual_min sm mod 4096 = 0 -> kernel_visible img sm segs root (uf_mem s')) /\ uf_pool s' = p
  end.

(** The image that was loaded is the one a bootable machine plans for. *)
Lemma bootable_plan v cfg img :
  uefi_bootable v -> uefi_plan v = Some (cfg, img) -> exists sm,
    josh_elf64_validate (Some img) (zlen img) (Some blank_summary) = Some (JOSH_ELF64_OK, Some sm) /\
    acceptable sm /\ page_count sm + loader_pages <= pages_left sp v.
Proof. intros (_ & _ & _ & c & i & sm & Hp & Hv) Hp'. rewrite Hp in Hp'. injection Hp' as -> ->. by exists sm. Qed.

Lemma efi_main_runs m v p s : state_is fw_view m v p s -> runs (efi_main io image (Some st)) s (main_post v p).
Proof.
  intros Hs. assert (Hd : dom p = v_buffers v) by apply Hs. unfold efi_main. apply runs_message. rewrite Hbs.
  eapply runs_call; [apply (load_files_runs io st bs fw_view Hbs image need m v p); exact Hs|].
  intros [status [[[[cfg buf] size] loaded]|]] s1 H1; cbn [loaded_post] in H1.
  2: { destruct H1 as (E1 & _ & Hplan). rewrite E1. apply runs_message, runs_ret. split; [done|].
       intros (Hr & _ & _ & c & i & sm & Hp & _). specialize (Hplan Hr). congruence. }
  destruct H1 as (E1 & (li & -> & Hli) & Hcfg & Hcok & img & slot & Himg & Hplan & -> & Hb & Hz & Hbuf & Hnone & c & _ & var & _ & _ & S1). rewrite E1.
  apply runs_lift. destruct (u64 (ImageBase li + ImageSize li) >? 0x100000000) eqn:Elow.
  { apply runs_message, runs_ret. split; [done|]. intros (_ & _ & Hlow & _). specialize (Hlow li Hli). lia. }
  set (v1 := set_variable var v). set (v1b := set_buffers ({[buf]} ∪ v_buffers v1) v1).
  eapply runs_call; [apply (load_elf_runs io bs _ fw_view image sp img buf Hb Hz Hbuf m v1b (<[buf := img]> p)); [apply lookup_insert_eq|exact S1]|].
  intros [[st2 sm] kp] s2 [L2 H2]. change (pages_left sp v1b) with (pages_left sp v) in L2.
  change (pages_left sp (more_pages kp (page_count sm) v1b)) with (pages_left sp (more_pages kp (page_count sm) v1)) in L2.
  assert (Hready : uefi_bootable v -> EFI_ERROR st2 = false /\ exists sm',
    josh_elf64_validate (Some img) (zlen img) (Some blank_summary) = Some (JOSH_ELF64_OK, Some sm') /\
    page_count sm' + loader_pages <= pages_left sp v /\ pages_left sp v - page_count sm <= pages_left sp (more_pages kp (page_count sm) v1)).
  { intros Hboot. destruct (bootable_plan v cfg img Hboot) as (sm' & Hv' & Ha' & Hl'); [apply Hplan, Hboot|].
    assert (0 <= loader_pages) by (destruct Hboot as (_ & Hr & _); pose proof (wil_sizes _ _ _ _ Hr) as (? & Hd2 & ?); unfold loader_pages, map_pages, sizeof_EFI_MEMORY_DESCRIPTOR in *; zdm).
    destruct (L2 sm' (proj1 (proj2 Hboot)) Hv' Ha' ltac:(lia)) as [? ?]. split; [done|]. by exists sm'. }
  destruct (EFI_ERROR st2) eqn:E2.
  - eapply runs_call; [by apply (free_pool_runs io bs _ fw_view (fun _ => 0) m v1 p buf img)|]. intros [] s3 _. apply runs_message, runs_ret.
    split; [done|]. intros Hboot. by destruct (Hready Hboot).
  - destruct H2 as (Hval & Hacc & Hr & segs & m2 & Hsegs & Hker & _ & S2). pose proof Hr as (H0 & Hal & Hle & _).
    eapply runs_call; [by apply (free_pool_runs io bs _ fw_view (fun _ => 0) m2 (more_pages kp (page_count sm) v1) p buf img)|]. intros [] s3 S3.
    eapply runs_mono; [eapply (start_kernel_runs cfg img sm segs kp m2 _ p s3); eauto with josh|].
    intros [e|root stack entry info] s4 H4.
    + destruct H4 as [He Hno]. split; [done|]. intros Hboot. destruct (Hready Hboot) as (_ & sm' & Hv' & Hl & Hl2).
      rewrite Hval in Hv'. injection Hv' as <-. apply Hno. split; [apply Hboot|lia].
    + destruct H4 as (-> & Hp & Hho). exists cfg, slot, img, sm, segs, kp.
      split_and!; try done. intros Hmin. by eapply handed_over_visible.
Qed.
End Whole.

(** C3: The UEFI boot, end to end. On any firmware that honours the contract, and whatever service fails
    at whatever call, [efi_main] ends without undefined behaviour: it returns an error status to the
    firmware, or it jumps. When it jumps, the kernel is the valid image of a slot of the configuration on
    the volume and the entry point is the one in its header; the page tables at [root] map the first
    4 GiB to themselves, the kernel's pages to where they are and nothing else; every segment is in place
    with its file bytes and zeros behind them, and a kernel that starts on a page boundary finds them at
    its own virtual addresses; the page at [info] holds the boot information, the command line and the
    loader's name with the framebuffer of the current mode; its memory map is the conversion of the very
    map whose key [ExitBootServices] accepted in the next call; the stack pointer is aligned and
    everything lies below 4 GiB; and every pool buffer has been given back. And it does jump whenever
    the services work, the plan names a kernel that suits the loader and there are pages enough. *)
Theorem efi_main_hands_over {W : Type} (io : EFI_FILE_PROTOCOL W) (st : EFI_SYSTEM_TABLE W) (bs : EFI_BOOT_SERVICES W)
    (fw_view : W -> view) `{!UefiFirmware io bs (RuntimeServices st) fw_view} (image : Z) (s : uefi W) :
  BootServices st = Some bs -> tables_ok st -> dom (uf_pool s) = v_buffers (fw_view (uf_fw s)) ->
  forall sp need, exists out s', efi_main io image (Some st) s = Some (out, s') /\
    match out with
    | ReturnedStatus e => EFI_ERROR e = true /\ ~ uefi_bootable io st bs fw_view image sp need (fw_view (uf_fw s))
    | UefiHandoff root stack entry info => exists cfg slot img sm segs kp,
        uefi_config (fw_view (uf_fw s)) = Some cfg /\
        uefi_image (fw_view (uf_fw s)) (uefi_kernel_path cfg slot) = Some img /\
        josh_elf64_validate (Some img) (zlen img) (Some blank_summary) = Some (JOSH_ELF64_OK, Some sm) /\
        accepted_segments img (zlen img) sm segs /\ entry = es_entry sm /\
        handed_over st bs image cfg img sm segs kp root stack info s' /\
        (es_virtual_min sm mod 4096 = 0 -> kernel_visible img sm segs root (uf_mem s')) /\ uf_pool s' = uf_pool s
    end.
Proof.
  intros Hbs Hst Hd sp need. apply (efi_main_runs io st bs fw_view Hbs Hst image sp need (uf_mem s) (fw_view (uf_fw s))). by split_and!.
Qed.

(** The mock machine can boot, and does. *)
Lemma mock_bootable : uefi_bootable mock_io mock_st mock_bs mock_view 1 mock_supplies (fun _ => 80) (mock_view (uf_fw (mock_start None))).
Proof.
  split; [exact mock_reliable|]. split; [exact mock_willing|]. split.
  - intros li (w & status & w' & H). cbn in H. unfold mock_handle_protocol in H. rewrite decide_True in H by done.
    injection H as _ <- _. vm_compute. discriminate.
  - exists example_config, example_image, example_summary. split; [vm_compute; reflexivity|]. split; [exact example_validates|].
    split; [vm_compute; split_and!; (reflexivity || discriminate)|vm_compute; discriminate].
Qed.

Lemma efi_main_hands_over_witness :
  exists root stack entry info s', efi_main mock_io 1 (Some mock_st) (mock_start None) = Some (UefiHandoff root stack entry info, s') /\
    translate (uf_mem s') root 0x1234 = Some 0x1234 /\ stack mod 16 = 0 /\ uf_pool s' = ∅.
Proof.
  assert (Ht : tables_ok mock_st) by (split; [reflexivity|repeat constructor]).
  destruct (efi_main_hands_over mock_io mock_st mock_bs mock_view 1 (mock_start None) eq_refl Ht eq_refl mock_supplies (fun _ => 80))
    as (out & s' & H & Hout).
  destruct out as [e|root stack entry info]; [destruct Hout as [_ Hno]; destruct (Hno mock_bootable)|].
  destruct Hout as (cfg & slot & img & sm & segs & kp & _ & _ & _ & _ & _ & Hho & _ & Hp).
  exists root, stack, entry, info, s'. split; [exact H|]. destruct Hho as [Hm _ _ Hlow].
  split; [rewrite Hm by (unfold in_u64; lia); reflexivity|]. split; [apply Hlow|exact Hp].
Defined.

(** The run of the mock machine: the messages in order, and the entry point of the previous kernel. *)
Example mock_boots :
  option_map (fun r => (fst r, uf_serial (snd r))) (efi_main mock_io 1 (Some mock_st) (mock_start None)) =
  Some (UefiHandoff 0x103000 0x136ff0 0xffffffff80001000 0x102000,
        ["JOSHUEFI_ENTRY_OK"; "JOSHUEFI_CONFIG_OK"; "JOSHUEFI_HEALTH_PERSISTED"; "JOSHUEFI_HEALTH_INITIALIZED";
         "JOSHUEFI_SLOT_CURRENT"; "JOSHUEFI_HEALTH_PERSISTED"; "JOSHUEFI_FALLBACK_PREVIOUS"; "JOSHUEFI_SLOT_PREVIOUS";
         "JOSHUEFI_KERNEL_FILE_LOADED"; "JOSHUEFI_ELF64_LOADED"; "JOSHUEFI_GOP_OK"; "JOSHUEFI_MEMORY_MAP_OK";
         "JOSHUEFI_EXIT_BOOT_SERVICES_OK"; "JOSHUEFI_HANDOFF_READY"]%string).
Proof. vm_compute. reflexivity. Qed.
