(* ===== verification/Boots.v ===== *)
(** * Boots in a row

    One boot of either loader changes nothing but the health record, so that a
    sequence of boots is a sequence of steps of the record over a fixed set of
    kernels.  The class [BootLoader] says what a loader promises about one boot
    in terms of the step [boot_step] of Slots; the theorems about sequences are
    proved from it, and the two loaders are its instances: the BIOS loader on a
    disk in working order with a record area, the UEFI loader on firmware whose
    services work. *)
From stdpp Require Import gmap.
From S2P Require Import Prelude Prog Block Partition Fat32 Config Health Slots Memory Elf64 KernelLoad Stage2Health Stage2Boot Efi EfiMock UefiLoad.

(** ** What is installed: a configuration and the kernel of each slot *)
Record system := {
  sys_config : josh_boot_config_t;
  sys_image : Z -> option (list Z)
}.

Definition sys_usable (sys : system) (slot : Z) : bool :=
  match sys_image sys slot with Some _ => true | None => false end.

(** One boot: the kernel that is started, if any, and the record that is left. *)
Definition sys_step (sys : system) (r : josh_boot_health_record_t) : option (list Z) * josh_boot_health_record_t :=
  let '(slot, r') := boot_step (sys_usable sys) (sys_config sys) r in
  (match slot with Some slot => sys_image sys slot | None => None end, r').

Fixpoint sys_boots (sys : system) (n : nat) (r : josh_boot_health_record_t)
    : list (option (list Z)) * josh_boot_health_record_t :=
  match n with
  | O => ([], r)
  | S n' =>
      let '(out, r1) := sys_step sys r in
      let '(outs, r2) := sys_boots sys n' r1 in
      (out :: outs, r2)
  end.

(** ** The record across steps *)
Lemma fallback_record_facts r slot :
  josh_boot_health_valid (Some r) = true -> record_ok r -> slot = JOSH_BOOT_SLOT_PREVIOUS \/ slot = JOSH_BOOT_SLOT_RECOVERY ->
  hr_generation r + 1 < 2 ^ 64 ->
  let h := fallback_record r slot in
  josh_boot_health_valid (Some h) = true /\ record_ok h /\ hr_generation h = hr_generation r + 1 /\
  hr_pending_good h = 0 /\ hr_selected_slot h = slot.
Proof.
  intros Hv Hr Hs Hg. destruct (select_fallback_valid r slot Hv Hs) as (h & Hf & Hvh & Hok & Hgen).
  unfold fallback_record. rewrite Hf. cbn [snd default from_option id]. split; [done|]. split; [auto|].
  destruct Hr as (_ & _ & _ & Hgr & _). split; [rewrite Hgen; apply u64_id; unfold in_u64 in *; lia|].
  unfold josh_boot_health_select_fallback in Hf. destruct (_ || _); [done|]. by injection Hf as <-.
Qed.

(** The slots after the first one of a chain are the previous and the recovery slot, at most one of each. *)
Lemma chain_tail config slot :
  exists rest, fallback_chain config slot = slot :: rest /\ (length rest <= 2)%nat /\
    Forall (fun x => x = JOSH_BOOT_SLOT_PREVIOUS \/ x = JOSH_BOOT_SLOT_RECOVERY) rest.
Proof.
  unfold fallback_chain. eexists. split; [reflexivity|].
  repeat case_match; (split; [cbn; lia|]); repeat (apply Forall_nil_2 || apply Forall_cons_2); auto.
Qed.

(** A walk leaves a valid record; when it left the first slot, that record selects the slot it stopped at. *)
Lemma settle_facts usable rest : forall h slot,
  josh_boot_health_valid (Some h) = true -> record_ok h -> hr_generation h + zlen rest < 2 ^ 64 ->
  Forall (fun x => x = JOSH_BOOT_SLOT_PREVIOUS \/ x = JOSH_BOOT_SLOT_RECOVERY) rest ->
  let '(o, h') := settle usable h (slot :: rest) in
  josh_boot_health_valid (Some h') = true /\ record_ok h' /\ hr_generation h' <= hr_generation h + zlen rest /\
  ((h' = h /\ (usable slot = true /\ o = Some slot \/ usable slot = false /\ o = None /\ rest = [])) \/
   (usable slot = false /\ hr_pending_good h' = 0 /\ match o with Some s => hr_selected_slot h' = s /\ usable s = true | None => True end)).
Proof.
  induction rest as [|next rest IH]; intros h slot Hv Hr Hg Hall.
  - cbn [settle]. unfold zlen in *. cbn in *. destruct (usable slot) eqn:E; split_and!; try done; try lia; left; naive_solver.
  - remember (next :: rest) as tl eqn:Et. cbn [settle]. destruct (usable slot) eqn:E; [split_and!; try done; unfold zlen in *; [lia|left; naive_solver]|].
    subst tl. pose proof (Forall_inv Hall) as Hn. apply Forall_inv_tail in Hall.
    assert (Hz : zlen (next :: rest) = zlen rest + 1) by (unfold zlen; cbn [length]; lia). rewrite Hz in *.
    assert (0 <= zlen rest) by (unfold zlen; lia).
    destruct (fallback_record_facts h next Hv Hr Hn ltac:(lia)) as (Hv1 & Hr1 & Hg1 & Hp1 & Hs1).
    specialize (IH (fallback_record h next) next Hv1 Hr1 ltac:(lia) Hall).
    destruct (settle usable (fallback_record h next) (next :: rest)) as [o h'].
    destruct IH as (Hv' & Hr' & Hg' & Hcase). split_and!; try done; [lia|]. right. split; [done|].
    destruct Hcase as [[-> [[Hu ->]|(_ & -> & _)]]|(_ & Hp' & Ho)]; done.
Qed.

Lemma attempt_facts r :
  josh_boot_health_valid (Some r) = true -> record_ok r -> hr_generation r + 1 < 2 ^ 64 ->
  exists slot h, josh_boot_health_prepare_attempt (Some r) JOSH_BOOT_HEALTH_MAX_ATTEMPTS = (slot, Some h) /\
    josh_boot_health_valid (Some h) = true /\ record_ok h /\ hr_generation h <= hr_generation r + 1.
Proof.
  intros Hv Hr Hg. destruct (prepare_attempt_valid r Hv Hr) as (slot & h & Hprep & Hvh & Hrh & _ & _ & Hnext).
  exists slot, h. split_and!; try done. destruct (Z.eq_dec (hr_generation h) (hr_generation r)) as [|Hne]; [lia|].
  rewrite (Hnext Hne). destruct Hr as (_ & _ & _ & Hgr & _). rewrite u64_id by (unfold in_u64 in *; lia). lia.
Qed.

(** One boot keeps the record valid and counts its generation up by at most three. *)
Lemma boot_step_facts usable config r :
  josh_boot_health_valid (Some r) = true -> record_ok r -> hr_generation r + 3 < 2 ^ 64 ->
  let '(_, r') := boot_step usable config r in
  josh_boot_health_valid (Some r') = true /\ record_ok r' /\ hr_generation r' <= hr_generation r + 3.
Proof.
  intros Hv Hr Hg. destruct (attempt_facts r Hv Hr ltac:(lia)) as (slot & h & Hprep & Hvh & Hrh & Hgh).
  unfold boot_step. rewrite Hprep. cbn [default from_option id].
  destruct (chain_tail config slot) as (rest & -> & Hl & Hall).
  pose proof (settle_facts usable rest h slot Hvh Hrh ltac:(unfold zlen; lia) Hall) as H.
  destruct (settle usable h (slot :: rest)) as [o r']. destruct H as (? & ? & Hg' & _). split_and!; try done. unfold zlen in Hg'. lia.
Qed.

(** A usable slot is booted, and the record is the one the attempt left. *)
Lemma sys_step_usable sys r slot h img :
  josh_boot_health_prepare_attempt (Some r) JOSH_BOOT_HEALTH_MAX_ATTEMPTS = (slot, Some h) -> sys_image sys slot = Some img ->
  sys_step sys r = (Some img, h).
Proof.
  intros Hp Hi. unfold sys_step, boot_step. rewrite Hp. unfold fallback_chain. cbn [settle default from_option id].
  unfold sys_usable. rewrite Hi. by rewrite Hi.
Qed.

(** Boots whose slots are all usable are the boots of the record alone. *)
Lemma sys_boots_usable sys n : forall r slots r',
  boots n (Some r) JOSH_BOOT_HEALTH_MAX_ATTEMPTS = (slots, Some r') -> Forall (fun s => is_Some (sys_image sys s)) slots ->
  sys_boots sys n r = (sys_image sys <$> slots, r').
Proof.
  induction n as [|n IH]; intros r slots r' Hb Hall; cbn [boots sys_boots] in *; [by injection Hb as <- <-|].
  destruct (josh_boot_health_prepare_attempt (Some r) JOSH_BOOT_HEALTH_MAX_ATTEMPTS) as [slot h] eqn:Ep.
  destruct h as [h|]; [|unfold josh_boot_health_prepare_attempt in Ep; repeat (destruct (_ : bool); try discriminate Ep)].
  destruct (boots n (Some h) JOSH_BOOT_HEALTH_MAX_ATTEMPTS) as [rest final] eqn:Eb. injection Hb as <- ->.
  apply Forall_cons in Hall as [[img Hi] Hall]. rewrite (sys_step_usable sys r slot h img Ep Hi), (IH h rest r' Eb Hall).
  cbn. by rewrite Hi.
Qed.

Lemma sys_boots_app sys n k : forall r, sys_boots sys (n + k) r =
  let '(outs, r1) := sys_boots sys n r in let '(outs', r2) := sys_boots sys k r1 in (outs ++ outs', r2).
Proof.
  induction n as [|n IH]; intros r; cbn [sys_boots Nat.add]; [by destruct (sys_boots sys k r)|].
  destruct (sys_step sys r) as [o r1]. rewrite IH. destruct (sys_boots sys n r1) as [outs r2]. by destruct (sys_boots sys k r2).
Qed.

(** Nothing on trial and the selected kernel in place: every boot starts it. *)
Lemma sys_boots_stable sys k r img :
  josh_boot_health_valid (Some r) = true -> hr_pending_good r = 0 -> sys_image sys (hr_selected_slot r) = Some img ->
  sys_boots sys k r = (replicate k (Some img), r).
Proof.
  intros Hv Hp Hi. rewrite (sys_boots_usable sys k r (replicate k (hr_selected_slot r)) r).
  - by rewrite fmap_replicate, Hi.
  - by apply boots_stable.
  - apply Forall_replicate. by exists img.
Qed.

(** ** What a loader promises about one boot *)

(** [boot p out p']: started with the persistent state [p], the loader hands the kernel [out] over (or
    fails) and leaves [p'].  [stands_for p sys r]: the state has the system [sys] and holds the record [r]. *)
Class BootLoader {P : Type} (boot : P -> option (list Z) -> P -> Prop)
    (stands_for : P -> system -> josh_boot_health_record_t -> Prop) : Prop := {
  loader_record : forall p sys r, stands_for p sys r -> josh_boot_health_valid (Some r) = true /\ record_ok r;
  loader_returns : forall p sys r, stands_for p sys r -> exists out p', boot p out p';
  loader_steps : forall p sys r out p', stands_for p sys r -> hr_generation r + 3 < 2 ^ 64 -> boot p out p' ->
    out = fst (sys_step sys r) /\ stands_for p' sys (snd (sys_step sys r))
}.

(** [n] boots in a row and the kernels they start. *)
Inductive boots_in_a_row {P : Type} (boot : P -> option (list Z) -> P -> Prop) : P -> list (option (list Z)) -> P -> Prop :=
| no_boots p : boots_in_a_row boot p [] p
| one_more p out p1 outs p2 : boot p out p1 -> boots_in_a_row boot p1 outs p2 -> boots_in_a_row boot p (out :: outs) p2.

Section Sequences.
Context {P : Type} (boot : P -> option (list Z) -> P -> Prop) (stands_for : P -> system -> josh_boot_health_record_t -> Prop).
Context `{!BootLoader boot stands_for} (sys : system).

Lemma step_generation p r :
  stands_for p sys r -> hr_generation r + 3 < 2 ^ 64 -> hr_generation (snd (sys_step sys r)) <= hr_generation r + 3.
Proof.
  intros Hs Hg. destruct (loader_record _ _ _ Hs) as [Hv Hr]. unfold sys_step.
  pose proof (boot_step_facts (sys_usable sys) (sys_config sys) r Hv Hr Hg) as H.
  destruct (boot_step _ _ r) as [slot r']. by destruct H as (_ & _ & ?).
Qed.

Lemma boots_follow n : forall p r,
  stands_for p sys r -> hr_generation r + 3 * Z.of_nat n < 2 ^ 64 ->
  (exists outs p', length outs = n /\ boots_in_a_row boot p outs p') /\
  (forall outs p', length outs = n -> boots_in_a_row boot p outs p' ->
     outs = fst (sys_boots sys n r) /\ stands_for p' sys (snd (sys_boots sys n r))).
Proof.
  induction n as [|n IH]; intros p r Hs Hg.
  { split; [by exists [], p; split; [|constructor]|]. intros outs p' Hl Hb. destruct Hb; [done|discriminate Hl]. }
  assert (Hg3 : hr_generation r + 3 < 2 ^ 64) by lia. pose proof (step_generation p r Hs Hg3) as Hle.
  destruct (loader_returns p sys r Hs) as (out & p1 & Hb1).
  assert (Hnext : forall out p1, boot p out p1 -> out = fst (sys_step sys r) /\ stands_for p1 sys (snd (sys_step sys r)))
    by (intros o q Hq; by apply (loader_steps p sys r)).
  cbn [sys_boots]. destruct (sys_step sys r) as [o r1]. cbn [fst snd] in *. split.
  - destruct (Hnext _ _ Hb1) as [_ Hs1]. destruct (IH p1 r1 Hs1 ltac:(lia)) as [(outs & p' & Hl & Hb) _].
    exists (out :: outs), p'. split; [cbn; lia|]. by econstructor.
  - intros outs p' Hl Hb. destruct Hb as [|p o' p2 outs p' Hb2 Hb]; [discriminate Hl|].
    destruct (Hnext _ _ Hb2) as [-> Hs2]. destruct (IH p2 r1 Hs2 ltac:(lia)) as [_ Hall].
    destruct (Hall outs p' ltac:(cbn in Hl; lia) Hb) as [-> Hs']. by destruct (sys_boots sys n r1).
Qed.

(** The record of a trial after all its attempts and the boots that follow. *)
Lemma trial_boots r trial good n k :
  josh_boot_health_valid (Some r) = true -> record_ok r -> hr_pending_good r = 1 ->
  hr_attempt_count r + Z.of_nat n = JOSH_BOOT_HEALTH_MAX_ATTEMPTS ->
  sys_image sys (hr_selected_slot r) = Some trial -> sys_image sys (rollback_slot r) = Some good ->
  exists r', sys_boots sys (n + S k) r = (replicate n (Some trial) ++ replicate (S k) (Some good), r') /\
    hr_pending_good r' = 0 /\ hr_selected_slot r' = rollback_slot r /\ hr_last_failure_stage r' = JOSH_BOOT_FAILURE_KERNEL.
Proof.
  intros Hv Hr Hp Hn Ht Hgood.
  destruct (boots_trial n r JOSH_BOOT_HEALTH_MAX_ATTEMPTS Hv Hr Hp ltac:(unfold in_u32, JOSH_BOOT_HEALTH_MAX_ATTEMPTS; lia) Hn)
    as (r' & Hb & Hv' & Hp' & Hs' & _ & Hf').
  exists r'. split_and!; try done. replace (n + S k)%nat with (S n + k)%nat by lia. rewrite sys_boots_app.
  rewrite (sys_boots_usable sys (S n) r _ r' Hb).
  - rewrite (sys_boots_stable sys k r' good); [|done|done|by rewrite Hs'].
    rewrite fmap_app, fmap_replicate, Ht. cbn. rewrite Hgood, <- app_assoc. done.
  - apply Forall_app. split; [apply Forall_replicate|apply Forall_singleton]; rewrite ?Ht, ?Hgood; by eexists.
Qed.

(** A boot that finds no kernel in the slot it starts with keeps the one it falls back to. *)
Lemma fallback_boots r slot h img k :
  josh_boot_health_valid (Some r) = true -> record_ok r -> hr_generation r + 3 < 2 ^ 64 ->
  josh_boot_health_prepare_attempt (Some r) JOSH_BOOT_HEALTH_MAX_ATTEMPTS = (slot, Some h) ->
  sys_image sys slot = None -> fst (sys_step sys r) = Some img ->
  fst (sys_boots sys (S k) r) = replicate (S k) (Some img).
Proof.
  intros Hv Hr Hg Hprep Hnone Hout. destruct (attempt_facts r Hv Hr ltac:(lia)) as (slot' & h' & Hp & Hvh & Hrh & Hgh).
  rewrite Hprep in Hp. injection Hp as <- <-.
  unfold sys_step, boot_step in Hout. cbn [sys_boots]. unfold sys_step, boot_step. rewrite Hprep in *. cbn [default from_option id] in *.
  destruct (chain_tail (sys_config sys) slot) as (rest & Hc & Hl & Hall). rewrite Hc in *.
  pose proof (settle_facts (sys_usable sys) rest h slot Hvh Hrh ltac:(unfold zlen; lia) Hall) as H.
  destruct (settle (sys_usable sys) h (slot :: rest)) as [o r1]. cbn [fst] in Hout.
  destruct o as [s|]; [|done]. assert (Hu : sys_usable sys slot = false) by (unfold sys_usable; by rewrite Hnone).
  destruct H as (Hv1 & _ & _ & [[_ [[Hu' _]|(_ & ? & _)]]|(_ & Hp1 & Hs1 & _)]); [congruence|done|].
  rewrite (sys_boots_stable sys k r1 img Hv1 Hp1) by (by rewrite Hs1). cbn [fst replicate]. by rewrite Hout.
Qed.
End Sequences.

(** ** The BIOS loader

    A boot starts with the disk as it was left and with any contents of memory. *)
Section Bios.
Context {W : Type} (b : bios W) `{!BiosDisk b}.

Definition power_on (w : W) (m : mem) : machine W :=
  {| mc_disk := w; mc_mem := m; mc_serial := []; mc_persistent := false |}.

Definition bios_boot (w : W) (out : option (list Z)) (w' : W) : Prop :=
  exists m r s', mem_ok m /\ load_kernel_file b (power_on w m) = Some (r, s') /\ w' = mc_disk s' /\
    out = match r with Some (n, _) => Some (staged (mc_mem s') n) | None => None end.

(** A disk with a boot volume clear of the record sectors, whose record is [r]. *)
Definition bios_stands (w : W) (sys : system) (r : josh_boot_health_record_t) : Prop :=
  consistent b w r /\
  exists fs, boot_volume b w = Some (true, fs) /\ config_of fs = Some (sys_config sys) /\
    forall slot, kernel_image fs (kernel_path_for_slot (sys_config sys) slot) = sys_image sys slot.

Lemma config_of_ok (w : W) safe fs config : boot_volume b w = Some (safe, fs) -> config_of fs = Some config -> config_ok config.
Proof.
  intros Hbv Hc. destruct (boot_volume_ok b _ _ _ Hbv) as (Hok & Hdev & _).
  destruct (read_config_run b fs (power_on w (fun _ => 0))) as (l & _ & Hcok); cbn [mc_disk power_on] in *; rewrite (now_self b _ _ Hdev) in *; [done|].
  by apply Hcok.
Qed.

(** One boot of the plan is one step of the system. *)
Lemma bios_plan_step w sys r :
  bios_stands w sys r -> boot_plan b w = option_map (pair (sys_config sys)) (fst (sys_step sys r)).
Proof.
  intros [Hcons (fs & Hbv & Hc & Himg)]. unfold boot_plan, sys_step, boot_step, boot_slot, start_record.
  rewrite Hbv, Hc, (proj1 Hcons). cbn [default from_option id].
  destruct (josh_boot_health_prepare_attempt (Some r) _) as [slot h]. cbn [fst].
  rewrite (first_image_settles fs _ _ (default r h)).
  rewrite (settle_ext (sys_usable sys) (usable fs (sys_config sys))) by (intros x; unfold usable, sys_usable; by rewrite Himg).
  destruct (settle _ _ _) as [[s|] r']; cbn [fst option_map]; [|done]. rewrite Himg. by destruct (sys_image sys s).
Qed.

Lemma bios_boot_returns w : exists out w', bios_boot w out w'.
Proof.
  assert (Hm : mem_ok (fun _ => 0)) by (intros a; unfold in_u8; lia).
  destruct (load_kernel_file_run b (power_on w (fun _ => 0)) Hm) as (res & s' & Hrun & _).
  by eexists _, _, _, res, s'.
Qed.

(** What is on the volume does not depend on the record sectors. *)
Lemma bios_stands_same w w' sys r r' :
  bios_stands w sys r -> same_outside b w w' -> consistent b w' r' -> bios_stands w' sys r'.
Proof.
  intros [_ (fs & Hbv & Hc & Himg)] Hso Hc'. split; [done|].
  destruct (boot_volume_same b w w' fs Hbv Hso) as (Hbv' & Hok' & Hsame).
  destruct (boot_volume_ok b _ _ _ Hbv) as (Hok & _ & _). exists (now b w' fs). split; [done|].
  unfold now in *. split; [by rewrite (config_of_same b)|]. intros slot. rewrite kernel_image_same, Himg; try done.
  apply paths_ok_slot, config_ok_paths. exact (config_of_ok w true fs _ Hbv Hc).
Qed.

(** What one boot does: it starts the kernel of the step and leaves the volume, and the record it leaves
    depends on how well the disk writes. *)
Lemma bios_boot_effect w sys r out w' :
  bios_stands w sys r -> hr_generation r + 3 < 2 ^ 64 -> bios_boot w out w' ->
  out = fst (sys_step sys r) /\ (forall r', consistent b w' r' -> bios_stands w' sys r') /\
  (writes_work b -> consistent b w' (snd (sys_step sys r))) /\
  (torn_write_detected b -> exists r', consistent b w' r' /\ record_after r r' /\ hr_generation r' <= hr_generation r + 3).
Proof.
  intros Hs Hg (m & res & s' & Hm & Hrun & -> & ->).
  destruct (load_kernel_file_run b (power_on w m) Hm) as (res2 & s2 & Hrun2 & Hplan & (Hso & _) & Hkeep & Hstep).
  rewrite Hrun in Hrun2. injection Hrun2 as <- <-. cbn [mc_disk power_on] in *. rewrite (bios_plan_step w sys r Hs) in Hplan.
  destruct Hs as [Hcons (fs & Hbv & Hc & Himg)]. split_and!.
  - destruct (fst (sys_step sys r)) as [img|]; cbn in Hplan; [destruct Hplan as (-> & Hst & _); by f_equal|by subst].
  - intros r' Hc'. by apply (bios_stands_same w (mc_disk s') sys r r' (conj Hcons (ex_intro _ fs (conj Hbv (conj Hc Himg))))).
  - intros Hww. pose proof (Hstep Hww fs (sys_config sys) r Hbv Hc Hcons Hg) as Hc'. unfold sys_step, boot_step in *.
    destruct (josh_boot_health_prepare_attempt (Some r) _) as [slot h].
    rewrite (settle_ext (sys_usable sys) (usable fs (sys_config sys))) by (intros x; unfold usable, sys_usable; by rewrite Himg).
    revert Hc'. by destruct (settle (usable fs (sys_config sys)) (default r h) _) as [o r'].
  - intros Ht. by apply Hkeep.
Qed.

Lemma bios_loader : writes_work b -> BootLoader bios_boot bios_stands.
Proof.
  intros Hww. split.
  - intros w sys r [[Hcur _] _]. by apply (current_valid b w).
  - intros w sys r _. apply bios_boot_returns.
  - intros w sys r out w' Hs Hg Hb. destruct (bios_boot_effect w sys r out w' Hs Hg Hb) as (Hout & Hst & Hnext & _). auto.
Qed.

(** Boots whose writes may fail: each starts the kernel its record asks for, and the next one may find
    that record, or the one after counting the attempt and some of the fallbacks. *)
Inductive interrupted_boots (sys : system)
    : josh_boot_health_record_t -> list (option (list Z)) -> josh_boot_health_record_t -> Prop :=
| interrupted_done r : interrupted_boots sys r [] r
| interrupted_more r r1 outs r2 : record_after r r1 -> interrupted_boots sys r1 outs r2 ->
    interrupted_boots sys r (fst (sys_step sys r) :: outs) r2.

Lemma bios_boots_exist n : forall w, exists outs w', length outs = n /\ boots_in_a_row bios_boot w outs w'.
Proof.
  induction n as [|n IH]; intros w; [by exists [], w; split; [|constructor]|].
  destruct (bios_boot_returns w) as (out & w1 & Hb). destruct (IH w1) as (outs & w' & Hl & Hbs).
  exists (out :: outs), w'. split; [cbn; lia|]. by econstructor.
Qed.

Lemma bios_boots_interrupted (Ht : torn_write_detected b) sys outs : forall w r w',
  bios_stands w sys r -> hr_generation r + 3 * zlen outs < 2 ^ 64 -> boots_in_a_row bios_boot w outs w' ->
  exists r', bios_stands w' sys r' /\ interrupted_boots sys r outs r'.
Proof.
  induction outs as [|out outs IH]; intros w r w' Hs Hg Hb; inversion Hb; subst; [by exists r; split; [|constructor]|].
  assert (Hz : zlen (out :: outs) = zlen outs + 1) by (unfold zlen; cbn [length]; lia). rewrite Hz in Hg.
  assert (0 <= zlen outs) by (unfold zlen; lia).
  destruct (bios_boot_effect w sys r out p1 Hs ltac:(lia) ltac:(done)) as (-> & Hst & _ & Hkeep).
  destruct (Hkeep Ht) as (r1 & Hc1 & Ha & Hle). destruct (IH p1 r1 w' (Hst r1 Hc1) ltac:(lia) ltac:(done)) as (r' & Hs' & Hi).
  exists r'. split; [done|]. by econstructor.
Qed.
End Bios.

(** ** The UEFI loader

    A boot starts with the firmware as the power cycle [restart] left it. *)
Section Uefi.
Context {W : Type} (io : EFI_FILE_PROTOCOL W) (st : EFI_SYSTEM_TABLE W) (bs : EFI_BOOT_SERVICES W) (fw_view : W -> view).
Context `{!UefiFirmware io bs (RuntimeServices st) fw_view} (image : Z) (restart : W -> W).

(** A power cycle keeps the volume and the non-volatile variable and releases the memory pool. *)
Definition restarts : Prop := forall w,
  v_buffers (fw_view (restart w)) = ∅ /\ v_contents (fw_view (restart w)) = v_contents (fw_view w) /\
  v_variable (fw_view (restart w)) = v_variable (fw_view w).

Definition uefi_boot (w : W) (out : option (list Z)) (w' : W) : Prop :=
  exists m status res s',
    load_files io image st {| uf_fw := w; uf_mem := m; uf_pool := ∅; uf_serial := [] |} = Some ((status, res), s') /\
    w' = restart (uf_fw s') /\
    out = match res with Some (_, buf, _, _) => uf_pool s' !! buf | None => None end.

Definition uefi_stands (w : W) (sys : system) (r : josh_boot_health_record_t) : Prop :=
  v_buffers (fw_view w) = ∅ /\ held_record (fw_view w) = Some r /\ record_ok r /\ uefi_config (fw_view w) = Some (sys_config sys) /\
  forall slot, uefi_image (fw_view w) (uefi_kernel_path (sys_config sys) slot) = sys_image sys slot.

Lemma held_record_valid v r : held_record v = Some r -> josh_boot_health_valid (Some r) = true.
Proof.
  unfold held_record, record_in. destruct (v_variable v) as [data|]; [|done]. destruct (_ =? _); [|done].
  destruct (record_of_bytes data) as [r'|]; [|done]. destruct (josh_boot_health_valid (Some r')) eqn:E; [|done]. by intros [= <-].
Qed.

Lemma uefi_first_image_settles v cfg slots : forall h,
  uefi_first_image v cfg slots =
    match fst (settle (uefi_usable v cfg) h slots) with
    | Some slot => uefi_image v (uefi_kernel_path cfg slot)
    | None => None
    end.
Proof.
  induction slots as [|slot [|next rest] IH]; intros h; [done|..]; cbn [uefi_first_image settle] in *; unfold uefi_usable at 1;
    destruct (uefi_image v (uefi_kernel_path cfg slot)) eqn:E; cbn [fst]; rewrite ?E; try done; apply IH.
Qed.

Lemma uefi_plan_step w sys r :
  uefi_stands w sys r ->
  uefi_plan (fw_view w) = option_map (pair (sys_config sys)) (fst (sys_step sys r)) /\
  uefi_record_after (fw_view w) = Some (snd (sys_step sys r)).
Proof.
  intros (_ & Hh & _ & Hc & Himg). unfold uefi_plan, uefi_record_after, sys_step, boot_step, uefi_boot_slot, uefi_start_record.
  rewrite Hh, Hc. cbn [default from_option id].
  destruct (josh_boot_health_prepare_attempt (Some r) _) as [slot h]. cbn [fst].
  rewrite (uefi_first_image_settles _ _ _ (default r h)).
  rewrite (settle_ext (sys_usable sys) (uefi_usable (fw_view w) (sys_config sys))) by (intros x; unfold uefi_usable, sys_usable; by rewrite Himg).
  destruct (settle _ _ _) as [[s|] r']; cbn [fst snd option_map]; [|done]. rewrite Himg. by destruct (sys_image sys s).
Qed.
(** What a boot did to the firmware, without the parts a power cycle resets. *)
Lemma uefi_boot_run need w sys r m :
  BootServices st = Some bs -> reliable io bs (RuntimeServices st) fw_view image need -> stores_work (RuntimeServices st) ->
  uefi_stands w sys r ->
  exists status res s',
    load_files io image st {| uf_fw := w; uf_mem := m; uf_pool := ∅; uf_serial := [] |} = Some ((status, res), s') /\
    match res with Some (_, buf, _, _) => uf_pool s' !! buf | None => None end = fst (sys_step sys r) /\
    v_contents (fw_view (uf_fw s')) = v_contents (fw_view w) /\ held_record (fw_view (uf_fw s')) = Some (snd (sys_step sys r)).
Proof.
  intros Hbs Hrel Hst Hs. destruct (uefi_plan_step w sys r Hs) as [Hplan Hrec].
  set (s0 := {| uf_fw := w; uf_mem := m; uf_pool := ∅; uf_serial := [] |}).
  assert (H0 : state_is fw_view m (fw_view w) ∅ s0) by (split_and!; try done; by rewrite (proj1 Hs)).
  destruct (load_files_runs io st bs fw_view Hbs image need m _ _ s0 H0) as ([status [[[[cfg buf] size] loaded]|]] & s' & H & Hpost);
    eexists _, _, s'; (split; [exact H|]).
  - destruct Hpost as (_ & _ & _ & _ & img & slot & _ & Hp & _ & _ & _ & _ & _ & c & Hc & var & _ & Hv & _ & Hview & Hpool & _).
    specialize (Hp Hrel). specialize (Hc Hrel). specialize (Hv Hst). rewrite Hplan in Hp.
    rewrite Hview, Hpool, lookup_insert_eq. split; [|split; [done|]].
    + revert Hp. destruct (fst (sys_step sys r)); [|done]. by intros [= _ ->].
    + unfold held_record. cbn. by rewrite Hv, Hc.
  - destruct Hpost as (_ & (c & Hc & var & _ & Hv & _ & Hview & _ & _) & Hp).
    specialize (Hp Hrel). specialize (Hc Hrel). specialize (Hv Hst). rewrite Hplan in Hp.
    rewrite Hview. split; [|split; [done|]].
    + revert Hp. by destruct (fst (sys_step sys r)).
    + unfold held_record. cbn. by rewrite Hv, Hc.
Qed.

Lemma uefi_loader need :
  BootServices st = Some bs -> reliable io bs (RuntimeServices st) fw_view image need -> stores_work (RuntimeServices st) ->
  restarts -> BootLoader uefi_boot uefi_stands.
Proof.
  intros Hbs Hrel Hst Hre. split.
  - intros w sys r (_ & Hh & Hr & _). split; [by eapply held_record_valid|done].
  - intros w sys r Hs. destruct (uefi_boot_run need w sys r (fun _ => 0) Hbs Hrel Hst Hs) as (status & res & s' & H & _).
    by eexists _, _, _, status, res, s'.
  - intros w sys r out w' Hs Hg (m & status & res & s' & Hrun & -> & ->).
    destruct (uefi_boot_run need w sys r m Hbs Hrel Hst Hs) as (status2 & res2 & s2 & H & Hout & Hcont & Hheld).
    rewrite Hrun in H. injection H as <- <- <-. split; [done|].
    destruct (Hre (uf_fw s')) as (Hb & Hc & Hv). destruct Hs as (_ & Hh & Hr & Hcfg & Himg).
    pose proof (boot_step_facts (sys_usable sys) (sys_config sys) r (held_record_valid _ _ Hh) Hr Hg) as Hf.
    unfold uefi_stands, held_record, uefi_config, uefi_image, file_of in *. rewrite Hb, Hc, Hv, Hcont.
    split_and!; try done. unfold sys_step. destruct (boot_step _ _ r) as [o r']. apply Hf.
Qed.
End Uefi.

(** ** Example machines *)

(** A disk in memory whose writes always work. *)
Definition steady_bios : bios (Z -> list Z) :=
  {| bios_block_read w lba n := (true, concat (map (fun l => sector_of (w l)) (seqZ lba n)));
     bios_block_write w lba n data := (true, fun l => if l =? lba then data else w l) |}.

#[export] Instance steady_bios_ok : BiosDisk steady_bios.
Proof.
  split.
  - intros w lba n ok data Hn [= <- <-].
    destruct (concat_sectors (fun l => sector_of (w l)) (seqZ lba n)) as [Hz Hb]; [intros; apply sector_of_good|].
    split; [done|]. rewrite Hz. unfold zlen. rewrite length_seqZ. lia.
  - intros w lba data ok w' [= <- <-] l n Hn Ho. cbn. do 2 f_equal. apply map_ext_in.
    intros x Hx%list_elem_of_In. apply elem_of_seqZ in Hx. by rewrite (proj2 (Z.eqb_neq x lba)) by lia.
Qed.

Lemma steady_works : writes_work steady_bios.
Proof.
  intros w lba r _ Hr Hv. eexists. split; [reflexivity|]. unfold stored. cbn [bios_block_read steady_bios].
  rewrite (seqZ_cons lba 1) by lia. change (seqZ (Z.succ lba) (Z.pred 1)) with (@nil Z). cbn [map concat].
  rewrite Z.eqb_refl, app_nil_r.
  assert (Hb : bytes (replicate 456 0)) by (apply Forall_replicate; unfold in_u8; lia).
  rewrite sector_of_id; [by rewrite record_of_record_bytes, Hv|].
  split; [unfold zlen; by rewrite length_app, length_record_bytes, length_replicate|]. apply Forall_app. split; [auto with josh|done].
Qed.

(** The example disk with an update of the previous slot on trial and a second kernel, at clusters 9 and 10, in the current slot. *)
Definition second_image : list Z := take 1023 example_image ++ [1].

Definition trial_disk : Z -> list Z := sparse (
  [(1985, record_bytes example_trial);
   (2080, put 8 (EOC ++ EOC ++ EOC ++ EOC ++ EOC ++ le_bytes 4 8 ++ EOC ++ le_bytes 4 10 ++ EOC) zero_sector);
   (2593, dirent "JOSH       " 0x10 4 0 ++ dirent "KERNEL  ELF" 0x20 9 1024 ++ dirent "OLD     ELF" 0x20 7 1024);
   (2599, take 512 second_image); (2600, drop 512 second_image)] ++ boot_disk_sectors).

Definition volume_of (w : Z -> list Z) : josh_fat32_t :=
  match boot_volume steady_bios w with Some (_, fs) => fs | None => on_device example_fs (bios_device steady_bios w) end.

Definition trial_system : system :=
  {| sys_config := example_config;
     sys_image slot := kernel_image (volume_of trial_disk) (kernel_path_for_slot example_config slot) |}.

Lemma trial_disk_stands : bios_stands steady_bios trial_disk trial_system example_trial.
Proof.
  split; [split; vm_compute; reflexivity|]. exists (volume_of trial_disk).
  assert (H : option_map fst (boot_volume steady_bios trial_disk) = Some true) by (vm_compute; reflexivity).
  split; [|split; [vm_compute; reflexivity|done]].
  unfold volume_of. destruct (boot_volume steady_bios trial_disk) as [[safe fs]|]; [|done]. by injection H as ->.
Qed.

Example trial_images : sys_image trial_system 0 = Some second_image /\ sys_image trial_system 1 = Some example_image.
Proof. split; vm_compute; reflexivity. Qed.

(** The mock firmware after a power cycle, and what it has installed. *)
Definition mock_restart (w : mock) : mock :=
  {| mk_pages := []; mk_buffers := ∅; mk_handles := ∅; mk_variable := mk_variable w |}.

Definition mock_system : system :=
  {| sys_config := example_config;
     sys_image slot := uefi_image (mock_view (uf_fw (mock_start None))) (uefi_kernel_path example_config slot) |}.

Definition mock_held : mock := uf_fw (mock_start (Some (record_bytes example_trial))).

Lemma mock_stores_work : stores_work (RuntimeServices mock_st).
Proof.
  exists mock_rs, mock_set_variable. split_and!; try done. intros attrs data w Hb. unfold mock_set_variable.
  assert (forallb (fun b => (0 <=? b) && (b <? 256)) data = true) as ->; [|done].
  apply forallb_forall. intros x Hx%list_elem_of_In. pose proof (proj1 (Forall_forall _ _) Hb x Hx) as H. unfold in_u8 in H. lia.
Qed.

Lemma mock_restarts : restarts mock_view mock_restart.
Proof. intros w. by split_and!. Qed.

Lemma example_trial_ok : record_ok example_trial.
Proof. vm_compute. repeat split; discriminate. Qed.

Lemma mock_stands : uefi_stands mock_view mock_held mock_system example_trial.
Proof.
  split; [reflexivity|]. split; [vm_compute; reflexivity|]. split; [apply example_trial_ok|].
  split; [vm_compute; reflexivity|]. intros slot. reflexivity.
Qed.

(** ** The properties of sequences of boots *)

(** C8: Boots of the BIOS loader in a row follow the record. On a disk in working order whose boot
    volume is clear of the record sectors, with any memory contents at each power on, any number of
    runs of [load_kernel_file] return; the kernels they stage and the record that is held afterwards
    are exactly those of the reference (count the attempt, then the first usable kernel of the chain,
    noting each fallback), and the installed configuration and kernels are unchanged, as long as the
    64-bit generation of the record has room, three for each boot. *)
Theorem bios_boots_follow_record {W : Type} (b : bios W) `{!BiosDisk b} (w : W) (sys : system)
    (r : josh_boot_health_record_t) (n : nat) :
  writes_work b -> bios_stands b w sys r -> hr_generation r + 3 * Z.of_nat n < 2 ^ 64 ->
  (exists outs w', length outs = n /\ boots_in_a_row (bios_boot b) w outs w') /\
  (forall outs w', length outs = n -> boots_in_a_row (bios_boot b) w outs w' ->
     outs = fst (sys_boots sys n r) /\ bios_stands b w' sys (snd (sys_boots sys n r))).
Proof. intros Hw. pose proof (bios_loader b Hw). by apply boots_follow. Qed.

Lemma bios_boots_follow_record_witness :
  exists outs w', boots_in_a_row (bios_boot steady_bios) trial_disk outs w' /\
    outs = [Some example_image; Some example_image; Some example_image; Some second_image; Some second_image].
Proof.
  destruct (bios_boots_follow_record steady_bios trial_disk trial_system example_trial 5) as [(outs & w' & Hl & H) Hall].
  - exact steady_works.
  - exact trial_disk_stands.
  - vm_compute. reflexivity.
  - exists outs, w'. split; [exact H|]. destruct (Hall outs w' Hl H) as [-> _]. vm_compute. reflexivity.
Defined.

(** C9: Boots of the UEFI loader in a row follow the record. On firmware that honours the contract,
    whose services and variable stores work and that keeps the volume and the variable over a power
    cycle, any number of runs of [load_files] return, and the kernels they load and the record the
    variable holds afterwards are exactly those of the same reference, as long as the generation of
    the record has room for three steps a boot. *)
Theorem uefi_boots_follow_record {W : Type} (io : EFI_FILE_PROTOCOL W) (st : EFI_SYSTEM_TABLE W) (bs : EFI_BOOT_SERVICES W)
    (fw_view : W -> view) `{!UefiFirmware io bs (RuntimeServices st) fw_view} (image : Z) (restart : W -> W) (need : list Z -> Z)
    (w : W) (sys : system) (r : josh_boot_health_record_t) (n : nat) :
  BootServices st = Some bs -> reliable io bs (RuntimeServices st) fw_view image need -> stores_work (RuntimeServices st) ->
  restarts fw_view restart -> uefi_stands fw_view w sys r -> hr_generation r + 3 * Z.of_nat n < 2 ^ 64 ->
  (exists outs w', length outs = n /\ boots_in_a_row (uefi_boot io st image restart) w outs w') /\
  (forall outs w', length outs = n -> boots_in_a_row (uefi_boot io st image restart) w outs w' ->
     outs = fst (sys_boots sys n r) /\ uefi_stands fw_view w' sys (snd (sys_boots sys n r))).
Proof. intros Hbs Hr Hs Hre. pose proof (uefi_loader io st bs fw_view image restart need Hbs Hr Hs Hre). by apply boots_follow. Qed.

Lemma uefi_boots_follow_record_witness :
  exists outs w', boots_in_a_row (uefi_boot mock_io mock_st 1 mock_restart) mock_held outs w' /\
    outs = [Some example_image; Some example_image; Some example_image; Some example_image].
Proof.
  destruct (uefi_boots_follow_record mock_io mock_st mock_bs mock_view 1 mock_restart (fun _ => 80) mock_held mock_system example_trial 4)
    as [(outs & w' & Hl & H) Hall].
  - reflexivity.
  - exact mock_reliable.
  - exact mock_stores_work.
  - exact mock_restarts.
  - exact mock_stands.
  - vm_compute. reflexivity.
  - exists outs, w'. split; [exact H|]. destruct (Hall outs w' Hl H) as [-> _]. vm_compute. reflexivity.
Defined.

(** C10: Boots on a disk that loses writes. The writes may fail or be cut short at any point of any of
    the boots, as long as a torn sector is not taken for a record. Then still every boot in a row
    starts the kernel that the record found at its start asks for, the volume and the kernels of the
    slots stay as installed, and the record found by the next boot is the old one or the one after
    counting the attempt and some of the recorded fallbacks: no sequence of interrupted updates leaves
    the machine without a record or with one the protocol did not produce. Boots of every number
    return, as long as the generation of the record has room for three steps a boot. *)
Theorem bios_boots_survive_write_failures {W : Type} (b : bios W) `{!BiosDisk b} (w : W) (sys : system)
    (r : josh_boot_health_record_t) (n : nat) :
  torn_write_detected b -> bios_stands b w sys r -> hr_generation r + 3 * Z.of_nat n < 2 ^ 64 ->
  (exists outs w', length outs = n /\ boots_in_a_row (bios_boot b) w outs w') /\
  (forall outs w', length outs = n -> boots_in_a_row (bios_boot b) w outs w' ->
     exists r', bios_stands b w' sys r' /\ interrupted_boots sys r outs r').
Proof.
  intros Ht Hs Hg. split; [apply bios_boots_exist; done|].
  intros outs w' Hl Hb. apply (bios_boots_interrupted b Ht sys outs w r w' Hs); [unfold zlen; lia|done].
Qed.

(** The example disk when every write fails after the first [k]. *)
Definition failing_volume (k : nat) : josh_fat32_t :=
  match boot_volume failing_bios (boot_disk k) with
  | Some (_, fs) => fs
  | None => on_device example_fs (bios_device failing_bios (boot_disk k))
  end.

Definition failing_system (k : nat) : system :=
  {| sys_config := example_config;
     sys_image slot := kernel_image (failing_volume k) (kernel_path_for_slot example_config slot) |}.

Lemma failing_stands : bios_stands failing_bios (boot_disk 1) (failing_system 1) default_record.
Proof.
  split; [apply boot_disk_consistent|]. exists (failing_volume 1).
  assert (H : option_map fst (boot_volume failing_bios (boot_disk 1)) = Some true) by (vm_compute; reflexivity).
  split; [|split; [vm_compute; reflexivity|done]].
  unfold failing_volume. destruct (boot_volume failing_bios (boot_disk 1)) as [[safe fs]|]; [|done]. by injection H as ->.
Qed.

Lemma bios_boots_survive_write_failures_witness :
  exists outs w' r', length outs = 10%nat /\ boots_in_a_row (bios_boot failing_bios) (boot_disk 1) outs w' /\
    bios_stands failing_bios w' (failing_system 1) r'.
Proof.
  destruct (bios_boots_survive_write_failures failing_bios (boot_disk 1) (failing_system 1) default_record 10) as [(outs & w' & Hl & H) Hall].
  - exact failing_torn.
  - exact failing_stands.
  - vm_compute. reflexivity.
  - destruct (Hall outs w' Hl H) as (r' & Hs & _). exists outs, w', r'. split; [exact Hl|]. split; [exact H|exact Hs].
Defined.

(** C7: An update that is never confirmed is rolled back on the machine. With either loader, when the
    held record has a slot on trial with [n] of its three attempts left and both that slot and the
    rollback slot have a valid kernel, then [n] boots start the kernel on trial and every later boot
    starts the kernel of the rollback slot; the record then has nothing on trial, selects that slot
    and reports a kernel failure. Such sequences of boots of every length exist, as long as the
    generation of the record has room for three steps a boot. *)
Theorem trial_rolls_back {P : Type} (boot : P -> option (list Z) -> P -> Prop)
    (stands_for : P -> system -> josh_boot_health_record_t -> Prop) `{!BootLoader boot stands_for}
    (p : P) (sys : system) (r : josh_boot_health_record_t) (trial good : list Z) (n k : nat) :
  stands_for p sys r -> hr_pending_good r = 1 -> hr_attempt_count r + Z.of_nat n = JOSH_BOOT_HEALTH_MAX_ATTEMPTS ->
  sys_image sys (hr_selected_slot r) = Some trial -> sys_image sys (rollback_slot r) = Some good ->
  hr_generation r + 3 * Z.of_nat (n + S k) < 2 ^ 64 ->
  (exists outs p', length outs = (n + S k)%nat /\ boots_in_a_row boot p outs p') /\
  (forall outs p', length outs = (n + S k)%nat -> boots_in_a_row boot p outs p' ->
     outs = replicate n (Some trial) ++ replicate (S k) (Some good) /\
     exists r', stands_for p' sys r' /\ hr_pending_good r' = 0 /\ hr_selected_slot r' = rollback_slot r /\
       hr_last_failure_stage r' = JOSH_BOOT_FAILURE_KERNEL).
Proof.
  intros Hs Hp Hn Ht Hgood Hg. destruct (loader_record _ _ _ Hs) as [Hv Hr].
  destruct (trial_boots sys r trial good n k Hv Hr Hp Hn Ht Hgood) as (r' & Hb & Hfacts).
  destruct (boots_follow boot stands_for sys (n + S k) p r Hs Hg) as [Hex Hall]. rewrite Hb in Hall. split; [done|].
  intros outs p' Hl Hrun. destruct (Hall outs p' Hl Hrun) as [-> Hs']. split; [done|]. by exists r'.
Qed.

Lemma trial_rolls_back_witness :
  exists outs w', boots_in_a_row (bios_boot steady_bios) trial_disk outs w' /\
    outs = replicate 3 (Some example_image) ++ replicate 5 (Some second_image).
Proof.
  pose proof (bios_loader steady_bios steady_works) as HL.
  destruct (trial_rolls_back (bios_boot steady_bios) (bios_stands steady_bios) trial_disk trial_system example_trial
    example_image second_image 3 4) as [(outs & w' & Hl & H) Hall].
  - exact trial_disk_stands.
  - reflexivity.
  - reflexivity.
  - exact (proj2 trial_images).
  - exact (proj1 trial_images).
  - vm_compute. reflexivity.
  - exists outs, w'. split; [exact H|]. exact (proj1 (Hall outs w' Hl H)).
Defined.

(** C18: A slot without a usable kernel is left for good. With either loader, when the slot a boot
    selects has no valid kernel and the chain of fallbacks ends at one that has, that boot and every
    later one start that kernel: the fallback is recorded and the broken slot is not tried again, as
    long as the generation of the record has room for three steps a boot. *)
Theorem broken_kernel_is_left {P : Type} (boot : P -> option (list Z) -> P -> Prop)
    (stands_for : P -> system -> josh_boot_health_record_t -> Prop) `{!BootLoader boot stands_for}
    (p : P) (sys : system) (r h : josh_boot_health_record_t) (slot : Z) (img : list Z) (k : nat) :
  stands_for p sys r -> hr_generation r + 3 * Z.of_nat (S k) < 2 ^ 64 ->
  josh_boot_health_prepare_attempt (Some r) JOSH_BOOT_HEALTH_MAX_ATTEMPTS = (slot, Some h) ->
  sys_image sys slot = None -> fst (sys_step sys r) = Some img ->
  (exists outs p', length outs = S k /\ boots_in_a_row boot p outs p') /\
  (forall outs p', length outs = S k -> boots_in_a_row boot p outs p' -> outs = replicate (S k) (Some img)).
Proof.
  intros Hs Hg Hprep Hnone Hout. destruct (loader_record _ _ _ Hs) as [Hv Hr].
  destruct (boots_follow boot stands_for sys (S k) p r Hs Hg) as [Hex Hall]. split; [done|].
  intros outs p' Hl Hrun. destruct (Hall outs p' Hl Hrun) as [-> _].
  apply (fallback_boots sys r slot h); try done. lia.
Qed.

Lemma default_held : uefi_stands mock_view (uf_fw (mock_start (Some (record_bytes default_record)))) mock_system default_record.
Proof.
  split; [reflexivity|]. split; [vm_compute; reflexivity|]. split; [apply default_record_ok|].
  split; [vm_compute; reflexivity|]. intros slot. reflexivity.
Qed.

Lemma broken_kernel_is_left_witness :
  exists outs w', boots_in_a_row (uefi_boot mock_io mock_st 1 mock_restart) (uf_fw (mock_start (Some (record_bytes default_record)))) outs w' /\
    outs = replicate 5 (Some example_image).
Proof.
  pose proof (uefi_loader mock_io mock_st mock_bs mock_view 1 mock_restart (fun _ => 80) eq_refl mock_reliable mock_stores_work mock_restarts) as HL.
  destruct (broken_kernel_is_left (uefi_boot mock_io mock_st 1 mock_restart) (uefi_stands mock_view)
    (uf_fw (mock_start (Some (record_bytes default_record)))) mock_system default_record default_record 0 example_image 4)
    as [(outs & w' & Hl & H) Hall].
  - exact default_held.
  - vm_compute. reflexivity.
  - vm_compute. reflexivity.
  - vm_compute. reflexivity.
  - vm_compute. reflexivity.
  - exists outs, w'. split; [exact H|]. exact (Hall outs w' Hl H).
Defined.
