(* ===== verification/Lifecycle.v ===== *)
(** * Updates from the host tool to the boots that follow

    The host tool edits the health sectors of a disk image; the BIOS loader boots
    from the disk.  Here both work on the same bytes: an event is a boot or a run
    of the tool, and any sequence of them follows the health record and the kernels
    on the volume.  What is proved of the record alone in Health then holds of
    the kernels that are started after a command. *)
From stdpp Require Import gmap.
From S2P Require Import Prelude Prog Block Partition Fat32 Config Health Slots Memory Elf64 KernelLoad Stage2Health HealthCtl Stage2Boot Boots.

(** ** The disk *)
Section Disk.
Context (size : Z).

(** A disk of [size] bytes. *)
Definition disk_bios : bios mem :=
  {| bios_block_read m lba n := bios_block_read image_bios (size, m) lba n;
     bios_block_write m lba n data :=
       let '(ok, w) := bios_block_write image_bios (size, m) lba n data in (ok, snd w) |}.

(** The image file the tool opens. *)
Definition image_at (m : mem) : image := (size, image_byte (size, m)).

Lemma image_write_size m lba n data ok w :
  bios_block_write image_bios (size, m) lba n data = (ok, w) -> w = (size, snd w).
Proof. cbn [bios_block_write image_bios]. destruct (_ <=? _); by intros [= <- <-]. Qed.

#[export] Instance disk_bios_ok : BiosDisk disk_bios.
Proof.
  split; cbn [bios_block_read bios_block_write disk_bios].
  - intros m. apply (bios_read_bytes (b := image_bios)).
  - intros m lba data ok m'. destruct (bios_block_write image_bios (size, m) lba 1 data) as [ok1 w] eqn:E. intros [= <- <-] l n Hn Ho.
    rewrite <- (image_write_size _ _ _ _ _ _ E). by apply (bios_write_frame (b := image_bios) _ _ _ _ _ E).
Qed.

Lemma image_at_byte m x : image_byte (image_at m) x = image_byte (size, m) x.
Proof. unfold image_at, image_byte. cbn [snd]. apply u8_id, u8_range. Qed.

(** The tool sees the sectors the loader sees. *)
Lemma image_at_read m lba n : bios_block_read image_bios (image_at m) lba n = bios_block_read disk_bios m lba n.
Proof.
  cbn [bios_block_read image_bios disk_bios fst image_at]. destruct (_ <=? _); [|done]. f_equal.
  apply mem_slice_ext. intros x _. apply image_at_byte.
Qed.

Lemma image_at_stored m lba : stored image_bios (image_at m) lba = stored disk_bios m lba.
Proof. unfold stored. by rewrite image_at_read. Qed.

Lemma image_at_current m : current image_bios (image_at m) = current disk_bios m.
Proof. unfold current. by rewrite !image_at_stored. Qed.

Context (Hsize : 512 * (JOSH_BOOT_HEALTH_LBA_B + 1) <= size).

Lemma image_at_records m : has_records (image_at m).
Proof. split; [intros x; apply u8_range|done]. Qed.

Lemma disk_writes_work : writes_work disk_bios.
Proof.
  intros m lba r Hl Hr Hv. assert (Hin : 512 * (lba + 1) <= size) by (unfold JOSH_BOOT_HEALTH_LBA_A, JOSH_BOOT_HEALTH_LBA_B in *; lia).
  destruct (record_sector_facts r) as [Hz Hb]. fold (record_sector_bytes r).
  eexists. cbn [bios_block_write disk_bios image_bios fst snd]. rewrite (proj2 (Z.leb_le _ _)) by done. split; [reflexivity|].
  unfold stored. cbn [bios_block_read disk_bios image_bios fst]. rewrite (proj2 (Z.leb_le _ _)) by done.
  rewrite (take_ge (record_sector_bytes r)) by (unfold zlen in Hz; lia).
  rewrite (mem_slice_ext _ (mem_put m (512 * lba) (record_sector_bytes r))).
  - rewrite mem_slice_put by (rewrite Hz; lia). unfold record_sector_bytes.
    rewrite record_of_record_bytes by (done || (apply Forall_replicate; unfold in_u8; lia)). by rewrite Hv.
  - intros x Hx. unfold image_byte. cbn [snd]. apply u8_id.
    pose proof (get8_mem_put m (512 * lba) (record_sector_bytes r) (x - 512 * lba) ltac:(lia)) as Hg.
    replace (512 * lba + (x - 512 * lba)) with x in Hg by lia. eauto with josh.
Qed.

(** ** Events *)
Inductive event :=
| PowerOn
| RunTool (command : string) (extra : list string).

(** A boot starts a kernel or none; the tool, whose library calls work here, is called with a program
    name, the command, the path of the image and the other arguments, and leaves the image for the
    next event. *)
Inductive life_step : mem -> event -> option (list Z) -> mem -> Prop :=
| life_boot m out m' : bios_boot disk_bios m out m' -> life_step m PowerOn out m'
| life_tool m program command path extra code lines w' :
    HealthCtl.main (program :: command :: path :: extra) (Some (image_at m)) [] = Some (code, lines, Some w') ->
    life_step m (RunTool command extra) None (snd w').

Inductive life_run : mem -> list event -> list (option (list Z)) -> mem -> Prop :=
| life_end m : life_run m [] [] m
| life_more m e out m1 es outs m2 : life_step m e out m1 -> life_run m1 es outs m2 -> life_run m (e :: es) (out :: outs) m2.

(** The commands that name an operation on a record: good or pending with a slot, attempt. *)
Definition event_ok (e : event) : Prop :=
  match e with
  | PowerOn => True
  | RunTool command extra => is_Some (tool_op command extra)
  end.

(** ** What events do to the record *)
Definition life_effect (sys : system) (e : event) (r : josh_boot_health_record_t) : option (list Z) * josh_boot_health_record_t :=
  match e with
  | PowerOn => sys_step sys r
  | RunTool command extra =>
      (None, match tool_op command extra with Some op => default r (apply_op (Some r) op) | None => r end)
  end.

Fixpoint life (sys : system) (es : list event) (r : josh_boot_health_record_t)
    : list (option (list Z)) * josh_boot_health_record_t :=
  match es with
  | [] => ([], r)
  | e :: es' =>
      let '(out, r1) := life_effect sys e r in
      let '(outs, r2) := life sys es' r1 in
      (out :: outs, r2)
  end.

(** An image with the sectors of the disk outside the records and a record of its own stands for both. *)
Lemma image_stands m (w : image) sys r r' :
  bios_stands disk_bios m sys r -> w = (size, snd w) -> (forall x, ~ in_records x -> snd w x = snd (image_at m) x) ->
  current image_bios w = Some r' -> stored image_bios w (copy_lba r') = Some r' -> bios_stands disk_bios (snd w) sys r'.
Proof.
  intros Hs Ew Hout Hcur Hst. apply (bios_stands_same disk_bios m (snd w) sys r r' Hs).
  - intros l n Hn Ho. change (bios_block_read disk_bios (snd w) l n) with (bios_block_read image_bios (size, snd w) l n).
    rewrite <- (image_at_read m). cbn [bios_block_read image_bios fst image_at]. destruct (_ <=? _); [|done]. f_equal.
    apply mem_slice_ext. intros x Hx. unfold image_byte. cbn [snd]. f_equal. apply Hout.
    unfold in_records, JOSH_BOOT_HEALTH_LBA_A, JOSH_BOOT_HEALTH_LBA_B in *. lia.
  - unfold consistent, current, stored in *. cbn [bios_block_read disk_bios]. by rewrite <- Ew.
Qed.

(** The tool keeps the volume and leaves the record of its operation; a refused one leaves the old record. *)
Lemma tool_step m sys r command extra op program path :
  bios_stands disk_bios m sys r -> hr_generation r + 1 < 2 ^ 64 -> tool_op command extra = Some op ->
  exists r' w' code lines, apply_op (Some r) op = Some r' /\ hr_generation r' <= hr_generation r + 1 /\
    HealthCtl.main (program :: command :: path :: extra) (Some (image_at m)) [] = Some (code, lines, Some w') /\
    bios_stands disk_bios (snd w') sys r'.
Proof.
  intros Hs Hg Hop. pose proof (image_at_records m) as Hrec. pose proof Hs as [[Hcur Hst] _].
  destruct (refused op) eqn:Eref.
  { apply refused_iff in Eref as ->. exists r, (image_at m), 1, []. split; [apply refused_keeps|]. split; [lia|].
    split; [by apply tool_refuses, Hrec|]. apply (image_stands m (image_at m) sys r r Hs); [done..| |].
    - by rewrite image_at_current.
    - by rewrite image_at_stored. }
  assert (Hne : op <> BeginUpdate JOSH_BOOT_SLOT_RECOVERY) by (intros Heq%refused_iff; congruence).
  assert (Estart : HealthCtl.start_record (image_at m) = r) by (unfold HealthCtl.start_record; by rewrite image_at_current, Hcur).
  destruct (tool_writes program command path extra op (image_at m) Hop Hne Hrec) as (r' & Hr' & Hmain & Hok0 & Hok & Hv & Hgen).
  pose proof (tool_current (image_at m) r' Hrec Hok0 Hok Hv) as Hcur'. rewrite Estart in *. specialize (Hcur' Hg Hgen).
  exists r', (written (image_at m) (copy_lba r') r'), 0, (show_lines r'). split; [done|]. split.
  { destruct Hgen as [->| ->]; [lia|]. destruct Hok0 as (_ & _ & _ & Hgr & _). rewrite u64_id by (unfold in_u64 in *; lia). lia. }
  split; [done|]. assert (Hl : 0 <= copy_lba r' <= JOSH_BOOT_HEALTH_LBA_B).
  { destruct (copy_lba_cases r') as [-> | ->]; unfold JOSH_BOOT_HEALTH_LBA_A, JOSH_BOOT_HEALTH_LBA_B; lia. }
  apply (image_stands m _ sys r r' Hs); [|apply written_outside|done|].
  - unfold written. cbn [fst snd image_at]. f_equal. unfold JOSH_BOOT_HEALTH_LBA_B in *. lia.
  - rewrite stored_written by done. by rewrite Z.eqb_refl.
Qed.

Lemma life_step_follows m sys r e :
  bios_stands disk_bios m sys r -> hr_generation r + 3 < 2 ^ 64 -> event_ok e ->
  (exists out m', life_step m e out m') /\
  (forall out m', life_step m e out m' -> out = fst (life_effect sys e r) /\ bios_stands disk_bios m' sys (snd (life_effect sys e r))) /\
  hr_generation (snd (life_effect sys e r)) <= hr_generation r + 3.
Proof.
  intros Hs Hg He. destruct e as [|command extra].
  - pose proof (bios_loader disk_bios disk_writes_work) as HL. split_and!.
    + destruct (bios_boot_returns disk_bios m) as (out & m' & Hb). exists out, m'. by constructor.
    + intros out m' Hl. inversion Hl; subst. by apply (loader_steps m sys r).
    + by apply (step_generation (bios_boot disk_bios) (bios_stands disk_bios) sys m).
  - destruct He as [op Hop]. cbn [life_effect fst snd]. rewrite Hop.
    destruct (tool_step m sys r command extra op "josh-healthctl" "disk.img" Hs ltac:(lia) Hop)
      as (r' & w' & code & lines & Ha & Hle & Hmain & _).
    rewrite Ha. cbn [default from_option id]. split_and!; [by eexists None, _; econstructor| |lia].
    intros out m' Hl. inversion Hl as [|? program ? path ? code1 lines1 w1 Hrun]; subst. split; [done|].
    destruct (tool_step m sys r command extra op program path Hs ltac:(lia) Hop) as (r1 & w2 & code2 & lines2 & Ha1 & _ & Hmain1 & Hs1).
    rewrite Ha in Ha1. injection Ha1 as <-. rewrite Hrun in Hmain1. by injection Hmain1 as _ _ ->.
Qed.

Lemma life_follows sys es : forall m r,
  bios_stands disk_bios m sys r -> hr_generation r + 3 * zlen es < 2 ^ 64 -> Forall event_ok es ->
  (exists outs m', life_run m es outs m') /\
  (forall outs m', life_run m es outs m' -> outs = fst (life sys es r) /\ bios_stands disk_bios m' sys (snd (life sys es r))).
Proof.
  induction es as [|e es IH]; intros m r Hs Hg Hall.
  { split; [exists [], m; constructor|]. intros outs m' Hl. by inversion Hl; subst. }
  assert (Hz : zlen (e :: es) = zlen es + 1) by (unfold zlen; cbn [length]; lia). rewrite Hz in Hg.
  assert (0 <= zlen es) by (unfold zlen; lia). apply Forall_cons in Hall as [He Hall].
  destruct (life_step_follows m sys r e Hs ltac:(lia) He) as ((out & m1 & Hl1) & Hnext & Hle).
  cbn [life]. destruct (life_effect sys e r) as [o r1]. cbn [fst snd] in *. split.
  - destruct (Hnext _ _ Hl1) as [_ Hs1]. destruct (IH m1 r1 Hs1 ltac:(lia) Hall) as [(outs & m' & Hl) _].
    exists (out :: outs), m'. by econstructor.
  - intros outs m' Hl. inversion Hl as [|? ? out' m2 ? outs' m3 Hl2 Hl3]; subst. destruct (Hnext _ _ Hl2) as [-> Hs2].
    destruct (IH m2 r1 Hs2 ltac:(lia) Hall) as [_ Hres]. destruct (Hres _ _ Hl3) as [-> Hs']. by destruct (life sys es r1).
Qed.
End Disk.

(** ** An update *)

Lemma life_app sys es1 es2 : forall r, life sys (es1 ++ es2) r =
  let '(outs, r1) := life sys es1 r in let '(outs', r2) := life sys es2 r1 in (outs ++ outs', r2).
Proof.
  induction es1 as [|e es1 IH]; intros r; cbn [life app]; [by destruct (life sys es2 r)|].
  destruct (life_effect sys e r) as [o r1]. rewrite IH. destruct (life sys es1 r1) as [outs r2]. by destruct (life sys es2 r2).
Qed.

Lemma life_boots sys n : forall r, life sys (replicate n PowerOn) r = sys_boots sys n r.
Proof. induction n as [|n IH]; intros r; cbn [replicate life sys_boots life_effect]; [done|]. destruct (sys_step sys r). by rewrite IH. Qed.

(** The slot a boot goes back to when an update of [slot] is given up. *)
Definition back_slot (r : josh_boot_health_record_t) (slot : Z) : Z :=
  if hr_last_good_slot r =? slot then JOSH_BOOT_SLOT_RECOVERY else hr_last_good_slot r.

Lemma slot_commands name slot : parse_slot name = Some slot ->
  tool_op "pending" [name] = Some (BeginUpdate slot) /\ tool_op "good" [name] = Some (MarkGood slot).
Proof. intros Hp. unfold tool_op. rewrite Hp. by split. Qed.

Lemma pending_effect sys r name slot :
  josh_boot_health_valid (Some r) = true -> record_ok r -> parse_slot name = Some slot -> slot <> JOSH_BOOT_SLOT_RECOVERY ->
  exists r1, life_effect sys (RunTool "pending" [name]) r = (None, r1) /\
    josh_boot_health_valid (Some r1) = true /\ record_ok r1 /\ hr_pending_good r1 = 1 /\ hr_attempt_count r1 = 0 /\
    hr_selected_slot r1 = slot /\ rollback_slot r1 = back_slot r slot.
Proof.
  intros Hv Hr Hp Hne. pose proof (parse_slot_range name slot Hp) as Hrange.
  pose proof (proj1 (slot_commands name slot Hp)) as Hop.
  cbn [life_effect]. rewrite Hop. destruct (apply_op_some r (BeginUpdate slot)) as [r1 Ha].
  destruct (apply_op_healthy r _ r1 Hr Hv (tool_op_args _ _ _ Hop) Ha) as (Hr1 & Hv1 & _).
  rewrite Ha. exists r1. split; [done|]. split; [done|]. split; [done|].
  cbn [apply_op] in Ha. unfold josh_boot_health_begin_update in Ha. rewrite Hv in Ha.
  rewrite (proj2 (Z.eqb_neq slot JOSH_BOOT_SLOT_RECOVERY) Hne) in Ha.
  replace (slot_valid slot) with true in Ha by (unfold slot_valid, JOSH_BOOT_SLOT_RECOVERY; lia).
  cbn [negb orb snd] in Ha. injection Ha as <-. split_and!; try done. unfold rollback_slot, back_slot. cbn.
  by destruct (hr_last_good_slot r =? slot).
Qed.

Lemma good_effect sys r name slot :
  josh_boot_health_valid (Some r) = true -> record_ok r -> parse_slot name = Some slot ->
  exists r1, life_effect sys (RunTool "good" [name]) r = (None, r1) /\
    josh_boot_health_valid (Some r1) = true /\ hr_pending_good r1 = 0 /\ hr_selected_slot r1 = slot.
Proof.
  intros Hv Hr Hp. pose proof (parse_slot_range name slot Hp) as Hrange.
  pose proof (proj2 (slot_commands name slot Hp)) as Hop.
  cbn [life_effect]. rewrite Hop. destruct (apply_op_some r (MarkGood slot)) as [r1 Ha].
  destruct (apply_op_healthy r _ r1 Hr Hv (tool_op_args _ _ _ Hop) Ha) as (Hr1 & Hv1 & _).
  rewrite Ha. exists r1. split; [done|]. split; [done|].
  cbn [apply_op] in Ha. unfold josh_boot_health_mark_good in Ha. rewrite Hv in Ha.
  replace (slot_valid slot) with true in Ha by (unfold slot_valid, JOSH_BOOT_SLOT_RECOVERY; lia).
  cbn [negb orb snd] in Ha. by injection Ha as <-.
Qed.

Section Update.
Context (sys : system) (r : josh_boot_health_record_t) (name : string) (slot : Z) (new : list Z).
Context (Hv : josh_boot_health_valid (Some r) = true) (Hr : record_ok r).
Context (Hp : parse_slot name = Some slot) (Hne : slot <> JOSH_BOOT_SLOT_RECOVERY) (Hnew : sys_image sys slot = Some new).

Definition update_dropped (n : nat) : list event := RunTool "pending" [name] :: replicate (3 + S n) PowerOn.
Definition update_confirmed (k n : nat) : list event :=
  RunTool "pending" [name] :: replicate k PowerOn ++ RunTool "good" [name] :: replicate n PowerOn.

Lemma dropped_life old n : sys_image sys (back_slot r slot) = Some old ->
  fst (life sys (update_dropped n) r) = None :: replicate 3 (Some new) ++ replicate (S n) (Some old).
Proof.
  intros Hold. destruct (pending_effect sys r name slot Hv Hr Hp Hne) as (r1 & He & Hv1 & Hr1 & Hp1 & Ha1 & Hs1 & Hb1).
  unfold update_dropped. cbn [life]. rewrite He, life_boots. rewrite <- Hs1 in Hnew. rewrite <- Hb1 in Hold.
  destruct (trial_boots sys r1 new old 3 n Hv1 Hr1 Hp1 ltac:(rewrite Ha1; done) Hnew Hold) as (r' & -> & _). done.
Qed.

Lemma confirmed_life k n : (k <= 3)%nat ->
  fst (life sys (update_confirmed k n) r) = None :: replicate k (Some new) ++ None :: replicate n (Some new).
Proof.
  intros Hk. destruct (pending_effect sys r name slot Hv Hr Hp Hne) as (r1 & He & Hv1 & Hr1 & Hp1 & Ha1 & Hs1 & _).
  unfold update_confirmed. cbn [life]. rewrite He, life_app, life_boots.
  destruct (boots_within_trial k JOSH_BOOT_HEALTH_MAX_ATTEMPTS r1 Hv1 Hr1 Hp1) as (r2 & Hb & Hv2 & Hr2 & Hs2).
  { unfold in_u32, JOSH_BOOT_HEALTH_MAX_ATTEMPTS. lia. }
  { rewrite Ha1. unfold attempt_limit, JOSH_BOOT_HEALTH_MAX_ATTEMPTS. cbn. lia. }
  rewrite Hs1 in Hb. rewrite (sys_boots_usable sys k r1 _ r2 Hb) by (apply Forall_replicate; by exists new).
  destruct (good_effect sys r2 name slot Hv2 Hr2 Hp) as (r3 & He3 & Hv3 & Hp3 & Hs3). cbn [life]. rewrite He3, life_boots.
  rewrite (sys_boots_stable sys n r3 new Hv3 Hp3) by (by rewrite Hs3). by rewrite fmap_replicate, Hnew.
Qed.

Lemma dropped_events n : Forall event_ok (update_dropped n) /\ zlen (update_dropped n) = Z.of_nat n + 5.
Proof.
  split; [|unfold zlen, update_dropped; cbn [length]; rewrite length_replicate; lia].
  constructor; [exists (BeginUpdate slot); by apply slot_commands|by apply Forall_replicate].
Qed.

Lemma confirmed_events k n : Forall event_ok (update_confirmed k n) /\ zlen (update_confirmed k n) = Z.of_nat k + Z.of_nat n + 2.
Proof.
  split; [|unfold zlen, update_confirmed; cbn [length]; rewrite length_app; cbn [length]; rewrite !length_replicate; lia].
  constructor; [exists (BeginUpdate slot); by apply slot_commands|].
  apply Forall_app. split; [by apply Forall_replicate|].
  constructor; [exists (MarkGood slot); by apply slot_commands|by apply Forall_replicate].
Qed.
End Update.

(** ** An example disk: the default record, one kernel in the current and one in the previous slot *)
Definition sector_bytes (w : Z -> list Z) : mem := fun x => default 0 (w (x / 512) !! Z.to_nat (x mod 512)).

Lemma sector_bytes_sector size w lba :
  mem_slice (image_byte (size, sector_bytes w)) (512 * lba) 512 = sector_of (w lba).
Proof.
  unfold mem_slice, sector_of. apply list_eq. intros i. rewrite list_lookup_fmap.
  destruct (decide (i < 512)%nat) as [Hi|Hi].
  - rewrite (proj2 (lookup_seqZ _ _ _ _) (conj eq_refl (ltac:(lia) : Z.of_nat i < 512))). cbn [fmap option_fmap option_map].
    rewrite lookup_take_lt by done. unfold image_byte, sector_bytes. cbn [snd].
    assert (E1 : (512 * lba + Z.of_nat i) / 512 = lba) by (symmetry; apply (Z.div_unique _ _ _ (Z.of_nat i)); lia).
    assert (E2 : (512 * lba + Z.of_nat i) mod 512 = Z.of_nat i) by (symmetry; apply (Z.mod_unique _ _ lba); lia).
    rewrite E1, E2, Nat2Z.id. destruct (w lba !! i) as [x|] eqn:Ex; cbn [default from_option id].
    + rewrite lookup_app_l by (rewrite length_map; by eapply lookup_lt_Some). by rewrite list_lookup_fmap, Ex.
    + apply lookup_ge_None in Ex. rewrite lookup_app_r, lookup_replicate_2; rewrite ?length_map; try lia. done.
  - rewrite lookup_take_ge, (proj2 (lookup_ge_None (seqZ _ _) _)); [done| |lia]. rewrite length_seqZ. lia.
Qed.

Definition life_size : Z := 512 * 80000.

(** The sectors of [trial_disk] before the update. *)
Definition life_sectors : Z -> list Z := sparse (
  [(2080, put 8 (EOC ++ EOC ++ EOC ++ EOC ++ EOC ++ le_bytes 4 8 ++ EOC ++ le_bytes 4 10 ++ EOC) zero_sector);
   (2593, dirent "JOSH       " 0x10 4 0 ++ dirent "KERNEL  ELF" 0x20 9 1024 ++ dirent "OLD     ELF" 0x20 7 1024);
   (2599, take 512 second_image); (2600, drop 512 second_image)] ++ boot_disk_sectors).

Definition life_disk : mem := sector_bytes life_sectors.

Lemma life_read lba : 0 <= lba < 80000 -> lba <> 1985 ->
  read_sector (bios_device (disk_bios life_size) life_disk) lba = read_sector (bios_device steady_bios trial_disk) lba.
Proof.
  intros Hl Hne. rewrite !read_sector_bios by (apply _ || lia). unfold BIOS_DEVICE_SECTORS. rewrite (proj2 (Z.ltb_lt _ _)) by lia.
  cbn [bios_block_read disk_bios image_bios steady_bios fst]. unfold life_size. rewrite (proj2 (Z.leb_le _ _)) by lia.
  f_equal. change (512 * 1) with 512. unfold life_disk. rewrite sector_bytes_sector.
  rewrite (seqZ_cons lba 1) by lia. change (seqZ (Z.succ lba) (Z.pred 1)) with (@nil Z). cbn [map concat]. rewrite app_nil_r.
  f_equal. unfold trial_disk. cbn [app sparse]. by rewrite (proj2 (Z.eqb_neq lba 1985)) by done.
Qed.

(** The numbers of a mounted volume. *)
Definition fs_numbers (fs : josh_fat32_t) : list Z :=
  [fs_partition_lba fs; fs_partition_sectors fs; fs_fat_lba fs; fs_data_lba fs; fs_sectors_per_fat fs;
   fs_cluster_count fs; fs_root_cluster fs; fs_sectors_per_cluster fs; fs_fat_count fs].

Lemma fs_numbers_on fs fs' : fs_numbers fs = fs_numbers fs' -> fs = on_device fs' (fs_device fs).
Proof. destruct fs, fs'. unfold fs_numbers, on_device. cbn. by intros [= -> -> -> -> -> -> -> -> ->]. Qed.

Definition volume_numbers {W} (b : bios W) (w : W) : option (bool * list Z) :=
  option_map (fun '(safe, fs) => (safe, fs_numbers fs)) (boot_volume b w).

Lemma volume_numbers_volume {W} (b : bios W) w safe l :
  volume_numbers b w = Some (safe, l) -> exists fs, boot_volume b w = Some (safe, fs) /\ fs_numbers fs = l.
Proof. unfold volume_numbers. destruct (boot_volume b w) as [[sf fs]|]; [|done]. intros [= -> <-]. by exists fs. Qed.

Lemma life_disk_stands : bios_stands (disk_bios life_size) life_disk trial_system default_record.
Proof.
  split; [split; vm_compute; reflexivity|].
  assert (Ht : boot_volume steady_bios trial_disk = Some (true, volume_of trial_disk)).
  { assert (H : option_map fst (boot_volume steady_bios trial_disk) = Some true) by (vm_compute; reflexivity).
    unfold volume_of. destruct (boot_volume steady_bios trial_disk) as [[safe fs]|]; [|done]. by injection H as ->. }
  assert (H : volume_numbers (disk_bios life_size) life_disk = Some (true, fs_numbers (volume_of trial_disk))) by (vm_compute; reflexivity).
  destruct (volume_numbers_volume _ _ _ _ H) as (fs & E & Hn). apply fs_numbers_on in Hn.
  destruct (boot_volume_ok _ _ _ _ E) as (Hok & Hdev & _). destruct (boot_volume_ok _ _ _ _ Ht) as (Hok' & Hdev' & _).
  rewrite Hdev in Hn. rewrite Hn in Hok. exists fs. split; [done|].
  assert (Hfirst : fs_partition_lba (volume_of trial_disk) = 2048) by (vm_compute; reflexivity).
  assert (Hcount : fs_partition_sectors (volume_of trial_disk) = 70000) by (vm_compute; reflexivity).
  assert (Hsame : same_volume (volume_of trial_disk) (bios_device (disk_bios life_size) life_disk)).
  { intros lba Hl. rewrite Hdev'. apply life_read; rewrite Hfirst, Hcount in Hl; lia. }
  rewrite Hn. split; [rewrite (config_of_same steady_bios) by done; vm_compute; reflexivity|].
  intros slot. exact (kernel_image_same _ _ _ Hok' Hok Hsame (paths_ok_slot _ slot (config_ok_paths _ example_config_ok))).
Qed.

(** ** Properties *)

(** C6: The host tool and the loader keep one protocol. Take a disk image with both record sectors, a
    boot volume outside them and a record, and any sequence of boots and of tool commands that name a
    health operation (good or pending with a slot, attempt), with library calls that work and at
    most as many events as the 64-bit generation leaves room for (three for each). The sequence
    can be run, every boot starts the kernel that the record asks for after the events before
    it, the tool changes the record by the operation its command names (pending with the
    recovery slot, which the tool refuses, leaves it), and the volume and the kernels stay as
    installed: the image follows the abstract sequence [life] step by step. *)
Theorem lifecycle_follows_record (size : Z) (m : mem) (sys : system) (r : josh_boot_health_record_t) (es : list event) :
  512 * (JOSH_BOOT_HEALTH_LBA_B + 1) <= size -> bios_stands (disk_bios size) m sys r ->
  hr_generation r + 3 * zlen es < 2 ^ 64 -> Forall event_ok es ->
  (exists outs m', life_run size m es outs m') /\
  (forall outs m', life_run size m es outs m' ->
     outs = fst (life sys es r) /\ bios_stands (disk_bios size) m' sys (snd (life sys es r))).
Proof. intros Hsize Hs Hg Hall. by apply life_follows. Qed.

(** An attempt counted by the tool, a refused command and a confirmation between two boots. *)
Definition example_events : list event :=
  [PowerOn; RunTool "attempt" []; RunTool "pending" ["recovery"%string]; RunTool "good" ["previous"%string]; PowerOn].

Lemma lifecycle_follows_record_witness :
  exists outs m', life_run life_size life_disk example_events outs m' /\
    bios_stands (disk_bios life_size) m' trial_system (snd (life trial_system example_events default_record)).
Proof.
  destruct (lifecycle_follows_record life_size life_disk trial_system default_record example_events) as [(outs & m' & H) Hall].
  - vm_compute. discriminate.
  - exact life_disk_stands.
  - vm_compute. reflexivity.
  - repeat constructor; eexists; reflexivity.
  - exists outs, m'. split; [exact H|]. exact (proj2 (Hall outs m' H)).
Defined.

(** C5: An update from the command line to the kernels that run. Take a disk image with both record
    sectors, a boot volume outside them and a record. The command pending names the current
    or the previous slot, which has a valid kernel, and so has the slot to go back to: the last good
    one, or the recovery slot when the last good one is the slot under update. Then the next boots
    start the kernel under update. If good is given for it after at most three boots, every later boot
    starts it too. If it is not, three boots start it and every boot from the fourth on starts the
    kernel of the slot to go back to. Both sequences can be run; the tool's library calls
    work, and the generation of the record leaves room for the events. *)
Theorem update_is_kept_or_dropped (size : Z) (m : mem) (sys : system) (r : josh_boot_health_record_t)
    (name : string) (slot : Z) (new old : list Z) (k n : nat) :
  512 * (JOSH_BOOT_HEALTH_LBA_B + 1) <= size -> bios_stands (disk_bios size) m sys r ->
  hr_generation r + 3 * (Z.of_nat k + Z.of_nat n + 5) < 2 ^ 64 -> (k <= 3)%nat ->
  parse_slot name = Some slot -> slot <> JOSH_BOOT_SLOT_RECOVERY ->
  sys_image sys slot = Some new -> sys_image sys (back_slot r slot) = Some old ->
  ((exists outs m', life_run size m (update_confirmed name k n) outs m') /\
   forall outs m', life_run size m (update_confirmed name k n) outs m' ->
     outs = None :: replicate k (Some new) ++ None :: replicate n (Some new)) /\
  ((exists outs m', life_run size m (update_dropped name n) outs m') /\
   forall outs m', life_run size m (update_dropped name n) outs m' ->
     outs = None :: replicate 3 (Some new) ++ replicate (S n) (Some old)).
Proof.
  intros Hsize Hs Hg Hk Hp Hne Hnew Hold. destruct (loader_record _ _ _ (BootLoader := bios_loader (disk_bios size) (disk_writes_work size Hsize)) Hs) as [Hv Hr].
  destruct (confirmed_events name slot Hp k n) as [Hc Hzc]. destruct (dropped_events name slot Hp n) as [Hd Hzd].
  destruct (life_follows size Hsize sys _ m r Hs ltac:(rewrite Hzc; lia) Hc) as [Hec Hac].
  destruct (life_follows size Hsize sys _ m r Hs ltac:(rewrite Hzd; lia) Hd) as [Hed Had].
  split; (split; [done|]); intros outs m' Hl.
  - destruct (Hac outs m' Hl) as [-> _]. by apply (confirmed_life sys r name slot new).
  - destruct (Had outs m' Hl) as [-> _]. by apply (dropped_life sys r name slot new).
Qed.

Lemma update_is_kept_or_dropped_witness :
  exists outs m', life_run life_size life_disk (update_dropped "previous" 4) outs m' /\
    outs = None :: replicate 3 (Some example_image) ++ replicate 5 (Some second_image).
Proof.
  destruct (update_is_kept_or_dropped life_size life_disk trial_system default_record "previous" 1 example_image second_image 2 4)
    as [_ [(outs & m' & H) Hall]].
  - vm_compute. discriminate.
  - exact life_disk_stands.
  - vm_compute. reflexivity.
  - lia.
  - reflexivity.
  - discriminate.
  - exact (proj2 trial_images).
  - exact (proj1 trial_images).
  - exists outs, m'. split; [exact H|exact (Hall outs m' H)].
Defined.
